(* ===== verification/_CoqProject ===== *)
-Q . S2P
Prelude.v
CString.v
Modes.v
HashTable.v
MaskMatch.v
Output.v
World.v
Channel.v
Invariant.v
Policy.v
Tags.v
Numerics.v
Ircv3.v
Presence.v
Env.v
Cloak.v
Register.v
Connection.v
Services.v
Registry.v
RegistryProps.v
Sound.v
Flood.v
JoinPart.v
Oper.v
Accounts.v
NickServ.v
ChanDb.v
ChanServ.v
Cap.v
Message.v
MessageProps.v
Query.v
QueryProps.v
OperProps.v
ChanCmds.v
Mode.v
ModeProps.v
SaCmds.v
Dispatch.v
Loop.v
SaProps.v
Stability.v
Disconnects.v
NickServProps.v
AccountProps.v
CapProps.v
ChanServProps.v
Registrations.v
Authority.v
Soundness.v
LoopSound.v
LoopProps.v
Deadlines.v
Examples.v
