(* ===== verification/Prelude.v ===== *)
(** * ScratchIRCd: a verification development

    ScratchIRCd is a single-threaded IRC server in C: one [Server] owns the
    connections, the channels and the tables that index them; a poll loop accepts
    connections, reads lines, runs one command handler per line, and flushes output.
    This library translates the server's own logic into executable functions and proves
    what that logic guarantees.

    ** How the code is modelled

    Stateful C code becomes a state-passing function of type [M A = World → A * World]
    ([World.v]).  [World] is [struct Server] with a heap: pointers are numbers,
    [w_clients] and [w_channels] say what they point to, and a freed object has no entry.
    Linked lists are lists in the C order, fixed buffers are strings cut by [snprintf],
    [unsigned] arithmetic wraps where the code lets it, and formats are C format strings
    interpreted by [format].  A record has the fields the modelled code reads or writes.
    [time(NULL)] is [w_now]; [w_alloc] lists which of the next allocations fail; what a
    socket, TLS or the kernel answers is a list of results consumed in order.
    The output half of a client sits in [io_conns], and [io_log] is a ghost record of
    the lines handed to [client_send_line], used to state who is told what.

    Code outside [src/src] and the SQLite-backed services are interfaces: [Env]
    (OpenSSL, Argon2, address conversion with its round-trip law, resolver threads, the
    GeoIP file, ban databases), [Services] (ChanServ and the channel log as the channel
    commands use them; [ChanServProps.chanserv_services] implements the part of ChanServ
    by the translation of its code), [Recipients] (history and MemoServ) and [Handlers]
    (commands that are not modelled).  Theorems hold for every instance of an interface;
    [Examples.v] runs a small server with concrete instances.

    ** The files

    - [Prelude], [CString]: the monad, frame rules ([does R m]: every run of [m]
      relates its states by [R]), tactics; C strings and the C library functions used.
    - [Modes]: [modes.c].  [HashTable]: [hash.c].  [MaskMatch]: [irc_mask_match] of
      [channel_policy.c].  [Output]: the output queue, framing and labeled responses of
      [client.c].  [Tags]: the tag table of [ircv3.c].  [Cloak]: [cloak.c],
      [usermode_policy.c].  [Numerics]: the formats of [numerics.h] and [notices.h].
    - [World], [Channel], [Invariant]: the shared state, [channel.c] with
      [channel_policy.c], and [wf], the invariant that ties member lists, channel lists,
      tables and counters together.  [Policy]: [message_policy.c], [visibility.c].
      [Ircv3]: the rest of [ircv3.c].  [Presence]: [presence.c].
    - [Registry], [RegistryProps]: [server.c], connections: accepting, per-address
      limits, the id index, disconnecting.
    - [Register], [Connection]: registration ([commands/common.c], [nospoof.c], [motd.c])
      and the connection commands NICK, USER, PASS, PING, PONG, QUIT, AWAY, PMSTATS.
    - [Accounts], [NickServ]: [nickserv_db.c] as a table of rows, [nickserv.c] with the
      commands NICKSERV and IDENTIFY.  [Cap]: CAP, AUTHENTICATE and WEBIRC.
      [NickServProps], [AccountProps], [CapProps]: their theorems.
    - [ChanDb], [ChanServ]: [chanserv_db.c] and [chanserv_persist.c] as tables of rows,
      [chanserv.c] with the commands CHANSERV, CSINFO, CSSET and CSDROP.  [ChanServProps]:
      they keep what [Services] promises.  [Registrations]: who may change the tables.
    - [JoinPart], [ChanCmds], [Mode], [ModeProps]: JOIN, PART, NAMES; KICK, TOPIC, INVITE,
      KNOCK; MODE with its two policy layers, DEAF and MUTE.
    - [Flood]: the budgets of [commands/dispatch.c].  [Message], [MessageProps]:
      PRIVMSG, NOTICE and TAGMSG with [moderation_policy.c].
    - [Query], [QueryProps]: ISON, USERHOST, USERIP, LUSERS, LIST, WHO, WHOIS, WHOWAS,
      SILENCE, WATCH.  [Oper], [OperProps]: [oper.c], [auth_limit.h], OPER, KILL, WALLOPS,
      GLOBOPS, SNOTICE, SETHOST, SETIDENT, SETNAME, DIE, RESTART.  [SaCmds], [SaProps]:
      SAJOIN, SAPART, SAMODE.
    - [Dispatch], [Loop]: [irc.c] with the command table, and the event loop of
      [server.c], one turn for each return of [poll].
    - [Sound], [Stability], [Disconnects], [Authority], [Soundness], [LoopSound]: the
      invariant [sound] of the running server, kept by every command ([stable]) and so by
      the loop.  [LoopProps]: how input becomes lines.  [Deadlines]: maintenance.
    - [Env], [Services]: the interfaces.  [Examples]: a small server on which the
      theorems are instantiated.

    ** What the theorems show

    - The running server: it stays sound whatever is sent to it, serves every line once
      and in order, ends the connections that missed a deadline and only those, and its
      registry of connections describes exactly the live clients, of whom nothing is left
      after disconnecting (C1 to C5).
    - Who gets in: nicknames are unique, registration passes every gate, JOIN admits
      exactly whom the policy admits (C6 to C8).
    - Authority: the reach of MODE on channels and users, KICK's ranks, the permissions of
      operator commands, OPER's grants (C9 to C11, C19, C20); accounts: SASL, IDENTIFY,
      the recovery of nicknames, tokens sent by mail, WEBIRC's gateways (C14 to C18);
      channel registrations and their founders (C40).
    - Delivery and privacy: who receives a message, that NOTICE answers nothing, that
      queries tell nothing private, that flood budgets bound what is executed (C12, C13,
      C21 to C23, C37).
    - Output: no byte of the queue is lost or reordered, lines are framed, labeled
      responses follow the protocol (C24 to C27).
    - Data structures and protocol text: the hash table refines a finite map, the wildcard
      matcher decides the glob relation, the tag table, WHOWAS, capabilities, NAMES
      replies, topics, boolean modes, permissions as text (C28 to C36, C38, C39).
    The doc comment of each numbered theorem states it in full.  Invariants of the running
    server ([sound]) are conditional on two things: no allocation fails ([plenty] is part
    of [sound]), and the handlers outside the model are stable themselves (the law
    [other_stable] of [Handlers]).  The output queue and the hash table are proved for
    every pattern of failing allocations.

    ** Fuel and bounds

    Loops that are not structural take fuel: the mask matcher (text times mask length),
    the output loops (queue length), [leave_all] (the length of the channel list, which
    every round shortens), JOIN's redirects ([IRC_JOIN_REDIRECT_MAX], as in the code),
    the lines served from one client's buffer ([line_loop], the per-client budget of the
    code), and the loops over the client array that may remove the client they are at
    (drain, expiry, liveness: as many rounds as there are clients).  The lemmas of each
    loop show that the fuel given suffices; C3 does for maintenance.

    ** Not modelled

    The SQLite layers other than accounts and channel registrations ([ban_db],
    [geoban_db], [operator_db], [history_db], [memoserv_db], [channel_log]): a few SQL
    statements around little logic, whose results the interfaces give; of the operator
    database only the times of the last OPERs are kept.  The commands that edit them
    (KLINE, ZLINE, GEOBAN, the administration of operators, NickServ and MemoServ, REHASH)
    and those that print fixed texts (ADMIN, INFO, LINKS, STATS, TIME, VERSION, RULES,
    FLASH, CHATHISTORY) are entries of [Handlers].  MemoServ's own commands, the resolver
    threads ([dns], [dnsbl], [geoip]), mail, TLS set-up, configuration parsing
    and the start-up code are left out: input, output or third-party calls around little
    logic. *)

From stdpp Require Export base tactics list numbers strings pretty gmap.
From Stdlib Require Export Ascii NArith ZArith Lia.

#[global] Open Scope string_scope.
#[global] Open Scope list_scope.
#[global] Open Scope nat_scope.

(** ** C strings *)

(** A C string is the list of its bytes before the terminating NUL. *)
Abbreviation cstr := (list ascii).

Definition lit (s : string) : cstr := String.list_ascii_of_string s.
Coercion lit : String.string >-> list.

Abbreviation NUL := (Ascii.zero).

(** ** State-passing computations

    Handlers mutate one shared store, so they are functions from the store to a
    result and the store they leave behind. *)

Definition ST (S A : Type) : Type := S → A * S.

#[export] Instance ST_ret {S} : MRet (ST S) := λ A a s, (a, s).
#[export] Instance ST_bind {S} : MBind (ST S) :=
  λ A B f m s, let '(a, s') := m s in f a s'.

Definition gets {S A} (f : S → A) : ST S A := λ s, (f s, s).
Definition modify {S} (f : S → S) : ST S unit := λ s, (tt, f s).

Fixpoint for_each {S A} (l : list A) (f : A → ST S unit) : ST S unit :=
  match l with
  | [] => mret tt
  | x :: l' => f x ;; for_each l' f
  end.

(** [when b m] is the C statement [if (b) m;]. *)
Definition when {S} (b : bool) (m : ST S unit) : ST S unit :=
  if b then m else mret tt.

(** Running one step of a computation. *)
Lemma run_bind {S A B} (m : ST S A) (f : A → ST S B) s :
  (m ≫= f) s = let '(a, s') := m s in f a s'.
Proof. reflexivity. Qed.
Lemma run_gets {S A B} (g : S → A) (f : A → ST S B) s : (gets g ≫= f) s = f (g s) s.
Proof. reflexivity. Qed.
Lemma run_modify {S A} (g : S → S) (f : unit → ST S A) s : (modify g ≫= f) s = f tt (g s).
Proof. reflexivity. Qed.
Lemma run_ret {S A B} (a : A) (f : A → ST S B) s : (mret a ≫= f) s = f a s.
Proof. reflexivity. Qed.

(** ** What a computation does to the store

    [does R m]: every run of [m] relates the store before to the store after by
    [R].  With [R] a preorder the rules below follow the syntax of a handler, so
    one hint database decides most frame conditions and invariants. *)

Definition does {S A} (R : relation S) (m : ST S A) : Prop := ∀ s, R s (m s).2.

Section Does.
Context {S : Type} (R : relation S) `{!PreOrder R}.

Lemma does_ret {A} (a : A) : does R (mret a).
Proof. intros s. simpl. reflexivity. Qed.

Lemma does_bind {A B} (m : ST S A) (f : A → ST S B) :
  does R m → (∀ a, does R (f a)) → does R (m ≫= f).
Proof.
  intros Hm Hf s. unfold mbind, ST_bind.
  specialize (Hm s). destruct (m s) as [a s']. simpl in *.
  etrans; [exact Hm | apply Hf].
Qed.

Lemma does_gets {A} (f : S → A) : does R (gets f).
Proof. intros s. simpl. reflexivity. Qed.

Lemma does_gets_bind {A B} (f : S → A) (k : A → ST S B) :
  (∀ s, R s (k (f s) s).2) → does R (gets f ≫= k).
Proof. intros H s. exact (H s). Qed.

Lemma does_for_each {A} (l : list A) (f : A → ST S unit) :
  (∀ a, does R (f a)) → does R (for_each l f).
Proof.
  intros Hf. induction l as [|x l IH]; simpl; [apply does_ret |].
  apply does_bind; [apply Hf | intros _; exact IH].
Qed.

Lemma does_when b m : does R m → does R (when b m).
Proof. destruct b; simpl; [done | intros _; apply does_ret]. Qed.
End Does.

(** [returns a m]: every run of [m] ends with the result [a]. *)
Definition returns {S A} (a : A) (m : ST S A) : Prop := ∀ s, (m s).1 = a.

Lemma returns_ret {S A} (a : A) : returns a (mret a : ST S A).
Proof. intros s. reflexivity. Qed.

Lemma returns_bind {S A B} (b : B) (m : ST S A) (f : A → ST S B) :
  (∀ a, returns b (f a)) → returns b (m ≫= f).
Proof. intros Hf s. unfold mbind, ST_bind. destruct (m s) as [a s']. apply Hf. Qed.

Lemma does_weaken {S A} (R R' : relation S) (m : ST S A) :
  (∀ s s', R s s' → R' s s') → does R m → does R' m.
Proof. intros HR Hm s. apply HR, Hm. Qed.

(** ** Shared tactics *)

Create HintDb irc.
Create HintDb frame discriminated.
#[export] Hint Constants Opaque : frame.

#[export] Hint Resolve returns_ret returns_bind : irc.
#[export] Hint Resolve does_ret does_gets does_when : frame.

(** [bool_solve] turns boolean tests in hypotheses and goal into propositions. *)
Ltac bools :=
  repeat match goal with
  | H : _ && _ = true |- _ => apply andb_prop in H as [? ?]
  | H : _ || _ = false |- _ => apply orb_false_elim in H as [? ?]
  | H : negb _ = true |- _ => apply negb_true_iff in H
  | H : negb _ = false |- _ => apply negb_false_iff in H
  | H : bool_decide _ = true |- _ => apply bool_decide_eq_true_1 in H
  | H : bool_decide _ = false |- _ => apply bool_decide_eq_false_1 in H
  | H : (_ <? _)%nat = true |- _ => apply Nat.ltb_lt in H
  | H : (_ <? _)%nat = false |- _ => apply Nat.ltb_ge in H
  | H : (_ <=? _)%nat = true |- _ => apply Nat.leb_le in H
  | H : (_ <=? _)%nat = false |- _ => apply Nat.leb_gt in H
  | H : (_ =? _)%nat = true |- _ => apply Nat.eqb_eq in H
  | H : (_ =? _)%nat = false |- _ => apply Nat.eqb_neq in H
  | H : (_ <? _)%Z = true |- _ => apply Z.ltb_lt in H
  | H : (_ <? _)%Z = false |- _ => apply Z.ltb_ge in H
  | H : (_ <=? _)%Z = true |- _ => apply Z.leb_le in H
  | H : (_ <=? _)%Z = false |- _ => apply Z.leb_gt in H
  | H : (_ =? _)%Z = true |- _ => apply Z.eqb_eq in H
  | H : (_ =? _)%Z = false |- _ => apply Z.eqb_neq in H
  end.

(** Case analysis on the condition of the first [if] of the goal. *)
Ltac case_if :=
  match goal with
  | |- context [if ?b then _ else _] => destruct b eqn:?
  end.

(** Evaluates decisions about closed terms. *)
Ltac eval_decide :=
  repeat match goal with
  | |- context [bool_decide ?P] =>
      let b := eval vm_compute in (bool_decide P) in
      match b with true => idtac | false => idtac end; change (bool_decide P) with b
  end.

(** Refutes a request that the branch of the handler under proof has excluded. *)
Ltac not_requested :=
  intros ?; repeat match goal with
  | H : ∃ _, _ |- _ => destruct H as [? H]
  | H : _ ∧ _ |- _ => destruct H as [? H]
  end; simplify_eq/=;
  repeat match goal with H1 : ?t = _, H2 : ?t = _ |- _ => rewrite H1 in H2; simplify_eq/= end;
  try congruence.

(** Body of the setter of one record field: [eta] rebuilds the record from its
    projections, and the occurrence of [proj r] in it is replaced by [v]. *)
Ltac field_update eta proj v r :=
  let t := eval unfold eta in (eta r) in
  let t := eval pattern (proj r) in t in
  match t with ?E _ => let u := eval cbv beta in (E v) in exact u end.

(** ** Generic lemmas *)

Section Lists.
Context {A : Type}.

(** Length of a truncation: [snprintf] into a buffer of [n + 1] bytes. *)
Lemma length_take_le n (l : list A) : length (take n l) ≤ n.
Proof. rewrite length_take. lia. Qed.

Lemma take_id n (l : list A) : length l ≤ n → take n l = l.
Proof. intros. by apply take_ge. Qed.

(** Of two suffixes of one list, the shorter is a suffix of the longer. *)
Lemma suffix_le_suffix (u v w : list A) :
  u `suffix_of` w → v `suffix_of` w → length u ≤ length v → u `suffix_of` v.
Proof.
  intros [a Ha] [b Hb] Hle. subst w.
  assert (length a + length u = length b + length v) as Hlen
    by (rewrite <-!length_app; by rewrite Hb).
  exists (drop (length b) a).
  assert (v = drop (length b) (a ++ u)) as ->.
  { rewrite Hb. by rewrite drop_app_length. }
  rewrite drop_app_le by lia. done.
Qed.
End Lists.
