(* ===== verification/CString.v ===== *)
(** * The C library functions the server's sources call on strings

    ISO C / POSIX behaviour of the [<string.h>], [<strings.h>], [<ctype.h>],
    [<stdlib.h>] and [<stdio.h>] functions used by the sources, in the C locale.
    A string is the list of its bytes before the terminating NUL, so reading the
    first byte of the empty string gives [NUL]. *)

From S2P Require Import Prelude.

(** ** Bytes *)

Definition byte (c : ascii) : N := N_of_ascii c.

(** [in_range lo hi c]: the C test [c >= lo && c <= hi] on unsigned bytes. *)
Definition in_range (lo hi : ascii) (c : ascii) : bool :=
  (byte lo <=? byte c)%N && (byte c <=? byte hi)%N.

Definition isdigit (c : ascii) : bool := in_range "0" "9" c.
Definition isupper (c : ascii) : bool := in_range "A" "Z" c.
Definition islower (c : ascii) : bool := in_range "a" "z" c.
Definition isalpha (c : ascii) : bool := isupper c || islower c.
Definition isalnum (c : ascii) : bool := isalpha c || isdigit c.
Definition isxdigit (c : ascii) : bool :=
  isdigit c || in_range "a" "f" c || in_range "A" "F" c.
Definition isspace (c : ascii) : bool :=
  Ascii.eqb c " " || ((9 <=? byte c)%N && (byte c <=? 13)%N).

Definition tolower (c : ascii) : ascii :=
  if isupper c then ascii_of_N (byte c + 32) else c.

Definition CR : ascii := ascii_of_N 13.
Definition LF : ascii := ascii_of_N 10.

(** ** Reading strings *)

(** [s[0]]. *)
Definition char0 (s : cstr) : ascii := match s with [] => NUL | c :: _ => c end.

Definition empty (s : cstr) : bool := match s with [] => true | _ => false end.

Definition streq (s t : cstr) : bool := bool_decide (s = t).

(** [memchr(s, c, strlen(s)) != NULL]. *)
Definition has_char (c : ascii) (s : cstr) : bool := existsb (Ascii.eqb c) s.

(** [strchr(s, c) != NULL]: searching for NUL finds the terminator. *)
Definition strchr (s : cstr) (c : ascii) : bool := Ascii.eqb c NUL || has_char c s.

(** The part of [s] before and from the first byte satisfying [p]. *)
Fixpoint span (p : ascii → bool) (s : cstr) : cstr * cstr :=
  match s with
  | [] => ([], [])
  | c :: s' => if p c then ([], s) else let '(a, b) := span p s' in (c :: a, b)
  end.

Fixpoint drop_while (p : ascii → bool) (s : cstr) : cstr :=
  match s with
  | [] => []
  | c :: s' => if p c then drop_while p s' else s
  end.

(** [strcasecmp(s, t) == 0]. *)
Definition strcaseeq (s t : cstr) : bool := streq (map tolower s) (map tolower t).

(** One call of [strtok] (or [strtok_r]) on the text still to be scanned: the
    token, if there is one, and what is left for the next call. *)
Definition strtok (delims : cstr) (s : cstr) : option cstr * cstr :=
  match drop_while (λ c, has_char c delims) s with
  | [] => (None, [])
  | s' => let '(tok, r) := span (λ c, has_char c delims) s' in (Some tok, tail r)
  end.

(** [strtok(NULL, "")]: everything left, or NULL when nothing is. *)
Definition strtok_rest (s : cstr) : option cstr := match s with [] => None | _ => Some s end.

(** Every token of [s]: the loop [for (t = strtok(s, d); t; t = strtok(NULL, d))].
    Each round consumes a byte at least, so [length s] rounds are enough. *)
Fixpoint tokens_fuel (n : nat) (delims s : cstr) : list cstr :=
  match n with
  | 0 => []
  | S n' =>
      match strtok delims s with
      | (None, _) => []
      | (Some tok, rest) => tok :: tokens_fuel n' delims rest
      end
  end.
Definition tokens (delims s : cstr) : list cstr := tokens_fuel (S (length s)) delims s.

(** ** Numbers *)

Definition ULONG_MAX : Z := 2 ^ 64 - 1.

Fixpoint digits_value (acc : Z) (s : cstr) : Z * cstr :=
  match s with
  | [] => (acc, [])
  | c :: s' =>
      if isdigit c then digits_value (acc * 10 + (Z.of_N (byte c) - 48)) s'
      else (acc, s)
  end.

(** [strtoul(s, &end, 10)]: (value, [errno == ERANGE], [end == s], [end]). *)
Definition strtoul (s : cstr) : Z * bool * bool * cstr :=
  let t := drop_while isspace s in
  let '(neg, u) := match t with
                   | c :: t' => if Ascii.eqb c "-" then (true, t')
                                else if Ascii.eqb c "+" then (false, t')
                                else (false, t)
                   | [] => (false, [])
                   end in
  if negb (isdigit (char0 u)) then (0%Z, false, true, s)
  else
    let '(v, e) := digits_value 0 u in
    if (ULONG_MAX <? v)%Z then (ULONG_MAX, true, false, e)
    else ((if neg : bool then (- v) mod 2 ^ 64 else v)%Z, false, false, e).

(** Decimal text of a number: [%u], [%zu], [%lu], [%ld], [%lld], [%llu]. *)
Definition dec_nat (n : nat) : cstr := pretty n.
Definition dec (z : Z) : cstr := pretty z.

(** The cast [(int)] of a wider integer. *)
Definition to_int (z : Z) : Z := ((z + 2 ^ 31) mod 2 ^ 32 - 2 ^ 31)%Z.

Definition hex_digit (upper : bool) (d : N) : ascii :=
  if (d <? 10)%N then ascii_of_N (48 + d)
  else ascii_of_N ((if upper then 55 else 87) + d).

(** [n] hexadecimal digits of [v], most significant first: [%08X], [%02x]. *)
Fixpoint hex_fixed (upper : bool) (n : nat) (v : N) : cstr :=
  match n with
  | 0 => []
  | S n' => hex_fixed upper n' (v / 16) ++ [hex_digit upper (v mod 16)]
  end.

(** [%llx]: no leading zeros. *)
Definition hex (v : N) : cstr :=
  match drop_while (Ascii.eqb "0") (hex_fixed false 16 v) with
  | [] => "0"
  | s => s
  end.

(** ** Formatted output *)

(** [snprintf] into a buffer of [size] bytes keeps [size - 1] bytes. *)
Definition snprintf (size : nat) (s : cstr) : cstr := take (size - 1) s.

Definition is_conversion (c : ascii) : bool :=
  Ascii.eqb c "s" || Ascii.eqb c "c" || Ascii.eqb c "d" || Ascii.eqb c "u" ||
  Ascii.eqb c "X" || Ascii.eqb c "x".

(** The text a format string produces from its already converted arguments; a
    [%.*s] argument is given as the prefix it selects. *)
Fixpoint format_go (in_spec : bool) (f : cstr) (args : list cstr) : cstr :=
  match f with
  | [] => []
  | c :: f' =>
      if in_spec then
        if Ascii.eqb c "%" then c :: format_go false f' args
        else if is_conversion c then hd [] args ++ format_go false f' (tl args)
        else format_go true f' args
      else if Ascii.eqb c "%" then format_go true f' args
      else c :: format_go false f' args
  end.
Definition format (f : cstr) (args : list cstr) : cstr := format_go false f args.

(** ** Lemmas *)

Lemma streq_true s t : streq s t = true ↔ s = t.
Proof. apply bool_decide_eq_true. Qed.

Lemma streq_refl s : streq s s = true.
Proof. by apply streq_true. Qed.

Lemma has_char_elem c s : has_char c s = true ↔ c ∈ s.
Proof.
  unfold has_char. rewrite existsb_exists. split.
  - intros (x & Hx & ->%Ascii.eqb_eq). by apply list_elem_of_In.
  - intros H. exists c. split; [by apply list_elem_of_In | apply Ascii.eqb_refl].
Qed.

Lemma has_char_false c s : has_char c s = false ↔ c ∉ s.
Proof. rewrite <-has_char_elem. by destruct (has_char c s). Qed.

Lemma has_char_app c s t : has_char c (s ++ t) = has_char c s || has_char c t.
Proof. apply existsb_app. Qed.

Lemma span_app p s a b : span p s = (a, b) → s = a ++ b.
Proof.
  revert a b. induction s as [|c s IH]; intros a b; simpl; [by intros [= <- <-]|].
  destruct (p c); [by intros [= <- <-]|].
  destruct (span p s) as [a' b'] eqn:E. intros [= <- <-]. simpl. by erewrite IH.
Qed.

Lemma span_before p s : Forall (λ c, p c = false) (span p s).1.
Proof.
  induction s as [|c s IH]; simpl; [constructor|].
  destruct (p c) eqn:E; [constructor|]. destruct (span p s). simpl in *. by constructor.
Qed.

Lemma span_after p s : ∀ c s', (span p s).2 = c :: s' → p c = true.
Proof.
  induction s as [|d s IH]; simpl; [done|]. intros c s'.
  destruct (p d) eqn:E; simpl; [by intros [= <- <-]|].
  destruct (span p s) as [a b]. simpl in *. apply IH.
Qed.

(** Splitting at a separator undoes joining with it. *)
Lemma span_sep p a c b :
  Forall (λ x, p x = false) a → p c = true → span p (a ++ c :: b) = (a, c :: b).
Proof.
  intros Ha Hc. induction Ha as [|x a Hx Ha IH]; simpl; [by rewrite Hc|].
  by rewrite Hx, IH.
Qed.

Lemma span_all p a : Forall (λ x, p x = false) a → span p a = (a, []).
Proof. induction 1 as [|x a Hx Ha IH]; simpl; [done|]. by rewrite Hx, IH. Qed.

Lemma drop_while_suffix p s : drop_while p s `suffix_of` s.
Proof.
  induction s as [|c s IH]; simpl; [done|].
  destruct (p c); [by apply suffix_cons_r | done].
Qed.

Lemma drop_while_head p s c s' : drop_while p s = c :: s' → p c = false.
Proof.
  induction s as [|d s IH]; simpl; [done|]. destruct (p d) eqn:E; [apply IH|].
  by intros [= <- <-].
Qed.

Lemma drop_while_id p s : (∀ c s', s = c :: s' → p c = false) → drop_while p s = s.
Proof. destruct s as [|c s]; simpl; [done|]. intros H. by rewrite (H c s eq_refl). Qed.

(** A token is not empty, holds no delimiter, and is followed by a strictly
    shorter rest. *)
Lemma strtok_Some delims s tok rest :
  strtok delims s = (Some tok, rest) →
  tok ≠ [] ∧ (∀ c, c ∈ tok → c ∉ delims) ∧ length tok + length rest ≤ length s ∧
  length rest < length s.
Proof.
  unfold strtok. destruct (drop_while _ s) as [|c u] eqn:E; [done|].
  pose proof (drop_while_suffix (λ c, has_char c delims) s) as Hs. rewrite E in Hs.
  apply drop_while_head in E.
  destruct (span _ (c :: u)) as [a b] eqn:E2. intros [= <- <-].
  pose proof (span_app _ _ _ _ E2) as Happ.
  pose proof (span_before (λ c, has_char c delims) (c :: u)) as Hb. rewrite E2 in Hb.
  simpl in Hb. simpl in E2. rewrite E in E2.
  destruct (span _ u) as [a' b'] eqn:E3. injection E2 as <- <-.
  split; [done|]. split.
  - intros x Hx. apply has_char_false. rewrite Forall_forall in Hb. by apply Hb.
  - apply suffix_length in Hs. rewrite Happ in Hs. rewrite length_app in Hs.
    simpl in *. destruct b'; simpl in *; lia.
Qed.

Lemma snprintf_id n s : length s < n → snprintf n s = s.
Proof. intros. unfold snprintf. apply take_ge. lia. Qed.

Lemma snprintf_length n s : 0 < n → length (snprintf n s) < n.
Proof. intros. unfold snprintf. rewrite length_take. lia. Qed.

(** The first token of a text that starts with one. *)
Lemma strtok_start delims t r :
  t ≠ [] → (∀ c, c ∈ t → c ∉ delims) → (∀ c r', r = c :: r' → c ∈ delims) → strtok delims (t ++ r) = (Some t, tail r).
Proof.
  intros Hne Ht Hr. unfold strtok.
  assert (Forall (λ c, has_char c delims = false) t) as Hf.
  { apply Forall_forall. intros c Hc. apply has_char_false. by apply Ht. }
  rewrite drop_while_id.
  - destruct (t ++ r) eqn:E; [by destruct t|]. rewrite <-E. destruct r as [|c r].
    + by rewrite app_nil_r, span_all.
    + rewrite span_sep; [done..|]. apply has_char_elem. by eapply Hr.
  - intros c s' Hc. destruct t as [|x t]; [done|]. injection Hc as -> _. by inversion Hf.
Qed.
Lemma strtok_space t r : t ≠ [] → " "%char ∉ t → strtok " " (t ++ " "%char :: r) = (Some t, r).
Proof. intros. rewrite strtok_start; set_solver. Qed.
Lemma strtok_word t : t ≠ [] → " "%char ∉ t → strtok " " t = (Some t, []).
Proof. intros. pose proof (strtok_start " " t []) as H1. rewrite app_nil_r in H1. apply H1; set_solver. Qed.
(** A token is part of the text. *)
Lemma strtok_elem delims s tok rest : strtok delims s = (Some tok, rest) → (∀ c, c ∈ tok → c ∈ s) ∧ (∀ c, c ∈ rest → c ∈ s).
Proof.
  unfold strtok. destruct (drop_while _ s) as [|c u] eqn:E; [done|].
  pose proof (drop_while_suffix (λ c, has_char c delims) s) as [k Hs]. rewrite E in Hs.
  destruct (span _ (c :: u)) as [a b] eqn:E2. intros [= <- <-]. apply span_app in E2.
  rewrite Hs, E2. split; intros x Hx; [set_solver|]. destruct b; set_solver.
Qed.
