(* ===== verification/Modes.v ===== *)
(** * Mode and privilege bitsets ([include/modes.h], [src/modes.c])

    User and channel mode sets are 64-bit words, channel privilege sets are
    32-bit words; C's [~] is the complement at that width. *)

From S2P Require Import Prelude CString.

(** [UINT64_C(1) << n]. *)
Definition bit (n : N) : N := N.shiftl 1 n.

(** [~m] for a word of [w] bits. *)
Definition cnot (w m : N) : N := N.lxor (N.ones w) (m mod 2 ^ w).

Abbreviation ClientModeSet := N.
Abbreviation ChannelModeSet := N.
Abbreviation ChannelPrivilegeSet := N.

Definition CLIENT_MODE_BOT := bit 0.
Definition CLIENT_MODE_DEAF := bit 1.
Definition CLIENT_MODE_GLOBALS := bit 2.
Definition CLIENT_MODE_HIDE_OPER := bit 3.
Definition CLIENT_MODE_HELPOP := bit 4.
Definition CLIENT_MODE_HIDE_IDLE := bit 5.
Definition CLIENT_MODE_INVISIBLE := bit 6.
Definition CLIENT_MODE_NETADMIN := bit 7.
Definition CLIENT_MODE_OPER := bit 8.
Definition CLIENT_MODE_PRIVATE := bit 9.
Definition CLIENT_MODE_REGONLY_MSG := bit 10.
Definition CLIENT_MODE_REGISTERED := bit 11.
Definition CLIENT_MODE_SERVICE := bit 12.
Definition CLIENT_MODE_SERVER_NOTICES := bit 13.
Definition CLIENT_MODE_NO_CTCP := bit 14.
Definition CLIENT_MODE_VHOST := bit 15.
Definition CLIENT_MODE_WEBIRC := bit 16.
Definition CLIENT_MODE_WHOIS_NOTICE := bit 17.
Definition CLIENT_MODE_WALLOPS := bit 18.
Definition CLIENT_MODE_CLOAKED := bit 19.
Definition CLIENT_MODE_SECURE := bit 20.
Definition CLIENT_MODE_PRIVATE_DEAF := bit 21.
Definition CLIENT_MODE_CHANNEL_MUTE := bit 22.

Definition CHANNEL_MODE_ADMIN_ONLY := bit 0.
Definition CHANNEL_MODE_NO_COLOR := bit 1.
Definition CHANNEL_MODE_INVITE_ONLY := bit 2.
Definition CHANNEL_MODE_NO_KNOCK := bit 3.
Definition CHANNEL_MODE_REGONLY_SPEAK := bit 4.
Definition CHANNEL_MODE_MODERATED := bit 5.
Definition CHANNEL_MODE_NO_EXTERNAL := bit 6.
Definition CHANNEL_MODE_OPER_ONLY := bit 7.
Definition CHANNEL_MODE_PRIVATE := bit 8.
Definition CHANNEL_MODE_REGISTERED := bit 9.
Definition CHANNEL_MODE_REGONLY_JOIN := bit 10.
Definition CHANNEL_MODE_STRIP_COLOR := bit 11.
Definition CHANNEL_MODE_SECRET := bit 12.
Definition CHANNEL_MODE_TOPIC_LOCK := bit 13.
Definition CHANNEL_MODE_NO_NOTICE := bit 14.
Definition CHANNEL_MODE_NO_INVITE := bit 15.
Definition CHANNEL_MODE_SECURE_ONLY := bit 16.

Definition CHANNEL_PRIV_VOICE := bit 0.
Definition CHANNEL_PRIV_HALFOP := bit 1.
Definition CHANNEL_PRIV_OPERATOR := bit 2.
Definition CHANNEL_PRIV_OWNER := bit 3.
Definition CHANNEL_PRIV_PROTECTED := bit 4.

(** ** Operations *)

Definition client_mode_has (modes mask : ClientModeSet) : bool :=
  negb (N.land modes mask =? 0)%N.
Definition client_mode_add (modes mask : ClientModeSet) : ClientModeSet := N.lor modes mask.
Definition client_mode_remove (modes mask : ClientModeSet) : ClientModeSet :=
  N.land modes (cnot 64 mask).
Definition channel_mode_has (modes mask : ChannelModeSet) : bool :=
  negb (N.land modes mask =? 0)%N.
Definition channel_mode_add (modes mask : ChannelModeSet) : ChannelModeSet := N.lor modes mask.
Definition channel_mode_remove (modes mask : ChannelModeSet) : ChannelModeSet :=
  N.land modes (cnot 64 mask).
Definition channel_privilege_has (privileges mask : ChannelPrivilegeSet) : bool :=
  negb (N.land privileges mask =? 0)%N.

(** The prefix character shown for a member, [NUL] for none. *)
Definition channel_privilege_prefix (privileges : ChannelPrivilegeSet) : ascii :=
  if channel_privilege_has privileges CHANNEL_PRIV_OWNER then "~"
  else if channel_privilege_has privileges CHANNEL_PRIV_PROTECTED then "&"
  else if channel_privilege_has privileges CHANNEL_PRIV_OPERATOR then "@"
  else if channel_privilege_has privileges CHANNEL_PRIV_HALFOP then "%"
  else if channel_privilege_has privileges CHANNEL_PRIV_VOICE then "+"
  else NUL.

(** One [APPEND_PRIV(bit, letter)] on the text written so far. *)
Definition append_priv (privileges : ChannelPrivilegeSet) (buffer_size : nat)
    (b : N) (letter : ascii) (buffer : cstr) : cstr :=
  if channel_privilege_has privileges b && (length buffer + 1 <? buffer_size)
  then buffer ++ [letter] else buffer.

(** The text left in [buffer]; the return value is its length. *)
Definition channel_privilege_format (privileges : ChannelPrivilegeSet)
    (buffer_size : nat) : cstr :=
  if buffer_size =? 0 then [] else
  append_priv privileges buffer_size CHANNEL_PRIV_VOICE "v"
  (append_priv privileges buffer_size CHANNEL_PRIV_HALFOP "h"
  (append_priv privileges buffer_size CHANNEL_PRIV_OPERATOR "o"
  (append_priv privileges buffer_size CHANNEL_PRIV_PROTECTED "a"
  (append_priv privileges buffer_size CHANNEL_PRIV_OWNER "q" [])))).

Definition channel_privilege_rank (privileges : ChannelPrivilegeSet) : nat :=
  if channel_privilege_has privileges CHANNEL_PRIV_OWNER then 5
  else if channel_privilege_has privileges CHANNEL_PRIV_PROTECTED then 4
  else if channel_privilege_has privileges CHANNEL_PRIV_OPERATOR then 3
  else if channel_privilege_has privileges CHANNEL_PRIV_HALFOP then 2
  else if channel_privilege_has privileges CHANNEL_PRIV_VOICE then 1
  else 0.

(** ** Bit-level lemmas

    All set tests reduce to [N.testbit]. *)

Lemma testbit_cnot w m i :
  N.testbit (cnot w m) i = bool_decide (i < w)%N && negb (N.testbit m i).
Proof.
  unfold cnot. rewrite N.lxor_spec.
  destruct (decide (i < w)%N) as [Hi|Hi].
  - rewrite N.ones_spec_low, N.mod_pow2_bits_low by lia.
    rewrite bool_decide_true by done. by destruct (N.testbit m i).
  - rewrite N.ones_spec_high, N.mod_pow2_bits_high by lia.
    by rewrite bool_decide_false.
Qed.

Lemma testbit_bit n i : N.testbit (bit n) i = bool_decide (i = n).
Proof.
  unfold bit. rewrite N.shiftl_1_l, N.pow2_bits_eqb.
  destruct (N.eqb_spec n i) as [->|H]; [by rewrite bool_decide_true | by rewrite bool_decide_false].
Qed.

(** [has] with a mask is non-emptiness of the intersection. *)
Lemma mode_has_spec modes mask :
  negb (N.land modes mask =? 0)%N = true ↔
  ∃ i, N.testbit modes i = true ∧ N.testbit mask i = true.
Proof.
  rewrite negb_true_iff, N.eqb_neq. split.
  - intros H. exists (N.log2 (N.land modes mask)).
    pose proof (N.bit_log2 _ H) as Hb. rewrite N.land_spec in Hb.
    by apply andb_true_iff in Hb.
  - intros (i & H1 & H2) H0.
    assert (N.testbit (N.land modes mask) i = true) as Ht by (rewrite N.land_spec, H1, H2; done).
    rewrite H0 in Ht. by rewrite N.bits_0 in Ht.
Qed.

Lemma mode_has_false modes mask :
  negb (N.land modes mask =? 0)%N = false ↔
  ∀ i, N.testbit mask i = true → N.testbit modes i = false.
Proof.
  rewrite <-not_true_iff_false, mode_has_spec. split.
  - intros H i Hm. destruct (N.testbit modes i) eqn:E; [|done]. exfalso. eauto.
  - intros H (i & H1 & H2). rewrite (H i H2) in H1. done.
Qed.

Lemma mode_has_bit modes n :
  negb (N.land modes (bit n) =? 0)%N = N.testbit modes n.
Proof.
  destruct (N.testbit modes n) eqn:E.
  - apply mode_has_spec. exists n. by rewrite testbit_bit, bool_decide_true.
  - apply mode_has_false. intros i. rewrite testbit_bit.
    intros ->%bool_decide_eq_true_1. done.
Qed.

(** Adding privileges never lowers a member's rank: a superset of bits ranks at
    least as high. *)
Lemma channel_privilege_has_mono p q mask :
  (∀ i, N.testbit p i = true → N.testbit q i = true) →
  channel_privilege_has p mask = true → channel_privilege_has q mask = true.
Proof.
  unfold channel_privilege_has. rewrite !mode_has_spec. naive_solver.
Qed.

Lemma channel_privilege_rank_mono p q :
  (∀ i, N.testbit p i = true → N.testbit q i = true) →
  channel_privilege_rank p ≤ channel_privilege_rank q.
Proof.
  intros Hsub.
  assert (Hm : ∀ m, channel_privilege_has p m = true → channel_privilege_has q m = true)
    by (intros m; by apply channel_privilege_has_mono).
  unfold channel_privilege_rank.
  repeat match goal with
  | |- context [if channel_privilege_has q ?m then _ else _] =>
      destruct (channel_privilege_has q m) eqn:?
  end;
  repeat match goal with
  | |- context [if channel_privilege_has p ?m then _ else _] =>
      destruct (channel_privilege_has p m) eqn:E; [apply Hm in E; congruence || lia |]; clear E
  end; lia.
Qed.

Lemma privilege_has_lor p a b :
  channel_privilege_has p (N.lor a b) = channel_privilege_has p a || channel_privilege_has p b.
Proof.
  unfold channel_privilege_has. rewrite N.land_lor_distr_r.
  destruct (N.eqb_spec (N.land p a) 0) as [->|Ha], (N.eqb_spec (N.land p b) 0) as [->|Hb]; try done;
    apply negb_true_iff, N.eqb_neq; rewrite N.lor_eq_0_iff; tauto.
Qed.

