(* ===== verification/HashTable.v ===== *)
(** * The chained hash table keyed by IRC names ([src/hash.c], [include/hash.h])

    Separate chaining over an array of buckets, hashing and comparing keys under
    RFC 1459 casemapping.  A table is its bucket array; the empty array stands for
    the NULL array of a table not initialised or already destroyed.  The abstract
    specification is a finite map from folded names to values: [table_map] is the
    abstraction function and [hash_get_map], [hash_set_map], [hash_remove_map] the
    refinement of the three operations. *)

From S2P Require Import Prelude CString.

(** ** Model *)

Definition irc_fold (ch : ascii) : ascii :=
  if in_range "A" "Z" ch then ascii_of_N (byte ch + 32)
  else if Ascii.eqb ch "{" then "["
  else if Ascii.eqb ch "}" then "]"
  else if Ascii.eqb ch "|" then "\"
  else if Ascii.eqb ch "~" then "^"
  else ch.

(** One round of the loop: [hash = ((hash << 5) + hash) ^ fold(ch)] on an
    [unsigned long]. *)
Definition hash_step (hash : N) (ch : ascii) : N :=
  N.lxor ((N.shiftl hash 5 mod 2 ^ 64 + hash) mod 2 ^ 64) (byte (irc_fold ch)).

Definition hash_ci (text : cstr) : N := fold_left hash_step text 5381%N.

Fixpoint key_equal_ci (left right : cstr) : bool :=
  match left, right with
  | l :: left', r :: right' =>
      if Ascii.eqb (irc_fold l) (irc_fold r) then key_equal_ci left' right' else false
  | [], [] => true
  | _, _ => false
  end.

Record HashTable (V : Type) := { buckets : list (list (cstr * V)) }.
Arguments buckets {V} _.
Arguments Build_HashTable {V} _.

Definition bucket_count {V} (t : HashTable V) : nat := length (buckets t).

(** [hash_init]: [None] is the return value -1; [alloc] says whether [calloc]
    succeeds. *)
Definition hash_init {V} (alloc : bool) (count : nat) : option (HashTable V) :=
  if count =? 0 then None
  else if alloc then Some {| buckets := replicate count [] |} else None.

Definition hash_destroy {V} (t : HashTable V) : HashTable V * list V :=
  ({| buckets := [] |}, (concat (buckets t)).*2).

Definition hash_index {V} (t : HashTable V) (key : cstr) : nat :=
  N.to_nat (hash_ci key mod N.of_nat (bucket_count t)).

Fixpoint chain_get {V} (chain : list (cstr * V)) (key : cstr) : option V :=
  match chain with
  | [] => None
  | (k, v) :: chain' => if key_equal_ci k key then Some v else chain_get chain' key
  end.

(** Overwriting the value of the first matching entry, if there is one. *)
Fixpoint chain_replace {V} (chain : list (cstr * V)) (key : cstr) (value : V)
    : option (list (cstr * V)) :=
  match chain with
  | [] => None
  | (k, v) :: chain' =>
      if key_equal_ci k key then Some ((k, value) :: chain')
      else cons (k, v) <$> chain_replace chain' key value
  end.

Fixpoint chain_remove {V} (chain : list (cstr * V)) (key : cstr)
    : option (V * list (cstr * V)) :=
  match chain with
  | [] => None
  | (k, v) :: chain' =>
      if key_equal_ci k key then Some (v, chain')
      else '(r, c) ← chain_remove chain' key; Some (r, (k, v) :: c)
  end.

Definition hash_get {V} (t : HashTable V) (key : cstr) : option V :=
  if bucket_count t =? 0 then None
  else chain_get (default [] (buckets t !! hash_index t key)) key.

(** The return code and the table; [alloc] says whether both allocations of a new
    entry succeed. *)
Definition hash_set {V} (alloc : bool) (t : HashTable V) (key : cstr) (value : V)
    : Z * HashTable V :=
  if bucket_count t =? 0 then ((-1)%Z, t)
  else
    let index := hash_index t key in
    let chain := default [] (buckets t !! index) in
    match chain_replace chain key value with
    | Some chain' => (0%Z, {| buckets := <[index := chain']> (buckets t) |})
    | None =>
        if alloc
        then (0%Z, {| buckets := <[index := (key, value) :: chain]> (buckets t) |})
        else ((-1)%Z, t)
    end.

Definition hash_remove {V} (t : HashTable V) (key : cstr) : option V * HashTable V :=
  if bucket_count t =? 0 then (None, t)
  else
    let index := hash_index t key in
    match chain_remove (default [] (buckets t !! index)) key with
    | Some (v, chain') => (Some v, {| buckets := <[index := chain']> (buckets t) |})
    | None => (None, t)
    end.

(** ** Casemapping *)

Definition fold_key (s : cstr) : cstr := map irc_fold s.

Lemma irc_fold_idemp c : irc_fold (irc_fold c) = irc_fold c.
Proof. by destruct c as [[] [] [] [] [] [] [] []]. Qed.

Lemma fold_key_idemp s : fold_key (fold_key s) = fold_key s.
Proof. unfold fold_key. rewrite map_map. apply map_ext, irc_fold_idemp. Qed.

Lemma key_equal_ci_spec s t : key_equal_ci s t = true ↔ fold_key s = fold_key t.
Proof.
  revert t. induction s as [|c s IH]; intros [|d t]; simpl; [done..|].
  destruct (Ascii.eqb_spec (irc_fold c) (irc_fold d)) as [E|E].
  - rewrite IH, E. split; [by intros -> | by intros [= ->]].
  - split; [done | by intros [= ?]].
Qed.

Lemma key_equal_ci_false s t : key_equal_ci s t = false ↔ fold_key s ≠ fold_key t.
Proof. rewrite <-key_equal_ci_spec. by destruct (key_equal_ci s t). Qed.

Lemma hash_ci_fold s : hash_ci (fold_key s) = hash_ci s.
Proof.
  unfold hash_ci. generalize 5381%N. induction s as [|c s IH]; intros h; simpl; [done|].
  rewrite IH. f_equal. unfold hash_step. by rewrite irc_fold_idemp.
Qed.

(** Keys that compare equal hash to the same bucket, so a lookup searches the
    chain the key was stored in. *)
Lemma hash_ci_equal s t : key_equal_ci s t = true → hash_ci s = hash_ci t.
Proof.
  intros H%key_equal_ci_spec. by rewrite <-(hash_ci_fold s), H, hash_ci_fold.
Qed.

Lemma hash_index_equal {V} (t : HashTable V) k k' :
  fold_key k = fold_key k' → hash_index t k = hash_index t k'.
Proof.
  intros H. unfold hash_index.
  by rewrite (hash_ci_equal k k') by (by apply key_equal_ci_spec).
Qed.

(** ** Invariant

    Every entry is in the bucket its key hashes to, and no bucket holds two keys
    equal under casemapping. *)

Definition chain_keys {V} (chain : list (cstr * V)) : list cstr := fold_key <$> chain.*1.

Record table_wf {V} (t : HashTable V) : Prop := {
  wf_nonempty : 0 < bucket_count t;
  wf_index : ∀ i chain k v,
    buckets t !! i = Some chain → (k, v) ∈ chain → hash_index t k = i;
  wf_unique : ∀ i chain, buckets t !! i = Some chain → NoDup (chain_keys chain)
}.

Lemma hash_index_lt {V} (t : HashTable V) k :
  0 < bucket_count t → hash_index t k < bucket_count t.
Proof.
  intros H. unfold hash_index.
  assert (hash_ci k mod N.of_nat (bucket_count t) < N.of_nat (bucket_count t))%N
    by (apply N.mod_lt; lia). lia.
Qed.

Lemma bucket_lookup {V} (t : HashTable V) k :
  0 < bucket_count t →
  buckets t !! hash_index t k = Some (default [] (buckets t !! hash_index t k)).
Proof.
  intros H. destruct (lookup_lt_is_Some_2 (buckets t) (hash_index t k)) as [c Hc].
  { by apply hash_index_lt. }
  by rewrite Hc.
Qed.

Lemma hash_index_insert {V} (t : HashTable V) i c k :
  hash_index {| buckets := <[i := c]> (buckets t) |} k = hash_index t k.
Proof. unfold hash_index, bucket_count. simpl. by rewrite length_insert. Qed.

(** Replacing one bucket by a chain of keys that hash there keeps the invariant. *)
Lemma table_wf_insert {V} (t : HashTable V) i c :
  table_wf t →
  (∀ k v, (k, v) ∈ c → hash_index t k = i) → NoDup (chain_keys c) →
  table_wf {| buckets := <[i := c]> (buckets t) |}.
Proof.
  intros Hwf Hi Hnd. split.
  - unfold bucket_count. simpl. rewrite length_insert. apply (wf_nonempty t Hwf).
  - intros j d k v Hj Hkv. rewrite hash_index_insert. simpl in Hj.
    apply list_lookup_insert_Some in Hj as [(<- & <- & _) | [_ Hj]]; [by eapply Hi|].
    by eapply wf_index.
  - intros j d Hj. simpl in Hj.
    apply list_lookup_insert_Some in Hj as [(<- & <- & _) | [_ Hj]]; [done|].
    by eapply wf_unique.
Qed.

(** ** Chains as association lists *)

Definition chain_map {V} (chain : list (cstr * V)) : gmap cstr V :=
  list_to_map ((λ kv, (fold_key kv.1, kv.2)) <$> chain).

Lemma chain_get_map {V} (c : list (cstr * V)) k :
  chain_get c k = chain_map c !! fold_key k.
Proof.
  unfold chain_map. induction c as [|[k' v] c IH]; csimpl; [done|].
  destruct (key_equal_ci k' k) eqn:E.
  - apply key_equal_ci_spec in E. by rewrite E, lookup_insert_eq.
  - apply key_equal_ci_false in E. by rewrite lookup_insert_ne.
Qed.

Lemma chain_replace_None {V} (c : list (cstr * V)) k v :
  chain_replace c k v = None ↔ fold_key k ∉ chain_keys c.
Proof.
  unfold chain_keys. induction c as [|[k' v'] c IH]; csimpl.
  - split; [intros _ H; by apply elem_of_nil in H | done].
  - rewrite not_elem_of_cons. destruct (key_equal_ci k' k) eqn:E.
    + apply key_equal_ci_spec in E. naive_solver.
    + apply key_equal_ci_false in E. destruct (chain_replace c k v); naive_solver.
Qed.

Lemma chain_replace_Some {V} (c c' : list (cstr * V)) k v :
  chain_replace c k v = Some c' →
  c'.*1 = c.*1 ∧ (NoDup (chain_keys c) → chain_map c' = <[fold_key k := v]> (chain_map c)).
Proof.
  revert c'. unfold chain_map, chain_keys.
  induction c as [|[k' v'] c IH]; csimpl; [done|]. intros c'.
  destruct (key_equal_ci k' k) eqn:E.
  - intros [= <-]. apply key_equal_ci_spec in E. csimpl. split; [done|]. intros _.
    by rewrite E, insert_insert_eq.
  - apply key_equal_ci_false in E. destruct (chain_replace c k v) as [d|]; [|done].
    intros [= <-]. destruct (IH d eq_refl) as [H1 H2]. split; [by csimpl; rewrite H1|]. csimpl.
    intros [_ Hnd]%NoDup_cons. rewrite H2 by done. by rewrite insert_insert_ne by done.
Qed.

Lemma chain_map_lookup_None {V} (c : list (cstr * V)) k :
  fold_key k ∉ chain_keys c → chain_map c !! fold_key k = None.
Proof.
  intros H. unfold chain_map. apply not_elem_of_list_to_map_1.
  intros Hin. apply H. unfold chain_keys.
  rewrite list_elem_of_fmap in Hin. destruct Hin as ([k' v] & E & Hin). 
  rewrite list_elem_of_fmap in Hin. destruct Hin as ([k0 v0] & [= -> ->] & Hin).
  rewrite E. apply list_elem_of_fmap. exists k0. split; [done|].
  apply list_elem_of_fmap. by exists (k0, v0).
Qed.

Lemma chain_remove_spec {V} (c : list (cstr * V)) k :
  NoDup (chain_keys c) →
  match chain_remove c k with
  | Some (v, c') =>
      chain_map c !! fold_key k = Some v ∧ chain_map c' = delete (fold_key k) (chain_map c) ∧
      c' `sublist_of` c
  | None => chain_map c !! fold_key k = None
  end.
Proof.
  unfold chain_keys. induction c as [|[k' v'] c IH]; csimpl; [done|].
  intros [Hn Hnd]%NoDup_cons. unfold chain_map in *. csimpl.
  destruct (key_equal_ci k' k) eqn:E.
  - apply key_equal_ci_spec in E. rewrite E, lookup_insert_eq. split; [done|].
    split; [|by apply sublist_cons].
    rewrite delete_insert_eq. rewrite delete_id; [done|].
    rewrite <-E. apply (chain_map_lookup_None c k'). exact Hn.
  - apply key_equal_ci_false in E. specialize (IH Hnd).
    destruct (chain_remove c k) as [[v c']|]; csimpl.
    + destruct IH as (H1 & H2 & H3). rewrite lookup_insert_ne by done.
      split; [done|]. split; [|by apply sublist_skip].
      rewrite H2. by rewrite delete_insert_ne by done.
    + by rewrite lookup_insert_ne.
Qed.

(** ** Tables *)

Lemma hash_get_bucket {V} (t : HashTable V) k :
  table_wf t →
  hash_get t k = chain_map (default [] (buckets t !! hash_index t k)) !! fold_key k.
Proof.
  intros Hwf. unfold hash_get. pose proof (wf_nonempty t Hwf).
  destruct (Nat.eqb_spec (bucket_count t) 0); [lia|]. apply chain_get_map.
Qed.

(** Lookup after one bucket has been replaced. *)
Lemma hash_get_insert {V} (t : HashTable V) i c k :
  table_wf t → i < bucket_count t →
  hash_get {| buckets := <[i := c]> (buckets t) |} k =
  if decide (hash_index t k = i) then chain_get c k else hash_get t k.
Proof.
  intros Hwf Hi. unfold hash_get. rewrite hash_index_insert.
  unfold bucket_count. simpl. rewrite length_insert. fold (bucket_count t).
  pose proof (wf_nonempty t Hwf). destruct (Nat.eqb_spec (bucket_count t) 0); [lia|].
  case_decide as E.
  - rewrite E, list_lookup_insert_eq by done. done.
  - by rewrite list_lookup_insert_ne.
Qed.

Lemma hash_get_fold {V} (t : HashTable V) k k' : table_wf t → fold_key k = fold_key k' → hash_get t k = hash_get t k'.
Proof.
  intros Hwf Hk. rewrite !hash_get_bucket by done. by rewrite Hk, (hash_index_equal t k k').
Qed.

Lemma chain_map_keys {V} (c : list (cstr * V)) k :
  is_Some (chain_map c !! fold_key k) → fold_key k ∈ chain_keys c.
Proof.
  intros [v Hv]. destruct (decide (fold_key k ∈ chain_keys c)) as [|n]; [done|].
  apply chain_map_lookup_None in n. congruence.
Qed.

Section Operations.
Context {V : Type}.
Implicit Types (t : HashTable V) (k : cstr) (v : V).

Lemma hash_init_wf alloc count t :
  hash_init alloc count = Some t → table_wf t ∧ ∀ k, hash_get t k = None.
Proof.
  unfold hash_init. destruct (Nat.eqb_spec count 0); [done|]. destruct alloc; [|done].
  intros [= <-].
  assert (Hwf : table_wf {| buckets := replicate count ([] : list (cstr * V)) |}).
  { split.
    - unfold bucket_count. simpl. rewrite length_replicate. lia.
    - intros i chain k v [-> _]%lookup_replicate Hin. by apply elem_of_nil in Hin.
    - intros i chain [-> _]%lookup_replicate. constructor. }
  split; [done|]. intros k. rewrite hash_get_bucket by done. simpl.
  destruct (replicate count [] !! _) as [c|] eqn:E; simpl; [|done].
  apply lookup_replicate in E as [-> _]. done.
Qed.

(** [hash_set] stores the value under every spelling of the key and leaves the
    other keys alone; when an entry would be needed and its allocation fails, the
    table is unchanged and -1 is returned. *)
Lemma hash_set_spec alloc t k v :
  table_wf t →
  let '(rc, t') := hash_set alloc t k v in
  table_wf t' ∧
  (rc = 0%Z → ∀ k', hash_get t' k' =
     if decide (fold_key k = fold_key k') then Some v else hash_get t k') ∧
  (rc ≠ 0%Z → rc = (-1)%Z ∧ t' = t ∧ alloc = false ∧ hash_get t k = None) ∧
  (alloc = true → rc = 0%Z).
Proof.
  intros Hwf. pose proof (wf_nonempty t Hwf) as Hpos.
  pose proof (hash_index_lt t k Hpos) as Hlt.
  pose proof (bucket_lookup t k Hpos) as Hb.
  unfold hash_set. destruct (Nat.eqb_spec (bucket_count t) 0); [lia|].
  set (c := default [] (buckets t !! hash_index t k)) in *.
  pose proof (wf_unique t Hwf _ _ Hb) as Hnd.
  destruct (chain_replace c k v) as [c'|] eqn:E.
  - pose proof (chain_replace_Some _ _ _ _ E) as [Hkeys Hmap].
    specialize (Hmap Hnd). split; [|split; [|naive_solver]].
    + apply table_wf_insert; [done| |].
      * intros k' v' Hin. assert (k' ∈ c'.*1) as Hin1
          by (apply list_elem_of_fmap; by exists (k', v')).
        rewrite Hkeys in Hin1. apply list_elem_of_fmap in Hin1 as ([k0 v0] & -> & Hin1).
        by eapply wf_index.
      * unfold chain_keys. by rewrite Hkeys.
    + intros _ k'. rewrite hash_get_insert by done. case_decide as Ei.
      * rewrite chain_get_map, Hmap. rewrite lookup_insert. case_decide; [done|].
        rewrite hash_get_bucket by done. by rewrite Ei.
      * case_decide as Ef; [|done]. by rewrite (hash_index_equal t k k') in Ei.
  - apply chain_replace_None in E. destruct alloc.
    + split; [|split; [|done]].
      * apply table_wf_insert; [done| |].
        -- intros k' v' [[= -> ->]|Hin]%elem_of_cons; [done|]. by eapply wf_index.
        -- unfold chain_keys. csimpl. by apply NoDup_cons.
      * intros _ k'. rewrite hash_get_insert by done. case_decide as Ei.
        -- rewrite chain_get_map. unfold chain_map. csimpl. rewrite lookup_insert.
           case_decide; [done|]. rewrite hash_get_bucket by done. by rewrite Ei.
        -- case_decide as Ef; [|done]. by rewrite (hash_index_equal t k k') in Ei.
    + split; [done|]. split; [done|]. split; [|done]. intros _. split; [done|].
      split; [done|]. split; [done|]. rewrite hash_get_bucket by done.
      by apply chain_map_lookup_None.
Qed.

Lemma hash_remove_spec t k :
  table_wf t →
  let '(r, t') := hash_remove t k in
  table_wf t' ∧ r = hash_get t k ∧
  ∀ k', hash_get t' k' = if decide (fold_key k = fold_key k') then None else hash_get t k'.
Proof.
  intros Hwf. pose proof (wf_nonempty t Hwf) as Hpos.
  pose proof (hash_index_lt t k Hpos) as Hlt.
  pose proof (bucket_lookup t k Hpos) as Hb.
  rewrite (hash_get_bucket t k) by done.
  unfold hash_remove. destruct (Nat.eqb_spec (bucket_count t) 0); [lia|].
  set (c := default [] (buckets t !! hash_index t k)) in *.
  pose proof (wf_unique t Hwf _ _ Hb) as Hnd.
  pose proof (chain_remove_spec c k Hnd) as Hrem.
  destruct (chain_remove c k) as [[v c']|].
  - destruct Hrem as (Hv & Hmap & Hsub). split; [|split; [done|]].
    + apply table_wf_insert; [done| |].
      * intros k' v' Hin. eapply wf_index; [done..|].
        eapply (sublist_subseteq _ _ Hsub). done.
      * eapply sublist_NoDup; [exact Hnd|]. unfold chain_keys. by do 2 apply fmap_sublist.
    + intros k'. rewrite hash_get_insert by done. case_decide as Ei.
      * rewrite chain_get_map, Hmap, lookup_delete. case_decide; [done|].
        rewrite hash_get_bucket by done. by rewrite Ei.
      * case_decide as Ef; [|done]. by rewrite (hash_index_equal t k k') in Ei.
  - split; [done|]. split; [done|]. intros k'. case_decide as Ef; [|done].
    rewrite hash_get_bucket by done. rewrite <-Ef, <-(hash_index_equal t k k') by done.
    done.
Qed.
End Operations.

(** ** Refinement of a finite map

    The specification: a finite map whose keys are folded names.  The table
    implements it when it is well formed and every lookup agrees. *)

Definition represents {V} (t : HashTable V) (m : gmap cstr V) : Prop :=
  table_wf t ∧ ∀ k, hash_get t k = m !! fold_key k.

(** C28: The hash table refines a finite map from RFC 1459-folded names to values: a
    fresh table represents the empty map; on a table that represents [m], lookup
    reads [m] at the folded key, a successful insertion stores the value there (an
    insertion fails only when its allocation fails and the key is new, and then
    changes nothing), and removal returns what [m] held and deletes exactly it. *)
Theorem hash_table_refines_map {V} :
  (∀ alloc count (t : HashTable V), hash_init alloc count = Some t → represents t ∅) ∧
  ∀ (t : HashTable V) m, represents t m →
    (∀ k, hash_get t k = m !! fold_key k) ∧
    (∀ alloc k v, let '(rc, t') := hash_set alloc t k v in
       (rc = 0%Z ∧ represents t' (<[fold_key k := v]> m)) ∨
       (rc = (-1)%Z ∧ alloc = false ∧ m !! fold_key k = None ∧ t' = t)) ∧
    (∀ k, let '(r, t') := hash_remove t k in
       r = m !! fold_key k ∧ represents t' (delete (fold_key k) m)).
Proof.
  split.
  - intros alloc count t [Hwf Hget]%hash_init_wf. split; [done|]. intros k.
    by rewrite Hget, lookup_empty.
  - intros t m [Hwf Hget]. split; [done|]. split.
    + intros alloc k v. pose proof (hash_set_spec alloc t k v Hwf) as H.
      destruct (hash_set alloc t k v) as [rc t']. destruct H as (Hwf' & Hok & Hfail & _).
      destruct (decide (rc = 0%Z)) as [E|E].
      * left. split; [done|]. split; [done|]. intros k'. rewrite Hok, lookup_insert by done.
        by rewrite Hget.
      * right. destruct (Hfail E) as (-> & -> & -> & Hn). by rewrite <-Hget.
    + intros k. pose proof (hash_remove_spec t k Hwf) as H.
      destruct (hash_remove t k) as [r t']. destruct H as (Hwf' & -> & Hrem).
      split; [done|]. split; [done|]. intros k'. rewrite Hrem, lookup_delete.
      by rewrite Hget.
Qed.
