(* ===== verification/MaskMatch.v ===== *)
(** * Wildcard masks ([irc_mask_match] of [src/channel_policy.c])

    The matcher behind channel bans, exceptions, invite exceptions and SILENCE: an
    iterative loop with one backtracking point (the last star seen).  The
    specification is the declarative relation [glob]; [irc_mask_match_spec] says that
    the loop always terminates and decides it. *)

From S2P Require Import Prelude CString HashTable.

(** ** Model *)

Definition rfc1459_fold (ch : ascii) : ascii :=
  if in_range "A" "Z" ch then ascii_of_N (byte ch + 32)
  else if Ascii.eqb ch "[" then "{"
  else if Ascii.eqb ch "]" then "}"
  else if Ascii.eqb ch "\" then "|"
  else if Ascii.eqb ch "^" then "~"
  else ch.

Fixpoint skip_stars (pattern : cstr) : cstr :=
  match pattern with
  | c :: pattern' => if Ascii.eqb c "*" then skip_stars pattern' else pattern
  | [] => []
  end.

(** The loop on [pattern], [text] and the backtracking point [(star, retry)];
    [None] means the fuel ran out. *)
Fixpoint mask_loop (fuel : nat) (pattern text : cstr) (star : option (cstr * cstr))
    : option bool :=
  match fuel with
  | 0 => None
  | S fuel' =>
      match text with
      | [] => Some (empty (skip_stars pattern))
      | t :: text' =>
          let backtrack :=
            match star with
            | Some (sp, _ :: retry) => mask_loop fuel' sp retry (Some (sp, retry))
            | _ => Some false
            end in
          match pattern with
          | p :: pattern' =>
              if Ascii.eqb p "*" then mask_loop fuel' pattern' text (Some (pattern', text))
              else if Ascii.eqb p "?" || Ascii.eqb (rfc1459_fold p) (rfc1459_fold t)
              then mask_loop fuel' pattern' text' star
              else backtrack
          | [] => backtrack
          end
      end
  end.

(** Between two stars the loop retries at most once per byte of the text, each
    attempt running through at most the whole pattern. *)
Definition mask_fuel (pattern text : cstr) : nat :=
  S (S (length pattern) * (S (S (length text)) * S (S (length pattern))) + length pattern).

Definition irc_mask_match (pattern text : cstr) : bool :=
  default false (mask_loop (mask_fuel pattern text) pattern text None).

(** ** Specification *)

Inductive glob : cstr → cstr → Prop :=
  | glob_nil : glob [] []
  | glob_star_none p t : glob p t → glob ("*"%char :: p) t
  | glob_star_more p c t : glob ("*"%char :: p) t → glob ("*"%char :: p) (c :: t)
  | glob_any p c t : glob p t → glob ("?"%char :: p) (c :: t)
  | glob_char a p c t :
      a ≠ "*"%char → rfc1459_fold a = rfc1459_fold c → glob p t → glob (a :: p) (c :: t).

(** ** Lemmas *)

#[local] Hint Constructors glob : core.

(** One byte of the pattern, not a star, against one byte of the text. *)
Definition byte_match (p t : ascii) : Prop :=
  p ≠ "*"%char ∧ (p = "?"%char ∨ rfc1459_fold p = rfc1459_fold t).

Lemma glob_byte p ps t ts : byte_match p t → glob ps ts → glob (p :: ps) (t :: ts).
Proof. intros [Hp [->|H]]; auto. Qed.

Lemma glob_byte_inv p ps ts :
  p ≠ "*"%char → glob (p :: ps) ts → ∃ t ts', ts = t :: ts' ∧ byte_match p t ∧ glob ps ts'.
Proof. unfold byte_match. intros Hp H. inversion H; subst; naive_solver. Qed.

Lemma glob_star_suffix p u t : u `suffix_of` t → glob p u → glob ("*"%char :: p) t.
Proof.
  intros [k ->] H. induction k as [|c k IH]; simpl; auto.
Qed.

Lemma glob_star_inv p t :
  glob ("*"%char :: p) t → ∃ u, u `suffix_of` t ∧ glob p u.
Proof.
  remember ("*"%char :: p) as q eqn:Eq. intros H. revert p Eq.
  induction H as [| p0 t H IH | p0 c t H IH | p0 c t H IH | a p0 c t Ha Hf H IH];
    intros p Eq; simplify_eq.
  - exists t. done.
  - destruct (IH p eq_refl) as (u & Hu & Hg). exists u. split; [|done]. by apply suffix_cons_r.
Qed.

Lemma glob_star_iff p t : glob ("*"%char :: p) t ↔ ∃ u, u `suffix_of` t ∧ glob p u.
Proof.
  split; [apply glob_star_inv|]. intros (u & Hu & Hg). by eapply glob_star_suffix.
Qed.

Lemma skip_stars_glob p : empty (skip_stars p) = true ↔ glob p [].
Proof.
  induction p as [|c p IH]; simpl; [split; auto|].
  destruct (Ascii.eqb_spec c "*") as [->|Hc].
  - rewrite IH. split; [auto|]. intros (u & Hu & Hg)%glob_star_inv.
    by apply suffix_nil_inv in Hu as ->.
  - simpl. split; [done|]. intros H. inversion H; congruence.
Qed.

(** A star-free segment of the pattern consumes as many bytes as it has. *)
Lemma glob_segment seg p t :
  Forall (λ c, c ≠ "*"%char) seg → glob (seg ++ p) t →
  ∃ w u, t = w ++ u ∧ length w = length seg ∧ glob p u.
Proof.
  revert t. induction seg as [|c seg IH]; intros t Hseg H; simpl in *.
  - by exists [], t.
  - apply Forall_cons in Hseg as [Hc Hseg].
    apply glob_byte_inv in H as (d & ts & -> & _ & H); [|done].
    destruct (IH ts Hseg H) as (w & u & -> & Hw & Hu).
    exists (d :: w), u. simpl. by rewrite Hw.
Qed.

(** *** The loop's invariant

    The backtracking point describes an attempt in progress: from [retry] on, the
    segment of [sp] already passed (which has no star) has consumed the text up to
    the current position. *)
Definition attempt (p t sp retry : cstr) : Prop :=
  ∃ seg w, Forall (λ c, c ≠ "*"%char) seg ∧ sp = seg ++ p ∧ retry = w ++ t ∧
           length seg = length w.

Lemma attempt_start p t : attempt p t p t.
Proof. by exists [], []. Qed.

Lemma attempt_step p ps t ts sp retry :
  p ≠ "*"%char → attempt (p :: ps) (t :: ts) sp retry → attempt ps ts sp retry.
Proof.
  intros Hp (seg & w & Hseg & -> & -> & Hlen). exists (seg ++ [p]), (w ++ [t]).
  split; [apply Forall_app; by repeat constructor|]. rewrite <-!app_assoc.
  rewrite !length_app. simpl. naive_solver lia.
Qed.

(** The answer the loop owes in a state: the current attempt succeeds, or a later
    one does. *)
Definition owes (p t : cstr) (star : option (cstr * cstr)) : Prop :=
  glob p t ∨ match star with
             | Some (sp, _ :: retry) => glob ("*"%char :: sp) retry
             | _ => False
             end.

Definition attempt_ok (p t : cstr) (star : option (cstr * cstr)) : Prop :=
  match star with Some (sp, retry) => attempt p t sp retry | None => True end.

(** Reaching a new star makes the older backtracking point useless: whatever a
    later attempt would leave to this star, the current one leaves too. *)
Lemma owes_new_star ps t ts star :
  attempt_ok ("*"%char :: ps) (t :: ts) star →
  owes ("*"%char :: ps) (t :: ts) star ↔ owes ps (t :: ts) (Some (ps, t :: ts)).
Proof.
  intros Hok. unfold owes. split.
  - intros [H | H].
    + apply glob_star_iff in H as (u & [k Hk] & Hu).
      destruct k as [|c k]; simplify_list_eq; [by left|]. right.
      apply glob_star_iff. exists u. split; [by exists k | done].
    + right. destruct star as [[sp [|r retry]]|]; try done. simpl in Hok.
      destruct Hok as (seg & w & Hseg & -> & Hr & Hlen).
      apply glob_star_iff in H as (u & Hu & Hg).
      apply glob_segment in Hg as (w' & v & -> & Hw' & Hv); [|done].
      apply glob_star_iff in Hv as (v' & Hv' & Hg). apply glob_star_iff.
      exists v'. split; [|done].
      assert (v' `suffix_of` retry) as Hsr.
      { etrans; [exact Hv'|]. etrans; [|exact Hu]. by exists w'. }
      apply suffix_le_suffix with (r :: retry).
      * by apply suffix_cons_r.
      * rewrite Hr. exists (w ++ [t]). by rewrite <-app_assoc.
      * apply suffix_length in Hu, Hv'. rewrite length_app in Hu.
        apply (f_equal length) in Hr. rewrite length_app in Hr. simpl in Hr. lia.
  - intros [H|H].
    + left. by constructor.
    + left. by apply glob_star_more.
Qed.

(** A mismatch leaves the later attempts only. *)
Lemma owes_backtrack p t star :
  ¬ glob p t → owes p t star ↔
  match star with Some (sp, _ :: retry) => glob ("*"%char :: sp) retry | _ => False end.
Proof. unfold owes. tauto. Qed.

Lemma owes_retry sp retry :
  owes sp retry (Some (sp, retry)) ↔ glob ("*"%char :: sp) retry.
Proof.
  unfold owes. rewrite glob_star_iff. split.
  - intros [H|H]; [by exists retry|]. destruct retry as [|r retry]; [done|].
    apply glob_star_iff in H as (u & Hu & Hg). exists u. split; [|done]. by apply suffix_cons_r.
  - intros (u & [k Hk] & Hg). destruct k as [|c k]; simplify_list_eq; [by left|].
    right. apply glob_star_iff. exists u. split; [by exists k | done].
Qed.

(** *** Termination

    The lexicographic measure (star pattern, retry point, pattern) as one number,
    for a pattern of [P] and a text of [T] bytes. *)
Definition mask_measure (P T : nat) (p : cstr) (star : option (cstr * cstr)) : nat :=
  match star with
  | None => S P * (S (S T) * S (S P)) + length p
  | Some (sp, r) => length sp * (S (S T) * S (S P)) + length r * S (S P) + length p
  end.

Definition in_bounds (P T : nat) (p t : cstr) (star : option (cstr * cstr)) : Prop :=
  length p ≤ P ∧ length t ≤ T ∧
  match star with Some (sp, r) => length sp ≤ P ∧ length r ≤ T | None => True end.

Lemma mask_measure_star P T ps t star :
  in_bounds P T ("*"%char :: ps) t star → attempt_ok ("*"%char :: ps) t star →
  mask_measure P T ps (Some (ps, t)) < mask_measure P T ("*"%char :: ps) star.
Proof.
  unfold in_bounds, mask_measure. intros (Hp & Ht & Hs) Hok. simpl in Hp.
  assert (length t * S (S P) + length ps < S (S T) * S (S P)) as Hlow.
  { assert (length t * S (S P) ≤ T * S (S P)) by (apply Nat.mul_le_mono_r; lia). lia. }
  destruct star as [[sp r]|].
  - destruct Hok as (seg & w & _ & -> & _ & _). rewrite length_app. simpl length.
    assert (S (length ps) * (S (S T) * S (S P)) ≤
            (length seg + S (length ps)) * (S (S T) * S (S P))) by (apply Nat.mul_le_mono_r; lia).
    lia.
  - simpl length.
    assert (S (length ps) * (S (S T) * S (S P)) ≤ S P * (S (S T) * S (S P)))
      by (apply Nat.mul_le_mono_r; lia). lia.
Qed.

Lemma mask_measure_retry P T p sp r retry :
  length sp ≤ P →
  mask_measure P T sp (Some (sp, retry)) < mask_measure P T p (Some (sp, r :: retry)).
Proof. unfold mask_measure. simpl length. lia. Qed.

Lemma byte_match_dec p t :
  p ≠ "*"%char →
  (Ascii.eqb p "?" || Ascii.eqb (rfc1459_fold p) (rfc1459_fold t) = true) ↔ byte_match p t.
Proof.
  intros Hp. unfold byte_match. rewrite orb_true_iff, !Ascii.eqb_eq. tauto.
Qed.

(** The loop decides what it owes, given fuel above the measure. *)
Lemma mask_loop_spec P T fuel p t star :
  in_bounds P T p t star → attempt_ok p t star → mask_measure P T p star < fuel →
  ∃ b, mask_loop fuel p t star = Some b ∧ (b = true ↔ owes p t star).
Proof.
  revert p t star. induction fuel as [|fuel IH]; [lia|].
  intros p t star Hin Hok Hfuel. simpl.
  destruct t as [|c t].
  { exists (empty (skip_stars p)). split; [done|]. rewrite skip_stars_glob. unfold owes.
    split; [tauto|]. intros [H|H]; [done|].
    destruct star as [[sp [|r retry]]|]; try done.
    destruct Hok as (seg & w & Hseg & -> & Hr & Hlen). rewrite app_nil_r in Hr. subst w.
    apply glob_star_iff in H as (u & Hu & Hg).
    apply glob_segment in Hg as (w' & v & -> & Hw' & _); [|done].
    apply suffix_length in Hu. rewrite length_app in Hu. simpl in Hlen. lia. }
  (* the three ways to fail the comparison share the backtracking step *)
  assert (Hback : ¬ glob p (c :: t) →
    ∃ b, match star with
         | Some (sp, _ :: retry) => mask_loop fuel sp retry (Some (sp, retry))
         | _ => Some false end = Some b ∧ (b = true ↔ owes p (c :: t) star)).
  { intros Hno. setoid_rewrite (owes_backtrack p (c :: t) star Hno).
    destruct star as [[sp [|r retry]]|]; [by exists false | | by exists false].
    destruct Hin as (_ & _ & Hsp & Hr). simpl in Hr.
    destruct (IH sp retry (Some (sp, retry))) as (b & Hb & Hiff).
    - split; [done|]. split; [lia|]. split; [done | lia].
    - apply attempt_start.
    - pose proof (mask_measure_retry P T p sp r retry Hsp). lia.
    - exists b. split; [done|]. by rewrite Hiff, owes_retry. }
  destruct p as [|a p].
  { apply Hback. intros H. inversion H. }
  destruct (Ascii.eqb_spec a "*") as [->|Ha].
  - destruct (IH p (c :: t) (Some (p, c :: t))) as (b & Hb & Hiff).
    + destruct Hin as (Hp & Ht & _). simpl in Hp. split; [lia|]. split; [done|]. split; [lia | done].
    + apply attempt_start.
    + pose proof (mask_measure_star P T p (c :: t) star Hin Hok). lia.
    + exists b. split; [done|]. by rewrite Hiff, owes_new_star.
  - destruct (Ascii.eqb a "?" || _) eqn:E.
    + apply byte_match_dec in E; [|done].
      destruct (IH p t star) as (b & Hb & Hiff).
      * destruct Hin as (Hp & Ht & Hs). simpl in *. split; [lia|]. split; [lia | done].
      * destruct star as [[sp retry]|]; [|done]. by eapply attempt_step.
      * unfold mask_measure in *. destruct star as [[sp retry]|]; simpl length in Hfuel; lia.
      * exists b. split; [done|]. rewrite Hiff. unfold owes.
        split; (intros [H|H]; [left | by right]); [by apply glob_byte|].
        apply glob_byte_inv in H as (d & ts & [= <- <-] & _ & H); done.
    + apply Hback. intros (d & ts & [= <- <-] & Hm & _)%glob_byte_inv; [|done].
      apply byte_match_dec in Hm; congruence.
Qed.

Lemma mask_loop_decides (pattern text : cstr) :
  ∃ b, mask_loop (mask_fuel pattern text) pattern text None = Some b ∧
       (b = true ↔ glob pattern text).
Proof.
  destruct (mask_loop_spec (length pattern) (length text) (mask_fuel pattern text)
              pattern text None) as (b & -> & Hb).
  - split; [done|]. by split.
  - done.
  - unfold mask_measure, mask_fuel. lia.
  - exists b. split; [done|]. rewrite Hb. unfold owes. tauto.
Qed.

Lemma irc_mask_match_glob (pattern text : cstr) :
  irc_mask_match pattern text = true ↔ glob pattern text.
Proof.
  unfold irc_mask_match. destruct (mask_loop_decides pattern text) as (b & -> & Hb). done.
Qed.

(** C29: [irc_mask_match] terminates on every pattern and text (its fuel is never
    exhausted) and returns true exactly when the pattern matches the whole text as
    a wildcard mask: a star stands for any run of bytes, a question mark for one
    byte, and any other byte for itself up to RFC 1459 case. *)
Theorem irc_mask_match_spec (pattern text : cstr) :
  is_Some (mask_loop (mask_fuel pattern text) pattern text None) ∧
  (irc_mask_match pattern text = true ↔ glob pattern text).
Proof.
  split; [|apply irc_mask_match_glob].
  destruct (mask_loop_decides pattern text) as (b & -> & _). by eexists.
Qed.

(** ** Casemapping in the two halves of the program

    [hash.c] folds brackets one way, [channel_policy.c] and [presence.c] the other;
    the equivalences they induce are the same. *)

Lemma irc_fold_rfc1459 c : irc_fold (rfc1459_fold c) = irc_fold c.
Proof. by destruct c as [[] [] [] [] [] [] [] []]. Qed.

Lemma rfc1459_fold_irc c : rfc1459_fold (irc_fold c) = rfc1459_fold c.
Proof. by destruct c as [[] [] [] [] [] [] [] []]. Qed.

Lemma folds_agree a b : irc_fold a = irc_fold b ↔ rfc1459_fold a = rfc1459_fold b.
Proof.
  split; intros H.
  - by rewrite <-(rfc1459_fold_irc a), H, rfc1459_fold_irc.
  - by rewrite <-(irc_fold_rfc1459 a), H, irc_fold_rfc1459.
Qed.

Definition wildcard_free (s : cstr) : Prop := ("*"%char ∉ s) ∧ ("?"%char ∉ s).

(** A mask with no wildcard matches exactly the names the hash table treats as
    the same key: mask matching and name lookup use one notion of equality although
    they fold in opposite directions. *)
Theorem literal_mask_is_key_equality (mask name : cstr) :
  wildcard_free mask → irc_mask_match mask name = key_equal_ci mask name.
Proof.
  intros [Hs Hq]. apply eq_true_iff_eq.
  rewrite irc_mask_match_glob.
  revert name Hs Hq. induction mask as [|c mask IH]; intros name Hs Hq.
  - split; [intros H; by inversion H | by destruct name].
  - apply not_elem_of_cons in Hs as [Hs1 Hs], Hq as [Hq1 Hq]. split.
    + intros (d & ts & -> & [_ [->|Hf]] & H)%glob_byte_inv; [done| |done]. simpl.
      apply folds_agree in Hf. rewrite Hf, Ascii.eqb_refl. by apply IH.
    + destruct name as [|d name]; simpl; [done|].
      destruct (Ascii.eqb_spec (irc_fold c) (irc_fold d)) as [E|]; [|done].
      intros H. apply IH in H; [|done..]. apply glob_char; [done | by apply folds_agree | done].
Qed.

Lemma literal_mask_is_key_equality_witness :
  wildcard_free "Nick[a]" ∧ (irc_mask_match "Nick[a]" "nICK{A}" = key_equal_ci "Nick[a]" "nICK{A}").
Proof.
  assert (wildcard_free "Nick[a]") as H
    by (split; apply has_char_false; reflexivity).
  split; [exact H | apply (literal_mask_is_key_equality _ _ H)].
Defined.
