(* ===== verification/Output.v ===== *)
(** * Client output ([src/client.c])

    The bounded, nonblocking output queue of one connection, the plain and TLS
    transports below it, and the line layer above it (IRCv3 server-time tags and
    labeled responses).

    The operating system and OpenSSL are an oracle: [sys_io] lists what the next
    write calls report and [sys_alloc] whether the next [realloc] succeeds.  A
    successful write of [n] bytes is clamped to the range the call can return
    (1 to the number of bytes offered), an exhausted [sys_io] means the socket
    is not ready, an exhausted [sys_alloc] that allocation succeeds.  [wire]
    collects the bytes the transport accepted and [ssl_writes], newest first, the
    bytes offered to each [SSL_write] with whether it asked to be repeated; no
    operation reads them. *)

From S2P Require Import Prelude CString Modes.

(** ** Data *)

Inductive ClientTlsState := CLIENT_TLS_NONE | CLIENT_TLS_HANDSHAKE | CLIENT_TLS_ESTABLISHED.
#[export] Instance ClientTlsState_eq_dec : EqDecision ClientTlsState.
Proof. solve_decision. Defined.

Definition CLIENT_CAP_SASL := bit 0.
Definition CLIENT_CAP_ACCOUNT_NOTIFY := bit 1.
Definition CLIENT_CAP_BATCH := bit 2.
Definition CLIENT_CAP_SERVER_TIME := bit 3.
Definition CLIENT_CAP_CHATHISTORY := bit 4.
Definition CLIENT_CAP_AWAY_NOTIFY := bit 5.
Definition CLIENT_CAP_EXTENDED_JOIN := bit 6.
Definition CLIENT_CAP_LABELED_RESPONSE := bit 7.
Definition CLIENT_CAP_MESSAGE_TAGS := bit 8.

(** [(capabilities & cap) != 0U]. *)
Definition has_cap (capabilities cap : N) : bool := negb (N.land capabilities cap =? 0)%N.

Definition IRC_WIRE_LINE_MAX : nat := 512.
Definition IRC_LINE_CONTENT_MAX : nat := IRC_WIRE_LINE_MAX - 2.
Definition IRCV3_COMBINED_TAG_SECTION_MAX : Z := 8191.
Definition IRCV3_LABEL_ENCODED_MAX : nat := 128.
Definition IRCD_HISTORY_BATCH_ID_MAX : nat := 31.
Definition IRC_SERVER_NAME_MAX : nat := 63.
Definition IRCD_DEFAULT_OUTPUT_QUEUE_MAX_BYTES : Z := 65536.
Definition CLIENT_FORMAT_BUFFER_SIZE : Z :=
  IRCV3_COMBINED_TAG_SECTION_MAX + Z.of_nat IRC_LINE_CONTENT_MAX + 3.
Definition CLIENT_OUTPUT_FLUSH_BUDGET_BYTES : Z := 65536.
Definition INT_MAX : Z := 2 ^ 31 - 1.
Definition SIZE_MOD : Z := 2 ^ 64.

(** What one [send] or [SSL_write] reports. *)
Inductive WriteResult := Wrote (n : nat) | WantRead | WantWrite | WriteFailed.

(** The output part of [struct Client], with the oracle and the two records of
    what crossed the transport. *)
Record Conn := MkConn {
  ssl : bool;
  tls_state : ClientTlsState;
  input_retry_pending : bool;
  outbuf : cstr;
  outbuf_start : nat;
  outbuf_len : nat;
  outbuf_capacity : Z;
  outbuf_limit : Z;
  output_retry_pending : bool;
  output_want_read : bool;
  output_retry_length : nat;
  output_overflowed : bool;
  labeled_response_active : bool;
  labeled_response_started : bool;
  labeled_response_suppressed : N;
  labeled_response_label : cstr;
  labeled_response_batch : cstr;
  labeled_response_server : cstr;
  sys_io : list WriteResult;
  sys_alloc : list bool;
  wire : cstr;
  ssl_writes : list (cstr * bool) }.

Definition Conn_eta (c : Conn) : Conn :=
  MkConn (ssl c) (tls_state c) (input_retry_pending c) (outbuf c) (outbuf_start c)
    (outbuf_len c) (outbuf_capacity c) (outbuf_limit c) (output_retry_pending c)
    (output_want_read c) (output_retry_length c) (output_overflowed c)
    (labeled_response_active c) (labeled_response_started c)
    (labeled_response_suppressed c) (labeled_response_label c) (labeled_response_batch
    c) (labeled_response_server c) (sys_io c) (sys_alloc c) (wire c) (ssl_writes c).

Definition set_tls_state (v : ClientTlsState) (c : Conn) : Conn := ltac:(field_update Conn_eta tls_state v c).
Definition set_input_retry_pending (v : bool) (c : Conn) : Conn := ltac:(field_update Conn_eta input_retry_pending v c).
Definition set_outbuf (v : cstr) (c : Conn) : Conn := ltac:(field_update Conn_eta outbuf v c).
Definition set_outbuf_start (v : nat) (c : Conn) : Conn := ltac:(field_update Conn_eta outbuf_start v c).
Definition set_outbuf_len (v : nat) (c : Conn) : Conn := ltac:(field_update Conn_eta outbuf_len v c).
Definition set_outbuf_capacity (v : Z) (c : Conn) : Conn := ltac:(field_update Conn_eta outbuf_capacity v c).
Definition set_outbuf_limit (v : Z) (c : Conn) : Conn := ltac:(field_update Conn_eta outbuf_limit v c).
Definition set_output_retry_pending (v : bool) (c : Conn) : Conn := ltac:(field_update Conn_eta output_retry_pending v c).
Definition set_output_want_read (v : bool) (c : Conn) : Conn := ltac:(field_update Conn_eta output_want_read v c).
Definition set_output_retry_length (v : nat) (c : Conn) : Conn := ltac:(field_update Conn_eta output_retry_length v c).
Definition set_output_overflowed (v : bool) (c : Conn) : Conn := ltac:(field_update Conn_eta output_overflowed v c).
Definition set_labeled_response_active (v : bool) (c : Conn) : Conn := ltac:(field_update Conn_eta labeled_response_active v c).
Definition set_labeled_response_started (v : bool) (c : Conn) : Conn := ltac:(field_update Conn_eta labeled_response_started v c).
Definition set_labeled_response_suppressed (v : N) (c : Conn) : Conn := ltac:(field_update Conn_eta labeled_response_suppressed v c).
Definition set_labeled_response_label (v : cstr) (c : Conn) : Conn := ltac:(field_update Conn_eta labeled_response_label v c).
Definition set_labeled_response_batch (v : cstr) (c : Conn) : Conn := ltac:(field_update Conn_eta labeled_response_batch v c).
Definition set_labeled_response_server (v : cstr) (c : Conn) : Conn := ltac:(field_update Conn_eta labeled_response_server v c).
Definition set_sys_io (v : list WriteResult) (c : Conn) : Conn := ltac:(field_update Conn_eta sys_io v c).
Definition set_sys_alloc (v : list bool) (c : Conn) : Conn := ltac:(field_update Conn_eta sys_alloc v c).
Definition set_wire (v : cstr) (c : Conn) : Conn := ltac:(field_update Conn_eta wire v c).
Definition set_ssl_writes (v : list (cstr * bool)) (c : Conn) : Conn := ltac:(field_update Conn_eta ssl_writes v c).

(** The output part of a client as [client_create] leaves it, on a connection
    with or without an OpenSSL session and with a given environment. *)
Definition conn_create (tls : bool) (io : list WriteResult) (allocs : list bool) : Conn :=
  MkConn tls (if tls then CLIENT_TLS_HANDSHAKE else CLIENT_TLS_NONE) false
    [] 0 0 0 IRCD_DEFAULT_OUTPUT_QUEUE_MAX_BYTES false false 0 false
    false false 0 [] [] [] io allocs [] [].

(** ** The queue *)

(** Bytes queued and not yet written. *)
Definition pending (c : Conn) : cstr := take (outbuf_len c) (drop (outbuf_start c) (outbuf c)).

Definition client_set_output_limit (c : Conn) (limit : Z) : Conn :=
  let c := set_outbuf_limit limit c in
  if (limit <? Z.of_nat (outbuf_len c))%Z then set_output_overflowed true c else c.

Definition client_output_pending (c : Conn) : bool := negb (outbuf_len c =? 0).

(** The doubling loop of [queue_append].  Every round doubles the capacity or
    sets it to the limit, after which the loop ends, so 64 rounds are enough for
    a [size_t]. *)
Fixpoint grow_capacity (fuel : nat) (capacity needed limit : Z) : option Z :=
  if (needed <=? capacity)%Z then Some capacity else
  match fuel with
  | 0 => None
  | S fuel' =>
      let next := ((capacity * 2) mod SIZE_MOD)%Z in
      let next := if (next <? capacity)%Z || (limit <? next)%Z then limit else next in
      if (next <? needed)%Z && (next =? limit)%Z then Some next
      else grow_capacity fuel' next needed limit
  end.

(** [memmove(outbuf, outbuf + start, len)] and [memcpy(outbuf + at, data)] on the
    bytes of the buffer. *)
Definition compact (c : Conn) : Conn :=
  set_outbuf_start 0 (set_outbuf (pending c ++ drop (outbuf_len c) (outbuf c)) c).
Definition copy_in (c : Conn) (data : cstr) : Conn :=
  let pos := outbuf_start c + outbuf_len c in
  set_outbuf_len (outbuf_len c + length data)
    (set_outbuf (take pos (outbuf c) ++ data ++ drop (pos + length data) (outbuf c)) c).

Definition realloc (c : Conn) : bool * Conn :=
  (hd true (sys_alloc c), set_sys_alloc (tail (sys_alloc c)) c).

Definition overflow (c : Conn) : Z * Conn := ((-1)%Z, set_output_overflowed true c).

Definition queue_append (c : Conn) (data : cstr) : Z * Conn :=
  let len := Z.of_nat (length data) in
  if (len =? 0)%Z then (0%Z, c) else
  if (outbuf_limit c =? 0)%Z ||
     ((outbuf_limit c - Z.of_nat (outbuf_len c)) mod SIZE_MOD <? len)%Z
  then overflow c else
  let c := if negb (outbuf_start c =? 0) &&
              (outbuf_capacity c <? Z.of_nat (outbuf_start c + outbuf_len c) + len)%Z
           then compact c else c in
  let needed := (Z.of_nat (outbuf_start c + outbuf_len c) + len)%Z in
  if (outbuf_capacity c <? needed)%Z then
    let capacity := if (outbuf_capacity c =? 0)%Z then 4096%Z else outbuf_capacity c in
    match grow_capacity 64 capacity needed (outbuf_limit c) with
    | None => overflow c
    | Some capacity =>
        if (capacity <? needed)%Z then overflow c else
        let '(ok, c) := realloc c in
        if negb ok then overflow c
        else (0%Z, copy_in (set_outbuf_capacity capacity c) data)
    end
  else (0%Z, copy_in c data).

(** ** Transport *)

(** One [send] or [SSL_write] of [data]. *)
Definition sys_write (c : Conn) (data : cstr) : WriteResult * Conn :=
  match sys_io c with
  | [] => (WantWrite, c)
  | Wrote n :: rest =>
      let n := Nat.max 1 (Nat.min n (length data)) in
      (Wrote n, set_wire (wire c ++ take n data) (set_sys_io rest c))
  | r :: rest => (r, set_sys_io rest c)
  end.

Definition clear_retry (c : Conn) : Conn :=
  set_output_retry_length 0 (set_output_want_read false (set_output_retry_pending false c)).

Definition wants_retry (r : WriteResult) : bool :=
  match r with WantRead | WantWrite => true | Wrote _ | WriteFailed => false end.

Definition established (c : Conn) : bool := bool_decide (tls_state c = CLIENT_TLS_ESTABLISHED).

(** The TLS and the plain branch of [transport_write]: return code, [*written] and
    the connection after. *)
Definition tls_write (c : Conn) (data : cstr) : Z * nat * Conn :=
  if input_retry_pending c then (0%Z, 0, c) else
  if output_retry_pending c &&
     ((output_retry_length c =? 0) || (length data <? output_retry_length c))
  then ((-1)%Z, 0, c) else
  let chunk := if output_retry_pending c then output_retry_length c
               else if (INT_MAX <? Z.of_nat (length data))%Z then Z.to_nat INT_MAX
               else length data in
  let '(r, c) := sys_write c (take chunk data) in
  let c := set_ssl_writes ((take chunk data, wants_retry r) :: ssl_writes c) c in
  match r with
  | Wrote n => (1%Z, n, clear_retry c)
  | WantRead =>
      (0%Z, 0, set_output_retry_length chunk
                 (set_output_want_read true (set_output_retry_pending true c)))
  | WantWrite =>
      (0%Z, 0, set_output_retry_length chunk
                 (set_output_want_read false (set_output_retry_pending true c)))
  | WriteFailed => ((-1)%Z, 0, c)
  end.

Definition plain_write (c : Conn) (data : cstr) : Z * nat * Conn :=
  let '(r, c) := sys_write c data in
  let c := set_output_retry_length 0 (set_output_retry_pending false c) in
  match r with
  | Wrote n => (1%Z, n, c)
  | WantRead | WantWrite => (0%Z, 0, c)
  | WriteFailed => ((-1)%Z, 0, c)
  end.

Definition transport_write (c : Conn) (data : cstr) : Z * nat * Conn :=
  if ssl c && negb (established c) then (0%Z, 0, clear_retry c)
  else if established c && ssl c then tls_write c data
  else plain_write c data.

(** The loop of [client_flush_output]: [None] is running out of fuel, [Some (Some
    rc)] an early return, [Some None] the end of the loop.  A round that goes on
    has written a byte, so one more round than there are queued bytes is enough. *)
Fixpoint flush_loop (fuel : nat) (flushed : Z) (c : Conn) : option (option Z * Conn) :=
  if negb (outbuf_len c =? 0) && (flushed <? CLIENT_OUTPUT_FLUSH_BUDGET_BYTES)%Z then
    match fuel with
    | 0 => None
    | S fuel' =>
        let remaining := (CLIENT_OUTPUT_FLUSH_BUDGET_BYTES - flushed)%Z in
        let attempt := if (Z.of_nat (outbuf_len c) <? remaining)%Z then outbuf_len c
                       else Z.to_nat remaining in
        let attempt := if output_retry_pending c && (attempt <? output_retry_length c)
                       then output_retry_length c else attempt in
        let '(rc, written, c) := transport_write c (take attempt (drop (outbuf_start c) (outbuf c))) in
        if (rc <? 0)%Z then Some (Some (-1)%Z, c) else
        if (rc =? 0)%Z then Some (Some 0%Z, c) else
        flush_loop fuel' (flushed + Z.of_nat written)
          (set_outbuf_len (outbuf_len c - written)
             (set_outbuf_start (outbuf_start c + written) c))
    end
  else Some (None, c).

Definition client_flush_output (c : Conn) : option (Z * Conn) :=
  match flush_loop (outbuf_len c) 0 c with
  | None => None
  | Some (Some rc, c) => Some (rc, c)
  | Some (None, c) =>
      if negb (outbuf_len c =? 0) then Some (0%Z, c)
      else Some (1%Z, clear_retry (set_outbuf_start 0 c))
  end.

(** The direct-write loop of [client_send_raw] on what is left to send. *)
Fixpoint send_loop (fuel : nat) (c : Conn) (data : cstr) : option (bool * cstr * Conn) :=
  match data with
  | [] => Some (true, [], c)
  | _ =>
      match fuel with
      | 0 => None
      | S fuel' =>
          let '(rc, written, c) := transport_write c data in
          if (rc <? 0)%Z then Some (false, data, c) else
          if (rc =? 0)%Z then Some (true, data, c) else
          send_loop fuel' c (drop written data)
      end
  end.

Definition sent_result (data : cstr) : Z :=
  let n := Z.of_nat (length data) in if (INT_MAX <? n)%Z then INT_MAX else n.

Definition client_send_raw (c : Conn) (data : cstr) : Z * Conn :=
  if empty data then (0%Z, c) else
  if output_overflowed c then ((-1)%Z, c) else
  if negb (outbuf_len c =? 0) then
    let '(rc, c) := queue_append c data in
    if negb (rc =? 0)%Z then ((-1)%Z, c) else (sent_result data, c)
  else
    match send_loop (length data) c data with
    | None => ((-1)%Z, c)
    | Some (false, _, c) => ((-1)%Z, c)
    | Some (true, rest, c) =>
        let '(rc, c) := queue_append c rest in
        if negb (rc =? 0)%Z then ((-1)%Z, c) else (sent_result data, c)
    end.

(** ** The line layer *)

Definition no_crlf (line : cstr) : bool := negb (has_char CR line) && negb (has_char LF line).

Definition client_line_content_fits (line : cstr) : bool :=
  if negb (no_crlf line) then false else
  if negb (Ascii.eqb (char0 line) "@") then length line <=? IRC_LINE_CONTENT_MAX else
  match span (Ascii.eqb " ") line with
  | (_, []) => false
  | (tags, _ :: message) =>
      if length tags =? 1 then false else
      (Z.of_nat (length tags) + 1 <=? IRCV3_COMBINED_TAG_SECTION_MAX)%Z &&
      (length message <=? IRC_LINE_CONTENT_MAX)
  end.

(** The tag loop of [line_has_tag] on the bytes between [cursor] and [end]. *)
Fixpoint tag_loop (fuel : nat) (cursor wanted : cstr) : bool :=
  match fuel, cursor with
  | 0, _ | _, [] => false
  | S fuel', _ =>
      let '(token, rest) := span (Ascii.eqb ";") cursor in
      if streq (span (Ascii.eqb "=") token).1 wanted then true
      else tag_loop fuel' (tail rest) wanted
  end.

Definition line_has_tag (line wanted : cstr) : bool :=
  if negb (Ascii.eqb (char0 line) "@") then false else
  match span (Ascii.eqb " ") line with
  | (_, []) => false
  | (tags, _) => tag_loop (length tags) (tail tags) wanted
  end.

(** [None] when the result does not fit the formatting buffer. *)
Definition fits (size : Z) (s : cstr) : option cstr :=
  if (Z.of_nat (length s) <? size)%Z then Some s else None.

Lemma fits_Some size s t : fits size s = Some t → t = s.
Proof. unfold fits. by destruct (_ <? _)%Z; intros [= <-]. Qed.

Definition prepend_tag (tag line : cstr) : option cstr :=
  if empty tag then None else
  fits CLIENT_FORMAT_BUFFER_SIZE
    (if Ascii.eqb (char0 line) "@" then format "@%s;%s" [tag; tail line]
     else format "@%s %s" [tag; line]).

(** [sizeof(tag)] in [client_send_line_internal]. *)
Definition TAG_BUFFER_SIZE : Z := Z.of_nat IRCD_HISTORY_BATCH_ID_MAX + 16.

(** What [client_send_line_internal] does after the labeled-response step, and
    all it does when [apply_labeled_response] is 0.  [timestamp] is the text
    [current_timestamp] produces. *)
Definition with_server_time (capabilities : N) (timestamp outbound : cstr) : cstr :=
  if has_cap capabilities CLIENT_CAP_SERVER_TIME && negb (line_has_tag outbound "time") then
    match fits TAG_BUFFER_SIZE (format "time=%s" [timestamp]) ≫= λ tag, prepend_tag tag outbound with
    | Some tagged => if client_line_content_fits tagged then tagged else outbound
    | None => outbound
    end
  else outbound.

Definition frame (outbound : cstr) : option cstr :=
  if negb (client_line_content_fits outbound) then None else
  match fits CLIENT_FORMAT_BUFFER_SIZE (outbound ++ [CR; LF]) with
  | None => None
  | Some buffer =>
      if negb (Ascii.eqb (char0 outbound) "@") && (IRC_WIRE_LINE_MAX <? length buffer)
      then None else Some buffer
  end.

Definition send_outbound (capabilities : N) (timestamp : cstr) (c : Conn) (outbound : cstr)
    : Z * Conn :=
  match frame (with_server_time capabilities timestamp outbound) with
  | None => ((-1)%Z, c)
  | Some buffer => client_send_raw c buffer
  end.

(** The identifier of a new labeled-response batch: the serial number is a 64-bit
    counter that skips 0. *)
Definition next_serial (serial : N) : N :=
  let s := ((serial + 1) mod 2 ^ 64)%N in if (s =? 0)%N then 1%N else s.

Definition batch_id (serial : N) : cstr :=
  snprintf (IRCD_HISTORY_BATCH_ID_MAX + 1) (format "l%llx" [hex serial]).

Definition batch_start (c : Conn) (batch : cstr) : cstr :=
  format "@label=%s :%s BATCH +%s labeled-response"
    [labeled_response_label c; labeled_response_server c; batch].

(** Opens the batch of a labeled response on its first line. *)
Definition start_batch (capabilities : N) (timestamp : cstr) (serial : N) (c : Conn)
    : Z * N * Conn :=
  let serial := next_serial serial in
  let c := set_labeled_response_batch (batch_id serial) c in
  match fits CLIENT_FORMAT_BUFFER_SIZE (batch_start c (labeled_response_batch c)) with
  | None => ((-1)%Z, serial, c)
  | Some start =>
      let c := set_labeled_response_started true c in
      let '(rc, c) := send_outbound capabilities timestamp c start in
      (rc, serial, c)
  end.

Definition labeling (c : Conn) : bool :=
  labeled_response_active c && (labeled_response_suppressed c =? 0)%N.

(** [client_send_line]: result, batch serial and connection after. *)
Definition client_send_line (capabilities : N) (timestamp : cstr) (serial : N) (c : Conn)
    (line : cstr) : Z * N * Conn :=
  if labeling c then
    let '(rc, serial, c) :=
      if labeled_response_started c then (0%Z, serial, c)
      else start_batch capabilities timestamp serial c in
    if (rc <? 0)%Z then ((-1)%Z, serial, c) else
    match
      if line_has_tag line "batch" then Some line
      else fits TAG_BUFFER_SIZE (format "batch=%s" [labeled_response_batch c]) ≫= λ tag,
           prepend_tag tag line
    with
    | None => ((-1)%Z, serial, c)
    | Some outbound =>
        let '(rc, c) := send_outbound capabilities timestamp c outbound in (rc, serial, c)
    end
  else
    let '(rc, c) := send_outbound capabilities timestamp c line in (rc, serial, c).

(** [client_sendf] on the formatted text. *)
Definition client_sendf (capabilities : N) (timestamp : cstr) (serial : N) (c : Conn)
    (line : cstr) : Z * N * Conn :=
  match fits CLIENT_FORMAT_BUFFER_SIZE line with
  | None => ((-1)%Z, serial, c)
  | Some line => client_send_line capabilities timestamp serial c line
  end.

Definition client_labeled_response_begin (c : Conn) (server_name label : cstr) : Conn :=
  if empty label then c else
  set_labeled_response_label (snprintf (IRCV3_LABEL_ENCODED_MAX + 1) label)
  (set_labeled_response_server (snprintf (IRC_SERVER_NAME_MAX + 1) server_name)
  (set_labeled_response_batch []
  (set_labeled_response_suppressed 0
  (set_labeled_response_started false
  (set_labeled_response_active true c))))).

(** [client_labeled_response_end], with the result of the send it discards. *)
Definition labeled_response_end_result (capabilities : N) (timestamp : cstr) (c : Conn) : Z * Conn :=
  if negb (labeled_response_active c) then (0%Z, c) else
  let c := set_labeled_response_suppressed 0 (set_labeled_response_active false c) in
  let line := if labeled_response_started c
              then format ":%s BATCH -%s" [labeled_response_server c; labeled_response_batch c]
              else format "@label=%s :%s ACK" [labeled_response_label c; labeled_response_server c] in
  let '(rc, c) := match fits CLIENT_FORMAT_BUFFER_SIZE line with
                  | Some line => send_outbound capabilities timestamp c line
                  | None => ((-1)%Z, c)
                  end in
  (rc, set_labeled_response_server [] (set_labeled_response_batch []
         (set_labeled_response_label [] (set_labeled_response_started false c)))).

Definition client_labeled_response_end (capabilities : N) (timestamp : cstr) (c : Conn) : Conn :=
  (labeled_response_end_result capabilities timestamp c).2.

Definition client_labeled_response_suppress (c : Conn) (suppress : bool) : Conn :=
  if suppress then
    set_labeled_response_suppressed ((labeled_response_suppressed c + 1) mod 2 ^ 32)%N c
  else if negb (labeled_response_suppressed c =? 0)%N then
    set_labeled_response_suppressed (labeled_response_suppressed c - 1)%N c
  else c.

(** ** The queue invariant *)

(** OpenSSL's rule for nonblocking writes: after an [SSL_write] that asked to be
    repeated, the next one offers the same bytes. *)
Fixpoint retry_discipline (calls : list (cstr * bool)) : Prop :=
  match calls with
  | (d2, _) :: (((d1, again) :: _) as calls') => (again = true → d2 = d1) ∧ retry_discipline calls'
  | _ => True
  end.

(** The bytes the last [SSL_write] wants to see again. *)
Definition expected (c : Conn) : option cstr :=
  match ssl_writes c with (d, true) :: _ => Some d | _ => None end.

(** A write of [data] would respect a retry in progress. *)
Record retry_ok (c : Conn) (data : cstr) : Prop := {
  retry_discipline_ok : retry_discipline (ssl_writes c);
  retry_pending_ok : output_retry_pending c = true →
    ssl c = true ∧ established c = true ∧ 0 < output_retry_length c ≤ length data;
  retry_expected : ∀ d, expected c = Some d →
    output_retry_pending c = true ∧ take (output_retry_length c) data = d }.

Record conn_ok (c : Conn) : Prop := {
  ok_extent : outbuf_start c + outbuf_len c ≤ length (outbuf c);
  ok_capacity : (Z.of_nat (length (outbuf c)) ≤ outbuf_capacity c)%Z;
  ok_limit : (0 ≤ outbuf_limit c < SIZE_MOD)%Z;
  ok_len : output_overflowed c = true ∨ (Z.of_nat (outbuf_len c) ≤ outbuf_limit c)%Z;
  ok_retry : retry_discipline (ssl_writes c) ∧
    (retry_ok c (pending c) ∨ (output_overflowed c = true ∧ outbuf_len c = 0)) }.

(** Everything the connection has accepted, in order: what is on the wire and
    what is queued. *)
Definition stream (c : Conn) : cstr := wire c ++ pending c.

(** Two connections that differ only in what a transport write changes. *)
Record same_queue (c c' : Conn) : Prop := {
  same_ssl : ssl c' = ssl c ∧ tls_state c' = tls_state c;
  same_outbuf : outbuf c' = outbuf c;
  same_start : outbuf_start c' = outbuf_start c;
  same_len : outbuf_len c' = outbuf_len c;
  same_capacity : outbuf_capacity c' = outbuf_capacity c;
  same_limit : outbuf_limit c' = outbuf_limit c;
  same_overflowed : output_overflowed c' = output_overflowed c }.

#[export] Instance same_queue_refl : Reflexive same_queue.
Proof. intros c. split; auto. Qed.
#[export] Instance same_queue_trans : Transitive same_queue.
Proof. intros a b c [[]] [[]]. split; [split|..]; congruence. Qed.

Lemma same_queue_pending c c' : same_queue c c' → pending c' = pending c.
Proof. intros []. unfold pending. congruence. Qed.

Lemma sys_write_spec c data r c' :
  sys_write c data = (r, c') → data ≠ [] →
  same_queue c c' ∧ ssl_writes c' = ssl_writes c ∧
  output_retry_pending c' = output_retry_pending c ∧
  output_retry_length c' = output_retry_length c ∧
  match r with
  | Wrote n => 0 < n ≤ length data ∧ wire c' = wire c ++ take n data
  | _ => wire c' = wire c
  end.
Proof.
  unfold sys_write. intros H Hd. assert (0 < length data) by (destruct data; simpl in *; [done|lia]).
  destruct (sys_io c) as [|[n| | |] io]; injection H as <- <-; simpl;
    (split; [split; auto|]); auto 6 with lia.
Qed.

(** No retry is in progress: any bytes may be offered. *)
Definition idle (c : Conn) : Prop := ∀ data, retry_ok c data.

(** What a transport write of [data] guarantees. *)
Definition write_post (c : Conn) (data : cstr) (res : Z * nat * Conn) : Prop :=
  let '(rc, n, c') := res in
  same_queue c c' ∧ n ≤ length data ∧ wire c' = wire c ++ take n data ∧
  ((rc = 1%Z ∧ 0 < n ∧ idle c') ∨
   (rc = 0%Z ∧ n = 0 ∧ retry_ok c' data) ∨
   (rc = (-1)%Z ∧ n = 0 ∧ retry_ok c' data ∧ (idle c → idle c'))).

Lemma idle_not_pending c : idle c → output_retry_pending c = false.
Proof.
  intros H. destruct (output_retry_pending c) eqn:E; [|done].
  destruct (retry_pending_ok _ _ (H []) E) as (_ & _ & ?). simpl in *. lia.
Qed.

Lemma idle_intro c :
  retry_discipline (ssl_writes c) → output_retry_pending c = false → expected c = None → idle c.
Proof. intros H1 H2 H3 data. split; congruence. Qed.

Lemma idle_expected c : idle c → expected c = None.
Proof.
  intros H. destruct (expected c) eqn:E; [|done].
  apply (retry_expected _ _ (H [])) in E as [E _]. by rewrite idle_not_pending in E.
Qed.

Lemma retry_ok_idle c data : retry_ok c data → output_retry_pending c = false → idle c.
Proof.
  intros [H1 H2 H3] Hp. apply idle_intro; auto.
  destruct (expected c) as [d|] eqn:E; [|done]. destruct (H3 d eq_refl). congruence.
Qed.

Lemma nothing_written c data c' :
  same_queue c c' → wire c' = wire c → retry_ok c' data → write_post c data (0%Z, 0, c').
Proof. intros. unfold write_post. rewrite take_0, app_nil_r. auto 10 with lia. Qed.

Lemma write_failed c data c' :
  same_queue c c' → wire c' = wire c → retry_ok c' data → (idle c → idle c') →
  write_post c data ((-1)%Z, 0, c').
Proof. intros. unfold write_post. rewrite take_0, app_nil_r. auto 10 with lia. Qed.

(** [SSL_write] sees the bytes it asked for. *)
Lemma ssl_call_ok c data chunk again :
  retry_ok c data → (output_retry_pending c = true → chunk = output_retry_length c) →
  retry_discipline ((take chunk data, again) :: ssl_writes c).
Proof.
  intros [Hdisc _ Hexp] Hchunk. simpl. destruct (ssl_writes c) as [|[d b] l] eqn:El; [done|].
  split; [|exact Hdisc]. intros ->. destruct (Hexp d) as [Hp <-].
  - unfold expected. by rewrite El.
  - by rewrite Hchunk.
Qed.

Lemma tls_write_spec c data :
  data ≠ [] → ssl c = true → established c = true → retry_ok c data →
  write_post c data (tls_write c data).
Proof.
  intros Hd Hssl Hest Hok. unfold tls_write. destruct (input_retry_pending c).
  { apply nothing_written; auto; reflexivity. }
  destruct (output_retry_pending c && _) eqn:Hbad.
  { bools. destruct (retry_pending_ok _ _ Hok) as (_ & _ & Hl); [done|].
    match goal with H : _ || _ = true |- _ => apply orb_true_iff in H as [?|?] end; bools; lia. }
  clear Hbad. set (chunk := if output_retry_pending c then _ else _).
  assert (Hch : 0 < chunk ≤ length data).
  { subst chunk. destruct (output_retry_pending c) eqn:E; [by apply (retry_pending_ok _ _ Hok)|].
    assert (0 < length data) by (destruct data; simpl in *; [done|lia]).
    destruct (INT_MAX <? _)%Z eqn:?; unfold INT_MAX in *; lia. }
  pose proof (λ again, ssl_call_ok c data chunk again Hok) as Hcall.
  assert (Hp : output_retry_pending c = true → chunk = output_retry_length c)
    by (subst chunk; by intros ->).
  clearbody chunk. destruct (sys_write c (take chunk data)) as [r c1] eqn:Hw.
  apply sys_write_spec in Hw as (Hq & Hl & Hrp & Hrl & Hr);
    [|intros E%(f_equal length); rewrite length_take in E; simpl in E; lia].
  assert (ssl c1 = true ∧ established c1 = true) as [Hs1 He1].
  { destruct Hq as [[E1 E2]]. unfold established in *. rewrite E1, E2. auto. }
  destruct r as [m| | |].
  - destruct Hr as [Hm Hwire]. rewrite length_take in Hm. simpl.
    split; [etrans; [exact Hq|]; by split|]. split; [lia|]. split.
    { rewrite Hwire, take_take. do 2 f_equal. lia. }
    left. split; [done|]. split; [lia|]. apply idle_intro; [|done..].
    simpl. rewrite Hl. exact (Hcall false Hp).
  - apply nothing_written; [etrans; [exact Hq|]; by split | done |].
    split; simpl; [rewrite Hl; exact (Hcall true Hp) | auto | by intros d [= <-]].
  - apply nothing_written; [etrans; [exact Hq|]; by split | done |].
    split; simpl; [rewrite Hl; exact (Hcall true Hp) | auto | by intros d [= <-]].
  - apply write_failed; [etrans; [exact Hq|]; by split | done | |].
    + split; simpl; [rewrite Hl; exact (Hcall false Hp) | | done].
      rewrite Hrp, Hrl. intros E. apply (retry_pending_ok _ _ Hok) in E. intuition.
    + intros Hi%idle_not_pending. apply idle_intro; simpl; [|congruence|done].
      rewrite Hl. exact (Hcall false Hp).
Qed.

Lemma plain_write_spec c data :
  data ≠ [] → idle c → write_post c data (plain_write c data).
Proof.
  intros Hd Hi. unfold plain_write. destruct (sys_write c data) as [r c1] eqn:Hw.
  apply sys_write_spec in Hw as (Hq & Hl & Hrp & Hrl & Hr); [|done].
  assert (Hi' : idle (set_output_retry_length 0 (set_output_retry_pending false c1))).
  { apply idle_intro; simpl; [|done|]; [|apply idle_expected in Hi; unfold expected in *];
      simpl; rewrite Hl; [by destruct (Hi []) | done]. }
  assert (same_queue c (set_output_retry_length 0 (set_output_retry_pending false c1)))
    by (etrans; [exact Hq|]; by split).
  destruct r as [m| | |];
    [|apply nothing_written; auto|apply nothing_written; auto|apply write_failed; auto].
  destruct Hr. simpl. auto 10 with lia.
Qed.

Lemma transport_write_spec c data :
  data ≠ [] → retry_ok c data → write_post c data (transport_write c data).
Proof.
  intros Hd Hok. pose proof (retry_pending_ok _ _ Hok) as Hpend. unfold transport_write.
  destruct (ssl c) eqn:Hs; cbn [andb negb].
  - destruct (established c) eqn:He; cbn [andb negb]; [by apply tls_write_spec|].
    assert (output_retry_pending c = false) as Hp
      by (destruct (output_retry_pending c); [naive_solver|done]).
    apply (retry_ok_idle _ _ Hok) in Hp. apply nothing_written; [by split|done|].
    split; simpl; [by destruct Hok | done |]. intros d E.
    apply idle_expected in Hp. unfold expected in *. simpl in E. congruence.
  - rewrite andb_false_r. apply plain_write_spec; auto.
    apply (retry_ok_idle _ _ Hok). destruct (output_retry_pending c); [|done]. destruct Hpend; congruence.
Qed.

(** Growing always reaches a capacity that fits what the limit allows: the
    [capacity < needed] test after the loop never fires for such a request. *)
Lemma grow_capacity_enough fuel capacity needed limit :
  (0 < capacity)%Z → (SIZE_MOD ≤ capacity * 2 ^ Z.of_nat fuel)%Z →
  (needed ≤ limit < SIZE_MOD)%Z →
  ∃ r, grow_capacity fuel capacity needed limit = Some r ∧
       (needed ≤ r ≤ Z.max capacity limit)%Z.
Proof.
  revert capacity. induction fuel as [|fuel IH]; intros capacity Hc Hf Hn; simpl.
  - destruct (Z.leb_spec needed capacity); [eexists; split; [done|lia] | simpl in Hf; lia].
  - destruct (Z.leb_spec needed capacity); [eexists; split; [done|lia]|].
    set (next := ((capacity * 2) mod SIZE_MOD)%Z).
    destruct ((next <? capacity)%Z || (limit <? next)%Z) eqn:E.
    + replace (limit <? needed)%Z with false by lia. simpl.
      exists limit. split; [|lia]. destruct fuel; simpl;
        by replace (needed <=? limit)%Z with true by lia.
    + apply orb_false_elim in E as [E1 E2].
      assert (next = capacity * 2)%Z as ->.
      { subst next. apply Z.mod_small. unfold SIZE_MOD in *.
        destruct (Z_lt_ge_dec (capacity * 2) (2 ^ 64)) as [|Hge]; [lia|].
        rewrite <-(Z_mod_plus_full _ (-1)), Z.mod_small in E1 by lia. lia. }
      destruct (_ && _) eqn:E3.
      { bools. lia. }
      destruct (IH (capacity * 2)%Z) as (r & Hr & Hb); [lia| |done|].
      { rewrite Nat2Z.inj_succ, Z.pow_succ_r in Hf by lia. lia. }
      exists r. split; [done|lia].
Qed.

Record shape (c : Conn) : Prop := {
  shape_extent : outbuf_start c + outbuf_len c ≤ length (outbuf c);
  shape_capacity : (Z.of_nat (length (outbuf c)) ≤ outbuf_capacity c)%Z;
  shape_limit : (0 ≤ outbuf_limit c < SIZE_MOD)%Z }.

(** What the queue operations leave alone. *)
Record same_transport (c c' : Conn) : Prop := {
  same_tls : ssl c' = ssl c ∧ tls_state c' = tls_state c;
  same_retry : output_retry_pending c' = output_retry_pending c ∧
               output_retry_length c' = output_retry_length c;
  same_wire : wire c' = wire c ∧ ssl_writes c' = ssl_writes c;
  same_max : outbuf_limit c' = outbuf_limit c }.

#[export] Instance same_transport_refl : Reflexive same_transport.
Proof. intros c. split; auto. Qed.
#[export] Instance same_transport_trans : Transitive same_transport.
Proof. intros a b c [[] [] []] [[] [] []]. split; try split; congruence. Qed.

Lemma retry_ok_transport c c' data :
  same_transport c c' → retry_ok c data → retry_ok c' data.
Proof.
  intros [[E1 E2] [E3 E4] [E5 E6]] [H1 H2 H3].
  split; unfold expected, established in *; rewrite ?E1, ?E2, ?E3, ?E4, ?E6; auto.
Qed.

Lemma length_pending c : shape c → length (pending c) = outbuf_len c.
Proof. intros []. unfold pending. rewrite length_take, length_drop. lia. Qed.

Lemma compact_spec c :
  shape c → shape (compact c) ∧ pending (compact c) = pending c ∧ same_transport c (compact c).
Proof.
  intros Hs. pose proof (length_pending c Hs) as Hl. destruct Hs as [H1 H2 H3].
  assert (length (pending c ++ drop (outbuf_len c) (outbuf c)) = length (outbuf c)) as Hlen
    by (rewrite length_app, Hl, length_drop; lia).
  split; [|split; [|by split]].
  - split; simpl; rewrite ?Hlen; lia.
  - unfold pending at 1. simpl. rewrite drop_0, <-Hl. apply take_app_length.
Qed.

Lemma copy_in_spec c data :
  shape c →
  (Z.of_nat (outbuf_start c + outbuf_len c + length data) ≤ outbuf_capacity c)%Z →
  shape (copy_in c data) ∧ pending (copy_in c data) = pending c ++ data ∧
  same_transport c (copy_in c data).
Proof.
  intros [H1 H2 H3] Hcap. set (pos := outbuf_start c + outbuf_len c) in *.
  assert (Hlen : length (take pos (outbuf c) ++ data ++ drop (pos + length data) (outbuf c)) =
                 Nat.max (length (outbuf c)) (pos + length data)).
  { rewrite !length_app, length_take, length_drop. lia. }
  split; [|split; [|by split]].
  - split; simpl; fold pos; rewrite ?Hlen; lia.
  - unfold pending. simpl. fold pos.
    rewrite drop_app_le by (rewrite length_take; lia).
    replace (drop (outbuf_start c) (take pos (outbuf c)))
      with (take (outbuf_len c) (drop (outbuf_start c) (outbuf c)))
      by (subst pos; apply take_drop_commute).
    rewrite app_assoc, take_app_le.
    + rewrite take_ge; [done|]. rewrite length_app, length_take, length_drop. lia.
    + rewrite length_app, length_take, length_drop. lia.
Qed.

(** The part of [queue_append] that grows the buffer first. *)
Lemma grow_append c data (needed := (Z.of_nat (outbuf_len c) + Z.of_nat (length data))%Z) :
  shape c → outbuf_start c = 0 → (outbuf_capacity c < needed ≤ outbuf_limit c)%Z →
  ∃ capacity,
    grow_capacity 64 (if (outbuf_capacity c =? 0)%Z then 4096 else outbuf_capacity c)%Z
      needed (outbuf_limit c) = Some capacity ∧ (needed ≤ capacity)%Z ∧
    let c' := copy_in (set_outbuf_capacity capacity (realloc c).2) data in
    shape c' ∧ pending c' = pending c ++ data ∧ same_transport c c'.
Proof.
  intros Hs H0 Hn. destruct Hs as [H1 H2 H3] eqn:E0. clear E0.
  destruct (grow_capacity_enough 64 (if (outbuf_capacity c =? 0)%Z then 4096 else outbuf_capacity c)%Z
    needed (outbuf_limit c)) as (r & Hr & Hb).
  { destruct (Z.eqb_spec (outbuf_capacity c) 0); lia. }
  { unfold SIZE_MOD. destruct (Z.eqb_spec (outbuf_capacity c) 0); simpl Z.of_nat; lia. }
  { lia. }
  exists r. split; [done|]. split; [lia|]. intros c'.
  destruct (copy_in_spec (set_outbuf_capacity r (realloc c).2) data) as (? & Hp & ?).
  { split; simpl; lia. }
  { simpl. lia. }
  split; [done|]. split; [exact Hp|]. etrans; [|done]. by split.
Qed.

(** An append either adds the bytes at the end or leaves the queue as it was and
    marks the connection overflowed; it fails only for lack of room or memory. *)
Definition append_post (c : Conn) (data : cstr) (res : Z * Conn) : Prop :=
  let '(rc, c') := res in
  shape c' ∧ same_transport c c' ∧
  ((rc = 0%Z ∧ output_overflowed c' = output_overflowed c ∧ pending c' = pending c ++ data ∧
    (data = [] ∨ Z.of_nat (outbuf_len c + length data) ≤ outbuf_limit c)%Z) ∨
   (rc = (-1)%Z ∧ output_overflowed c' = true ∧ pending c' = pending c ∧
    ((outbuf_limit c < Z.of_nat (outbuf_len c + length data))%Z ∨
     head (sys_alloc c) = Some false))).

Lemma queue_append_spec c data :
  shape c → (Z.of_nat (outbuf_len c) ≤ outbuf_limit c)%Z → append_post c data (queue_append c data).
Proof.
  intros Hs Hle. unfold queue_append. destruct (Z.eqb_spec (Z.of_nat (length data)) 0).
  { assert (data = []) as -> by (apply length_zero_iff_nil; lia).
    simpl. rewrite app_nil_r. split; [done|]. split; [reflexivity|]. auto 6. }
  destruct Hs as [H1 H2 H3] eqn:E0. clear E0.
  rewrite Z.mod_small by lia.
  destruct (_ || _) eqn:Hfull.
  { split; [by split|]. split; [by split|]. right. repeat split. left.
    apply orb_true_iff in Hfull as [?|?]; lia. }
  apply orb_false_elim in Hfull as [Hl0 Hfit].
  set (c1 := if _ && _ then compact c else c).
  assert (shape c1 ∧ pending c1 = pending c ∧ same_transport c c1 ∧
          outbuf_len c1 = outbuf_len c ∧
          sys_alloc c1 = sys_alloc c ∧ output_overflowed c1 = output_overflowed c ∧
          ((outbuf_capacity c1 < Z.of_nat (outbuf_start c1 + outbuf_len c1) + Z.of_nat (length data))%Z →
           outbuf_start c1 = 0)) as (Hs1 & Hp1 & Ht1 & Hlen1 & Ha1 & Ho1 & Hst).
  { subst c1. destruct (_ && _) eqn:E.
    - destruct (compact_spec c Hs) as (? & ? & ?). auto 10.
    - do 6 (split; [done|]). intros Hlt. apply andb_false_iff in E as [E|E]; [by bools | apply Z.ltb_ge in E; lia]. }
  clearbody c1. assert (outbuf_limit c1 = outbuf_limit c) as Elim by (by destruct Ht1).
  destruct (Z.ltb_spec (outbuf_capacity c1)
    (Z.of_nat (outbuf_start c1 + outbuf_len c1) + Z.of_nat (length data))) as [Hgrow|Hroom].
  - rewrite (Hst Hgrow) in *. simpl Nat.add in *.
    destruct (grow_append c1 data Hs1 (Hst Hgrow)) as (r & -> & Hr & Hg1 & Hg2 & Hg3); [lia|].
    replace (r <? _)%Z with false by lia. unfold realloc in *. rewrite Ha1 in *. cbn zeta in Hg1, Hg2, Hg3.
    destruct (hd true (sys_alloc c)) eqn:Ea; cbn [negb].
    + split; [done|]. split; [by etrans|]. left. rewrite <-Hp1. auto 6 with lia.
    + split; [destruct Hs1; by split|]. split; [etrans; [exact Ht1|]; by split|].
      right. rewrite <-Hp1. repeat split; auto. right. by destruct (sys_alloc c); simplify_eq/=.
  - destruct (copy_in_spec c1 data Hs1) as (? & Hp & ?); [lia|].
    split; [done|]. split; [by etrans|]. left. rewrite Hp, Hp1. repeat split; auto. right. lia.
Qed.

(** ** Flushing and sending *)

Lemma conn_ok_shape c : conn_ok c → shape c.
Proof. by intros []. Qed.

Lemma write_queued c attempt :
  shape c → retry_ok c (pending c) → 0 < attempt ≤ outbuf_len c →
  (output_retry_pending c = true → output_retry_length c ≤ attempt) →
  let data := take attempt (drop (outbuf_start c) (outbuf c)) in
  data ≠ [] ∧ data = take attempt (pending c) ∧ retry_ok c data.
Proof.
  intros Hs [H1 H2 H3] Ha Hr data. pose proof (length_pending c Hs) as Hl.
  assert (data = take attempt (pending c)) as Ed
    by (unfold data, pending; rewrite take_take; f_equal; lia).
  assert (length data = attempt) as Hd by (rewrite Ed, length_take; lia).
  split; [by destruct data; simpl in *; [lia|]|]. split; [done|]. split; [done| |].
  - intros Hp. destruct (H2 Hp) as (? & ? & ?). specialize (Hr Hp). rewrite Hd. auto with lia.
  - intros d E. destruct (H3 d E) as [Hp <-]. split; [done|]. rewrite Ed, take_take.
    f_equal. specialize (Hr Hp). lia.
Qed.

(** The connection after [written] bytes were taken off the queue. *)
Lemma consume_ok c c' n :
  conn_ok c → same_queue c c' → n ≤ outbuf_len c → idle c' →
  wire c' = wire c ++ take n (pending c) →
  let c'' := set_outbuf_len (outbuf_len c' - n) (set_outbuf_start (outbuf_start c' + n) c') in
  conn_ok c'' ∧ stream c'' = stream c.
Proof.
  intros [H1 H2 H3 H4 H5] [[Q0 Q0'] Q1 Q2 Q3 Q4 Q5 Q6] Hn Hi Hw c''.
  assert (pending c'' = drop n (pending c)) as Hp.
  { unfold c'', pending. simpl. rewrite Q1, Q2, Q3, skipn_firstn_comm, drop_drop. done. }
  split.
  - split; simpl; rewrite ?Q1, ?Q2, ?Q3, ?Q4, ?Q5, ?Q6; try lia.
    + destruct H4; [by left | right; lia].
    + split; [by destruct (Hi [])|]. left. destruct (Hi (pending c'')) as [? ? ?]. by split.
  - unfold stream. rewrite Hp. unfold c''. simpl. rewrite Hw, <-app_assoc. f_equal. apply take_drop.
Qed.

Lemma untouched_ok c c' :
  conn_ok c → same_queue c c' → wire c' = wire c → retry_ok c' (pending c) →
  conn_ok c' ∧ stream c' = stream c.
Proof.
  intros [H1 H2 H3 H4 H5] Hq Hw Hr. pose proof (same_queue_pending c c' Hq) as Hp.
  destruct Hq as [[Q0 Q0'] Q1 Q2 Q3 Q4 Q5 Q6].
  split; [split|]; rewrite ?Q1, ?Q2, ?Q3, ?Q4, ?Q5, ?Q6; auto.
  - split; [by destruct Hr|]. left. by rewrite Hp.
  - unfold stream. congruence.
Qed.

Lemma retry_ok_longer c n data :
  retry_ok c (take n data) → retry_ok c data.
Proof.
  intros [H1 H2 H3]. split; [done| |].
  - intros Hp. destruct (H2 Hp) as (? & ? & Hl). rewrite length_take in Hl. auto with lia.
  - intros d E. destruct (H3 d E) as [Hp Ht]. split; [done|].
    destruct (H2 Hp) as (? & ? & Hl). rewrite length_take in Hl.
    rewrite take_take in Ht. by rewrite Nat.min_l in Ht by lia.
Qed.

Lemma flush_loop_spec fuel flushed c :
  conn_ok c → outbuf_len c ≤ fuel →
  ∃ r c', flush_loop fuel flushed c = Some (r, c') ∧ conn_ok c' ∧ stream c' = stream c ∧
    output_overflowed c' = output_overflowed c ∧ outbuf_limit c' = outbuf_limit c ∧
    (∀ rc, r = Some rc → outbuf_len c' ≠ 0 ∧ (rc = 0 ∨ rc = -1)%Z).
Proof.
  revert flushed c. induction fuel as [|fuel IH]; intros flushed c Hok Hfuel; simpl.
  { replace (outbuf_len c =? 0) with true by (symmetry; apply Nat.eqb_eq; lia). simpl.
    by eexists _, c; split_and!. }
  destruct (negb _ && _) eqn:Hgo; [|by eexists _, c; split_and!]. bools.
  assert (Hretry : retry_ok c (pending c)) by (destruct (ok_retry _ Hok) as [_ [?|[_ ?]]]; [done|lia]).
  pose proof (conn_ok_shape c Hok) as Hs.
  set (a0 := if (Z.of_nat (outbuf_len c) <? _)%Z then _ else _).
  assert (Ha0 : 0 < a0 ≤ outbuf_len c).
  { subst a0. unfold CLIENT_OUTPUT_FLUSH_BUDGET_BYTES in *.
    destruct (Z.ltb_spec (Z.of_nat (outbuf_len c)) (65536 - flushed)); lia. }
  set (a := if output_retry_pending c && _ then _ else a0).
  assert (Ha : 0 < a ≤ outbuf_len c ∧ (output_retry_pending c = true → output_retry_length c ≤ a)).
  { subst a. pose proof (length_pending c Hs).
    destruct (output_retry_pending c) eqn:Hp; simpl; [|by auto].
    destruct (retry_pending_ok _ _ Hretry Hp) as (_ & _ & ?).
    destruct (a0 <? output_retry_length c) eqn:E; bools; (split; [|intros _]); lia. }
  clearbody a. destruct Ha as [Ha1 Ha2].
  destruct (write_queued c a Hs Hretry Ha1 Ha2) as (Hd & Ed & Hrd).
  pose proof (transport_write_spec c _ Hd Hrd) as Hw.
  rewrite Ed in Hw, Hrd |- *. destruct (transport_write c _) as [[rc n] c1].
  destruct Hw as (Hq & Hn & Hwire & [(-> & Hn0 & Hi)|Hstop]).
  - rewrite length_take in Hn. rewrite take_take in Hwire.
    replace (n `min` a) with n in Hwire by lia. simpl.
    destruct (consume_ok c c1 n Hok Hq) as [Hok' Hst]; [lia|done|done|].
    destruct (IH (flushed + Z.of_nat n)%Z _ Hok') as (r & c' & -> & ? & Hs' & Ho & Hl & ?).
    { simpl. rewrite (same_len _ _ Hq). lia. }
    exists r, c'. simpl in Ho, Hl. rewrite (same_overflowed _ _ Hq) in Ho.
    rewrite (same_limit _ _ Hq) in Hl. rewrite Hs'. by split_and!.
  - assert (n = 0 ∧ (rc = 0 ∨ rc = -1)%Z ∧ retry_ok c1 (take a (pending c))) as (-> & Hrc & Hr1)
      by (destruct Hstop as [(? & ? & ?)|(? & ? & ? & ?)]; auto).
    rewrite take_0, app_nil_r in Hwire.
    destruct (untouched_ok c c1 Hok Hq Hwire) as [Hok1 Hst1]; [by eapply retry_ok_longer|].
    assert (outbuf_len c1 ≠ 0) by (rewrite (same_len _ _ Hq); lia).
    destruct Hrc as [-> | ->]; simpl; eexists _, c1; split_and!;
      try done; try (by destruct Hq); intros ? [= <-]; auto.
Qed.

Lemma client_flush_output_spec c :
  conn_ok c →
  ∃ rc c', client_flush_output c = Some (rc, c') ∧ conn_ok c' ∧ stream c' = stream c ∧
    output_overflowed c' = output_overflowed c ∧ outbuf_limit c' = outbuf_limit c ∧
    (rc = 1%Z ↔ pending c' = []).
Proof.
  intros Hok. unfold client_flush_output.
  destruct (flush_loop_spec (outbuf_len c) 0 c Hok) as (r & c' & -> & Hok' & Hst & Ho & Hl & Hrc); [done|].
  pose proof (length_pending c' (conn_ok_shape _ Hok')) as Hlen.
  assert (Hne : outbuf_len c' ≠ 0 → pending c' ≠ []) by (intros ? E; rewrite E in Hlen; simpl in *; lia).
  destruct r as [rc|].
  - destruct (Hrc rc eq_refl) as [Hn Hv]. exists rc, c'. split_and!; auto.
    split; [intros ->; lia | intros E; by apply Hne in Hn].
  - destruct (outbuf_len c' =? 0) eqn:E; simpl; bools.
    2:{ exists 0%Z, c'. split_and!; auto. split; [done|]. intros Ee. by apply Hne in E. }
    assert (pending c' = []) as Hp by (apply nil_length_inv; congruence).
    set (c2 := clear_retry (set_outbuf_start 0 c')).
    assert (pending c2 = []) as Hp2 by (unfold c2, pending; simpl; by rewrite E).
    assert (stream c2 = stream c) by (rewrite <-Hst; unfold stream; by rewrite Hp, Hp2).
    exists 1%Z, c2. split; [done|]. split; [|by split_and!].
    destruct Hok' as [H1 H2 H3 H4 [H5 H6]]. split; simpl; try done; [lia|].
    split; [done|]. destruct H6 as [H6|?]; [left|by right].
    assert (idle c') as Hi.
    { apply (retry_ok_idle _ _ H6). destruct (output_retry_pending c') eqn:Ep; [|done].
      destruct (retry_pending_ok _ _ H6 Ep) as (_ & _ & Hl'). rewrite Hp in Hl'. simpl in Hl'. lia. }
    split; simpl; [done|done|]. intros d Ed.
    apply idle_expected in Hi. unfold expected in *. simpl in Ed. congruence.
Qed.

Lemma send_loop_spec fuel c data :
  idle c → length data ≤ fuel →
  ∃ ok sent rest c', send_loop fuel c data = Some (ok, rest, c') ∧ same_queue c c' ∧
    data = sent ++ rest ∧ wire c' = wire c ++ sent ∧ retry_ok c' rest ∧
    (ok = false → rest ≠ [] ∧ idle c').
Proof.
  revert c data. induction fuel as [|fuel IH]; intros c data Hi Hf.
  { destruct data; simpl in *; [|lia]. exists true, [], [], c. rewrite (app_nil_r (wire c)). split_and!; try done; apply Hi. }
  destruct data as [|x data].
  { exists true, [], [], c. rewrite (app_nil_r (wire c)). split_and!; try done; apply Hi. }
  set (d := x :: data) in *. assert (Hd : d ≠ []) by done.
  pose proof (transport_write_spec c d Hd (Hi d)) as Hw.
  replace (send_loop (S fuel) c d) with
    (let '(rc, written, c) := transport_write c d in
     if (rc <? 0)%Z then Some (false, d, c) else
     if (rc =? 0)%Z then Some (true, d, c) else send_loop fuel c (drop written d)) by done.
  clearbody d. destruct (transport_write c d) as [[rc n] c1].
  destruct Hw as (Hq & Hn & Hwire & [(-> & Hn0 & Hi1)|[(-> & -> & Hr)|(-> & -> & Hr & Hi1)]]); simpl.
  - destruct (IH c1 (drop n d) Hi1) as (ok & sent & rest & c' & -> & Hq' & Ed & Hw' & Hr' & Hfin).
    { rewrite length_drop. lia. }
    exists ok, (take n d ++ sent), rest, c'. split_and!; auto; [by etrans| |].
    + by rewrite <-app_assoc, <-Ed, take_drop.
    + by rewrite Hw', Hwire, app_assoc.
  - rewrite take_0 in Hwire. by exists true, [], d, c1; split_and!.
  - rewrite take_0 in Hwire. exists false, [], d, c1. split_and!; auto.
Qed.

(** ** Sending raw bytes

    [accepts]: the stream grows by all of [data] when the call reports success and
    by a prefix of it when it fails. *)
Definition accepts (c : Conn) (data : cstr) (res : Z * Conn) : Prop :=
  let '(rc, c') := res in
  conn_ok c' ∧ outbuf_limit c' = outbuf_limit c ∧
  (((0 ≤ rc)%Z ∧ stream c' = stream c ++ data ∧ output_overflowed c' = output_overflowed c) ∨
   (rc = (-1)%Z ∧ ∃ part, part `prefix_of` data ∧ stream c' = stream c ++ part)).

Lemma sent_result_nonneg data : (0 ≤ sent_result data)%Z.
Proof. unfold sent_result, INT_MAX. destruct (_ <? _)%Z eqn:E; bools; lia. Qed.

(** Appending the unsent [rest] restores the invariant, whether there is room for
    it or not. *)
Lemma append_rest c rest :
  shape c → (Z.of_nat (outbuf_len c) ≤ outbuf_limit c)%Z →
  retry_ok c (pending c ++ rest) → outbuf_len c = 0 ∨ retry_ok c (pending c) →
  let '(rc, c') := queue_append c rest in
  conn_ok c' ∧ outbuf_limit c' = outbuf_limit c ∧
  ((rc = 0%Z ∧ stream c' = stream c ++ rest ∧ output_overflowed c' = output_overflowed c) ∨
   (rc = (-1)%Z ∧ stream c' = stream c)).
Proof.
  intros Hs Hle Hr Hr2. pose proof (queue_append_spec c rest Hs Hle) as Hq.
  pose proof (length_pending c Hs) as Hl. destruct (queue_append c rest) as [rc c'].
  destruct Hq as (Hs' & Ht & Hcase). pose proof (length_pending c' Hs') as Hl'.
  pose proof (λ d, retry_ok_transport c c' d Ht) as Hrt.
  destruct Hs' as [S1 S2 S3] eqn:E0. clear E0.
  assert (stream c' = wire c ++ pending c') as Est
    by (unfold stream; by rewrite (proj1 (same_wire _ _ Ht))).
  pose proof (same_max _ _ Ht) as Hmax.
  destruct Hcase as [(-> & Ho & Hp & Hroom)|(-> & Ho & Hp & Hwhy)]; rewrite Hp in Hl', Est.
  - rewrite length_app in Hl'. split; [|split; [done|]].
    + split; try done; [right|split; [by destruct (Hrt _ Hr)|left; rewrite Hp; auto]].
      destruct Hroom as [->|?]; simpl in *; lia.
    + left. split_and!; auto. rewrite Est. unfold stream. by rewrite app_assoc.
  - split; [|split; [done|right; by split]].
    split; try done; [by left|]. split; [by destruct (Hrt _ Hr)|].
    destruct Hr2 as [H0|Hr2]; [right; split; [done|lia] | left; rewrite Hp; auto].
Qed.

Lemma client_send_raw_spec c data : conn_ok c → accepts c data (client_send_raw c data).
Proof.
  intros Hok. unfold client_send_raw, accepts. destruct data as [|x data]; cbn [empty].
  { split; [done|]. split; [done|]. left. by rewrite app_nil_r. }
  set (d := x :: data). clearbody d.
  destruct (output_overflowed c) eqn:Hov.
  { split; [done|]. split; [done|]. right. split; [done|]. exists []. rewrite app_nil_r.
    split; [apply prefix_nil|done]. }
  destruct Hok as [H1 H2 H3 H4 [H5 H6]] eqn:E0. clear E0.
  assert (Hs : shape c) by done. assert (Hlim : (Z.of_nat (outbuf_len c) ≤ outbuf_limit c)%Z)
    by (destruct H4; [congruence|done]).
  assert (Hr : retry_ok c (pending c)) by (destruct H6 as [?|[? _]]; [done|congruence]).
  pose proof (sent_result_nonneg d). destruct (outbuf_len c =? 0) eqn:Hlen; cbn [negb]; bools.
  - pose proof (length_pending c Hs) as Hp. rewrite Hlen in Hp. apply nil_length_inv in Hp.
    assert (Hi : idle c).
    { apply (retry_ok_idle _ _ Hr). destruct (output_retry_pending c) eqn:Ep; [|done].
      destruct (retry_pending_ok _ _ Hr Ep) as (_ & _ & Hl'). rewrite Hp in Hl'. simpl in Hl'. lia. }
    destruct (send_loop_spec (length d) c d Hi) as (ok & sent & rest & c1 & -> & Hq & Ed & Hw & Hr1 & Hfin);
      [done|].
    pose proof (same_queue_pending _ _ Hq) as Hp1. rewrite Hp in Hp1.
    assert (Hst : stream c1 = stream c ++ sent)
      by (unfold stream; by rewrite Hp1, Hp, Hw, !app_nil_r).
    destruct Hq as [[Q0 Q0'] Q1 Q2 Q3 Q4 Q5 Q6].
    assert (Hs1 : shape c1) by (split; rewrite ?Q1, ?Q2, ?Q3, ?Q4, ?Q5; done).
    destruct ok.
    + pose proof (append_rest c1 rest Hs1) as Ha. rewrite Hp1, Q3, Q5, Q6 in Ha.
      specialize (Ha Hlim Hr1 (or_introl Hlen)). destruct (queue_append c1 rest) as [rc c'].
      destruct Ha as (Hok' & Hl' & [(-> & Hst' & Ho)|(-> & Hst')]); simpl; (split; [done|]);
        (split; [done|]).
      * left. split_and!; [done| |congruence]. by rewrite Hst', Hst, <-app_assoc, <-Ed.
      * right. split; [done|]. exists sent. split; [by exists rest|congruence].
    + destruct Hfin as [_ Hi1]; [done|]. split; [|split; [done|]].
      * destruct Hs1. split; try done; [rewrite Q3, Q5, Q6; auto|]. split; [by destruct (Hi1 [])|left; apply Hi1].
      * right. split; [done|]. exists sent. split; [by exists rest|done].
  - pose proof (append_rest c d Hs Hlim) as Ha.
    assert (Hra : retry_ok c (pending c ++ d))
      by (apply (retry_ok_longer c (length (pending c))); by rewrite take_app_length).
    specialize (Ha Hra (or_intror Hr)). destruct (queue_append c d) as [rc c'].
    destruct Ha as (Hok' & Hl' & [(-> & Hst' & Ho)|(-> & Hst')]); simpl; (split; [done|]);
      (split; [done|]).
    + left. split_and!; [done|done|congruence].
    + right. split; [done|]. exists []. split; [apply prefix_nil|by rewrite app_nil_r].
Qed.

(** ** Runs of a connection *)

(** The calls the server makes on the output side of a client. *)
Inductive OutputOp :=
  | OpSend (data : cstr)
  | OpFlush
  | OpLimit (limit : N)
  | OpTlsEstablished
  | OpInputRetry (waiting : bool).

(** A run and, for each [OpSend], its bytes and its return value; [None] if a loop
    of the model ran out of fuel. *)
Fixpoint run_output (c : Conn) (ops : list OutputOp) : option (list (cstr * Z) * Conn) :=
  match ops with
  | [] => Some ([], c)
  | OpSend data :: ops' =>
      let '(rc, c1) := client_send_raw c data in
      r ← run_output c1 ops'; Some ((data, rc) :: r.1, r.2)
  | OpFlush :: ops' => r ← client_flush_output c; run_output r.2 ops'
  | OpLimit limit :: ops' =>
      run_output (client_set_output_limit c (Z.of_N (limit mod 2 ^ 64))) ops'
  | OpTlsEstablished :: ops' => run_output (set_tls_state CLIENT_TLS_ESTABLISHED c) ops'
  | OpInputRetry b :: ops' => run_output (set_input_retry_pending b c) ops'
  end.

(** What a send contributes to the stream: all of it when it was accepted. *)
Definition contributes (call : cstr * Z) (part : cstr) : Prop :=
  if (0 <=? call.2)%Z then part = call.1 else part `prefix_of` call.1.

Lemma conn_create_ok tls io allocs : conn_ok (conn_create tls io allocs).
Proof. split; simpl; [lia | lia | done | by right | split; [done|]]. left. by split. Qed.

Lemma set_output_limit_ok c limit :
  conn_ok c → (0 ≤ limit < SIZE_MOD)%Z → conn_ok (client_set_output_limit c limit).
Proof.
  intros [H1 H2 H3 H4 [H5 H6]] Hl. unfold client_set_output_limit.
  destruct (Z.ltb_spec limit (Z.of_nat (outbuf_len (set_outbuf_limit limit c)))); simpl in *.
  - split; simpl; try done; [by left|]. split; [done|].
    destruct H6 as [[? ? ?]|[? ?]]; [left; by split|by right].
  - split; simpl; try done; [by right|]. split; [done|].
    destruct H6 as [[? ? ?]|[? ?]]; [left; by split|by right].
Qed.

Lemma set_tls_established_ok c : conn_ok c → conn_ok (set_tls_state CLIENT_TLS_ESTABLISHED c).
Proof.
  intros [H1 H2 H3 H4 [H5 H6]]. split; simpl; try done. split; [done|].
  destruct H6 as [[? Hp ?]|?]; [left|by right]. split; simpl; try done.
  intros E. destruct (Hp E) as (? & _ & ?). split; [done|]. split; [by apply bool_decide_eq_true|done].
Qed.

Lemma run_output_spec c ops :
  conn_ok c →
  ∃ calls parts c', run_output c ops = Some (calls, c') ∧ conn_ok c' ∧
    Forall2 contributes calls parts ∧ stream c' = stream c ++ concat parts.
Proof.
  revert c. induction ops as [|[data| |limit| |b] ops IH]; intros c Hok; simpl.
  - exists [], [], c. rewrite app_nil_r. by split_and!.
  - pose proof (client_send_raw_spec c data Hok) as Hs. destruct (client_send_raw c data) as [rc c1].
    destruct Hs as (Hok1 & _ & Hcase). destruct (IH c1 Hok1) as (calls & parts & c' & -> & Hok' & Hf & Hst).
    destruct Hcase as [(Hrc & Hst1 & _)|(-> & part & Hpre & Hst1)].
    + exists ((data, rc) :: calls), (data :: parts), c'. split_and!; try done.
      * constructor; [|done]. unfold contributes. simpl. by destruct (Z.leb_spec 0 rc); [|lia].
      * simpl. by rewrite Hst, Hst1, <-app_assoc.
    + exists ((data, (-1)%Z) :: calls), (part :: parts), c'. split_and!; try done.
      * by constructor.
      * simpl. by rewrite Hst, Hst1, <-app_assoc.
  - destruct (client_flush_output_spec c Hok) as (rc & c1 & -> & Hok1 & Hst & _). simpl.
    rewrite <-Hst. by apply IH.
  - assert (stream c = stream (client_set_output_limit c (Z.of_N (limit mod 2 ^ 64)))) as ->
      by (unfold client_set_output_limit; by destruct (_ <? _)%Z).
    apply IH, set_output_limit_ok; [done|]. unfold SIZE_MOD.
    rewrite N2Z.inj_mod. by apply Z.mod_pos_bound.
  - exact (IH _ (set_tls_established_ok c Hok)).
  - apply (IH (set_input_retry_pending b c)).
    destruct Hok as [? ? ? ? [? Hr]]. split; try done. split; [done|].
    destruct Hr as [[? ? ?]|?]; [left; by split|by right].
Qed.

(** C24: no byte of output is lost, duplicated or reordered.  For every sequence of
    sends, flushes, limit changes and transport events, and every behaviour of the
    socket, of OpenSSL and of the allocator, the run terminates and the bytes on
    the wire followed by the queued bytes are the concatenation, in order, of what
    each send contributed: all of its bytes if it returned success, a prefix of
    them if it failed. *)
Theorem output_stream_integrity tls io allocs ops :
  ∃ calls parts c,
    run_output (conn_create tls io allocs) ops = Some (calls, c) ∧
    Forall2 contributes calls parts ∧ wire c ++ pending c = concat parts.
Proof.
  destruct (run_output_spec (conn_create tls io allocs) ops) as (calls & parts & c & H1 & _ & H2 & H3).
  { apply conn_create_ok. }
  by exists calls, parts, c.
Qed.

(** C25: in every such run the queue stays inside its buffer.  Unless the connection is
    marked overflowed it holds no more than the limit, and a TLS write to be repeated
    has a length between 1 and that of the queue, which begins with the bytes OpenSSL
    has seen.  No [SSL_write] that asked to be repeated is followed by one with other
    bytes. *)
Theorem output_queue_invariant tls io allocs ops :
  ∃ calls c,
    run_output (conn_create tls io allocs) ops = Some (calls, c) ∧
    (Z.of_nat (outbuf_start c + outbuf_len c) ≤ outbuf_capacity c)%Z ∧
    (output_overflowed c = false →
       (Z.of_nat (outbuf_len c) ≤ outbuf_limit c)%Z ∧
       (output_retry_pending c = true → ssl c = true ∧ 0 < output_retry_length c ≤ outbuf_len c) ∧
       ∀ d, expected c = Some d → output_retry_pending c = true ∧ take (output_retry_length c) (pending c) = d) ∧
    retry_discipline (ssl_writes c).
Proof.
  destruct (run_output_spec (conn_create tls io allocs) ops) as (calls & parts & c & H1 & Hok & _ & _).
  { apply conn_create_ok. }
  exists calls, c. pose proof (length_pending c (conn_ok_shape c Hok)) as Hl. destruct Hok as [? ? ? Hlen [? Hr]]. split_and!; [done | lia | | done].
  intros Ho. rewrite Ho in *. destruct Hlen as [?|Hlen]; [done|]. destruct Hr as [[_ Hp Hx]|[? _]]; [|done].
  split_and!; [done | | exact Hx]. intros Hpend. destruct (Hp Hpend) as (? & _ & ?). split; [done|lia].
Qed.

(** ** Lines *)

(** The text of a line after its tag section, and the bytes of a list of lines on
    the wire. *)
Definition after_space (s : cstr) : cstr := tail (span (Ascii.eqb " ") s).2.
Definition untagged (line : cstr) : cstr :=
  if Ascii.eqb (char0 line) "@" then after_space line else line.
Definition on_wire (lines : list cstr) : cstr := concat (map (λ l, l ++ [CR; LF]) lines).

(** A line a client can be sent: one line, its message part within 510 bytes, its
    tag section within the combined allowance. *)
Definition wire_line (l : cstr) : Prop :=
  (CR ∉ l) ∧ (LF ∉ l) ∧ length (untagged l) ≤ 510 ∧ (Z.of_nat (length l) ≤ 8191 + 510)%Z.

Lemma after_space_app a b : " "%char ∉ a → after_space (a ++ b) = after_space b.
Proof.
  intros Ha. unfold after_space. induction a as [|c a IH]; [done|].
  apply not_elem_of_cons in Ha as [Hc Ha]. cbn [span app].
  destruct (Ascii.eqb_spec " " c); [done|]. specialize (IH Ha).
  destruct (span _ (a ++ b)). exact IH.
Qed.

Lemma content_fits_wire_line l : client_line_content_fits l = true → wire_line l.
Proof.
  unfold client_line_content_fits, wire_line, untagged, after_space, no_crlf.
  destruct (negb _) eqn:E; [done|]. bools. intros Hf.
  split; [by apply has_char_false|]. split; [by apply has_char_false|].
  destruct (Ascii.eqb (char0 l) "@"); cbn [negb] in Hf.
  - destruct (span (Ascii.eqb " ") l) as [tags rest] eqn:Es.
    apply span_app in Es as ->. destruct rest as [|sp msg]; [done|].
    destruct (length tags =? 1); [done|]. bools. cbn [snd tail].
    unfold IRC_LINE_CONTENT_MAX, IRC_WIRE_LINE_MAX, IRCV3_COMBINED_TAG_SECTION_MAX in *.
    rewrite length_app. simpl length. lia.
  - bools. unfold IRC_LINE_CONTENT_MAX, IRC_WIRE_LINE_MAX in *. lia.
Qed.

Lemma prepend_tag_untagged tag line out :
  " "%char ∉ tag → prepend_tag tag line = Some out → untagged out = untagged line.
Proof.
  intros Ht. unfold prepend_tag. destruct (empty tag); [done|].
  unfold fits, untagged. destruct (Ascii.eqb_spec (char0 line) "@") as [E|E].
  - destruct (_ <? _)%Z; intros [= <-]. cbn. rewrite app_nil_r.
    destruct line as [|c line]; [done|]. simpl in E. subst c. cbn [tail].
    change ("@"%char :: tag ++ ";"%char :: line) with (["@"%char] ++ tag ++ [";"%char] ++ line).
    change ("@"%char :: line) with (["@"%char] ++ line).
    rewrite !after_space_app; auto; set_solver.
  - destruct (_ <? _)%Z; intros [= <-]. cbn. rewrite app_nil_r.
    change ("@"%char :: tag ++ " "%char :: line) with (["@"%char] ++ tag ++ " "%char :: line).
    rewrite !after_space_app; auto; set_solver.
Qed.

Lemma with_server_time_untagged caps ts line :
  " "%char ∉ ts → untagged (with_server_time caps ts line) = untagged line.
Proof.
  intros Hts. unfold with_server_time. destruct (_ && _); [|done].
  destruct (fits _ _ ≫= _) as [tagged|] eqn:E; [|done].
  destruct (client_line_content_fits tagged); [|done].
  apply bind_Some in E as (tag & Htag & E). eapply prepend_tag_untagged; [|exact E].
  unfold fits in Htag. destruct (_ <? _)%Z; [|done]. injection Htag as <-. cbn. rewrite app_nil_r. set_solver.
Qed.

(** [emits c lines rc c']: a call that returned [rc] put [lines] on the stream, or a
    prefix of them if it failed. *)
Definition emits (c : Conn) (lines : list cstr) (rc : Z) (c' : Conn) : Prop :=
  conn_ok c' ∧
  (((0 ≤ rc)%Z ∧ stream c' = stream c ++ on_wire lines) ∨
   ((rc < 0)%Z ∧ ∃ part, part `prefix_of` on_wire lines ∧ stream c' = stream c ++ part)).

Lemma emits_nothing c rc c' : conn_ok c' → stream c' = stream c → (rc < 0)%Z → emits c [] rc c'.
Proof.
  intros ? E ?. split; [done|]. right. split; [done|]. exists []. rewrite app_nil_r.
  split; [apply prefix_nil|exact E].
Qed.

Lemma emits_app c lines1 rc1 c1 lines2 rc2 c2 :
  emits c lines1 rc1 c1 → (0 ≤ rc1)%Z → emits c1 lines2 rc2 c2 →
  emits c (lines1 ++ lines2) rc2 c2.
Proof.
  intros (_ & [(_ & E1)|(? & _)]) Hrc (Hok & H2); [|lia].
  assert (on_wire (lines1 ++ lines2) = on_wire lines1 ++ on_wire lines2) as Ew
    by (unfold on_wire; by rewrite map_app, concat_app).
  split; [done|]. rewrite Ew, E1 in *. destruct H2 as [(? & ->)|(? & part & Hp & ->)].
  - left. by rewrite app_assoc.
  - right. split; [done|]. exists (on_wire lines1 ++ part). rewrite app_assoc.
    split; [by apply prefix_app|done].
Qed.

Lemma send_outbound_spec caps ts c line (out := with_server_time caps ts line) :
  conn_ok c →
  let '(rc, c') := send_outbound caps ts c line in
  ∃ lines, emits c lines rc c' ∧ Forall wire_line lines ∧
    (lines = [out] ∨ (rc < 0)%Z ∧ lines = []).
Proof.
  intros Hok. unfold send_outbound. fold out. unfold frame.
  destruct (client_line_content_fits out) eqn:Hf; cbn [negb].
  2:{ exists []. split; [by apply emits_nothing|]. split; [constructor|]. by right. }
  pose proof (content_fits_wire_line out Hf) as Hwl.
  unfold fits. destruct (_ <? _)%Z; [|exists []; split; [by apply emits_nothing|]; split; [constructor|by right]].
  destruct (_ && _); [exists []; split; [by apply emits_nothing|]; split; [constructor|by right]|].
  pose proof (client_send_raw_spec c (out ++ [CR; LF]) Hok) as Hs.
  destruct (client_send_raw c _) as [rc c']. destruct Hs as (Hok' & _ & Hcase).
  exists [out]. split; [|split; [by constructor|by left]].
  split; [done|]. unfold on_wire. simpl. rewrite app_nil_r.
  destruct Hcase as [(? & ? & _)|(-> & ?)]; [left|right]; auto with lia.
Qed.

(** The transport does not touch the labeled-response state. *)
Definition labels (c : Conn) : bool * bool * N * cstr * cstr * cstr :=
  (labeled_response_active c, labeled_response_started c, labeled_response_suppressed c,
   labeled_response_label c, labeled_response_batch c, labeled_response_server c).

Lemma labels_inv c a st sup lb id srv :
  labels c = (a, st, sup, lb, id, srv) →
  labeled_response_active c = a ∧ labeled_response_started c = st ∧
  labeled_response_suppressed c = sup ∧ labeled_response_label c = lb ∧
  labeled_response_batch c = id ∧ labeled_response_server c = srv.
Proof. unfold labels. naive_solver. Qed.

Lemma sys_write_labels c data : labels (sys_write c data).2 = labels c.
Proof. unfold sys_write. by destruct (sys_io c) as [|[] ?]. Qed.

Lemma transport_write_labels c data : labels (transport_write c data).2 = labels c.
Proof.
  unfold transport_write, tls_write, plain_write.
  repeat case_if; try done;
    match goal with |- context [sys_write c ?d] =>
      pose proof (sys_write_labels c d) as H; destruct (sys_write c d) as [[] ?]; exact H
    end.
Qed.

Lemma queue_append_labels c data : labels (queue_append c data).2 = labels c.
Proof.
  unfold queue_append. case_if; [done|]. case_if; [done|].
  set (c1 := if _ && _ then compact c else c).
  assert (labels c1 = labels c) as <- by (subst c1; by case_if). clearbody c1.
  case_if; [|done]. destruct (grow_capacity _ _ _ _); [|done]. case_if; [done|].
  simpl. by destruct (hd true _).
Qed.

Lemma send_loop_labels fuel c data ok rest c' :
  send_loop fuel c data = Some (ok, rest, c') → labels c' = labels c.
Proof.
  revert c data. induction fuel as [|fuel IH]; intros c [|x data]; simpl; try naive_solver.
  pose proof (transport_write_labels c (x :: data)) as H.
  destruct (transport_write c (x :: data)) as [[rc n] c1]. simpl in H. rewrite <-H.
  case_if; [naive_solver|]. case_if; [naive_solver|]. apply IH.
Qed.

Lemma client_send_raw_labels c data : labels (client_send_raw c data).2 = labels c.
Proof.
  unfold client_send_raw. case_if; [done|]. case_if; [done|]. case_if.
  - pose proof (queue_append_labels c data). destruct (queue_append c data). by case_if.
  - destruct (send_loop _ c data) as [[[[] rest] c1]|] eqn:E; [| |done];
      apply send_loop_labels in E; [|done].
    pose proof (queue_append_labels c1 rest). destruct (queue_append c1 rest).
    case_if; simpl in *; congruence.
Qed.

Lemma send_outbound_labels caps ts c line : labels (send_outbound caps ts c line).2 = labels c.
Proof. unfold send_outbound. destruct (frame _); [apply client_send_raw_labels|done]. Qed.

(** Batch identifiers are short and hold no space. *)
Lemma hex_digit_not_space u d : (d < 16)%N → hex_digit u d ≠ " "%char.
Proof.
  intros Hd. unfold hex_digit. intros E. apply (f_equal N_of_ascii) in E.
  change (N_of_ascii " ") with 32%N in E.
  destruct (N.ltb_spec d 10); [|destruct u]; rewrite N_ascii_embedding in E by lia; lia.
Qed.

Lemma hex_fixed_no_space u n v : " "%char ∉ hex_fixed u n v.
Proof.
  revert v. induction n as [|n IH]; intros v; simpl; [set_solver|].
  rewrite not_elem_of_app, list_elem_of_singleton. split; [apply IH|].
  intros E. symmetry in E. revert E. apply hex_digit_not_space.
  pose proof (N.mod_lt v 16). lia.
Qed.

Lemma suffix_elem_of (a b : cstr) x : a `suffix_of` b → x ∈ a → x ∈ b.
Proof. intros [k ->] ?. set_solver. Qed.

Lemma hex_no_space v : " "%char ∉ hex v.
Proof.
  unfold hex. pose proof (drop_while_suffix (Ascii.eqb "0") (hex_fixed false 16 v)) as H.
  destruct (drop_while _ _) as [|c s]; [by cbn; set_solver|].
  intros E. eapply suffix_elem_of in E; [|exact H]. by eapply hex_fixed_no_space.
Qed.

Lemma batch_id_no_space serial : " "%char ∉ batch_id serial.
Proof.
  unfold batch_id, snprintf. intros E. apply elem_of_take in E as (i & E & _).
  apply list_elem_of_lookup_2 in E. revert E. cbn. rewrite app_nil_r.
  pose proof (hex_no_space serial). set_solver.
Qed.

(** Setting the labeled-response fields keeps the invariant and the stream. *)
Lemma conn_ok_relabel c c' :
  (ssl c', tls_state c', outbuf c', outbuf_start c', outbuf_len c', outbuf_capacity c',
   outbuf_limit c', output_retry_pending c', output_retry_length c', output_overflowed c',
   ssl_writes c') =
  (ssl c, tls_state c, outbuf c, outbuf_start c, outbuf_len c, outbuf_capacity c,
   outbuf_limit c, output_retry_pending c, output_retry_length c, output_overflowed c,
   ssl_writes c) →
  conn_ok c → conn_ok c'.
Proof.
  intros [= E1 E2 E3 E4 E5 E6 E7 E8 E9 E10 E11] [H1 H2 H3 H4 [H5 H6]].
  assert (pending c' = pending c) as Ep by (unfold pending; congruence).
  split; rewrite ?E3, ?E4, ?E5, ?E6, ?E7, ?E10, ?E11, ?Ep; auto. split; [done|].
  destruct H6 as [[H7 H8 H9]|?]; [left|by right].
  split; unfold expected, established in *; rewrite ?E1, ?E2, ?E8, ?E9, ?E11; auto.
Qed.

Lemma start_batch_spec caps ts serial c :
  conn_ok c →
  let '(rc, serial', c1) := start_batch caps ts serial c in
  serial' = next_serial serial ∧ labeled_response_batch c1 = batch_id serial' ∧
  ∃ lines, emits c lines rc c1 ∧ Forall wire_line lines ∧
    lines `prefix_of` [with_server_time caps ts (batch_start c (batch_id serial'))] ∧
    ((0 ≤ rc)%Z →
     lines = [with_server_time caps ts (batch_start c (batch_id serial'))] ∧
     labels c1 = (labeled_response_active c, true, labeled_response_suppressed c,
                  labeled_response_label c, batch_id serial', labeled_response_server c)).
Proof.
  intros Hok. unfold start_batch, fits.
  set (serial' := next_serial serial). set (c0 := set_labeled_response_batch (batch_id serial') c).
  assert (Hok0 : conn_ok c0) by (by apply (conn_ok_relabel c)).
  assert (Estart : batch_start c0 (labeled_response_batch c0) = batch_start c (batch_id serial'))
    by (unfold batch_start; reflexivity).
  destruct (_ <? _)%Z.
  2:{ split; [done|]. split; [done|]. exists []. split; [by apply emits_nothing|].
      split; [constructor|]. split; [apply prefix_nil | lia]. }
  set (c1 := set_labeled_response_started true c0).
  assert (Hok1 : conn_ok c1) by (by apply (conn_ok_relabel c0)).
  rewrite Estart. set (start := batch_start c (batch_id serial')).
  pose proof (send_outbound_spec caps ts c1 start Hok1) as Hs.
  pose proof (send_outbound_labels caps ts c1 start) as Hl.
  destruct (send_outbound caps ts c1 start) as [rc c2].
  destruct Hs as (lines & He & Hw & Hlines). cbn [snd] in Hl. split; [done|].
  fold start. clearbody start. set (id := batch_id serial') in *. clearbody id.
  split; [exact (f_equal (λ x, x.1.2) Hl)|]. exists lines. split; [exact He|]. split; [done|].
  split; [destruct Hlines as [->|[_ ->]]; [done | apply prefix_nil]|].
  intros Hrc. destruct Hlines as [->|[? _]]; [|lia]. split; [done|]. by rewrite Hl.
Qed.

(** The line as it goes out inside batch [id]. *)
Definition in_batch (id line : cstr) : cstr :=
  if line_has_tag line "batch" then line
  else if Ascii.eqb (char0 line) "@" then format "@%s;%s" [format "batch=%s" [id]; tail line]
  else format "@%s %s" [format "batch=%s" [id]; line].

Lemma in_batch_untagged id line : " "%char ∉ id → untagged (in_batch id line) = untagged line.
Proof.
  intros Hid. unfold in_batch, untagged. destruct (line_has_tag line "batch"); [done|].
  destruct (Ascii.eqb_spec (char0 line) "@") as [E|E]; cbn; rewrite !app_nil_r.
  - destruct line as [|c line]; [done|]. simpl in E. subst c. cbn [tail].
    change ("@"%char :: "b"%char :: "a"%char :: "t"%char :: "c"%char :: "h"%char :: "="%char ::
            id ++ ";"%char :: line) with (lit "@batch=" ++ id ++ [";"%char] ++ line).
    change ("@"%char :: line) with (["@"%char] ++ line).
    rewrite !after_space_app; auto; cbn; set_solver.
  - change ("@"%char :: "b"%char :: "a"%char :: "t"%char :: "c"%char :: "h"%char :: "="%char ::
            id ++ " "%char :: line) with (lit "@batch=" ++ id ++ " "%char :: line).
    rewrite !after_space_app; auto; cbn; set_solver.
Qed.

(** Sending one line while a labeled response is open. *)
Lemma send_line_labeled caps ts serial c line :
  conn_ok c → labeling c = true →
  let '(rc, serial', c') := client_send_line caps ts serial c line in
  let id := if labeled_response_started c then labeled_response_batch c else batch_id serial' in
  let out := with_server_time caps ts (in_batch id line) in
  serial' = (if labeled_response_started c then serial else next_serial serial) ∧
  let all := (if labeled_response_started c then [] else [with_server_time caps ts (batch_start c id)]) ++ [out] in
  ∃ lines, emits c lines rc c' ∧ Forall wire_line lines ∧ lines `prefix_of` all ∧
    ((0 ≤ rc)%Z → lines = all ∧
     labels c' = (true, true, 0%N, labeled_response_label c, id, labeled_response_server c)).
Proof.
  intros Hok Hlab. unfold client_send_line. rewrite Hlab.
  unfold labeling in Hlab. bools. apply N.eqb_eq in H0.
  assert (Hstart : let '(rc, serial', c1) :=
      if labeled_response_started c then (0%Z, serial, c) else start_batch caps ts serial c in
    let id := if labeled_response_started c then labeled_response_batch c else batch_id serial' in
    serial' = (if labeled_response_started c then serial else next_serial serial) ∧
    labeled_response_batch c1 = id ∧
    let opening := if labeled_response_started c then [] else [with_server_time caps ts (batch_start c id)] in
    ∃ lines, emits c lines rc c1 ∧ Forall wire_line lines ∧ lines `prefix_of` opening ∧
    ((0 ≤ rc)%Z → lines = opening ∧
     labels c1 = (true, true, 0%N, labeled_response_label c, id, labeled_response_server c))).
  { destruct (labeled_response_started c) eqn:Es.
    - split; [done|]. split; [done|]. exists []. split_and!; [split; [done|left]; by rewrite app_nil_r
        | constructor | done |]. intros _. split; [done|]. unfold labels. congruence.
    - pose proof (start_batch_spec caps ts serial c Hok) as Hs.
      destruct (start_batch caps ts serial c) as [[rc serial'] c1].
      destruct Hs as (-> & Hb & lines & ? & ? & ? & Hrc). split; [done|]. split; [done|]. exists lines.
      split_and!; auto. intros Hr. destruct (Hrc Hr) as [-> Hl]. split; [done|]. congruence. }
  destruct (if labeled_response_started c then _ else _) as [[rc serial'] c1].
  set (id := if labeled_response_started c then labeled_response_batch c else _) in *. cbv zeta in Hstart |- *.
  set (opening := if labeled_response_started c then _ else _) in *.
  destruct Hstart as (Hser & Hb & lines & He & Hw & Hn & Hrc). rewrite Hb.
  destruct (Z.ltb_spec rc 0) as [Hneg|Hpos].
  { split; [done|]. exists lines. split; [|split; [done|split; [by apply prefix_app_r | lia]]]. destruct He as [? [[? _]|[_ ?]]]; [lia|].
    split; [done|]. right. split; [lia|done]. }
  destruct (Hrc Hpos) as [El Hl].
  set (m := if line_has_tag line "batch" then _ else _).
  assert (m = Some (in_batch id line) ∨ m = None) as [->| ->].
  { subst m. unfold in_batch. destruct (line_has_tag line "batch"); [by left|].
    destruct (fits TAG_BUFFER_SIZE _) as [tag|] eqn:Ef; [|by right].
    apply fits_Some in Ef as ->. unfold mbind, option_bind, prepend_tag.
    destruct (empty _); [by right|]. destruct (fits _ _) eqn:Ef; [|by right].
    apply fits_Some in Ef as ->. by left. }
  - pose proof (send_outbound_spec caps ts c1 (in_batch id line)) as Hs.
    pose proof (send_outbound_labels caps ts c1 (in_batch id line)) as Hl2.
    destruct (send_outbound caps ts c1 (in_batch id line)) as [rc2 c2].
    destruct Hs as (lines2 & He2 & Hw2 & Hlines2); [by destruct He|].
    split; [done|]. exists (lines ++ lines2). split; [by eapply emits_app|]. split; [by apply Forall_app|].
    split; [rewrite El; apply prefix_app; destruct Hlines2 as [->|[_ ->]]; [done | apply prefix_nil]|].
    intros Hrc2. destruct Hlines2 as [->|[? _]]; [|lia]. split; [by rewrite El|].
    simpl in Hl2. by rewrite Hl2.
  - split; [done|]. exists (lines ++ []). split.
    { eapply emits_app; [done|done|]. apply emits_nothing; [by destruct He|done|done]. }
    rewrite app_nil_r. split; [done|]. split; [by apply prefix_app_r | lia].
Qed.

(** The lines a call of [client_send_line] stands for: the line with its tags, and
    before the first reply to a labeled command the start of the batch. *)
Definition framed (caps : N) (ts : cstr) (serial : N) (c : Conn) (line : cstr) : list cstr :=
  if labeling c then
    let id := if labeled_response_started c then labeled_response_batch c else batch_id (next_serial serial) in
    (if labeled_response_started c then [] else [with_server_time caps ts (batch_start c id)]) ++
    [with_server_time caps ts (in_batch id line)]
  else [with_server_time caps ts line].

(** C26: every line put on a connection is framed.  A call of [client_send_line] that
    succeeds puts exactly the line, behind its tags, on the stream, and before the first
    reply to a labeled command the start of the batch; a call that fails puts a prefix
    of those frames there.  Each frame ends in CRLF and holds no other CR or LF, with a
    message part of at most 510 bytes and a tag section within the combined allowance;
    the handler's message is unchanged behind the added tags.  No handler can inject a
    line break. *)
Theorem send_line_framing caps ts serial c line :
  conn_ok c → (" "%char ∉ ts) → (" "%char ∉ labeled_response_batch c) →
  let '(rc, serial', c') := client_send_line caps ts serial c line in
  conn_ok c' ∧ (untagged <$> last (framed caps ts serial c line)) = Some (untagged line) ∧
  (((0 ≤ rc)%Z ∧ Forall wire_line (framed caps ts serial c line) ∧
    stream c' = stream c ++ on_wire (framed caps ts serial c line)) ∨
   ((rc < 0)%Z ∧ ∃ lines part, lines `prefix_of` framed caps ts serial c line ∧ Forall wire_line lines ∧
      part `prefix_of` on_wire lines ∧ stream c' = stream c ++ part)).
Proof.
  intros Hok Hts Hb.
  assert (Hu : untagged <$> last (framed caps ts serial c line) = Some (untagged line)).
  { unfold framed. destruct (labeling c); [|by simpl; rewrite with_server_time_untagged].
    rewrite last_app. simpl. f_equal. rewrite with_server_time_untagged, in_batch_untagged; [done|..|done].
    destruct (labeled_response_started c); [done | apply batch_id_no_space]. }
  assert (Hlines : let '(rc, serial', c') := client_send_line caps ts serial c line in
    ∃ lines, emits c lines rc c' ∧ Forall wire_line lines ∧ lines `prefix_of` framed caps ts serial c line ∧
      ((0 ≤ rc)%Z → lines = framed caps ts serial c line)).
  { unfold framed. destruct (labeling c) eqn:Hlab.
    - pose proof (send_line_labeled caps ts serial c line Hok Hlab) as H.
      destruct (client_send_line caps ts serial c line) as [[rc serial'] c']. cbv zeta in H.
      assert ((if labeled_response_started c then labeled_response_batch c else batch_id serial') =
        (if labeled_response_started c then labeled_response_batch c else batch_id (next_serial serial))) as Eid
        by (destruct H as [-> _]; by destruct (labeled_response_started c)).
      rewrite Eid in H. destruct H as (_ & lines & He & Hw & Hp & Hrc). exists lines. split_and!; [done..|]. intros Hr. by apply Hrc.
    - unfold client_send_line. rewrite Hlab. pose proof (send_outbound_spec caps ts c line Hok) as H.
      destruct (send_outbound caps ts c line) as [rc c']. destruct H as (lines & He & Hw & Hl). exists lines.
      split_and!; [done..| |].
      + destruct Hl as [->|[_ ->]]; [done | apply prefix_nil].
      + intros Hr. destruct Hl as [->|[? _]]; [done | lia]. }
  destruct (client_send_line caps ts serial c line) as [[rc serial'] c'].
  destruct Hlines as (lines & [Hok' He] & Hw & Hp & Hrc). split; [done|]. split; [done|].
  destruct He as [[Hr Hs]|[Hr (part & Hpart & Hs)]]; [left; by rewrite <-Hrc | right; eauto 8].
Qed.

(** One send, on a fresh plain connection whose socket takes five bytes. *)
Lemma send_line_framing_witness :
  let c := conn_create false [Wrote 5] [] in
  let ts : cstr := "2026-08-01T00:00:00.000Z" in
  let '(rc, _, c') := client_send_line CLIENT_CAP_SERVER_TIME ts 0 c "PING :x" in
  conn_ok c' ∧ (0 ≤ rc)%Z ∧ stream c' = on_wire (framed CLIENT_CAP_SERVER_TIME ts 0 c "PING :x").
Proof.
  intros c ts. pose proof (send_line_framing CLIENT_CAP_SERVER_TIME ts 0 c "PING :x" (conn_create_ok _ _ _)) as Hw.
  do 2 (specialize (Hw ltac:(apply (bool_decide_eq_true_1 _); vm_compute; reflexivity))).
  assert (Hrc : (0 ≤ (client_send_line CLIENT_CAP_SERVER_TIME ts 0 c "PING :x").1.1)%Z) by (vm_compute; discriminate).
  destruct (client_send_line _ _ _ _ _) as [[rc serial'] c']. destruct Hw as (Hok & _ & [(_ & _ & Hs)|[Hneg _]]).
  - by split_and!.
  - simpl in Hrc. lia.
Defined.

(** ** A labeled command *)

Fixpoint send_lines (caps : N) (ts : cstr) (serial : N) (c : Conn) (lines : list cstr)
    : list Z * N * Conn :=
  match lines with
  | [] => ([], serial, c)
  | l :: lines' =>
      let '(rc, serial, c) := client_send_line caps ts serial c l in
      let '(rcs, serial, c) := send_lines caps ts serial c lines' in (rc :: rcs, serial, c)
  end.

(** A command whose handler replies with [replies], between the begin and the end
    of its labeled response: the results of the sends and the connection after. *)
Definition labeled_command (caps : N) (ts : cstr) (serial : N) (c : Conn)
    (server label : cstr) (replies : list cstr) : list Z * Conn :=
  let c := client_labeled_response_begin c server label in
  let '(rcs, _, c) := send_lines caps ts serial c replies in
  let '(rc, c) := labeled_response_end_result caps ts c in (rcs ++ [rc], c).

(** What the specification of labeled responses asks to be sent. *)
Definition labeled_lines (serial : N) (server label : cstr) (replies : list cstr) : list cstr :=
  let id := batch_id (next_serial serial) in
  match replies with
  | [] => [format "@label=%s :%s ACK" [label; server]]
  | _ =>
      format "@label=%s :%s BATCH +%s labeled-response" [label; server; id] ::
      map (in_batch id) replies ++ [format ":%s BATCH -%s" [server; id]]
  end.

Lemma emits_cons_stream c lines rc c1 :
  emits c lines rc c1 → (0 ≤ rc)%Z → stream c1 = stream c ++ on_wire lines.
Proof. intros (_ & [[_ ?]|[? _]]) ?; [done|lia]. Qed.

Lemma on_wire_app l1 l2 : on_wire (l1 ++ l2) = on_wire l1 ++ on_wire l2.
Proof. unfold on_wire. by rewrite map_app, concat_app. Qed.

(** Replies inside a batch that is already open. *)
Lemma send_lines_open caps ts serial c replies label id server :
  conn_ok c → labels c = (true, true, 0%N, label, id, server) →
  let '(rcs, _, c') := send_lines caps ts serial c replies in
  Forall (λ rc, 0 ≤ rc)%Z rcs →
  conn_ok c' ∧ labels c' = labels c ∧
  stream c' = stream c ++ on_wire (map (λ l, with_server_time caps ts (in_batch id l)) replies).
Proof.
  revert serial c. induction replies as [|l replies IH]; intros serial c Hok Hl; simpl.
  - intros _. by rewrite app_nil_r.
  - apply labels_inv in Hl as (H1 & H2 & H3 & H4 & H5 & H6).
    pose proof (send_line_labeled caps ts serial c l Hok) as H.
    destruct (client_send_line caps ts serial c l) as [[rc serial'] c1].
    rewrite H2, H4, H5, H6 in H. destruct H as (_ & lines & He & _ & _ & Hrc).
    { unfold labeling. by rewrite H1, H3. }
    destruct (send_lines caps ts serial' c1 replies) as [[rcs s2] c2] eqn:E.
    intros [Hrc0 Hrcs]%Forall_cons. destruct (Hrc Hrc0) as [-> Hl1].
    specialize (IH serial' c1 (proj1 He) Hl1). rewrite E in IH.
    destruct (IH Hrcs) as (Hok2 & Hl2 & Hst). split; [done|]. split.
    { rewrite Hl2, Hl1. unfold labels. congruence. }
    rewrite Hst, (emits_cons_stream _ _ _ _ He Hrc0), <-app_assoc. f_equal.
    unfold on_wire. simpl. by rewrite app_nil_r.
Qed.

Lemma end_labeled caps ts c started label id server :
  conn_ok c → labels c = (true, started, 0%N, label, id, server) →
  let '(rc, c') := labeled_response_end_result caps ts c in
  (0 ≤ rc)%Z →
  labels c' = (false, false, 0%N, [], [], []) ∧
  stream c' = stream c ++ on_wire [with_server_time caps ts
    (if started then format ":%s BATCH -%s" [server; id]
     else format "@label=%s :%s ACK" [label; server])].
Proof.
  intros Hok Hl. apply labels_inv in Hl as (H1 & H2 & H3 & H4 & H5 & H6). unfold labeled_response_end_result.
  rewrite H1. cbn [negb]. set (c0 := set_labeled_response_suppressed 0 _).
  assert (Hok0 : conn_ok c0) by (by apply (conn_ok_relabel c)).
  assert (labels c0 = (false, started, 0%N, label, id, server)) as Hl0
    by (unfold labels, c0; simpl; congruence).
  apply labels_inv in Hl0 as (L1 & L2 & L3 & L4 & L5 & L6). rewrite L2, L4, L5, L6.
  set (line := if started then _ else _). clearbody line.
  destruct (fits _ line) as [l|] eqn:Ef; [|lia]. apply fits_Some in Ef as ->.
  pose proof (send_outbound_spec caps ts c0 line Hok0) as Hs.
  pose proof (send_outbound_labels caps ts c0 line) as Hlab.
  destruct (send_outbound caps ts c0 line) as [rc c1].
  destruct Hs as (lines & He & _ & Hlines). intros Hrc.
  destruct Hlines as [->|[? _]]; [|lia]. cbn [snd] in Hlab. split.
  - unfold labels in *. simpl. injection Hlab. congruence.
  - exact (emits_cons_stream _ _ _ _ He Hrc).
Qed.

#[local] Opaque batch_id next_serial format.

(** C27: labeled responses follow the protocol.  When all sends of a labeled command
    are accepted, the stream grows by exactly: a single ACK carrying the label if
    the handler replied nothing; otherwise a batch opened under the label, every
    reply inside that batch in order, and the batch closed, each line possibly with
    a server-time tag.  Afterwards no label is left on the connection. *)
Theorem labeled_response_protocol caps ts serial c server label replies :
  conn_ok c → label ≠ [] → length label ≤ IRCV3_LABEL_ENCODED_MAX →
  length server ≤ IRC_SERVER_NAME_MAX →
  let '(rcs, c') := labeled_command caps ts serial c server label replies in
  Forall (λ rc, 0 ≤ rc)%Z rcs →
  stream c' = stream c ++
    on_wire (map (with_server_time caps ts) (labeled_lines serial server label replies)) ∧
  labels c' = (false, false, 0%N, [], [], []).
Proof.
  intros Hok Hne Hlab Hsrv. unfold labeled_command.
  set (c0 := client_labeled_response_begin c server label).
  assert (conn_ok c0 ∧ stream c0 = stream c ∧
                 labels c0 = (true, false, 0%N, label, [], server)) as (H0 & Hst0 & Hl0).
  { subst c0. unfold client_labeled_response_begin. destruct label as [|x label]; [done|].
    set (lb := x :: label) in *. cbn [empty].
    rewrite (snprintf_id _ lb), (snprintf_id _ server) by lia.
    split; [by apply (conn_ok_relabel c)|]. by split. }
  clearbody c0. rewrite <-Hst0. unfold labeled_lines.
  set (id := batch_id (next_serial serial)). destruct replies as [|l replies]; cbn [send_lines].
  - pose proof (end_labeled caps ts c0 _ _ _ _ H0 Hl0) as He.
    destruct (labeled_response_end_result caps ts c0) as [rc c'].
    intros [Hrc _]%Forall_cons. destruct (He Hrc) as [? ?]. by split.
  - pose proof (send_line_labeled caps ts serial c0 l H0) as H.
    apply labels_inv in Hl0 as (L1 & L2 & L3 & L4 & L5 & L6).
    destruct (client_send_line caps ts serial c0 l) as [[rc serial'] c1]. rewrite L2, L4, L6 in H.
    destruct H as (-> & lines & He & _ & _ & Hrc); [unfold labeling; by rewrite L1, L3|].
    unfold batch_start in Hrc. rewrite L4, L6 in Hrc. fold id in Hrc. clearbody id.
    pose proof (λ Hl, send_lines_open caps ts (next_serial serial) c1 replies label id server (proj1 He) Hl) as Hs.
    destruct (send_lines caps ts (next_serial serial) c1 replies) as [[rcs s2] c2].
    destruct (labeled_response_end_result caps ts c2) as [rce c'] eqn:Ee.
    intros [Ha Hb]%Forall_app. apply Forall_cons in Ha as [Hrc0 Hrcs]. apply Forall_cons in Hb as [Hrce _].
    destruct (Hrc Hrc0) as [-> Hl1]. destruct (Hs Hl1 Hrcs) as (Hok2 & Hl2 & Hst2). rewrite Hl1 in Hl2.
    pose proof (end_labeled caps ts c2 _ _ _ _ Hok2 Hl2) as Hend. rewrite Ee in Hend.
    destruct (Hend Hrce) as [Hl' Hst']. split; [|done].
    rewrite Hst', Hst2, (emits_cons_stream _ _ _ _ He Hrc0), <-!app_assoc, <-!on_wire_app. f_equal.
    cbn [map app]. rewrite map_app, map_map. by simpl.
Qed.

Lemma labeled_response_protocol_witness :
  let c := conn_create false [] [] in
  let '(rcs, c') := labeled_command 0 [] 0 c "irc.example" "abc" [lit "PONG"; lit "NOTE"] in
  Forall (λ rc, 0 ≤ rc)%Z rcs ∧
  stream c' = stream c ++
    on_wire (map (with_server_time 0 []) (labeled_lines 0 "irc.example" "abc" [lit "PONG"; lit "NOTE"])) ∧
  labels c' = (false, false, 0%N, [], [], []).
Proof.
  pose proof (labeled_response_protocol 0 [] 0 (conn_create false [] []) "irc.example" "abc"
    [lit "PONG"; lit "NOTE"] (conn_create_ok _ _ _)) as H.
  cbn zeta. destruct (labeled_command 0 [] 0 (conn_create false [] []) "irc.example" "abc"
    [lit "PONG"; lit "NOTE"]) as [rcs c'] eqn:E.
  assert (Forall (λ rc, 0 ≤ rc)%Z rcs).
  { apply (f_equal fst) in E. vm_compute in E. subst rcs. repeat constructor; lia. }
  split; [done|]. apply H; [discriminate | vm_compute; lia | vm_compute; lia | done].
Defined.
