(* ===== verification/World.v ===== *)
(** * The shared state of the server

    The heap of clients and channels, the tables of [struct Server], and the
    primitive operations on them.  A pointer is a number; [w_clients] and
    [w_channels] say what it points to, and a freed object has no entry.  The
    output half of [struct Client] ([Output.Conn]) sits behind the same pointer in
    [io_conns], so that sending a line leaves the rest of the world alone.

    [w_now] is what [time(NULL)] returns, [w_alloc] lists whether the next
    allocations succeed (they do once it is exhausted), [io_log] records the lines
    passed to [client_send_line] with their recipient; no operation reads the log. *)

From S2P Require Import Prelude CString Modes HashTable Output.

Abbreviation ptr := nat.

(** ** Data *)

Definition IRC_NICK_MAX : nat := 15.

Inductive ClientSaslState :=
  | CLIENT_SASL_NONE | CLIENT_SASL_PLAIN_WAIT_DATA | CLIENT_SASL_COMPLETE | CLIENT_SASL_FAILED.
#[export] Instance ClientSaslState_eq_dec : EqDecision ClientSaslState.
Proof. solve_decision. Defined.

Inductive ClientDnsState :=
  | CLIENT_DNS_NONE | CLIENT_DNS_PENDING | CLIENT_DNS_VERIFIED | CLIENT_DNS_FAILED | CLIENT_DNS_TIMEOUT.
#[export] Instance ClientDnsState_eq_dec : EqDecision ClientDnsState.
Proof. solve_decision. Defined.

Inductive ClientDnsblState :=
  | CLIENT_DNSBL_NONE | CLIENT_DNSBL_PENDING | CLIENT_DNSBL_CLEAR | CLIENT_DNSBL_LISTED
  | CLIENT_DNSBL_TIMEOUT | CLIENT_DNSBL_ERROR.
#[export] Instance ClientDnsblState_eq_dec : EqDecision ClientDnsblState.
Proof. solve_decision. Defined.

Inductive CommandResult := COMMAND_KEEP_CLIENT | COMMAND_DISCONNECT_CLIENT.

(** What [client_free] calls: nothing, [presence_on_client_free] or
    [pmstats_client_free]. *)
Inductive ClientFreeHook := HOOK_NONE | HOOK_PRESENCE | HOOK_PMSTATS.

(** What the GeoIP lookup copied for a client, as far as WHOIS reports it. *)
Record ClientGeoIP := MkGeoIP {
  gi_network : cstr;
  gi_continent_code : cstr;
  gi_country_code : cstr;
  gi_country_name : cstr;
  gi_region_code : cstr;
  gi_region_name : cstr;
  gi_city : cstr;
  gi_asn : N;
  gi_organization : cstr }.

Definition no_geoip : ClientGeoIP := MkGeoIP [] [] [] [] [] [] [] 0 [].

(** [struct Client] without its output half ([Output.Conn]) and the socket.  Lists are in the order of the C linked lists, first
    element first.  [cl_inbuf] is the filled part of [inbuf]; [cl_fd_shutdown] says that
    the socket was shut down with [shutdown(fd, SHUT_RDWR)]. *)
Record Client := MkClient {
  cl_id : N;
  cl_registered : bool;
  cl_pass_accepted : bool;
  cl_modes : ClientModeSet;
  cl_command_budget_tokens : Z;
  cl_command_budget_updated : Z;
  cl_command_throttle_notice_time : Z;
  cl_flood_budget_tokens : Z;
  cl_flood_budget_updated : Z;
  cl_flood_violation_window : Z;
  cl_flood_violation_count : Z;
  cl_oper_permissions : N;
  cl_snotice_mask : N;
  cl_pmstats_enabled : bool;
  cl_nick : cstr;
  cl_user : cstr;
  cl_realname : cstr;
  cl_away : cstr;
  cl_account_name : cstr;
  cl_cap_negotiating : bool;
  cl_cap_version : N;
  cl_capabilities : N;
  cl_sasl_state : ClientSaslState;
  cl_sasl_buffer : cstr;
  cl_ircv3_client_tags : cstr;
  cl_real_ip : cstr;
  cl_real_host : cstr;
  cl_display_host : cstr;
  cl_account_vhost_active : bool;
  cl_webirc_active : bool;
  cl_nospoof_started : bool;
  cl_nospoof_verified : bool;
  cl_nospoof_deadline : Z;
  cl_nospoof_cookie : cstr;
  cl_version_requested : bool;
  cl_version_received : bool;
  cl_client_version : cstr;
  cl_website_requested : bool;
  cl_website_received : bool;
  cl_client_website : cstr;
  cl_dns_state : ClientDnsState;
  cl_dnsbl_state : ClientDnsblState;
  cl_dnsbl_deadline : Z;
  cl_geoip_complete : bool;
  cl_fd_shutdown : bool;
  cl_signon_time : Z;
  cl_last_activity : Z;
  cl_last_liveness_activity : Z;
  cl_ping_pending : bool;
  cl_ping_deadline : Z;
  cl_ping_token : cstr;
  cl_silence_count : nat;
  cl_silence_list : list cstr;
  cl_watch_count : nat;
  cl_watch_list : list cstr;
  cl_quit_reason : cstr;
  cl_channel_count : nat;
  cl_channels : list ptr;
  cl_oper_name : cstr;
  cl_dns_deadline : Z;
  cl_inbuf : cstr;
  cl_input_want_write : bool;
  cl_tls_want_write : bool;
  cl_geoip : ClientGeoIP;
  cl_webirc_gateway_ip : cstr;
  cl_webirc_gateway_name : cstr;
  cl_webirc_supplied_host : cstr }.

Definition Client_eta (c : Client) : Client :=
  MkClient (cl_id c) (cl_registered c) (cl_pass_accepted c) (cl_modes c)
    (cl_command_budget_tokens c) (cl_command_budget_updated c)
    (cl_command_throttle_notice_time c) (cl_flood_budget_tokens c)
    (cl_flood_budget_updated c) (cl_flood_violation_window c) (cl_flood_violation_count c)
    (cl_oper_permissions c) (cl_snotice_mask c) (cl_pmstats_enabled c) (cl_nick c)
    (cl_user c) (cl_realname c) (cl_away c) (cl_account_name c) (cl_cap_negotiating c)
    (cl_cap_version c) (cl_capabilities c) (cl_sasl_state c) (cl_sasl_buffer c)
    (cl_ircv3_client_tags c) (cl_real_ip c) (cl_real_host c) (cl_display_host c)
    (cl_account_vhost_active c) (cl_webirc_active c) (cl_nospoof_started c)
    (cl_nospoof_verified c) (cl_nospoof_deadline c) (cl_nospoof_cookie c)
    (cl_version_requested c) (cl_version_received c) (cl_client_version c)
    (cl_website_requested c) (cl_website_received c) (cl_client_website c) (cl_dns_state c) (cl_dnsbl_state c) (cl_dnsbl_deadline c) (cl_geoip_complete c) (cl_fd_shutdown c)
    (cl_signon_time c) (cl_last_activity c) (cl_last_liveness_activity c)
    (cl_ping_pending c) (cl_ping_deadline c) (cl_ping_token c) (cl_silence_count c)
    (cl_silence_list c) (cl_watch_count c) (cl_watch_list c) (cl_quit_reason c)
    (cl_channel_count c) (cl_channels c) (cl_oper_name c) (cl_dns_deadline c) (cl_inbuf c) (cl_input_want_write c) (cl_tls_want_write c)
    (cl_geoip c) (cl_webirc_gateway_ip c) (cl_webirc_gateway_name c) (cl_webirc_supplied_host c).

Definition set_cl_id (v : N) (c : Client) : Client := ltac:(field_update Client_eta cl_id v c).
Definition set_cl_registered (v : bool) (c : Client) : Client := ltac:(field_update Client_eta cl_registered v c).
Definition set_cl_pass_accepted (v : bool) (c : Client) : Client := ltac:(field_update Client_eta cl_pass_accepted v c).
Definition set_cl_modes (v : ClientModeSet) (c : Client) : Client := ltac:(field_update Client_eta cl_modes v c).
Definition set_cl_command_budget_tokens (v : Z) (c : Client) : Client := ltac:(field_update Client_eta cl_command_budget_tokens v c).
Definition set_cl_command_budget_updated (v : Z) (c : Client) : Client := ltac:(field_update Client_eta cl_command_budget_updated v c).
Definition set_cl_command_throttle_notice_time (v : Z) (c : Client) : Client := ltac:(field_update Client_eta cl_command_throttle_notice_time v c).
Definition set_cl_flood_budget_tokens (v : Z) (c : Client) : Client := ltac:(field_update Client_eta cl_flood_budget_tokens v c).
Definition set_cl_flood_budget_updated (v : Z) (c : Client) : Client := ltac:(field_update Client_eta cl_flood_budget_updated v c).
Definition set_cl_flood_violation_window (v : Z) (c : Client) : Client := ltac:(field_update Client_eta cl_flood_violation_window v c).
Definition set_cl_flood_violation_count (v : Z) (c : Client) : Client := ltac:(field_update Client_eta cl_flood_violation_count v c).
Definition set_cl_oper_permissions (v : N) (c : Client) : Client := ltac:(field_update Client_eta cl_oper_permissions v c).
Definition set_cl_snotice_mask (v : N) (c : Client) : Client := ltac:(field_update Client_eta cl_snotice_mask v c).
Definition set_cl_pmstats_enabled (v : bool) (c : Client) : Client := ltac:(field_update Client_eta cl_pmstats_enabled v c).
Definition set_cl_nick (v : cstr) (c : Client) : Client := ltac:(field_update Client_eta cl_nick v c).
Definition set_cl_user (v : cstr) (c : Client) : Client := ltac:(field_update Client_eta cl_user v c).
Definition set_cl_realname (v : cstr) (c : Client) : Client := ltac:(field_update Client_eta cl_realname v c).
Definition set_cl_away (v : cstr) (c : Client) : Client := ltac:(field_update Client_eta cl_away v c).
Definition set_cl_account_name (v : cstr) (c : Client) : Client := ltac:(field_update Client_eta cl_account_name v c).
Definition set_cl_cap_negotiating (v : bool) (c : Client) : Client := ltac:(field_update Client_eta cl_cap_negotiating v c).
Definition set_cl_cap_version (v : N) (c : Client) : Client := ltac:(field_update Client_eta cl_cap_version v c).
Definition set_cl_capabilities (v : N) (c : Client) : Client := ltac:(field_update Client_eta cl_capabilities v c).
Definition set_cl_sasl_state (v : ClientSaslState) (c : Client) : Client := ltac:(field_update Client_eta cl_sasl_state v c).
Definition set_cl_sasl_buffer (v : cstr) (c : Client) : Client := ltac:(field_update Client_eta cl_sasl_buffer v c).
Definition set_cl_ircv3_client_tags (v : cstr) (c : Client) : Client := ltac:(field_update Client_eta cl_ircv3_client_tags v c).
Definition set_cl_real_ip (v : cstr) (c : Client) : Client := ltac:(field_update Client_eta cl_real_ip v c).
Definition set_cl_real_host (v : cstr) (c : Client) : Client := ltac:(field_update Client_eta cl_real_host v c).
Definition set_cl_display_host (v : cstr) (c : Client) : Client := ltac:(field_update Client_eta cl_display_host v c).
Definition set_cl_account_vhost_active (v : bool) (c : Client) : Client := ltac:(field_update Client_eta cl_account_vhost_active v c).
Definition set_cl_webirc_active (v : bool) (c : Client) : Client := ltac:(field_update Client_eta cl_webirc_active v c).
Definition set_cl_nospoof_started (v : bool) (c : Client) : Client := ltac:(field_update Client_eta cl_nospoof_started v c).
Definition set_cl_nospoof_verified (v : bool) (c : Client) : Client := ltac:(field_update Client_eta cl_nospoof_verified v c).
Definition set_cl_nospoof_deadline (v : Z) (c : Client) : Client := ltac:(field_update Client_eta cl_nospoof_deadline v c).
Definition set_cl_nospoof_cookie (v : cstr) (c : Client) : Client := ltac:(field_update Client_eta cl_nospoof_cookie v c).
Definition set_cl_version_requested (v : bool) (c : Client) : Client := ltac:(field_update Client_eta cl_version_requested v c).
Definition set_cl_version_received (v : bool) (c : Client) : Client := ltac:(field_update Client_eta cl_version_received v c).
Definition set_cl_client_version (v : cstr) (c : Client) : Client := ltac:(field_update Client_eta cl_client_version v c).
Definition set_cl_website_requested (v : bool) (c : Client) : Client := ltac:(field_update Client_eta cl_website_requested v c).
Definition set_cl_website_received (v : bool) (c : Client) : Client := ltac:(field_update Client_eta cl_website_received v c).
Definition set_cl_client_website (v : cstr) (c : Client) : Client := ltac:(field_update Client_eta cl_client_website v c).
Definition set_cl_dns_state (v : ClientDnsState) (c : Client) : Client := ltac:(field_update Client_eta cl_dns_state v c).
Definition set_cl_dnsbl_state (v : ClientDnsblState) (c : Client) : Client := ltac:(field_update Client_eta cl_dnsbl_state v c).
Definition set_cl_dnsbl_deadline (v : Z) (c : Client) : Client := ltac:(field_update Client_eta cl_dnsbl_deadline v c).
Definition set_cl_geoip_complete (v : bool) (c : Client) : Client := ltac:(field_update Client_eta cl_geoip_complete v c).
Definition set_cl_fd_shutdown (v : bool) (c : Client) : Client := ltac:(field_update Client_eta cl_fd_shutdown v c).
Definition set_cl_signon_time (v : Z) (c : Client) : Client := ltac:(field_update Client_eta cl_signon_time v c).
Definition set_cl_last_activity (v : Z) (c : Client) : Client := ltac:(field_update Client_eta cl_last_activity v c).
Definition set_cl_last_liveness_activity (v : Z) (c : Client) : Client := ltac:(field_update Client_eta cl_last_liveness_activity v c).
Definition set_cl_ping_pending (v : bool) (c : Client) : Client := ltac:(field_update Client_eta cl_ping_pending v c).
Definition set_cl_ping_deadline (v : Z) (c : Client) : Client := ltac:(field_update Client_eta cl_ping_deadline v c).
Definition set_cl_ping_token (v : cstr) (c : Client) : Client := ltac:(field_update Client_eta cl_ping_token v c).
Definition set_cl_silence_count (v : nat) (c : Client) : Client := ltac:(field_update Client_eta cl_silence_count v c).
Definition set_cl_silence_list (v : list cstr) (c : Client) : Client := ltac:(field_update Client_eta cl_silence_list v c).
Definition set_cl_watch_count (v : nat) (c : Client) : Client := ltac:(field_update Client_eta cl_watch_count v c).
Definition set_cl_watch_list (v : list cstr) (c : Client) : Client := ltac:(field_update Client_eta cl_watch_list v c).
Definition set_cl_quit_reason (v : cstr) (c : Client) : Client := ltac:(field_update Client_eta cl_quit_reason v c).
Definition set_cl_channel_count (v : nat) (c : Client) : Client := ltac:(field_update Client_eta cl_channel_count v c).
Definition set_cl_channels (v : list ptr) (c : Client) : Client := ltac:(field_update Client_eta cl_channels v c).
Definition set_cl_oper_name (v : cstr) (c : Client) : Client := ltac:(field_update Client_eta cl_oper_name v c).
Definition set_cl_dns_deadline (v : Z) (c : Client) : Client := ltac:(field_update Client_eta cl_dns_deadline v c).
Definition set_cl_inbuf (v : cstr) (c : Client) : Client := ltac:(field_update Client_eta cl_inbuf v c).
Definition set_cl_input_want_write (v : bool) (c : Client) : Client := ltac:(field_update Client_eta cl_input_want_write v c).
Definition set_cl_tls_want_write (v : bool) (c : Client) : Client := ltac:(field_update Client_eta cl_tls_want_write v c).
Definition set_cl_geoip (v : ClientGeoIP) (c : Client) : Client := ltac:(field_update Client_eta cl_geoip v c).
Definition set_cl_webirc_gateway_ip (v : cstr) (c : Client) : Client := ltac:(field_update Client_eta cl_webirc_gateway_ip v c).
Definition set_cl_webirc_gateway_name (v : cstr) (c : Client) : Client := ltac:(field_update Client_eta cl_webirc_gateway_name v c).
Definition set_cl_webirc_supplied_host (v : cstr) (c : Client) : Client := ltac:(field_update Client_eta cl_webirc_supplied_host v c).

(** A channel mask, an entry of +b, +e or +I. *)
Record ChannelMaskEntry := MkMask { mask : cstr; protected_authorized : bool }.

Record ChannelMember := MkMember {
  m_client : ptr;
  m_privileges : ChannelPrivilegeSet;
  m_manual : ChannelPrivilegeSet;
  m_service : ChannelPrivilegeSet }.

Definition ChannelMember_eta (m : ChannelMember) : ChannelMember :=
  MkMember (m_client m) (m_privileges m) (m_manual m) (m_service m).

Definition set_m_client (v : ptr) (m : ChannelMember) : ChannelMember := ltac:(field_update ChannelMember_eta m_client v m).
Definition set_m_privileges (v : ChannelPrivilegeSet) (m : ChannelMember) : ChannelMember := ltac:(field_update ChannelMember_eta m_privileges v m).
Definition set_m_manual (v : ChannelPrivilegeSet) (m : ChannelMember) : ChannelMember := ltac:(field_update ChannelMember_eta m_manual v m).
Definition set_m_service (v : ChannelPrivilegeSet) (m : ChannelMember) : ChannelMember := ltac:(field_update ChannelMember_eta m_service v m).

Record Channel := MkChannel {
  ch_name : cstr;
  ch_modes : ChannelModeSet;
  ch_topic : cstr;
  ch_topic_setter : cstr;
  ch_topic_time : Z;
  ch_key : cstr;
  ch_user_limit : Z;
  ch_join_throttle_count : Z;
  ch_join_throttle_seconds : Z;
  ch_join_throttle_window_count : Z;
  ch_join_throttle_window_start : Z;
  ch_limit_redirect : cstr;
  ch_ban_redirect : cstr;
  ch_chanserv_policy_loaded : bool;
  ch_chanserv_policy_valid : bool;
  ch_chanserv_founder : cstr;
  ch_chanserv_mode_lock : ChannelModeSet;
  ch_chanserv_secure_ops : bool;
  ch_chanserv_successor : cstr;
  ch_chanserv_greeting : cstr;
  ch_ban_list : list ChannelMaskEntry;
  ch_exception_list : list ChannelMaskEntry;
  ch_invite_exception_list : list ChannelMaskEntry;
  ch_invites : list N;
  ch_members : list ChannelMember;
  ch_member_count : nat }.

Definition Channel_eta (ch : Channel) : Channel :=
  MkChannel (ch_name ch) (ch_modes ch) (ch_topic ch) (ch_topic_setter ch) (ch_topic_time ch)
    (ch_key ch) (ch_user_limit ch) (ch_join_throttle_count ch) (ch_join_throttle_seconds ch)
    (ch_join_throttle_window_count ch) (ch_join_throttle_window_start ch)
    (ch_limit_redirect ch) (ch_ban_redirect ch) (ch_chanserv_policy_loaded ch)
    (ch_chanserv_policy_valid ch) (ch_chanserv_founder ch) (ch_chanserv_mode_lock ch)
    (ch_chanserv_secure_ops ch) (ch_chanserv_successor ch) (ch_chanserv_greeting ch)
    (ch_ban_list ch) (ch_exception_list ch) (ch_invite_exception_list ch) (ch_invites ch)
    (ch_members ch) (ch_member_count ch).

Definition set_ch_name (v : cstr) (ch : Channel) : Channel := ltac:(field_update Channel_eta ch_name v ch).
Definition set_ch_modes (v : ChannelModeSet) (ch : Channel) : Channel := ltac:(field_update Channel_eta ch_modes v ch).
Definition set_ch_topic (v : cstr) (ch : Channel) : Channel := ltac:(field_update Channel_eta ch_topic v ch).
Definition set_ch_topic_setter (v : cstr) (ch : Channel) : Channel := ltac:(field_update Channel_eta ch_topic_setter v ch).
Definition set_ch_topic_time (v : Z) (ch : Channel) : Channel := ltac:(field_update Channel_eta ch_topic_time v ch).
Definition set_ch_key (v : cstr) (ch : Channel) : Channel := ltac:(field_update Channel_eta ch_key v ch).
Definition set_ch_user_limit (v : Z) (ch : Channel) : Channel := ltac:(field_update Channel_eta ch_user_limit v ch).
Definition set_ch_join_throttle_count (v : Z) (ch : Channel) : Channel := ltac:(field_update Channel_eta ch_join_throttle_count v ch).
Definition set_ch_join_throttle_seconds (v : Z) (ch : Channel) : Channel := ltac:(field_update Channel_eta ch_join_throttle_seconds v ch).
Definition set_ch_join_throttle_window_count (v : Z) (ch : Channel) : Channel := ltac:(field_update Channel_eta ch_join_throttle_window_count v ch).
Definition set_ch_join_throttle_window_start (v : Z) (ch : Channel) : Channel := ltac:(field_update Channel_eta ch_join_throttle_window_start v ch).
Definition set_ch_limit_redirect (v : cstr) (ch : Channel) : Channel := ltac:(field_update Channel_eta ch_limit_redirect v ch).
Definition set_ch_ban_redirect (v : cstr) (ch : Channel) : Channel := ltac:(field_update Channel_eta ch_ban_redirect v ch).
Definition set_ch_chanserv_policy_loaded (v : bool) (ch : Channel) : Channel := ltac:(field_update Channel_eta ch_chanserv_policy_loaded v ch).
Definition set_ch_chanserv_policy_valid (v : bool) (ch : Channel) : Channel := ltac:(field_update Channel_eta ch_chanserv_policy_valid v ch).
Definition set_ch_chanserv_founder (v : cstr) (ch : Channel) : Channel := ltac:(field_update Channel_eta ch_chanserv_founder v ch).
Definition set_ch_chanserv_mode_lock (v : ChannelModeSet) (ch : Channel) : Channel := ltac:(field_update Channel_eta ch_chanserv_mode_lock v ch).
Definition set_ch_chanserv_secure_ops (v : bool) (ch : Channel) : Channel := ltac:(field_update Channel_eta ch_chanserv_secure_ops v ch).
Definition set_ch_chanserv_successor (v : cstr) (ch : Channel) : Channel := ltac:(field_update Channel_eta ch_chanserv_successor v ch).
Definition set_ch_chanserv_greeting (v : cstr) (ch : Channel) : Channel := ltac:(field_update Channel_eta ch_chanserv_greeting v ch).
Definition set_ch_ban_list (v : list ChannelMaskEntry) (ch : Channel) : Channel := ltac:(field_update Channel_eta ch_ban_list v ch).
Definition set_ch_exception_list (v : list ChannelMaskEntry) (ch : Channel) : Channel := ltac:(field_update Channel_eta ch_exception_list v ch).
Definition set_ch_invite_exception_list (v : list ChannelMaskEntry) (ch : Channel) : Channel := ltac:(field_update Channel_eta ch_invite_exception_list v ch).
Definition set_ch_invites (v : list N) (ch : Channel) : Channel := ltac:(field_update Channel_eta ch_invites v ch).
Definition set_ch_members (v : list ChannelMember) (ch : Channel) : Channel := ltac:(field_update Channel_eta ch_members v ch).
Definition set_ch_member_count (v : nat) (ch : Channel) : Channel := ltac:(field_update Channel_eta ch_member_count v ch).

Record WhowasRecord := MkWhowas {
  wh_nick : cstr;
  wh_user : cstr;
  wh_host : cstr;
  wh_realname : cstr;
  wh_server_name : cstr;
  wh_when : Z }.

Record WebIrcGatewayConfig := MkGateway { gw_ip : cstr; gw_password : cstr }.

(** A slot of [argon2_throttles], and the fields that bound the password checks.
    [ar_throttles] is the part of the array in use; the slots after it are zero. *)
Record NickServRegistrationThrottle := MkThrottle { th_ip : cstr; th_window_start : Z; th_count : Z }.

Record Argon2Limit := MkArgon2 {
  ar_throttles : list NickServRegistrationThrottle;
  ar_global_window_start : Z;
  ar_global_count : Z;
  ar_burst_window_start : Z;
  ar_burst_count : Z }.

(** A row of the table [nickserv_accounts]. *)
Record NickServAccount := MkAccount {
  na_name : cstr;
  na_password_hash : cstr;
  na_vhost : cstr;
  na_enabled : bool;
  na_email : cstr;
  na_email_verified : bool;
  na_pending_email : cstr;
  na_email_verify_token_hash : cstr;
  na_email_verify_expires_at : Z;
  na_reset_token_hash : cstr;
  na_reset_expires_at : Z;
  na_created_at : Z;
  na_updated_at : Z;
  na_last_identified_at : Z }.

(** [nickserv.db], and the fields that bound registrations and mail. *)
Record NickServState := MkNickServ {
  ns_accounts : list NickServAccount;
  ns_registration_throttles : list NickServRegistrationThrottle;
  ns_mail_throttles : list NickServRegistrationThrottle;
  ns_mail_global_window_start : Z;
  ns_mail_global_count : Z }.

Record ServerConfig := MkConfig {
  server_name : cstr;
  network_name : cstr;
  max_channels : nat;
  nospoof_enabled : bool;
  nospoof_timeout_seconds : Z;
  server_password : cstr;
  cloak_key : cstr;
  cloak_prefix : cstr;
  reserved_nicks : list cstr;
  admin_email : cstr;
  dnsbl_count : nat;
  dnsbl_timeout_seconds : Z;
  history_limit : nat;
  max_clients : nat;
  max_connections_per_ip : nat;
  output_queue_max_bytes : Z;
  ping_interval_seconds : Z;
  ping_timeout_seconds : Z;
  connection_limit_exempt_ips : list cstr;
  webirc_gateways : list WebIrcGatewayConfig;
  registration_timeout_seconds : Z;
  dns_timeout_seconds : Z;
  zline_default_duration_seconds : Z;
  admin_location1 : cstr;
  admin_location2 : cstr;
  netadmin_name : cstr;
  netadmin_password_hash : cstr;
  netadmin_hostmask : cstr;
  netadmin_vhost : cstr;
  argon2_ops_per_ip : Z;
  argon2_window_seconds : Z;
  argon2_global_ops_per_minute : Z;
  argon2_global_burst_per_second : Z;
  sendmail_path : cstr;
  mail_from : cstr;
  nickserv_verify_seconds : Z;
  nickserv_reset_seconds : Z;
  nickserv_registrations_per_ip : Z;
  nickserv_registration_window_seconds : Z;
  nickserv_mail_requests_per_ip : Z;
  nickserv_mail_window_seconds : Z;
  nickserv_mail_global_per_minute : Z }.

(** ** The rows of [chanserv.db] *)

Record ChanServChannel := MkRegistration {
  cs_name : cstr;
  cs_founder : cstr;
  cs_description : cstr;
  cs_enabled : bool;
  cs_mode_lock : N;
  cs_topic : cstr;
  cs_topic_setter : cstr;
  cs_topic_time : Z;
  cs_secure_ops : bool;
  cs_successor : cstr;
  cs_greeting : cstr;
  cs_created_at : Z;
  cs_updated_at : Z }.
Definition ChanServChannel_eta (r : ChanServChannel) : ChanServChannel :=
  MkRegistration (cs_name r) (cs_founder r) (cs_description r) (cs_enabled r) (cs_mode_lock r) (cs_topic r)
    (cs_topic_setter r) (cs_topic_time r) (cs_secure_ops r) (cs_successor r) (cs_greeting r) (cs_created_at r) (cs_updated_at r).
Definition set_cs_founder (v : cstr) (r : ChanServChannel) : ChanServChannel := ltac:(field_update ChanServChannel_eta cs_founder v r).
Definition set_cs_description (v : cstr) (r : ChanServChannel) : ChanServChannel := ltac:(field_update ChanServChannel_eta cs_description v r).
Definition set_cs_enabled (v : bool) (r : ChanServChannel) : ChanServChannel := ltac:(field_update ChanServChannel_eta cs_enabled v r).
Definition set_cs_mode_lock (v : N) (r : ChanServChannel) : ChanServChannel := ltac:(field_update ChanServChannel_eta cs_mode_lock v r).
Definition set_cs_topic (v : cstr) (r : ChanServChannel) : ChanServChannel := ltac:(field_update ChanServChannel_eta cs_topic v r).
Definition set_cs_topic_setter (v : cstr) (r : ChanServChannel) : ChanServChannel := ltac:(field_update ChanServChannel_eta cs_topic_setter v r).
Definition set_cs_topic_time (v : Z) (r : ChanServChannel) : ChanServChannel := ltac:(field_update ChanServChannel_eta cs_topic_time v r).
Definition set_cs_secure_ops (v : bool) (r : ChanServChannel) : ChanServChannel := ltac:(field_update ChanServChannel_eta cs_secure_ops v r).
Definition set_cs_successor (v : cstr) (r : ChanServChannel) : ChanServChannel := ltac:(field_update ChanServChannel_eta cs_successor v r).
Definition set_cs_greeting (v : cstr) (r : ChanServChannel) : ChanServChannel := ltac:(field_update ChanServChannel_eta cs_greeting v r).
Definition set_cs_updated_at (v : Z) (r : ChanServChannel) : ChanServChannel := ltac:(field_update ChanServChannel_eta cs_updated_at v r).

Inductive ChanServAccessLevel :=
  | CHANSERV_ACCESS_NONE | CHANSERV_ACCESS_VOICE | CHANSERV_ACCESS_HALFOP
  | CHANSERV_ACCESS_OP | CHANSERV_ACCESS_PROTECTED | CHANSERV_ACCESS_OWNER.
Record ChanServAccess := MkAccess { ca_channel : cstr; ca_account : cstr; ca_level : ChanServAccessLevel }.

(** A row of [channel_runtime], and one of [channel_masks]. *)
Record ChannelRuntime := MkRuntime {
  rt_channel : cstr;
  rt_key : cstr;
  rt_user_limit : Z;
  rt_join_count : Z;
  rt_join_seconds : Z;
  rt_limit_redirect : cstr;
  rt_ban_redirect : cstr }.
Definition set_rt_channel (v : cstr) (r : ChannelRuntime) : ChannelRuntime :=
  MkRuntime v (rt_key r) (rt_user_limit r) (rt_join_count r) (rt_join_seconds r) (rt_limit_redirect r) (rt_ban_redirect r).
Record ChannelMaskRow := MkMaskRow { mr_channel : cstr; mr_type : Z; mr_mask : cstr; mr_authorized : Z }.

Record ChanServTables := MkTables {
  ct_channels : list ChanServChannel;
  ct_access : list ChanServAccess;
  ct_runtime : list ChannelRuntime;
  ct_masks : list ChannelMaskRow }.
Definition set_ct_channels (v : list ChanServChannel) (t : ChanServTables) : ChanServTables := MkTables v (ct_access t) (ct_runtime t) (ct_masks t).
Definition set_ct_access (v : list ChanServAccess) (t : ChanServTables) : ChanServTables := MkTables (ct_channels t) v (ct_runtime t) (ct_masks t).
Definition set_ct_runtime (v : list ChannelRuntime) (t : ChanServTables) : ChanServTables := MkTables (ct_channels t) (ct_access t) v (ct_masks t).
Definition set_ct_masks (v : list ChannelMaskRow) (t : ChanServTables) : ChanServTables := MkTables (ct_channels t) (ct_access t) (ct_runtime t) v.
Definition no_tables : ChanServTables := MkTables [] [] [] [].

(** What lies outside the process: connections, the record of lines, ChanServ's database,
    and the updates of [last_opered_at] made in [operators.db], latest first. *)
Record IO := MkIO {
  io_conns : gmap ptr Conn;
  io_serial : N;
  io_timestamp : cstr;
  io_log : list (ptr * cstr);
  io_chanserv : ChanServTables;
  io_last_opered : list (cstr * Z) }.

Definition IO_eta (i : IO) : IO :=
  MkIO (io_conns i) (io_serial i) (io_timestamp i) (io_log i) (io_chanserv i) (io_last_opered i).

Definition set_io_conns (v : gmap ptr Conn) (i : IO) : IO := ltac:(field_update IO_eta io_conns v i).
Definition set_io_serial (v : N) (i : IO) : IO := ltac:(field_update IO_eta io_serial v i).
Definition set_io_timestamp (v : cstr) (i : IO) : IO := ltac:(field_update IO_eta io_timestamp v i).
Definition set_io_log (v : list (ptr * cstr)) (i : IO) : IO := ltac:(field_update IO_eta io_log v i).
Definition set_io_chanserv (v : ChanServTables) (i : IO) : IO := ltac:(field_update IO_eta io_chanserv v i).
Definition set_io_last_opered (v : list (cstr * Z)) (i : IO) : IO := ltac:(field_update IO_eta io_last_opered v i).

(** [w_pmstats_server]: the static pointer of [dispatch.c] is not [NULL];
    [w_high_water]: the static counters of [lusers.c]. *)
Record World := MkWorld {
  w_config : ServerConfig;
  w_clients : gmap ptr Client;
  w_channels : gmap ptr Channel;
  w_client_array : list ptr;
  w_channel_count : nat;
  w_next_client_id : N;
  w_clients_by_id : HashTable ptr;
  w_connection_counts_by_ip : HashTable nat;
  w_clients_by_nick : HashTable ptr;
  w_channels_by_name : HashTable ptr;
  w_whowas : list WhowasRecord;
  w_whowas_next : nat;
  w_whowas_count : nat;
  w_command_global_budget_updated : Z;
  w_command_global_budget_tokens : Z;
  w_command_global_throttle_notice_time : Z;
  w_free_hook : ClientFreeHook;
  w_pmstats_server : bool;
  w_next_ptr : ptr;
  w_now : Z;
  w_alloc : list bool;
  w_client_capacity : nat;
  w_started_at : Z;
  w_high_water : Z * nat;
  w_input_dispatch_cursor : nat;
  w_tls_handshake_cursor : nat;
  w_restart_requested : bool;
  w_shutdown_requested : bool;
  w_argon2 : Argon2Limit;
  w_nickserv : NickServState;
  w_io : IO }.

Definition World_eta (w : World) : World :=
  MkWorld (w_config w) (w_clients w) (w_channels w) (w_client_array w) (w_channel_count w) (w_next_client_id w) (w_clients_by_id w) (w_connection_counts_by_ip w)
    (w_clients_by_nick w) (w_channels_by_name w) (w_whowas w) (w_whowas_next w)
    (w_whowas_count w) (w_command_global_budget_updated w)
    (w_command_global_budget_tokens w) (w_command_global_throttle_notice_time w)
    (w_free_hook w) (w_pmstats_server w) (w_next_ptr w) (w_now w) (w_alloc w)
    (w_client_capacity w) (w_started_at w) (w_high_water w) (w_input_dispatch_cursor w)
    (w_tls_handshake_cursor w) (w_restart_requested w) (w_shutdown_requested w) (w_argon2 w) (w_nickserv w) (w_io w).

Definition set_w_config (v : ServerConfig) (w : World) : World := ltac:(field_update World_eta w_config v w).
Definition set_w_clients (v : gmap ptr Client) (w : World) : World := ltac:(field_update World_eta w_clients v w).
Definition set_w_channels (v : gmap ptr Channel) (w : World) : World := ltac:(field_update World_eta w_channels v w).
Definition set_w_client_array (v : list ptr) (w : World) : World := ltac:(field_update World_eta w_client_array v w).
Definition set_w_channel_count (v : nat) (w : World) : World := ltac:(field_update World_eta w_channel_count v w).
Definition set_w_next_client_id (v : N) (w : World) : World := ltac:(field_update World_eta w_next_client_id v w).
Definition set_w_clients_by_id (v : HashTable ptr) (w : World) : World := ltac:(field_update World_eta w_clients_by_id v w).
Definition set_w_connection_counts_by_ip (v : HashTable nat) (w : World) : World := ltac:(field_update World_eta w_connection_counts_by_ip v w).
Definition set_w_clients_by_nick (v : HashTable ptr) (w : World) : World := ltac:(field_update World_eta w_clients_by_nick v w).
Definition set_w_channels_by_name (v : HashTable ptr) (w : World) : World := ltac:(field_update World_eta w_channels_by_name v w).
Definition set_w_whowas (v : list WhowasRecord) (w : World) : World := ltac:(field_update World_eta w_whowas v w).
Definition set_w_whowas_next (v : nat) (w : World) : World := ltac:(field_update World_eta w_whowas_next v w).
Definition set_w_whowas_count (v : nat) (w : World) : World := ltac:(field_update World_eta w_whowas_count v w).
Definition set_w_command_global_budget_updated (v : Z) (w : World) : World := ltac:(field_update World_eta w_command_global_budget_updated v w).
Definition set_w_command_global_budget_tokens (v : Z) (w : World) : World := ltac:(field_update World_eta w_command_global_budget_tokens v w).
Definition set_w_command_global_throttle_notice_time (v : Z) (w : World) : World := ltac:(field_update World_eta w_command_global_throttle_notice_time v w).
Definition set_w_free_hook (v : ClientFreeHook) (w : World) : World := ltac:(field_update World_eta w_free_hook v w).
Definition set_w_pmstats_server (v : bool) (w : World) : World := ltac:(field_update World_eta w_pmstats_server v w).
Definition set_w_next_ptr (v : ptr) (w : World) : World := ltac:(field_update World_eta w_next_ptr v w).
Definition set_w_now (v : Z) (w : World) : World := ltac:(field_update World_eta w_now v w).
Definition set_w_alloc (v : list bool) (w : World) : World := ltac:(field_update World_eta w_alloc v w).
Definition set_w_client_capacity (v : nat) (w : World) : World := ltac:(field_update World_eta w_client_capacity v w).
Definition set_w_started_at (v : Z) (w : World) : World := ltac:(field_update World_eta w_started_at v w).
Definition set_w_high_water (v : Z * nat) (w : World) : World := ltac:(field_update World_eta w_high_water v w).
Definition set_w_input_dispatch_cursor (v : nat) (w : World) : World := ltac:(field_update World_eta w_input_dispatch_cursor v w).
Definition set_w_tls_handshake_cursor (v : nat) (w : World) : World := ltac:(field_update World_eta w_tls_handshake_cursor v w).
Definition set_w_restart_requested (v : bool) (w : World) : World := ltac:(field_update World_eta w_restart_requested v w).
Definition set_w_shutdown_requested (v : bool) (w : World) : World := ltac:(field_update World_eta w_shutdown_requested v w).
Definition set_w_argon2 (v : Argon2Limit) (w : World) : World := ltac:(field_update World_eta w_argon2 v w).
Definition set_w_nickserv (v : NickServState) (w : World) : World := ltac:(field_update World_eta w_nickserv v w).
Definition set_w_io (v : IO) (w : World) : World := ltac:(field_update World_eta w_io v w).

(** Zeroed memory. *)
Definition calloc_client : Client :=
  MkClient 0%N false false 0%N 0%Z 0%Z 0%Z 0%Z 0%Z 0%Z 0%Z 0%N 0%N false [] [] [] [] []
    false 0%N 0%N CLIENT_SASL_NONE [] [] [] [] [] false false false false 0%Z [] false false
    [] false false [] CLIENT_DNS_NONE CLIENT_DNSBL_NONE 0%Z false false 0%Z 0%Z 0%Z false 0%Z [] 0 [] 0 [] [] 0 [] [] 0%Z [] false false no_geoip [] [] [].

Definition calloc_channel : Channel :=
  MkChannel [] 0%N [] [] 0%Z [] 0%Z 0%Z 0%Z 0%Z 0%Z [] [] false false [] 0%N false [] [] []
    [] [] [] [] 0.

(** ** Reading and updating the heap *)

Abbreviation M := (ST World).

Definition the_client (w : World) (c : ptr) : Client := default calloc_client (w_clients w !! c).
Definition the_channel (w : World) (ch : ptr) : Channel := default calloc_channel (w_channels w !! ch).
Definition the_conn (w : World) (c : ptr) : Conn :=
  default (conn_create false [] []) (io_conns (w_io w) !! c).

Definition put_client (c : ptr) (f : Client → Client) (w : World) : World :=
  set_w_clients (alter f c (w_clients w)) w.
Definition put_channel (ch : ptr) (f : Channel → Channel) (w : World) : World :=
  set_w_channels (alter f ch (w_channels w)) w.

Definition client (c : ptr) : M Client := gets (λ w, the_client w c).
Definition channel (ch : ptr) : M Channel := gets (λ w, the_channel w ch).
Definition upd_client (c : ptr) (f : Client → Client) : M unit := modify (put_client c f).
Definition upd_channel (ch : ptr) (f : Channel → Channel) : M unit := modify (put_channel ch f).
Definition config : M ServerConfig := gets w_config.
Definition now : M Z := gets w_now.

Lemma run_upd_client {A} c f (k : unit → M A) w : (upd_client c f ≫= k) w = k tt (put_client c f w).
Proof. reflexivity. Qed.

(** One allocation. *)
Definition alloc : M bool := λ w, (hd true (w_alloc w), set_w_alloc (tail (w_alloc w)) w).

(** [hash_get(&server->clients_by_nick, nick)] and its channel counterpart. *)
Definition find_nick (nick : cstr) : M (option ptr) := gets (λ w, hash_get (w_clients_by_nick w) nick).
Definition find_channel (name : cstr) : M (option ptr) := gets (λ w, hash_get (w_channels_by_name w) name).

(** ** Sending *)

(** The output functions of [Output] on the connection of a client. *)
Definition put_conn (c : ptr) (conn : Conn) (serial : N) (w : World) : World :=
  set_w_io (set_io_serial serial (set_io_conns (<[c := conn]> (io_conns (w_io w))) (w_io w))) w.

Definition log_line (c : ptr) (line : cstr) (w : World) : World :=
  set_w_io (set_io_log (io_log (w_io w) ++ [(c, line)]) (w_io w)) w.

Definition send_line (c : ptr) (line : cstr) : M Z := λ w,
  let '(rc, serial, conn) := client_send_line (cl_capabilities (the_client w c))
      (io_timestamp (w_io w)) (io_serial (w_io w)) (the_conn w c) line in
  (rc, log_line c line (put_conn c conn serial w)).

Definition sendf (c : ptr) (fmt : cstr) (args : list cstr) : M Z := λ w,
  match fits CLIENT_FORMAT_BUFFER_SIZE (format fmt args) with
  | None => ((-1)%Z, w)
  | Some line => send_line c line w
  end.

(** [(void)client_sendf(...)]. *)
Definition tell (c : ptr) (fmt : cstr) (args : list cstr) : M unit := _ ← sendf c fmt args; mret tt.

Definition keep : M CommandResult := mret COMMAND_KEEP_CLIENT.

(** [client_sendf(...); return COMMAND_KEEP_CLIENT;]. *)
Definition reply (c : ptr) (fmt : cstr) (args : list cstr) : M CommandResult :=
  tell c fmt args ;; keep.

Definition on_conn (c : ptr) (f : Conn → Conn) : M unit :=
  modify (λ w, put_conn c (f (the_conn w c)) (io_serial (w_io w)) w).

Definition response_suppress (c : ptr) (suppress : bool) : M unit :=
  on_conn c (λ conn, client_labeled_response_suppress conn suppress).

Definition overflowed (c : ptr) : M bool := gets (λ w, output_overflowed (the_conn w c)).

(** ** What sending changes *)

(** Only the output side of the world differs. *)
Definition quiet (w w' : World) : Prop := w' = set_w_io (w_io w') w.

#[export] Instance quiet_preorder : PreOrder quiet.
Proof.
  split.
  - intros []. reflexivity.
  - intros a b c H1 H2. unfold quiet in *. rewrite H2, H1 at 1. reflexivity.
Qed.

Lemma quiet_set_io i w : quiet w (set_w_io i w).
Proof. reflexivity. Qed.

Lemma send_line_quiet c line : does quiet (send_line c line).
Proof.
  intros w. unfold send_line. destruct (client_send_line _ _ _ _ _) as [[rc serial] conn].
  reflexivity.
Qed.

Lemma sendf_quiet c fmt args : does quiet (sendf c fmt args).
Proof.
  intros w. unfold sendf. destruct (fits _ _); [apply send_line_quiet | simpl; reflexivity].
Qed.

Lemma on_conn_quiet c f : does quiet (on_conn c f).
Proof. intros w. reflexivity. Qed.

(** [frames]: follows the structure of a handler, splitting at every test, and
    leaves the primitive steps to the [frame] database. *)
Ltac frame_step :=
  match goal with
  | |- does _ (mret _) => apply does_ret; apply _
  | |- does _ keep => apply does_ret; apply _
  | |- does _ (gets _) => apply does_gets; apply _
  | |- does _ (client _) => apply does_gets; apply _
  | |- does _ (channel _) => apply does_gets; apply _
  | |- does _ (find_nick _) => apply does_gets; apply _
  | |- does _ (find_channel _) => apply does_gets; apply _
  | |- does _ (overflowed _) => apply does_gets; apply _
  | |- does _ (config) => apply does_gets; apply _
  | |- does _ (now) => apply does_gets; apply _
  | |- does _ (when _ _) => apply does_when; [apply _|]
  | |- does _ (for_each _ _) => apply does_for_each; [apply _|intros]
  | |- does _ (_ ≫= _) => apply does_bind; [apply _| |intros]
  | |- does _ (if ?b then _ else _) => destruct b eqn:?
  | |- does _ (match ?x with _ => _ end) => destruct x eqn:?
  | |- does _ (let _ := _ in _) => cbv zeta
  | |- _ => solve [eauto with frame]
  end.
Ltac frames := repeat frame_step.

#[export] Hint Resolve send_line_quiet sendf_quiet on_conn_quiet : frame.

Lemma tell_quiet c fmt args : does quiet (tell c fmt args).
Proof. unfold tell. frames. Qed.
Lemma reply_quiet c fmt args : does quiet (reply c fmt args).
Proof. unfold reply. pose proof tell_quiet. frames. Qed.
#[export] Hint Resolve tell_quiet reply_quiet : frame.

(** A relation that sending respects contains [quiet]. *)
Class Silent (R : relation World) : Prop := {
  silent_preorder :: PreOrder R;
  silent_quiet w w' : quiet w w' → R w w' }.

Lemma does_quiet {A} (R : relation World) `{!Silent R} (m : M A) : does quiet m → does R m.
Proof. apply does_weaken, silent_quiet. Qed.

#[export] Instance quiet_silent : Silent quiet.
Proof. split; [apply _ | done]. Qed.

(** Reasoning about a run: a quiet step leaves only another output side behind. *)
Lemma run_quiet {A} (m : M A) w : does quiet m → ∃ a i, m w = (a, set_w_io i w).
Proof.
  intros Hm. specialize (Hm w). destruct (m w) as [a w']. exists a, (w_io w').
  unfold quiet in Hm. simpl in Hm. by rewrite <-Hm.
Qed.

Lemma quiet_step {A B} (m : M A) (k : A → M B) w (P : B * World → Prop) :
  does quiet m → (∀ a i, P (k a (set_w_io i w))) → P ((m ≫= k) w).
Proof. intros Hm Hk. rewrite run_bind. destruct (run_quiet m w Hm) as (a & i & ->). apply Hk. Qed.

(** ** Fields of a client a step leaves alone *)

Definition same_at {A} (f : Client → A) (c : ptr) (w w' : World) : Prop :=
  f (the_client w' c) = f (the_client w c).

#[export] Instance same_at_preorder {A} (f : Client → A) c : PreOrder (same_at f c).
Proof. split; unfold same_at; [done | intros ???; congruence]. Qed.
#[export] Instance same_at_silent {A} (f : Client → A) c : Silent (same_at f c).
Proof. split; [apply _|]. intros w w' H. unfold quiet in H. rewrite H. done. Qed.

Lemma the_client_put w c d g :
  the_client (put_client d g w) c = if decide (c = d) then match w_clients w !! d with
    | Some K => g K | None => calloc_client end else the_client w c.
Proof.
  unfold the_client, put_client. simpl. case_decide; subst.
  - rewrite lookup_alter_eq. by destruct (w_clients w !! d).
  - by rewrite lookup_alter_ne by congruence.
Qed.

Lemma same_at_upd {A} (f : Client → A) c d g :
  (∀ K, f (g K) = f K) → does (same_at f c) (upd_client d g).
Proof.
  intros Hf w. unfold same_at, upd_client, modify. simpl. rewrite the_client_put.
  case_decide; [|done]. subst. unfold the_client. destruct (w_clients w !! d); simpl; [apply Hf | done].
Qed.

Lemma same_at_other {A} (f : Client → A) c d g : c ≠ d → does (same_at f c) (upd_client d g).
Proof. intros Hd w. unfold same_at, upd_client, modify. simpl. rewrite the_client_put. by case_decide. Qed.

(** Steps on the rest of the world. *)
Lemma same_at_modify {A} (f : Client → A) c g :
  (∀ w, w_clients (g w) = w_clients w) → does (same_at f c) (modify g).
Proof. intros H w. unfold same_at, modify, the_client. simpl. by rewrite H. Qed.

#[export] Hint Resolve same_at_other : frame.
#[export] Hint Extern 4 (does (same_at _ _) (upd_client _ _)) => apply same_at_upd; intros ?; reflexivity : frame.
#[export] Hint Extern 4 (does (same_at _ _) (upd_channel _ _)) => intros ?; reflexivity : frame.
#[export] Hint Extern 4 (does (same_at _ _) (modify _)) => apply same_at_modify; intros ?; reflexivity : frame.
#[export] Hint Extern 4 (does (same_at _ _) alloc) => intros ?; reflexivity : frame.
#[export] Hint Extern 5 (does (same_at _ _) _) => apply (does_quiet _); solve [eauto with frame] : frame.
