(* ===== verification/Channel.v ===== *)
(** * Channels ([src/channel.c], [src/channel_policy.c])

    Channel ownership, membership, privileges, mask lists, invitations and join
    throttling, and the channel registry of [src/server.c].  Lists are kept in the
    order of the C linked lists: new entries go in front. *)

From S2P Require Import Prelude CString Modes HashTable MaskMatch Output World.

Definition IRC_CHANNEL_NAME_MAX : nat := 32.
Definition IRC_CHANNEL_MASK_MAX : nat := 255.
Definition IRC_CHANNEL_MASK_LIST_MAX : nat := 100.
Definition IRC_CHANNEL_INVITE_MAX : nat := 128.
Definition IRC_CHANNEL_KEY_MAX : nat := 63.
Definition IRC_CHANNEL_TOPIC_MAX : nat := 390.
Definition IRC_USER_MAX : nat := 10.
Definition IRC_HOST_MAX : nat := 63.
Definition IRC_CHANNEL_TOPIC_SETTER_MAX : nat := IRC_NICK_MAX + IRC_USER_MAX + IRC_HOST_MAX + 3.
Definition UINT_MAX : Z := 4294967295.
Definition INT64_MAX : Z := 9223372036854775807.
Definition IRC_CHANNEL_PREFIXES : cstr := "#&".
Definition IRCD_MESSAGE_BUFFER_SIZE : nat := 1024.

(** [nick!user@display_host]. *)
Definition identity (c : Client) : cstr :=
  snprintf IRCD_MESSAGE_BUFFER_SIZE
    (format "%s!%s@%s" [cl_nick c; cl_user c; cl_display_host c]).

(** ** Names *)

Definition channel_name_char (ch : ascii) : bool :=
  negb ((byte ch <=? 32)%N || Ascii.eqb ch "," || Ascii.eqb ch ":" || (byte ch =? 127)%N).

Definition channel_name_valid (name : cstr) : bool :=
  if negb (strchr IRC_CHANNEL_PREFIXES (char0 name)) then false else
  if (length name <? 2) || (IRC_CHANNEL_NAME_MAX <? length name) then false else
  forallb channel_name_char (tail name).

(** ** Creation and destruction *)

(** [NULL] for a bad name or when [calloc] fails. *)
Definition channel_create (name : cstr) : M (option ptr) :=
  if negb (channel_name_valid name) then mret None else
  ok ← alloc;
  if negb ok then mret None else
  p ← gets w_next_ptr;
  modify (λ w, set_w_next_ptr (S p) (set_w_channels
    (<[p := set_ch_name (snprintf (IRC_CHANNEL_NAME_MAX + 1) name) calloc_channel]> (w_channels w)) w)) ;;
  mret (Some p).

(** Frees the channel with its lists and member records. *)
Definition channel_free (ch : ptr) : M unit :=
  modify (λ w, set_w_channels (delete ch (w_channels w)) w).

(** ** Members *)

Definition channel_find_member (ch : Channel) (c : ptr) : option ChannelMember :=
  find (λ m, m_client m =? c) (ch_members ch).

Definition channel_has_client (ch : Channel) (c : ptr) : bool :=
  match channel_find_member ch c with Some _ => true | None => false end.

Definition channel_add_client (ch c : ptr) : M Z :=
  C ← channel ch;
  if channel_has_client C c then mret 0%Z else
  ok1 ← alloc;
  ok2 ← alloc;
  if negb ok1 || negb ok2 then mret (-1)%Z else
  upd_channel ch (λ C, set_ch_member_count (S (ch_member_count C))
                         (set_ch_members (MkMember c 0 0 0 :: ch_members C) C)) ;;
  upd_client c (λ K, set_cl_channel_count (S (cl_channel_count K))
                       (set_cl_channels (ch :: cl_channels K) K)) ;;
  mret 0%Z.

(** Removes the first entry satisfying [p]; the flag says whether there was one. *)
Fixpoint remove_first {A} (p : A → bool) (l : list A) : bool * list A :=
  match l with
  | [] => (false, [])
  | x :: l' => if p x then (true, l') else let '(b, r) := remove_first p l' in (b, x :: r)
  end.

Definition drop_member (c : ptr) (C : Channel) : Channel :=
  let '(found, l) := remove_first (λ m, m_client m =? c) (ch_members C) in
  if found : bool then
    set_ch_member_count (if 0 <? ch_member_count C then ch_member_count C - 1 else ch_member_count C)
      (set_ch_members l C)
  else C.

Definition drop_link (ch : ptr) (K : Client) : Client :=
  let '(found, l) := remove_first (λ x, x =? ch) (cl_channels K) in
  if found : bool then
    set_cl_channel_count (if 0 <? cl_channel_count K then cl_channel_count K - 1 else cl_channel_count K)
      (set_cl_channels l K)
  else K.

Definition channel_remove_client (ch c : ptr) : M unit :=
  upd_channel ch (drop_member c) ;; upd_client c (drop_link ch).

(** ** Privileges *)

(** Updates the member record of [c]. *)
Fixpoint upd_member (c : ptr) (f : ChannelMember → ChannelMember) (l : list ChannelMember)
    : list ChannelMember :=
  match l with
  | [] => []
  | m :: l' => if m_client m =? c then f m :: l' else m :: upd_member c f l'
  end.

Definition with_member (ch c : ptr) (f : ChannelMember → ChannelMember) : M Z :=
  C ← channel ch;
  match channel_find_member C c with
  | None => mret (-1)%Z
  | Some _ => upd_channel ch (λ C, set_ch_members (upd_member c f (ch_members C)) C) ;; mret 0%Z
  end.

Definition channel_set_privileges (ch c : ptr) (privileges : ChannelPrivilegeSet) : M Z :=
  with_member ch c (λ m, MkMember (m_client m) privileges privileges 0).

Definition channel_add_privileges (ch c : ptr) (privileges : ChannelPrivilegeSet) : M Z :=
  with_member ch c (λ m,
    let manual := N.lor (m_manual m) privileges in
    MkMember (m_client m) (N.lor manual (m_service m)) manual (m_service m)).

Definition channel_remove_privileges (ch c : ptr) (privileges : ChannelPrivilegeSet) : M Z :=
  with_member ch c (λ m,
    let manual := N.land (m_manual m) (cnot 32 privileges) in
    let service := N.land (m_service m) (cnot 32 privileges) in
    MkMember (m_client m) (N.lor manual service) manual service).

Definition channel_remove_manual_privileges (ch c : ptr) (privileges : ChannelPrivilegeSet) : M Z :=
  with_member ch c (λ m,
    let manual := N.land (m_manual m) (cnot 32 privileges) in
    MkMember (m_client m) (N.lor manual (m_service m)) manual (m_service m)).

Definition channel_set_service_privileges (ch c : ptr) (privileges : ChannelPrivilegeSet) : M Z :=
  with_member ch c (λ m,
    MkMember (m_client m) (N.lor (m_manual m) privileges) (m_manual m) privileges).

Definition channel_forget_service_privileges (ch : ptr) : M unit :=
  upd_channel ch (λ C, set_ch_members
    (map (λ m, let manual := N.lor (m_manual m) (m_service m) in
               MkMember (m_client m) manual manual 0) (ch_members C)) C).

(** ** Mask lists *)

(** Sets [protected_authorized] on the entry equal to [mask], if it is asked for. *)
Fixpoint authorize (text : cstr) (l : list ChannelMaskEntry) : list ChannelMaskEntry :=
  match l with
  | [] => []
  | e :: l' => if streq (mask e) text then MkMask (mask e) true :: l' else e :: authorize text l'
  end.

(** Result, whether an allocation was made, and the list; [ok] is its outcome. *)
Definition channel_mask_add_authorized (ok : bool) (l : list ChannelMaskEntry) (text : cstr)
    (authorized : bool) : Z * list ChannelMaskEntry :=
  if empty text || (IRC_CHANNEL_MASK_MAX <? length text) then ((-1)%Z, l) else
  if existsb (λ e, streq (mask e) text) l then (0%Z, if authorized then authorize text l else l) else
  if IRC_CHANNEL_MASK_LIST_MAX <=? length l then ((-2)%Z, l) else
  if negb ok then ((-1)%Z, l) else
  (0%Z, MkMask (snprintf (IRC_CHANNEL_MASK_MAX + 1) text) authorized :: l).

(** Whether adding [text] allocates an entry. *)
Definition mask_needs_entry (l : list ChannelMaskEntry) (text : cstr) : bool :=
  negb (empty text || (IRC_CHANNEL_MASK_MAX <? length text) || existsb (λ e, streq (mask e) text) l ||
        (IRC_CHANNEL_MASK_LIST_MAX <=? length l)).

Definition channel_mask_add (ok : bool) (l : list ChannelMaskEntry) (text : cstr)
    : Z * list ChannelMaskEntry := channel_mask_add_authorized ok l text false.

Definition channel_mask_remove (l : list ChannelMaskEntry) (text : cstr)
    : bool * list ChannelMaskEntry := remove_first (λ e, streq (mask e) text) l.

Definition channel_mask_clear (l : list ChannelMaskEntry) : list ChannelMaskEntry := [].

Definition mask_entry_matches_client (e : ChannelMaskEntry) (c : Client) : bool :=
  irc_mask_match (mask e) (identity c).

Definition channel_mask_matches_client (l : list ChannelMaskEntry) (c : Client) : bool :=
  existsb (λ e, mask_entry_matches_client e c) l.

Definition authorized_ban_matches_client (l : list ChannelMaskEntry) (c : Client) : bool :=
  existsb (λ e, protected_authorized e && mask_entry_matches_client e c) l.

Definition channel_client_is_banned (C : Channel) (c : Client) : bool :=
  channel_mask_matches_client (ch_ban_list C) c &&
  negb (channel_mask_matches_client (ch_exception_list C) c).

Definition channel_client_is_banned_protected (C : Channel) (c : Client) : bool :=
  authorized_ban_matches_client (ch_ban_list C) c &&
  negb (channel_mask_matches_client (ch_exception_list C) c).

Definition channel_client_is_invex (C : Channel) (c : Client) : bool :=
  channel_mask_matches_client (ch_invite_exception_list C) c.

(** ** Invitations *)

Definition channel_invite_add (ch : ptr) (client_id : N) : M Z :=
  C ← channel ch;
  if (client_id =? 0)%N then mret (-1)%Z else
  if existsb (N.eqb client_id) (ch_invites C) then mret 0%Z else
  if IRC_CHANNEL_INVITE_MAX <=? length (ch_invites C) then mret (-2)%Z else
  ok ← alloc;
  if negb ok then mret (-1)%Z else
  upd_channel ch (λ C, set_ch_invites (client_id :: ch_invites C) C) ;; mret 0%Z.

Definition channel_invite_has (C : Channel) (client_id : N) : bool :=
  if (client_id =? 0)%N then false else existsb (N.eqb client_id) (ch_invites C).

Definition channel_invite_consume (ch : ptr) (client_id : N) : M bool :=
  if (client_id =? 0)%N then mret false else
  C ← channel ch;
  let '(found, l) := remove_first (N.eqb client_id) (ch_invites C) in
  upd_channel ch (λ C, set_ch_invites l C) ;; mret found.

Definition channel_invite_clear (ch : ptr) : M unit := upd_channel ch (set_ch_invites []).

(** ** Join throttle *)

(** The window is over, or the clock went backwards. *)
Definition throttle_window_over (now : Z) (C : Channel) : bool :=
  (ch_join_throttle_window_count C =? 0)%Z || (now <? ch_join_throttle_window_start C)%Z ||
  (ch_join_throttle_seconds C <=? now - ch_join_throttle_window_start C)%Z.

Definition throttle_off (C : Channel) : bool :=
  (ch_join_throttle_count C =? 0)%Z || (ch_join_throttle_seconds C =? 0)%Z.

Definition channel_join_throttle_allows (now : Z) (C : Channel) : bool :=
  if throttle_off C then true else
  if throttle_window_over now C then true else
  (ch_join_throttle_window_count C <? ch_join_throttle_count C)%Z.

Definition channel_join_throttle_record (now : Z) (C : Channel) : Channel :=
  if throttle_off C then C else
  if throttle_window_over now C
  then set_ch_join_throttle_window_count 1 (set_ch_join_throttle_window_start now C)
  else set_ch_join_throttle_window_count ((ch_join_throttle_window_count C + 1) mod 2 ^ 32)%Z C.

Definition channel_join_throttle_clear (C : Channel) : Channel :=
  set_ch_join_throttle_window_start 0 (set_ch_join_throttle_window_count 0 C).

(** ** Broadcast *)

(** The line a complete CRLF-terminated frame carries; [None] when it is not one. *)
Definition frame_line (message : cstr) : option cstr :=
  let n := length message in
  if (n <? 2) || (IRC_WIRE_LINE_MAX <? n) then None else
  let body := take (n - 2) message in
  if streq (drop (n - 2) message) [CR; LF] && no_crlf body then Some body else None.

Definition channel_broadcast (ch : ptr) (except : option ptr) (message : cstr) : M unit :=
  match frame_line message with
  | None => mret tt
  | Some line =>
      C ← channel ch;
      for_each (ch_members C) (λ m,
        when (negb (bool_decide (Some (m_client m) = except)))
          (_ ← send_line (m_client m) line; mret tt))
  end.

(** ** The channel registry ([src/server.c]) *)

Definition server_get_or_create_channel (name : cstr) : M (option ptr) :=
  found ← find_channel name;
  match found with
  | Some ch => mret (Some ch)
  | None =>
      full ← gets (λ w, max_channels (w_config w) <=? w_channel_count w);
      if full : bool then mret None else
      created ← channel_create name;
      match created with
      | None => mret None
      | Some ch =>
          C ← channel ch;
          ok ← alloc;
          t ← gets w_channels_by_name;
          let '(rc, t') := hash_set ok t (ch_name C) ch in
          modify (set_w_channels_by_name t') ;;
          if negb (rc =? 0)%Z then channel_free ch ;; mret None else
          modify (λ w, set_w_channel_count (S (w_channel_count w)) w) ;;
          mret (Some ch)
      end
  end.

Definition server_remove_channel_if_empty (ch : ptr) : M unit :=
  C ← channel ch;
  if negb (ch_member_count C =? 0) then mret tt else
  t ← gets w_channels_by_name;
  let '(r, t') := hash_remove t (ch_name C) in
  modify (set_w_channels_by_name t') ;;
  match r with
  | None => mret tt
  | Some _ =>
      modify (λ w, if 0 <? w_channel_count w then set_w_channel_count (w_channel_count w - 1) w else w) ;;
      channel_free ch
  end.
