(* ===== verification/Invariant.v ===== *)
(** * The invariant of the shared state

    Membership is recorded twice, in the channel's member list and in the client's
    channel list, and channels and nicknames are found through hash tables; [wf]
    says that these views agree.  Every operation of [Channel] preserves it. *)

From S2P Require Import Prelude CString Modes HashTable MaskMatch Output World Channel.

Definition member_ids (C : Channel) : list ptr := map m_client (ch_members C).

(** [c] is in the member list of [ch]; [ch] is in the channel list of [c]. *)
Definition member_of (w : World) (c ch : ptr) : Prop :=
  ∃ C, w_channels w !! ch = Some C ∧ c ∈ member_ids C.
Definition linked_to (w : World) (c ch : ptr) : Prop :=
  ∃ K, w_clients w !! c = Some K ∧ ch ∈ cl_channels K.

Record channel_ok (C : Channel) : Prop := {
  chan_nodup : NoDup (member_ids C);
  chan_count : ch_member_count C = length (ch_members C);
  chan_privs : Forall (λ m, m_privileges m = N.lor (m_manual m) (m_service m)) (ch_members C);
  chan_name : channel_name_valid (ch_name C) = true }.

Record client_ok (K : Client) : Prop := {
  client_nodup : NoDup (cl_channels K);
  client_count : cl_channel_count K = length (cl_channels K);
  client_nick : length (cl_nick K) ≤ IRC_NICK_MAX }.

Record wf (w : World) : Prop := {
  wf_channels : ∀ ch C, w_channels w !! ch = Some C → channel_ok C;
  wf_clients : ∀ c K, w_clients w !! c = Some K → client_ok K;
  wf_symmetric : ∀ c ch, member_of w c ch ↔ linked_to w c ch;
  wf_names : table_wf (w_channels_by_name w) ∧ ∀ name ch,
    hash_get (w_channels_by_name w) name = Some ch ↔
    ∃ C, w_channels w !! ch = Some C ∧ fold_key (ch_name C) = fold_key name;
  wf_channel_count : w_channel_count w = size (w_channels w);
  wf_nicks : table_wf (w_clients_by_nick w) ∧ ∀ nick c,
    hash_get (w_clients_by_nick w) nick = Some c ↔
    ∃ K, w_clients w !! c = Some K ∧ cl_nick K ≠ [] ∧ fold_key (cl_nick K) = fold_key nick;
  wf_fresh : (∀ ch, is_Some (w_channels w !! ch) → ch < w_next_ptr w) ∧
             (∀ c, is_Some (w_clients w !! c) → c < w_next_ptr w) }.

(** The channel lists of the clients; with [wf], the membership relation. *)
Definition links (w : World) : gmap ptr (list ptr) := cl_channels <$> w_clients w.

(** The step keeps the invariant, frees no client and changes no membership. *)
Definition keeps (w w' : World) : Prop := wf w → wf w' ∧ links w' = links w.

#[export] Instance keeps_preorder : PreOrder keeps.
Proof.
  split; [intros w H; by split|]. intros a b c H1 H2 H. destruct (H1 H) as [Hb E1].
  destruct (H2 Hb) as [Hc E2]. split; [done | congruence].
Qed.

Lemma wf_same_state w w' :
  (w_channels w', w_clients w', w_channels_by_name w', w_clients_by_nick w', w_channel_count w',
   w_next_ptr w') =
  (w_channels w, w_clients w, w_channels_by_name w, w_clients_by_nick w, w_channel_count w,
   w_next_ptr w) →
  wf w → wf w'.
Proof.
  intros [= E1 E2 E3 E4 E5 E6] [H1 H2 H3 H4 H5 H6 H7].
  split; unfold member_of, linked_to in *; rewrite ?E1, ?E2, ?E3, ?E4, ?E5, ?E6; auto.
Qed.

#[export] Instance keeps_silent : Silent keeps.
Proof.
  split; [apply _|]. intros w w' H. unfold quiet in H. intros Hw. rewrite H.
  split; [by apply (wf_same_state w) | done].
Qed.

(** The step leaves the clients, the channels and their tables alone. *)
Definition calm (w w' : World) : Prop :=
  (w_config w', w_channels w', w_clients w', w_channels_by_name w', w_clients_by_nick w', w_channel_count w',
   w_next_ptr w', w_client_array w') =
  (w_config w, w_channels w, w_clients w, w_channels_by_name w, w_clients_by_nick w, w_channel_count w,
   w_next_ptr w, w_client_array w).

#[export] Instance calm_silent : Silent calm.
Proof.
  split; [split; unfold calm; [done | intros ???; congruence]|].
  intros w w' H. unfold quiet in H. by rewrite H.
Qed.

Lemma calm_keeps {A} (m : M A) : does calm m → does keeps m.
Proof.
  intros Hm w Hw. specialize (Hm w). unfold calm in Hm.
  injection Hm as E0 E1 E2 E3 E4 E5 E6 E7. split; [|unfold links; by rewrite E2].
  apply (wf_same_state w); congruence.
Qed.
#[export] Hint Extern 5 (does calm _) => apply (does_quiet _); solve [eauto with frame] : frame.
#[export] Hint Extern 4 (does calm (modify _)) => intros ?; reflexivity : frame.

(** Updates of fields the invariant does not mention. *)
Ltac same_state := let w := fresh "w" in intros w ?; split; [by apply (wf_same_state w) | reflexivity].

(** ** Updating heap objects *)

Lemma lookup_alter_inv {A} (f : A → A) (m : gmap ptr A) i j x :
  alter f i m !! j = Some x ↔ ∃ x0, m !! j = Some x0 ∧ x = if decide (i = j) then f x0 else x0.
Proof.
  destruct (decide (i = j)) as [->|Hne].
  - rewrite lookup_alter_eq. destruct (m !! j) as [x0|]; simpl; naive_solver.
  - rewrite lookup_alter_ne by done. naive_solver.
Qed.

(** An update of one channel and one client that keeps both well formed, keeps
    their names, and changes membership and links alike. *)
Lemma put_both_wf c ch (f : Channel → Channel) (g : Client → Client) w :
  (∀ C, w_channels w !! ch = Some C → channel_ok C → channel_ok (f C) ∧ ch_name (f C) = ch_name C) →
  (∀ K, w_clients w !! c = Some K → client_ok K → client_ok (g K) ∧ cl_nick (g K) = cl_nick K) →
  (wf w → ∀ x i, member_of (put_channel ch f w) x i ↔ linked_to (put_client c g w) x i) →
  wf w → wf (put_client c g (put_channel ch f w)).
Proof.
  intros Hf Hg Hsym Hw. specialize (Hsym Hw). destruct Hw as [H1 H2 H3 [H4 H4'] H5 [H6 H6'] [H7 H7']].
  split; simpl; auto.
  - intros i C (C0 & E & ->)%lookup_alter_inv. case_decide; subst; [apply Hf; eauto | eauto].
  - intros i K (K0 & E & ->)%lookup_alter_inv. case_decide; subst; [apply Hg; eauto | eauto].
  - split; [done|]. intros name i. rewrite H4'. split.
    + intros (C & E & Hn). exists (if decide (ch = i) then f C else C).
      split; [apply lookup_alter_inv; eauto|]. case_decide; subst; [|done].
      by destruct (Hf C E (H1 _ _ E)) as [_ ->].
    + intros (C & (C0 & E & ->)%lookup_alter_inv & Hn). exists C0. split; [done|].
      case_decide; subst; [|done]. by destruct (Hf C0 E (H1 _ _ E)) as [_ <-].
  - rewrite H5, <-!size_dom. by rewrite dom_alter.
  - split; [done|]. intros nick i. rewrite H6'. split.
    + intros (K & E & Hn). exists (if decide (c = i) then g K else K).
      split; [apply lookup_alter_inv; eauto|]. case_decide; subst; [|done].
      by destruct (Hg K E (H2 _ _ E)) as [_ ->].
    + intros (K & (K0 & E & ->)%lookup_alter_inv & Hn). exists K0. split; [done|].
      case_decide; subst; [|done]. by destruct (Hg K0 E (H2 _ _ E)) as [_ <-].
  - split; intros i [x (x0 & E & _)%lookup_alter_inv]; eauto.
Qed.

Lemma links_put c f w :
  (∀ K, cl_channels (f K) = cl_channels K) → links (put_client c f w) = links w.
Proof.
  intros Hf. apply map_eq. intros i. unfold links, put_client. simpl. rewrite !lookup_fmap.
  destruct (decide (c = i)) as [->|]; [rewrite lookup_alter_eq | by rewrite lookup_alter_ne].
  destruct (w_clients w !! i) as [K|]; simpl; by rewrite ?Hf.
Qed.

Lemma links_live w w' c : links w' = links w → is_Some (w_clients w !! c) → is_Some (w_clients w' !! c).
Proof.
  intros H [K HK]. assert (links w' !! c = Some (cl_channels K)) as Hl.
  { rewrite H. unfold links. by rewrite lookup_fmap, HK. }
  unfold links in Hl. rewrite lookup_fmap in Hl. destruct (w_clients w' !! c); [eauto | done].
Qed.

(** Equal channel lists are equal memberships. *)
Lemma links_members w w' : wf w → wf w' → links w' = links w → ∀ c ch, member_of w' c ch ↔ member_of w c ch.
Proof.
  intros Hw Hw' H c ch. rewrite (wf_symmetric w' Hw'), (wf_symmetric w Hw).
  assert (∀ v, linked_to v c ch ↔ ∃ l, links v !! c = Some l ∧ ch ∈ l) as Hl.
  { intros v. unfold linked_to, links. rewrite lookup_fmap. destruct (w_clients v !! c); simpl; naive_solver. }
  by rewrite !Hl, H.
Qed.

(** ** Updates that do not touch what the invariant speaks of *)

Definition privileges_ok (m : ChannelMember) : Prop :=
  m_privileges m = N.lor (m_manual m) (m_service m).

Definition same_channel_shape (C C' : Channel) : Prop :=
  ch_name C' = ch_name C ∧ member_ids C' = member_ids C ∧
  ch_member_count C' = ch_member_count C ∧
  (Forall privileges_ok (ch_members C) → Forall privileges_ok (ch_members C')).

Definition same_client_shape (K K' : Client) : Prop :=
  cl_nick K' = cl_nick K ∧ cl_channels K' = cl_channels K ∧ cl_channel_count K' = cl_channel_count K.

Lemma put_client_id c w : put_client c id w = w.
Proof.
  destruct w. unfold put_client, set_w_clients. simpl. f_equal. apply map_eq. intros i.
  destruct (decide (c = i)) as [->|]; [rewrite lookup_alter_eq | by rewrite lookup_alter_ne].
  by rewrite option_fmap_id.
Qed.

Lemma put_channel_id ch w : put_channel ch id w = w.
Proof.
  destruct w. unfold put_channel, set_w_channels. simpl. f_equal. apply map_eq. intros i.
  destruct (decide (ch = i)) as [->|]; [rewrite lookup_alter_eq | by rewrite lookup_alter_ne].
  by rewrite option_fmap_id.
Qed.

(** Updates of one channel compose and depend on the function's values only. *)
Lemma put_channel_ext ch f g w : (∀ C, f C = g C) → put_channel ch f w = put_channel ch g w.
Proof.
  intros H. unfold put_channel. f_equal. apply map_eq. intros i.
  destruct (decide (i = ch)) as [->|]; [rewrite !lookup_alter_eq | by rewrite !lookup_alter_ne by done].
  destruct (w_channels w !! ch); simpl; by rewrite ?H.
Qed.
Lemma put_channel_twice ch f g w : put_channel ch g (put_channel ch f w) = put_channel ch (λ C, g (f C)) w.
Proof.
  unfold put_channel. change (w_channels (set_w_channels ?m w)) with m.
  change (set_w_channels ?a (set_w_channels ?b w)) with (set_w_channels a w). f_equal. apply map_eq. intros i.
  destruct (decide (i = ch)) as [->|]; [rewrite !lookup_alter_eq | by rewrite !lookup_alter_ne by done].
  by destruct (w_channels w !! ch).
Qed.

Lemma put_channel_wf ch f w :
  (∀ C, w_channels w !! ch = Some C → same_channel_shape C (f C)) → wf w → wf (put_channel ch f w).
Proof.
  intros Hf. rewrite <-(put_client_id 0 (put_channel ch f w)). apply put_both_wf; [|done|].
  - intros C E [A B D F]. destruct (Hf C E) as (S1 & S2 & S3 & S4). split; [|done].
    split; [congruence| |by apply S4|congruence]. rewrite S3, B. unfold member_ids in S2.
    apply (f_equal length) in S2. by rewrite !length_map in S2.
  - intros Hw x i. rewrite put_client_id, <-(wf_symmetric w Hw). unfold member_of. simpl. split.
    + intros (C & (C0 & E & ->)%lookup_alter_inv & Hx). exists C0. split; [done|].
      case_decide; subst; [|done]. by destruct (Hf C0 E) as (_ & <- & _).
    + intros (C & E & Hx). exists (if decide (ch = i) then f C else C).
      split; [apply lookup_alter_inv; eauto|]. case_decide; subst; [|done].
      by destruct (Hf C E) as (_ & -> & _).
Qed.

Lemma put_client_wf c f w :
  (∀ K, w_clients w !! c = Some K → same_client_shape K (f K)) → wf w → wf (put_client c f w).
Proof.
  intros Hf. replace (put_client c f w) with (put_client c f (put_channel 0 id w)) by (by rewrite put_channel_id).
  apply put_both_wf; [done| |].
  - intros K E [A B]. destruct (Hf K E) as (S1 & S2 & S3). split; [split; congruence|done].
  - intros Hw x i. rewrite put_channel_id, (wf_symmetric w Hw). unfold linked_to. simpl. split.
    + intros (K & E & Hx). exists (if decide (c = x) then f K else K).
      split; [apply lookup_alter_inv; eauto|]. case_decide; subst; [|done].
      by destruct (Hf K E) as (_ & -> & _).
    + intros (K & (K0 & E & ->)%lookup_alter_inv & Hx). exists K0. split; [done|].
      case_decide; subst; [|done]. by destruct (Hf K0 E) as (_ & <- & _).
Qed.

(** ** Joining and leaving *)

Lemma remove_first_spec {A} (k : A → nat) (c : nat) (l : list A) :
  NoDup (map k l) →
  let '(found, l') := remove_first (λ x, k x =? c) l in
  NoDup (map k l') ∧ (∀ x, x ∈ map k l' ↔ x ∈ map k l ∧ x ≠ c) ∧ (∀ x, x ∈ l' → x ∈ l) ∧
  (if found : bool then length l = S (length l') else (c ∉ map k l) ∧ l' = l).
Proof.
  induction l as [|y l IH]; simpl; [intros; split_and!; set_solver|].
  rewrite NoDup_cons. intros [Hy Hnd]. specialize (IH Hnd).
  destruct (Nat.eqb_spec (k y) c) as [E|E].
  - split_and!; try done; set_solver.
  - destruct (remove_first _ l) as [found l']. destruct IH as (H1 & H2 & H3 & H4).
    split_and!; simpl.
    + rewrite NoDup_cons, H2. set_solver.
    + intros x. rewrite !elem_of_cons, H2. set_solver.
    + set_solver.
    + destruct found; [lia|]. destruct H4 as [H4 ->]. set_solver.
Qed.

Lemma drop_member_ok c C :
  channel_ok C → channel_ok (drop_member c C) ∧ ch_name (drop_member c C) = ch_name C ∧
  ∀ x, x ∈ member_ids (drop_member c C) ↔ x ∈ member_ids C ∧ x ≠ c.
Proof.
  intros [A B D F]. pose proof (remove_first_spec m_client c (ch_members C) A) as Hr.
  unfold drop_member. destruct (remove_first _ _) as [[] l]; destruct Hr as (R1 & R2 & R3 & R4).
  - split_and!; [|done|done]. split; simpl; auto.
    + rewrite B, R4. simpl. lia.
    + rewrite Forall_forall in *. auto.
  - destruct R4 as [R4 ->]. split_and!; [done|done|]. intros x. split; [|naive_solver].
    intros Hx. split; [done|]. by intros ->.
Qed.

Lemma drop_link_ok ch K :
  client_ok K → client_ok (drop_link ch K) ∧ cl_nick (drop_link ch K) = cl_nick K ∧
  ∀ x, x ∈ cl_channels (drop_link ch K) ↔ x ∈ cl_channels K ∧ x ≠ ch.
Proof.
  intros [A B]. pose proof (remove_first_spec (λ x, x) ch (cl_channels K)) as Hr.
  rewrite map_id in Hr. specialize (Hr A). unfold drop_link.
  destruct (remove_first _ _) as [[] l]; rewrite map_id in Hr; destruct Hr as (R1 & R2 & R3 & R4).
  - split_and!; [|done|done]. split; simpl; auto. rewrite B, R4. simpl. lia.
  - destruct R4 as [R4 ->]. split_and!; [done|done|]. intros x. split; [|naive_solver].
    intros Hx. split; [done|]. by intros ->.
Qed.

Lemma remove_client_wf ch c w :
  wf w → wf (put_client c (drop_link ch) (put_channel ch (drop_member c) w)).
Proof.
  intros Hw. revert Hw. apply put_both_wf.
  - intros C _ HC. by destruct (drop_member_ok c C HC) as (? & ? & _).
  - intros K _ HK. by destruct (drop_link_ok ch K HK) as (? & ? & _).
  - intros Hw x i.
    assert (member_of (put_channel ch (drop_member c) w) x i ↔ member_of w x i ∧ ¬ (i = ch ∧ x = c)) as ->.
    { unfold member_of. simpl. split.
      - intros (C & (C0 & E & ->)%lookup_alter_inv & Hx). case_decide; subst; [|naive_solver].
        apply (drop_member_ok c C0 (wf_channels w Hw _ _ E)) in Hx. naive_solver.
      - intros [(C & E & Hx) Hn]. exists (if decide (ch = i) then drop_member c C else C).
        split; [apply lookup_alter_inv; eauto|]. case_decide; subst; [|done].
        apply (drop_member_ok c C (wf_channels w Hw _ _ E)). naive_solver. }
    assert (linked_to (put_client c (drop_link ch) w) x i ↔ linked_to w x i ∧ ¬ (i = ch ∧ x = c)) as ->.
    { unfold linked_to. simpl. split.
      - intros (K & (K0 & E & ->)%lookup_alter_inv & Hx). case_decide; subst; [|naive_solver].
        apply (drop_link_ok ch K0 (wf_clients w Hw _ _ E)) in Hx. naive_solver.
      - intros [(K & E & Hx) Hn]. exists (if decide (c = x) then drop_link ch K else K).
        split; [apply lookup_alter_inv; eauto|]. case_decide; subst; [|done].
        apply (drop_link_ok ch K (wf_clients w Hw _ _ E)). naive_solver. }
    by rewrite (wf_symmetric w Hw).
Qed.

Lemma add_client_wf ch c w :
  is_Some (w_channels w !! ch) → is_Some (w_clients w !! c) → ¬ member_of w c ch →
  wf w → wf (put_client c (λ K, set_cl_channel_count (S (cl_channel_count K))
                                  (set_cl_channels (ch :: cl_channels K) K))
            (put_channel ch (λ C, set_ch_member_count (S (ch_member_count C))
                                    (set_ch_members (MkMember c 0 0 0 :: ch_members C) C)) w)).
Proof.
  intros [C0 EC] [K0 EK] Hn Hw. revert Hw. set (f := λ C, set_ch_member_count _ _).
  set (g := λ K, set_cl_channel_count _ _). intros Hw.
  pose proof (wf_symmetric w Hw) as Hsym. revert Hw. apply put_both_wf.
  - intros C E [A B D F]. split; [|done]. split; simpl; auto.
    unfold member_ids. simpl. apply NoDup_cons. split; [|done]. intros Hc. apply Hn. by exists C.
  - intros K E [A B]. split; [|done]. split; simpl; auto.
    apply NoDup_cons. split; [|done]. intros Hc. apply Hn, Hsym. by exists K.
  - intros Hw x i.
    assert (member_of (put_channel ch f w) x i ↔ member_of w x i ∨ (i = ch ∧ x = c)) as ->.
    { unfold member_of. simpl. split.
      - intros (C & (C1 & E & ->)%lookup_alter_inv & Hx). case_decide; subst; [|naive_solver].
        unfold member_ids in Hx. simpl in Hx. apply elem_of_cons in Hx. naive_solver.
      - intros [(C & E & Hx)|[-> ->]].
        + exists (if decide (ch = i) then f C else C). split; [apply lookup_alter_inv; eauto|].
          case_decide; subst; [|done]. by right.
        + exists (f C0). split; [apply lookup_alter_inv; exists C0; by rewrite decide_True|]. by left. }
    assert (linked_to (put_client c g w) x i ↔ linked_to w x i ∨ (i = ch ∧ x = c)) as ->.
    { unfold linked_to. simpl. split.
      - intros (K & (K1 & E & ->)%lookup_alter_inv & Hx). case_decide; subst; [|naive_solver].
        simpl in Hx. apply elem_of_cons in Hx. naive_solver.
      - intros [(K & E & Hx)|[-> ->]].
        + exists (if decide (c = x) then g K else K). split; [apply lookup_alter_inv; eauto|].
          case_decide; subst; [|done]. by right.
        + exists (g K0). split; [apply lookup_alter_inv; exists K0; by rewrite decide_True|]. by left. }
    by rewrite Hsym.
Qed.

(** ** Nicknames *)

(** Changing one nickname together with the table. *)
Lemma set_nick_wf c new t' w :
  wf w → length new ≤ IRC_NICK_MAX → table_wf t' →
  (∀ k x, hash_get t' k = Some x ↔ ∃ K, w_clients (put_client c (set_cl_nick new) w) !! x = Some K ∧
     cl_nick K ≠ [] ∧ fold_key (cl_nick K) = fold_key k) →
  wf (set_w_clients_by_nick t' (put_client c (set_cl_nick new) w)).
Proof.
  intros [H1 H2 H3 H4 H5 H6 [H7 H7']] Hl Ht Hget. split; simpl; auto.
  - intros i K (K0 & E & ->)%lookup_alter_inv. case_decide; subst; [|eauto]. destruct (H2 _ _ E). by split.
  - intros x i. etrans; [exact (H3 x i)|]. unfold linked_to. simpl. setoid_rewrite lookup_alter_inv. split.
    + intros (K & E & Hi). exists (if decide (c = x) then set_cl_nick new K else K).
      split; [eauto|]. by case_decide.
    + intros (K & (K0 & E & ->) & Hi). exists K0. split; [done|]. by case_decide.
  - split; [done|]. intros i [x (x0 & E & _)%lookup_alter_inv]. eauto.
Qed.

(** A table without the entry of [c] holds the nicknames of the others. *)
Definition others_only (c : ptr) (w : World) (t : HashTable ptr) : Prop :=
  table_wf t ∧ ∀ k x, hash_get t k = Some x ↔
    x ≠ c ∧ ∃ K, w_clients w !! x = Some K ∧ cl_nick K ≠ [] ∧ fold_key (cl_nick K) = fold_key k.

Lemma remove_nick_others c K w :
  wf w → w_clients w !! c = Some K → cl_nick K ≠ [] →
  others_only c w (hash_remove (w_clients_by_nick w) (cl_nick K)).2.
Proof.
  intros Hw HK Hne. destruct (wf_nicks w Hw) as [Ht Hget].
  assert (Hc : hash_get (w_clients_by_nick w) (cl_nick K) = Some c) by (apply Hget; eauto).
  pose proof (hash_remove_spec (w_clients_by_nick w) (cl_nick K) Ht) as Hr.
  destruct (hash_remove _ _) as [r t']. destruct Hr as (Ht' & _ & Hr). split; [done|].
  intros k x. simpl. rewrite Hr. destruct (decide _) as [E|E].
  - split; [done|]. intros (Hx & K' & HK' & Hne' & Hk). exfalso. apply Hx.
    assert (hash_get (w_clients_by_nick w) (cl_nick K) = Some x)
      by (apply Hget; exists K'; split_and!; [done | done | congruence]). congruence.
  - rewrite Hget. split; [|naive_solver]. intros (K' & HK' & Hne' & Hk). split; [|eauto]. intros ->. congruence.
Qed.

Lemma no_nick_others c K w :
  wf w → w_clients w !! c = Some K → cl_nick K = [] → others_only c w (w_clients_by_nick w).
Proof.
  intros Hw HK He. destruct (wf_nicks w Hw) as [Ht Hget]. split; [done|]. intros k x. rewrite Hget. split.
  - intros (K' & HK' & Hne' & Hk). split; [|eauto]. intros ->. congruence.
  - naive_solver.
Qed.

(** With no entry the client has to be nameless. *)
Lemma drop_nick_wf c t w :
  wf w → others_only c w t → wf (set_w_clients_by_nick t (put_client c (set_cl_nick []) w)).
Proof.
  intros Hw [Ht Hget]. apply set_nick_wf; [done|simpl; lia|done|]. intros k x. rewrite Hget. simpl.
  setoid_rewrite lookup_alter_inv. split.
  - intros (Hx & K & HK & Hne & Hk). exists K. split_and!; [|done..]. exists K. by rewrite decide_False.
  - intros (K & (K0 & HK & ->) & Hne & Hk). destruct (decide (c = x)); [by destruct Hne|]. naive_solver.
Qed.

(** The new name may be used by nobody else. *)
Lemma take_nick_wf c new t t' w :
  wf w → is_Some (w_clients w !! c) → others_only c w t → new ≠ [] → length new ≤ IRC_NICK_MAX → hash_get t new = None →
  table_wf t' → (∀ k, hash_get t' k = if decide (fold_key new = fold_key k) then Some c else hash_get t k) →
  wf (set_w_clients_by_nick t' (put_client c (set_cl_nick new) w)).
Proof.
  intros Hw [K0 HK0] [Ht Hget] Hne Hlen Hfree Ht' Hget'. apply set_nick_wf; [done..|]. intros k x. rewrite Hget'. simpl.
  setoid_rewrite lookup_alter_inv. destruct (decide (fold_key new = fold_key k)) as [E|E].
  - split.
    + intros [= <-]. exists (set_cl_nick new K0). split_and!; [|done..]. exists K0. by rewrite decide_True.
    + intros (K & (K1 & HK & ->) & Hn & Hk). destruct (decide (c = x)); [by subst|]. exfalso.
      assert (hash_get t new = Some x) by (apply Hget; split; [congruence|]; exists K1; split_and!; congruence).
      congruence.
  - rewrite Hget. split.
    + intros (Hx & K & HK & Hn & Hk). exists K. split_and!; [|done..]. exists K. by rewrite decide_False.
    + intros (K & (K1 & HK & ->) & Hn & Hk). destruct (decide (c = x)) as [->|]; [by simpl in Hk|]. naive_solver.
Qed.

(** ** The registry *)

Lemma upd_channel_keeps ch f : (∀ C, same_channel_shape C (f C)) → does keeps (upd_channel ch f).
Proof. intros Hf w Hw. split; [apply put_channel_wf; auto | done]. Qed.

Lemma upd_client_keeps c f : (∀ K, same_client_shape K (f K)) → does keeps (upd_client c f).
Proof.
  intros Hf w Hw. split; [apply put_client_wf; auto|]. apply links_put. intros K. apply Hf.
Qed.

Lemma alloc_keeps : does keeps alloc.
Proof. intros w Hw. split; [by apply (wf_same_state w) | done]. Qed.

Lemma channel_name_nonempty C : channel_ok C → ch_name C ≠ [].
Proof. intros [_ _ _ H] E. by rewrite E in H. Qed.

(** A channel with no members can be freed once its name is out of the table. *)
Lemma free_empty_wf ch C w :
  wf w → w_channels w !! ch = Some C → ch_member_count C = 0 →
  wf (set_w_channels (delete ch (w_channels w))
       (set_w_channel_count (w_channel_count w - 1)
          (set_w_channels_by_name (hash_remove (w_channels_by_name w) (ch_name C)).2 w))).
Proof.
  intros [H1 H2 H3 [H4 H4'] H5 H6 [H7 H7']] E Hc.
  assert (Hids : ∀ x, ¬ member_of w x ch).
  { intros x (C' & E' & Hx). simplify_eq. destruct (H1 _ _ E) as [_ B _ _].
    unfold member_ids in Hx. rewrite B in Hc. apply nil_length_inv in Hc. rewrite Hc in Hx.
    by apply elem_of_nil in Hx. }
  pose proof (hash_remove_spec (w_channels_by_name w) (ch_name C) H4) as Hr.
  destruct (hash_remove _ _) as [r t']. destruct Hr as (Ht & _ & Hget). split; simpl; auto.
  - intros i C' [_ Hi]%lookup_delete_Some. eauto.
  - intros x i. etrans; [|exact (H3 x i)]. unfold member_of. simpl. split.
    + intros (C' & [_ Hi]%lookup_delete_Some & Hx). by exists C'.
    + intros (C' & Hi & Hx). exists C'. split; [|done]. apply lookup_delete_Some. split; [|done].
      intros ->. apply (Hids x). by exists C'.
  - split; [done|]. intros name i. rewrite Hget. destruct (decide _) as [Hn|Hn].
    + split; [done|]. intros (C' & [Hne Hi]%lookup_delete_Some & Hf). exfalso. apply Hne.
      assert (hash_get (w_channels_by_name w) name = Some ch) as G1 by (apply H4'; eauto).
      assert (hash_get (w_channels_by_name w) name = Some i) as G2 by (apply H4'; eauto).
      congruence.
    + rewrite H4'. split.
      * intros (C' & Hi & Hf). exists C'. split; [|done]. apply lookup_delete_Some. split; [|done].
        intros ->. simplify_eq.
      * intros (C' & [_ Hi]%lookup_delete_Some & Hf). eauto.
  - rewrite H5, map_size_delete, E. lia.
  - split; [|done]. intros i [C' [_ Hi]%lookup_delete_Some]. eauto.
Qed.

Lemma server_remove_channel_if_empty_wf ch w : wf w → wf (server_remove_channel_if_empty ch w).2.
Proof.
  intros Hw. unfold server_remove_channel_if_empty, mbind, ST_bind, gets, channel. simpl.
  destruct (ch_member_count (the_channel w ch) =? 0) eqn:Hc; simpl; [|done]. bools.
  destruct (wf_names w Hw) as [Ht Hnames].
  pose proof (hash_remove_spec (w_channels_by_name w) (ch_name (the_channel w ch)) Ht) as Hr.
  destruct (w_channels w !! ch) as [C|] eqn:E; unfold the_channel in *; rewrite E in *; simpl in *.
  - pose proof (free_empty_wf ch C w Hw E Hc) as Hf.
    destruct (hash_remove _ _) as [r t']. destruct Hr as (_ & -> & _).
    assert (hash_get (w_channels_by_name w) (ch_name C) = Some ch) as -> by (apply Hnames; eauto).
    simpl in *. replace (0 <? w_channel_count w) with true; [exact Hf|].
    symmetry. apply Nat.ltb_lt. rewrite (wf_channel_count w Hw).
    destruct (size (w_channels w)) eqn:Es; [|lia]. apply map_size_empty_inv in Es.
    rewrite Es, lookup_empty in E. done.
  - assert (hash_get (w_channels_by_name w) [] = None) as Hnone.
    { destruct (hash_get _ []) as [i|] eqn:G; [|done]. apply Hnames in G as (C & HC & Hn).
      destruct (channel_name_nonempty C (wf_channels w Hw _ _ HC)). by destruct (ch_name C). }
    destruct (hash_remove _ _) as [r t']. destruct Hr as (Ht' & Er & Hget). rewrite Er, Hnone. simpl.
    destruct Hw as [H1 H2 H3 H4 H5 H6 H7]. split; simpl; auto. split; [done|]. intros name i.
    rewrite Hget, <-Hnames. destruct (decide _) as [Hn|]; [|done].
    split; [done|]. intros G. apply Hnames in G as (C & HC & HCn).
    destruct (channel_name_nonempty C (H1 _ _ HC)). rewrite <-Hn in HCn. by destruct (ch_name C).
Qed.

Lemma server_remove_channel_if_empty_same ch w :
  w_clients (server_remove_channel_if_empty ch w).2 = w_clients w ∧
  w_config (server_remove_channel_if_empty ch w).2 = w_config w.
Proof.
  unfold server_remove_channel_if_empty, channel, gets, modify, channel_free, mbind, ST_bind. simpl.
  case_if; [done|]. destruct (hash_remove _ _) as [[p|] t']; simpl; [|done].
  by destruct (0 <? w_channel_count w).
Qed.

Lemma server_remove_channel_if_empty_keeps ch : does keeps (server_remove_channel_if_empty ch).
Proof.
  intros w Hw. split; [by apply server_remove_channel_if_empty_wf|].
  unfold links. by rewrite (proj1 (server_remove_channel_if_empty_same ch w)).
Qed.

(** *** Leaving a channel *)

(** Exactly the membership of [c] on [ch] is gone. *)
Definition left_channel (c ch : ptr) (w w' : World) : Prop :=
  wf w' ∧ dom (w_clients w') = dom (w_clients w) ∧
  ∀ x i, member_of w' x i ↔ member_of w x i ∧ ¬ (x = c ∧ i = ch).

Lemma remove_client_left ch c w : wf w → left_channel c ch w (channel_remove_client ch c w).2.
Proof.
  intros Hw. pose proof (remove_client_wf ch c w Hw) as Hw'.
  change ((channel_remove_client ch c w).2) with (put_client c (drop_link ch) (put_channel ch (drop_member c) w)).
  split_and!; [done | apply dom_alter_L |]. intros x i. unfold member_of. simpl. setoid_rewrite lookup_alter_inv. split.
  - intros (C & (C0 & HC & ->) & Hx). case_decide; subst.
    + destruct (drop_member_ok c C0 (wf_channels w Hw _ _ HC)) as (_ & _ & Hm). apply Hm in Hx as [Hx Hne].
      split; [eauto|]. by intros [-> _].
    + split; [eauto|]. by intros [_ ->].
  - intros ((C & HC & Hx) & Hn). eexists. split; [eauto|]. case_decide; subst; [|done].
    destruct (drop_member_ok c C (wf_channels w Hw _ _ HC)) as (_ & _ & Hm). apply Hm. split; [done|]. naive_solver.
Qed.

(** A channel is freed exactly when nobody is on it. *)
Lemma remove_if_empty_all ch w C :
  wf w → w_channels w !! ch = Some C →
  w_channels (server_remove_channel_if_empty ch w).2 =
  if ch_member_count C =? 0 then delete ch (w_channels w) else w_channels w.
Proof.
  intros Hw HC. unfold server_remove_channel_if_empty, channel. rewrite run_gets. unfold the_channel. rewrite HC. simpl.
  destruct (ch_member_count C =? 0); cbn [negb]; [|done]. rewrite run_gets.
  destruct (wf_names w Hw) as [Ht Hnames].
  pose proof (hash_remove_spec (w_channels_by_name w) (ch_name C) Ht) as Hr.
  destruct (hash_remove _ _) as [r t']. destruct Hr as (_ & -> & _).
  assert (hash_get (w_channels_by_name w) (ch_name C) = Some ch) as -> by (apply Hnames; eauto).
  rewrite run_modify. unfold channel_free. rewrite run_modify. simpl. by destruct (0 <? w_channel_count w).
Qed.

Lemma remove_if_empty_channels ch w C :
  wf w → w_channels w !! ch = Some C →
  w_channels (server_remove_channel_if_empty ch w).2 !! ch = if ch_member_count C =? 0 then None else Some C.
Proof.
  intros Hw HC. rewrite (remove_if_empty_all ch w C Hw HC). case_if; [apply lookup_delete_eq | done].
Qed.

Lemma leave_spec ch c w :
  wf w →
  let w' := ((channel_remove_client ch c ;; server_remove_channel_if_empty ch) w).2 in
  left_channel c ch w w' ∧
  ∀ C, w_channels w !! ch = Some C → c ∈ member_ids C →
    (w_channels w' !! ch = None ↔ ∀ x, x ∈ member_ids C → x = c).
Proof.
  intros Hw w'. destruct (remove_client_left ch c w Hw) as (Hw1 & Hd1 & Hm1).
  unfold w'. rewrite run_bind. destruct (channel_remove_client ch c w) as [u w1] eqn:E1. simpl in Hw1, Hd1, Hm1.
  destruct (server_remove_channel_if_empty_keeps ch w1 Hw1) as [Hw2 Hl2]. split.
  - split_and!; [done | by rewrite (proj1 (server_remove_channel_if_empty_same ch w1)) |].
    intros x i. by rewrite (links_members w1 _ Hw1 Hw2 Hl2).
  - intros C HC Hin. assert (HC1 : w_channels w1 !! ch = Some (drop_member c C)).
    { injection E1 as _ <-. simpl. by rewrite lookup_alter_eq, HC. }
    rewrite (remove_if_empty_channels ch w1 _ Hw1 HC1).
    destruct (drop_member_ok c C (wf_channels w Hw _ _ HC)) as ([_ Hcount _ _] & _ & Hm).
    rewrite Hcount. unfold member_ids in Hm. destruct (Nat.eqb_spec (length (ch_members (drop_member c C))) 0) as [E|E].
    + split; [|done]. intros _ x Hx. destruct (decide (x = c)); [done|].
      assert (x ∈ map m_client (ch_members (drop_member c C))) as Hx' by (by apply Hm).
      apply nil_length_inv in E. rewrite E in Hx'. by apply elem_of_nil in Hx'.
    + split; [done|]. intros Hall. destruct (ch_members (drop_member c C)) as [|m l] eqn:El; [done|].
      destruct (proj1 (Hm (m_client m))) as [Hx Hne]; [by left|]. by destruct Hne, (Hall _ Hx).
Qed.

Lemma fresh_channel w : wf w → w_channels w !! w_next_ptr w = None.
Proof.
  intros Hw. destruct (w_channels w !! w_next_ptr w) eqn:E; [|done].
  assert (w_next_ptr w < w_next_ptr w) by (apply (proj1 (wf_fresh w Hw)); rewrite E; eauto). lia.
Qed.

(** A pointer that was allocated and freed again is not reused. *)
Lemma wf_bump w : wf w → wf (set_w_next_ptr (S (w_next_ptr w)) w).
Proof.
  intros [H1 H2 H3 H4 H5 H6 [H7 H7']]. split; simpl; auto.
  split; intros i Hi; [apply H7 in Hi | apply H7' in Hi]; lia.
Qed.

(** Creating a channel under a name not in the table. *)
Lemma create_channel_wf name w p t' :
  wf w → p = w_next_ptr w → channel_name_valid name = true → hash_get (w_channels_by_name w) name = None →
  table_wf t' →
  (∀ k, hash_get t' k = if decide (fold_key name = fold_key k) then Some p
                        else hash_get (w_channels_by_name w) k) →
  wf (set_w_channel_count (S (w_channel_count w)) (set_w_channels_by_name t'
       (set_w_next_ptr (S p) (set_w_channels (<[p := set_ch_name name calloc_channel]> (w_channels w)) w)))).
Proof.
  intros Hw -> Hv Hnone Ht Hget. pose proof (fresh_channel w Hw) as Hfresh.
  destruct Hw as [H1 H2 H3 [H4 H4'] H5 H6 [H7 H7']].
  split; simpl; auto.
  - intros i C [[<- <-]|[_ Hi]]%lookup_insert_Some; [|eauto]. split; simpl; auto. constructor.
  - intros x i. etrans; [|exact (H3 x i)]. unfold member_of. simpl. split.
    + intros (C & [[<- <-]|[_ Hi]]%lookup_insert_Some & Hx); [by apply elem_of_nil in Hx|by exists C].
    + intros (C & Hi & Hx). exists C. split; [|done]. rewrite lookup_insert_ne; [done|congruence].
  - split; [done|]. intros nm i. rewrite Hget. destruct (decide _) as [Hn|Hn].
    + split.
      * intros [= <-]. eexists. rewrite lookup_insert_eq. split; [done|]. done.
      * intros (C & [[<- <-]|[_ Hi]]%lookup_insert_Some & Hx); [done|].
        assert (hash_get (w_channels_by_name w) name = Some i) by (apply H4'; exists C; split; congruence).
        congruence.
    + rewrite H4'. split.
      * intros (C & Hi & Hx). exists C. split; [|done]. rewrite lookup_insert_ne; [done|congruence].
      * intros (C & [[<- <-]|[_ Hi]]%lookup_insert_Some & Hx); [done|eauto].
  - rewrite H5, map_size_insert, Hfresh. done.
  - split.
    + intros i [C [[<- _]|[_ Hi]]%lookup_insert_Some]; [lia|]. assert (i < w_next_ptr w) by eauto. lia.
    + intros i Hi. apply H7' in Hi. lia.
Qed.

Lemma valid_name_length name : channel_name_valid name = true → length name ≤ IRC_CHANNEL_NAME_MAX.
Proof.
  unfold channel_name_valid. destruct (negb _); [done|]. destruct (_ || _) eqn:E; [done|].
  intros _. bools. lia.
Qed.

(** Looking a channel up, creating it if it does not exist. *)
Lemma server_get_or_create_channel_spec name w :
  wf w →
  let '(r, w') := server_get_or_create_channel name w in
  wf w' ∧ w_clients w' = w_clients w ∧ w_config w' = w_config w ∧
  (∀ ch, r = Some ch → ∃ C, w_channels w' !! ch = Some C ∧ fold_key (ch_name C) = fold_key name ∧
     (w_channels w !! ch = Some C ∨ w_channels w !! ch = None ∧ ch_member_count C = 0)) ∧
  (r = None → w_channels w' = w_channels w).
Proof.
  intros Hw. destruct (wf_names w Hw) as [Ht Hnames].
  unfold server_get_or_create_channel, find_channel, gets, mbind, ST_bind. simpl.
  destruct (hash_get (w_channels_by_name w) name) as [ch|] eqn:G.
  { split_and!; try done. intros ? [= <-]. apply Hnames in G as (C & HC & Hn).
    exists C. by split_and!; [..|left]. }
  destruct (max_channels _ <=? _); simpl; [by split_and!|].
  unfold channel_create. destruct (channel_name_valid name) eqn:Hv; simpl; [|by split_and!].
  unfold mbind, ST_bind, alloc, gets, modify. simpl. set (w1 := set_w_alloc _ w).
  assert (Hw1 : wf w1) by (by apply (wf_same_state w)).
  destruct (hd true (w_alloc w)); simpl; [|by split_and!].
  rewrite snprintf_id by (apply valid_name_length in Hv; unfold IRC_CHANNEL_NAME_MAX in *; lia).
  unfold the_channel. simpl. rewrite lookup_insert_eq. simpl.
  set (w2 := set_w_alloc _ _). set (ok := hd true _). clearbody ok.
  pose proof (hash_set_spec ok (w_channels_by_name w) name (w_next_ptr w) Ht) as Hs.
  destruct (hash_set ok _ name _) as [rc t']. destruct Hs as (Ht' & Hok & Hbad & _).
  destruct (Z.eqb_spec rc 0) as [Erc|Erc]; simpl.
  - split_and!; try done.
    + pose proof (create_channel_wf name w (w_next_ptr w) t' Hw eq_refl Hv G Ht' (Hok Erc)) as Hc.
      revert Hc. by apply wf_same_state.
    + intros ? [= <-]. eexists. rewrite lookup_insert_eq. split; [done|]. split; [done|]. right.
      split; [by apply fresh_channel | done].
  - destruct (Hbad Erc) as (_ & -> & _). rewrite delete_insert_id by (by apply fresh_channel).
    split_and!; try done. pose proof (wf_bump w Hw) as Hc. revert Hc. by apply wf_same_state.
Qed.

(** ** Member records *)

Lemma upd_member_ids c f l :
  (∀ m, m_client (f m) = m_client m) → map m_client (upd_member c f l) = map m_client l.
Proof. intros Hf. induction l as [|m l IH]; simpl; [done|]. case_if; simpl; by rewrite ?Hf, ?IH. Qed.

Lemma upd_member_Forall (P : ChannelMember → Prop) c f l :
  (∀ m, P (f m)) → Forall P l → Forall P (upd_member c f l).
Proof. intros Hf. induction 1; simpl; [constructor|]. case_if; by constructor. Qed.

Lemma upd_members_shape f C :
  (∀ l, map m_client (f l) = map m_client l) →
  (∀ l, Forall privileges_ok l → Forall privileges_ok (f l)) →
  same_channel_shape C (set_ch_members (f (ch_members C)) C).
Proof. intros H1 H2. split_and!; [done | apply H1 | done | apply H2]. Qed.

Lemma with_member_keeps ch c f :
  (∀ m, m_client (f m) = m_client m) → (∀ m, privileges_ok (f m)) → does keeps (with_member ch c f).
Proof.
  intros H1 H2. unfold with_member, channel. frames. apply upd_channel_keeps. intros C.
  apply upd_members_shape; [intros; by apply upd_member_ids | intros; by apply upd_member_Forall].
Qed.

Lemma channel_forget_service_privileges_keeps ch : does keeps (channel_forget_service_privileges ch).
Proof.
  apply upd_channel_keeps. intros C.
  apply (upd_members_shape (map (λ m, MkMember (m_client m) (N.lor (m_manual m) (m_service m))
    (N.lor (m_manual m) (m_service m)) 0))).
  - intros l. rewrite map_map. done.
  - intros l _. apply Forall_fmap. apply Forall_true. intros m. unfold privileges_ok. simpl.
    by rewrite N.lor_0_r.
Qed.

Lemma channel_set_privileges_keeps ch c p : does keeps (channel_set_privileges ch c p).
Proof. apply with_member_keeps; intros m; unfold privileges_ok; simpl; by rewrite ?N.lor_0_r. Qed.
Lemma channel_add_privileges_keeps ch c p : does keeps (channel_add_privileges ch c p).
Proof. by apply with_member_keeps. Qed.
Lemma channel_remove_privileges_keeps ch c p : does keeps (channel_remove_privileges ch c p).
Proof. by apply with_member_keeps. Qed.
Lemma channel_remove_manual_privileges_keeps ch c p : does keeps (channel_remove_manual_privileges ch c p).
Proof. by apply with_member_keeps. Qed.
Lemma channel_set_service_privileges_keeps ch c p : does keeps (channel_set_service_privileges ch c p).
Proof. by apply with_member_keeps. Qed.

(** Updates that leave name, members and count of a channel alone, or nickname and
    channel list of a client: by computation. *)
Ltac shape := first
  [ apply upd_channel_keeps; intros ?; split_and!; (reflexivity || (intros ?; assumption))
  | apply upd_client_keeps; intros ?; split_and!; reflexivity ].

Lemma channel_invite_add_keeps ch id : does keeps (channel_invite_add ch id).
Proof. unfold channel_invite_add, channel. pose proof alloc_keeps. frames. shape. Qed.
Lemma channel_invite_consume_keeps ch id : does keeps (channel_invite_consume ch id).
Proof. unfold channel_invite_consume, channel. frames. shape. Qed.
Lemma channel_invite_clear_keeps ch : does keeps (channel_invite_clear ch).
Proof. shape. Qed.

Lemma throttle_record_shape n C : same_channel_shape C (channel_join_throttle_record n C).
Proof. unfold channel_join_throttle_record. repeat case_if; by split_and!. Qed.
Lemma throttle_clear_shape C : same_channel_shape C (channel_join_throttle_clear C).
Proof. by split_and!. Qed.

Lemma channel_broadcast_quiet ch except message : does quiet (channel_broadcast ch except message).
Proof. unfold channel_broadcast, channel. frames. Qed.

Lemma server_get_or_create_channel_keeps name : does keeps (server_get_or_create_channel name).
Proof.
  intros w Hw. pose proof (server_get_or_create_channel_spec name w Hw) as H.
  destruct (server_get_or_create_channel name w) as [r w']. destruct H as (H & E & _).
  split; [exact H | unfold links; simpl; by rewrite E].
Qed.

Lemma quiet_keeps {A} (m : M A) : does quiet m → does keeps m.
Proof. apply does_quiet, _. Qed.

#[export] Hint Resolve alloc_keeps server_remove_channel_if_empty_keeps
  channel_forget_service_privileges_keeps channel_set_privileges_keeps channel_add_privileges_keeps
  channel_remove_privileges_keeps channel_remove_manual_privileges_keeps
  channel_set_service_privileges_keeps channel_invite_add_keeps channel_invite_consume_keeps
  channel_invite_clear_keeps server_get_or_create_channel_keeps : frame.
#[export] Hint Resolve channel_broadcast_quiet : frame.
#[export] Hint Extern 5 (does keeps _) => apply quiet_keeps; solve [eauto with frame] : frame.
#[export] Hint Extern 6 (does keeps (upd_channel _ _)) => shape : frame.
#[export] Hint Extern 6 (does keeps (upd_client _ _)) => shape : frame.

(** ** Starting points *)

(** A configuration for the worked examples. *)
Definition sample_config : ServerConfig :=
  MkConfig "irc.test" "TestNet" 8 false 30 [] [] "dru" [] "admin@irc.test" 0 5 100 16 0 65536 90 90 [] [] 60 10 86400 [] [] [] [] [] [] 10 60 100 20 [] [] 3600 3600 5 3600 5 3600 20.

(** The tables as [server_init] leaves them. *)
Definition server_init (cfg : ServerConfig) (buckets : nat) (time : Z) (stamp : cstr) : option World :=
  ids ← hash_init true buckets;
  nicks ← hash_init true buckets;
  names ← hash_init true buckets;
  ips ← hash_init true buckets;
  Some (MkWorld cfg ∅ ∅ [] 0 0 ids ips nicks names [] 0 0 0 0 0 HOOK_NONE false 0 time [] 0 time (0%Z, 0) 0 0 false false (MkArgon2 [] 0 0 0 0) (MkNickServ [] [] [] 0 0) (MkIO ∅ 0 stamp [] no_tables [])).

Lemma server_init_wf cfg n time stamp w : server_init cfg n time stamp = Some w → wf w.
Proof.
  unfold server_init. intros (t0 & H0 & (t1 & H1 & (t2 & H2 & (t3 & H3 & [= <-])%bind_Some)%bind_Some)%bind_Some)%bind_Some.
  destruct (hash_init_wf _ _ _ H1) as [W1 G1]. destruct (hash_init_wf _ _ _ H2) as [W2 G2].
  split; simpl; try done.
  - intros c ch. unfold member_of, linked_to. simpl. setoid_rewrite lookup_empty. naive_solver.
  - split; [done|]. intros name ch. rewrite G2. setoid_rewrite lookup_empty. naive_solver.
  - split; [done|]. intros nick c. rewrite G1. setoid_rewrite lookup_empty. naive_solver.
  - split; intros i [x Hx]; by rewrite lookup_empty in Hx.
Qed.

(** The server before its first connection. *)
Definition boot : World :=
  let t V : HashTable V := Build_HashTable (replicate 4 []) in
  MkWorld sample_config ∅ ∅ [] 0 0 (t _) (t _) (t _) (t _) [] 0 0 0 0 0 HOOK_NONE false 0 100 [] 0 100 (0%Z, 0) 0 0 false false (MkArgon2 [] 0 0 0 0) (MkNickServ [] [] [] 0 0) (MkIO ∅ 0 [] [] no_tables []).

Lemma boot_init : server_init sample_config 4 100 [] = Some boot.
Proof. reflexivity. Qed.

(** A new connection: no nickname and no channels yet. *)
Lemma new_client_wf K w :
  cl_nick K = [] → cl_channels K = [] → cl_channel_count K = 0 → wf w →
  wf (set_w_next_ptr (S (w_next_ptr w)) (set_w_clients (<[w_next_ptr w := K]> (w_clients w)) w)).
Proof.
  intros E1 E2 E3 [H1 H2 H3 H4 H5 [H6 H6'] [H7 H7']].
  assert (Hfresh : w_clients w !! w_next_ptr w = None).
  { destruct (w_clients w !! w_next_ptr w) eqn:E; [|done].
    assert (w_next_ptr w < w_next_ptr w) by (apply H7'; rewrite E; eauto). lia. }
  split; simpl; auto.
  - intros c K' [[<- <-]|[_ Hc]]%lookup_insert_Some; [|eauto].
    split; rewrite ?E1, ?E2, ?E3; [constructor | done | simpl; lia].
  - intros c ch. etrans; [exact (H3 c ch)|]. unfold linked_to. simpl. split.
    + intros (K' & HK & Hin). exists K'. split; [|done]. rewrite lookup_insert_ne; [done|congruence].
    + intros (K' & [[<- <-]|[_ Hc]]%lookup_insert_Some & Hin); [|by exists K'].
      rewrite E2 in Hin. by apply elem_of_nil in Hin.
  - split; [done|]. intros nick c. rewrite H6'. split.
    + intros (K' & HK & Hin). exists K'. split; [|done]. rewrite lookup_insert_ne; [done|congruence].
    + intros (K' & [[<- <-]|[_ Hc]]%lookup_insert_Some & Hin); [|by exists K'].
      rewrite E1 in Hin. by destruct Hin.
  - split; intros i Hi.
    + apply H7 in Hi. lia.
    + destruct Hi as [K' [[<- _]|[_ Hc]]%lookup_insert_Some]; [lia|].
      assert (i < w_next_ptr w) by (apply H7'; eauto). lia.
Qed.
