(* ===== verification/Policy.v ===== *)
(** * Message, user-mode and visibility policy
    ([src/message_policy.c], [src/usermode_policy.c], [src/visibility.c],
    [src/oper.c])

    Colour filtering, operator notices, +d, and who may see what. *)

From S2P Require Import Prelude CString Modes HashTable MaskMatch Output World Channel Invariant.

Definition IRCD_OUTPUT_BUFFER_SIZE : nat := 1024.

(** Server-notice categories and operator permissions ([include/oper.h]). *)
Definition SNOTICE_CONNECTIONS := bit 0.
Definition SNOTICE_OPERATORS := bit 1.
Definition SNOTICE_KILLS := bit 2.
Definition SNOTICE_BANS := bit 3.
Definition SNOTICE_GEOBANS := bit 4.
Definition SNOTICE_WEBIRC := bit 5.
Definition SNOTICE_DNS := bit 6.
Definition SNOTICE_SECURITY := bit 7.
Definition SNOTICE_ADMIN := bit 8.
Definition SNOTICE_SERVICES := bit 9.
Definition SNOTICE_REGISTRATIONS := bit 10.
Definition SNOTICE_IDENTITY := bit 11.
Definition SNOTICE_MODERATION := bit 12.
Definition SNOTICE_FLOOD := bit 13.
Definition OPER_PERMISSION_STATS := bit 14.

Definition oper_permission_has (permissions perm : N) : bool := negb (N.land permissions perm =? 0)%N.

(** ** Colours *)

Definition COLOR : ascii := ascii_of_N 3.
Definition HEXCOLOR : ascii := ascii_of_N 4.
Definition ESC : ascii := ascii_of_N 27.

Fixpoint message_contains_color (text : cstr) : bool :=
  match text with
  | [] => false
  | p :: text' => if Ascii.eqb p COLOR || Ascii.eqb p HEXCOLOR || Ascii.eqb p ESC then true
                  else message_contains_color text'
  end.

(** [while (count < n && p(s[0])) { ++s; ++count; }]. *)
Fixpoint skip_upto (n : nat) (p : ascii → bool) (s : cstr) : cstr :=
  match n, s with
  | S n', c :: s' => if p c then skip_upto n' p s' else s
  | _, _ => s
  end.

Definition skip_digits_pair (n : nat) (p : ascii → bool) (s : cstr) : cstr :=
  let s := skip_upto n p s in
  if Ascii.eqb (char0 s) "," then skip_upto n p (tail s) else s.

(** The text after the colour code that starts at the head of [s]. *)
Definition skip_irc_color (s : cstr) : cstr := skip_digits_pair 2 isdigit (tail s).
Definition skip_irc_hex_color (s : cstr) : cstr := skip_digits_pair 6 isxdigit (tail s).

(** [None] when [s] does not start with an ANSI SGR sequence. *)
Definition skip_ansi_sgr (s : cstr) : option cstr :=
  match s with
  | e :: b :: q =>
      if Ascii.eqb e ESC && Ascii.eqb b "[" then
        match drop_while (λ c, isdigit c || Ascii.eqb c ";" || Ascii.eqb c ":") q with
        | m :: q' => if Ascii.eqb m "m" then Some q' else None
        | [] => None
        end
      else None
  | _ => None
  end.

(** The loop of [message_strip_color]; [room] is what is left of the output buffer,
    its terminator excluded.  Every round consumes input, so [length text] rounds
    are enough. *)
Fixpoint strip_loop (fuel room : nat) (p : cstr) : cstr :=
  match fuel, room, p with
  | S fuel', S room', c :: p' =>
      if Ascii.eqb c COLOR then strip_loop fuel' room (skip_irc_color p)
      else if Ascii.eqb c HEXCOLOR then strip_loop fuel' room (skip_irc_hex_color p)
      else match (if Ascii.eqb c ESC then skip_ansi_sgr p else None) with
           | Some next => strip_loop fuel' room next
           | None => c :: strip_loop fuel' room' p'
           end
  | _, _, _ => []
  end.

Definition message_strip_color (text : cstr) (out_size : nat) : cstr :=
  strip_loop (length text) (out_size - 1) text.

(** ** Operators *)

Definition is_oper_client (c : Client) : bool :=
  client_mode_has (cl_modes c) (N.lor CLIENT_MODE_OPER CLIENT_MODE_NETADMIN).

Definition command_reply_nick (c : Client) : cstr := if empty (cl_nick c) then "*" else cl_nick c.

(** ** Server notices *)

(** The chunks of at most [limit] bytes of [text], in order. *)
Fixpoint chunks (fuel limit : nat) (text : cstr) : list cstr :=
  match fuel, text with
  | S fuel', _ :: _ => take limit text :: chunks fuel' limit (drop limit text)
  | _, _ => []
  end.

(** The loop stops when the target's queue overflows. *)
Fixpoint send_chunks (c : ptr) (server nick : cstr) (l : list cstr) : M unit :=
  match l with
  | [] => mret tt
  | chunk :: l' =>
      stop ← overflowed c;
      if stop : bool then mret tt else
      tell c ":%s NOTICE %s :*** %.*s" [server; nick; chunk] ;; send_chunks c server nick l'
  end.

Definition send_server_notice_chunks (target : ptr) (text : cstr) : M unit :=
  if negb (no_crlf text) then mret tt else
  cfg ← config;
  t ← client target;
  let prefix := format ":%s NOTICE %s :*** " [server_name cfg; cl_nick t] in
  if IRC_LINE_CONTENT_MAX <=? length prefix then mret tt else
  let payload_limit := IRC_LINE_CONTENT_MAX - length prefix in
  if empty text then tell target ":%s NOTICE %s :*** " [server_name cfg; cl_nick t]
  else send_chunks target (server_name cfg) (cl_nick t) (chunks (length text) payload_limit text).

Definition receives_notices (t : Client) : bool :=
  cl_registered t && is_oper_client t && client_mode_has (cl_modes t) CLIENT_MODE_SERVER_NOTICES.

Definition server_notice_broadcast (text : cstr) : M unit :=
  l ← gets w_client_array;
  for_each l (λ c, t ← client c; when (receives_notices t) (send_server_notice_chunks c text)).

Definition snotice_broadcast (category : N) (fmt : cstr) (args : list cstr) : M unit :=
  if (category =? 0)%N then mret tt else
  let text := snprintf IRCD_OUTPUT_BUFFER_SIZE (format fmt args) in
  l ← gets w_client_array;
  for_each l (λ c,
    t ← client c;
    when (receives_notices t && negb (N.land (cl_snotice_mask t) category =? 0)%N)
      (send_server_notice_chunks c text)).

Definition oper_message_broadcast (source : Client) (command text : cstr) : M unit :=
  l ← gets w_client_array;
  for_each l (λ c,
    t ← client c;
    when (cl_registered t && is_oper_client t && client_mode_has (cl_modes t) CLIENT_MODE_GLOBALS)
      (tell c ":%s!%s@%s %s :%s"
         [cl_nick source; cl_user source; cl_display_host source; command; text])).

(** ** +d *)

Definition usermode_deaf_allows_text (recipient : Client) (text : cstr) : bool :=
  if negb (client_mode_has (cl_modes recipient) CLIENT_MODE_DEAF) then true
  else negb (empty text) && strchr "!" (char0 text).

(** ** Visibility *)

Definition visibility_is_oper (requester : Client) : bool := is_oper_client requester.

Definition visibility_share_channel (w : World) (requester subject : ptr) : bool :=
  (requester =? subject) ||
  existsb (λ ch, channel_has_client (the_channel w ch) subject) (cl_channels (the_client w requester)).

Definition hidden_modes : ChannelModeSet := N.lor CHANNEL_MODE_PRIVATE CHANNEL_MODE_SECRET.
Definition local_channel (C : Channel) : bool := Ascii.eqb (char0 (ch_name C)) "&".

Definition visibility_list_channel (requester : Client) (r : ptr) (C : Channel) : bool :=
  if local_channel C then false else
  if visibility_is_oper requester || channel_has_client C r then true else
  negb (channel_mode_has (ch_modes C) hidden_modes).

Definition visibility_names_channel (requester : Client) (r : ptr) (C : Channel) : bool :=
  if visibility_is_oper requester || channel_has_client C r then true else
  if local_channel C then false else
  negb (channel_mode_has (ch_modes C) hidden_modes).

Definition visibility_who_user (w : World) (requester subject : ptr) : bool :=
  let s := the_client w subject in
  if negb (cl_registered s) then false else
  if (requester =? subject) || visibility_is_oper (the_client w requester) then true else
  if negb (client_mode_has (cl_modes s) CLIENT_MODE_INVISIBLE) then true else
  visibility_share_channel w requester subject.

Definition visibility_whois_channel (w : World) (requester subject ch : ptr) : bool :=
  let C := the_channel w ch in
  if (requester =? subject) || visibility_is_oper (the_client w requester) then true else
  if client_mode_has (cl_modes (the_client w subject)) CLIENT_MODE_PRIVATE then false else
  if channel_has_client C requester then true else
  negb (channel_mode_has (ch_modes C) hidden_modes) && negb (local_channel C).

(** ** Colour stripping *)

Lemma skip_upto_suffix n p s : skip_upto n p s `suffix_of` s.
Proof.
  revert s. induction n as [|n IH]; intros [|c s]; simpl; try done.
  destruct (p c); [apply suffix_cons_r, IH | done].
Qed.

Lemma tail_suffix (s : cstr) : tail s `suffix_of` s.
Proof. destruct s; [done|]. by apply suffix_cons_r. Qed.

Lemma skip_digits_pair_suffix n p s : skip_digits_pair n p s `suffix_of` s.
Proof.
  unfold skip_digits_pair. case_if; [|apply skip_upto_suffix].
  etrans; [apply skip_upto_suffix|]. etrans; [apply tail_suffix|]. apply skip_upto_suffix.
Qed.

Lemma skip_ansi_sgr_suffix c s next : skip_ansi_sgr (c :: s) = Some next → next `suffix_of` s.
Proof.
  unfold skip_ansi_sgr. destruct s as [|b q]; [done|]. destruct (_ && _); [|done].
  pose proof (drop_while_suffix (λ c, isdigit c || Ascii.eqb c ";" || Ascii.eqb c ":") q) as Hs.
  destruct (drop_while _ q) as [|m q']; [done|]. case_if; [|done]. intros [= <-].
  apply suffix_cons_r. etrans; [|exact Hs]. by apply suffix_cons_r.
Qed.

(** What a round of the loop goes on with is shorter than what it started from. *)
Lemma skip_step c p' :
  skip_irc_color (c :: p') `suffix_of` p' ∧ skip_irc_hex_color (c :: p') `suffix_of` p'.
Proof. split; apply skip_digits_pair_suffix. Qed.

(** The grammar of colour codes.  [longest n p u rest]: in [u ++ rest], [u] is the longest
    run of at most [n] bytes that satisfy [p]. *)
Definition longest (n : nat) (p : ascii → bool) (u rest : cstr) : Prop :=
  Forall (λ c, p c = true) u ∧ length u ≤ n ∧ (length u = n ∨ rest = [] ∨ p (char0 rest) = false).

(** What follows a colour introducer: a foreground, or a foreground, a comma and a background. *)
Inductive color_arguments (n : nat) (p : ascii → bool) : cstr → cstr → Prop :=
  | foreground u rest : longest n p u rest → char0 rest ≠ ","%char → color_arguments n p u rest
  | foreground_background u v rest :
      longest n p u (","%char :: v ++ rest) → longest n p v rest → color_arguments n p (u ++ ","%char :: v) rest.

Definition sgr_parameter (c : ascii) : bool := isdigit c || Ascii.eqb c ";" || Ascii.eqb c ":".
(** [ESC [ parameters m]. *)
Definition is_sgr (s rest : cstr) : Prop :=
  ∃ parameters, s = ESC :: "["%char :: parameters ++ "m"%char :: rest ∧ Forall (λ c, sgr_parameter c = true) parameters.

(** The message without its colour codes. *)
Inductive stripped : cstr → cstr → Prop :=
  | stripped_end : stripped [] []
  | stripped_color u rest plain :
      color_arguments 2 isdigit u rest → stripped rest plain → stripped (COLOR :: u ++ rest) plain
  | stripped_hex_color u rest plain :
      color_arguments 6 isxdigit u rest → stripped rest plain → stripped (HEXCOLOR :: u ++ rest) plain
  | stripped_sgr s rest plain : is_sgr s rest → stripped rest plain → stripped s plain
  | stripped_text c text plain :
      c ≠ COLOR → c ≠ HEXCOLOR → (∀ rest, ¬ is_sgr (c :: text) rest) → stripped text plain → stripped (c :: text) (c :: plain).

Lemma skip_upto_longest n p s : ∃ u, s = u ++ skip_upto n p s ∧ longest n p u (skip_upto n p s).
Proof.
  unfold longest. revert n. induction s as [|c s IH]; intros [|n]; simpl; try (exists []; split_and!; [done|constructor|simpl; lia|tauto]).
  destruct (p c) eqn:Hc; [|exists []; split_and!; [done|constructor|simpl; lia|by right; right]].
  destruct (IH n) as (u & E1 & H1 & H2 & H3). exists (c :: u). simpl. rewrite <-E1. split; [done|]. split; [by constructor|].
  split; [simpl; lia|]. destruct H3; [left; simpl; lia | by right].
Qed.
Lemma longest_skip n p u rest : longest n p u rest → skip_upto n p (u ++ rest) = rest.
Proof.
  intros (H1 & H2 & H3). revert n H2 H3. induction H1 as [|c u Hc _ IH]; intros n H2 H3; simpl.
  - destruct n; [by destruct rest|]. destruct rest as [|c rest]; [done|]. simpl. destruct H3 as [?|[?|H3]]; [done..|]. simpl in H3. by rewrite H3.
  - destruct n as [|n]; simpl in *; [lia|]. rewrite Hc. apply IH; [lia|]. destruct H3; [left; lia | by right].
Qed.

Lemma skip_digits_pair_arguments n p s : ∃ u, s = u ++ skip_digits_pair n p s ∧ color_arguments n p u (skip_digits_pair n p s).
Proof.
  unfold skip_digits_pair. destruct (skip_upto_longest n p s) as (u & E1 & Hu). cbv zeta.
  destruct (Ascii.eqb_spec (char0 (skip_upto n p s)) ",") as [Hc|Hc]; [|exists u; split; [done | by constructor]].
  destruct (skip_upto n p s) as [|x t] eqn:Et; [done|]. simpl in Hc. subst x. cbn [tail].
  destruct (skip_upto_longest n p t) as (v & E2 & Hv). exists (u ++ ","%char :: v). rewrite <-app_assoc. simpl. rewrite <-E2.
  split; [done|]. constructor; [by rewrite <-E2 | done].
Qed.
Lemma arguments_skip n p u rest : color_arguments n p u rest → skip_digits_pair n p (u ++ rest) = rest.
Proof.
  unfold skip_digits_pair. intros [u' rest' H Hc|u' v rest' H H'].
  - rewrite longest_skip by done. by destruct (Ascii.eqb_spec (char0 rest') ",").
  - rewrite <-app_assoc. simpl. rewrite longest_skip by done. simpl. by rewrite longest_skip.
Qed.

Lemma skip_ansi_sgr_spec s rest : skip_ansi_sgr s = Some rest ↔ is_sgr s rest.
Proof.
  unfold is_sgr. split.
  - destruct s as [|e [|b q]]; [done..|]. unfold skip_ansi_sgr. destruct (Ascii.eqb_spec e ESC) as [->|]; [|done].
    destruct (Ascii.eqb_spec b "[") as [->|]; [|done]. cbn [andb]. change (λ c, isdigit c || _ || _) with sgr_parameter.
    assert (∃ u, q = u ++ drop_while sgr_parameter q ∧ Forall (λ c, sgr_parameter c = true) u) as (u & Hq & Hu).
    { induction q as [|c q IH]; simpl; [by exists []|]. destruct (sgr_parameter c) eqn:Hc; [|by exists []].
      destruct IH as (u & E1 & Hu). exists (c :: u). simpl. split; [by f_equal | by constructor]. }
    destruct (drop_while _ q) as [|m q']; [done|]. destruct (Ascii.eqb_spec m "m") as [->|]; [|done]. intros [= <-].
    exists u. by rewrite Hq.
  - intros (u & -> & Hu). unfold skip_ansi_sgr. cbn [Ascii.eqb]. change (λ c, isdigit c || _ || _) with sgr_parameter. simpl.
    induction Hu as [|c u Hc _ IH]; simpl; [done|]. by rewrite Hc.
Qed.
Lemma is_sgr_shorter s rest : is_sgr s rest → length rest < length s ∧ ∃ t, s = ESC :: t.
Proof. intros (u & -> & _). split; [simpl; rewrite length_app; simpl; lia | eauto]. Qed.

(** The loop computes what the grammar describes. *)
Lemma strip_loop_stripped text plain :
  stripped text plain → ∀ fuel room, length text ≤ fuel → strip_loop fuel room text = take room plain.
Proof.
  assert (Hnil : ∀ fuel text, strip_loop fuel 0 text = []) by (by intros [] []).
  induction 1 as [|u rest plain Hu _ IH|u rest plain Hu _ IH|s rest plain Hs _ IH|c text plain H1 H2 H3 _ IH]; intros fuel [|room] Hf;
    rewrite ?Hnil; [by rewrite ?take_0 | by destruct fuel| | | | | | | |]; try done.
  - destruct fuel as [|fuel]; [simpl in Hf; lia|]. simpl. unfold skip_irc_color. cbn [tail]. rewrite arguments_skip by done.
    apply IH. simpl in Hf. rewrite length_app in Hf. lia.
  - destruct fuel as [|fuel]; [simpl in Hf; lia|]. simpl. unfold skip_irc_hex_color. cbn [tail]. rewrite arguments_skip by done.
    apply IH. simpl in Hf. rewrite length_app in Hf. lia.
  - destruct (is_sgr_shorter s rest Hs) as [Hlt [t Ht]]. apply skip_ansi_sgr_spec in Hs. destruct fuel as [|fuel]; [lia|].
    subst s. cbn [strip_loop]. rewrite Hs. apply IH. lia.
  - destruct fuel as [|fuel]; [simpl in Hf; lia|]. cbn [strip_loop].
    rewrite (proj2 (Ascii.eqb_neq c COLOR) H1), (proj2 (Ascii.eqb_neq c HEXCOLOR) H2).
    assert ((if Ascii.eqb c ESC then skip_ansi_sgr (c :: text) else None) = None) as ->.
    { case_if; [|done]. destruct (skip_ansi_sgr (c :: text)) as [rest|] eqn:Hr; [|done]. by apply skip_ansi_sgr_spec, H3 in Hr. }
    simpl. f_equal. apply IH. simpl in Hf. lia.
Qed.
Lemma stripped_exists text : ∃ plain, stripped text plain.
Proof.
  remember (length text) as n eqn:Hn. revert text Hn. induction (lt_wf n) as [n _ IH]. intros text ->.
  destruct text as [|c text]; [by exists []; constructor|].
  assert (Hgo : ∀ rest, rest `suffix_of` text → ∃ plain, stripped rest plain).
  { intros rest Hr. apply (IH (length rest)); [|done]. apply suffix_length in Hr. simpl. lia. }
  destruct (decide (c = COLOR)) as [->|H1].
  { destruct (skip_digits_pair_arguments 2 isdigit text) as (u & E1 & Hu).
    destruct (Hgo _ (skip_digits_pair_suffix 2 isdigit text)) as [plain Hp]. exists plain. rewrite E1. by constructor. }
  destruct (decide (c = HEXCOLOR)) as [->|H2].
  { destruct (skip_digits_pair_arguments 6 isxdigit text) as (u & E1 & Hu).
    destruct (Hgo _ (skip_digits_pair_suffix 6 isxdigit text)) as [plain Hp]. exists plain. rewrite E1. by constructor. }
  destruct (skip_ansi_sgr (c :: text)) as [rest|] eqn:Hs.
  - destruct (Hgo rest) as [plain Hp]; [by apply skip_ansi_sgr_suffix in Hs|]. exists plain. apply skip_ansi_sgr_spec in Hs. by eapply stripped_sgr.
  - destruct (Hgo text) as [plain Hp]; [done|]. exists (c :: plain). constructor; [done..| |done].
    intros rest Hr%skip_ansi_sgr_spec. congruence.
Qed.

(** Colour stripping follows the grammar: what it writes is the message without its colour
    codes, each taken as long as it goes, cut to the size of the buffer. *)
Theorem strip_color_spec text out_size :
  ∃ plain, (∀ plain', stripped text plain' ↔ plain' = plain) ∧ message_strip_color text out_size = snprintf out_size plain.
Proof.
  destruct (stripped_exists text) as [plain Hp]. exists plain. split; [|by apply strip_loop_stripped].
  intros plain'. split; [|by intros ->]. intros Hp'. set (n := Nat.max (length plain) (length plain')).
  rewrite <-(firstn_all2 (n := n) plain') by lia. rewrite <-(firstn_all2 (n := n) plain) by lia.
  by rewrite <-(strip_loop_stripped text plain' Hp' (length text) n), <-(strip_loop_stripped text plain Hp (length text) n).
Qed.

Example strip_color_example : message_strip_color (COLOR :: lit "04,12hi") 64 = lit "hi".
Proof. reflexivity. Qed.
(** Stripping is not idempotent with respect to ANSI sequences: removing a colour
    code can join the two halves of one. *)
Lemma strip_color_can_join_ansi :
  let text := ESC :: "["%char :: COLOR :: lit "mx" in
  skip_ansi_sgr text = None ∧
  message_strip_color text 64 = ESC :: lit "[mx" ∧
  skip_ansi_sgr (message_strip_color text 64) = Some (lit "x").
Proof. split_and!; reflexivity. Qed.

(** ** Visibility *)

(** The three channel-visibility rules agree.  A channel that LIST shows is
    visible to NAMES; a channel that WHOIS shows of somebody else is visible to
    NAMES; and NAMES hides every private, secret or local channel from a client
    that is neither a member nor an operator. *)
Theorem visibility_agrees w requester subject ch
    (R := the_client w requester) (C := the_channel w ch) :
  (visibility_list_channel R requester C = true → visibility_names_channel R requester C = true) ∧
  (requester ≠ subject → visibility_whois_channel w requester subject ch = true →
   visibility_names_channel R requester C = true) ∧
  (visibility_names_channel R requester C = true → visibility_is_oper R = false →
   channel_has_client C requester = false →
   channel_mode_has (ch_modes C) CHANNEL_MODE_PRIVATE = false ∧
   channel_mode_has (ch_modes C) CHANNEL_MODE_SECRET = false ∧ char0 (ch_name C) ≠ "&"%char).
Proof.
  unfold visibility_list_channel, visibility_names_channel, visibility_whois_channel.
  fold R C. split_and!.
  - destruct (local_channel C); [done|]. by destruct (_ || _).
  - intros Hne. destruct (Nat.eqb_spec requester subject) as [|_]; [done|]. cbn [orb].
    destruct (visibility_is_oper R); [done|]. cbn [orb].
    destruct (client_mode_has _ _); [done|]. destruct (channel_has_client C requester); [done|].
    by destruct (channel_mode_has _ _), (local_channel C).
  - intros H Ho Hm. rewrite Ho, Hm in H. cbn [orb] in H.
    unfold local_channel in H. destruct (Ascii.eqb_spec (char0 (ch_name C)) "&"); [done|].
    apply negb_true_iff in H. unfold channel_mode_has in *.
    rewrite mode_has_false in H. unfold CHANNEL_MODE_PRIVATE, CHANNEL_MODE_SECRET.
    rewrite !mode_has_bit. split_and!; [apply H; reflexivity | apply H; reflexivity | done].
Qed.

Lemma visibility_agrees_witness :
  visibility_list_channel (the_client boot 0) 0 (the_channel boot 1) = true ∧
  visibility_names_channel (the_client boot 0) 0 (the_channel boot 1) = true.
Proof.
  split; [vm_compute; reflexivity|]. apply (proj1 (visibility_agrees boot 0 2 1)). vm_compute. reflexivity.
Defined.

(** ** Server notices *)

Lemma chunks_spec fuel limit text :
  0 < limit → length text ≤ fuel →
  concat (chunks fuel limit text) = text ∧
  Forall (λ c, 0 < length c ≤ limit) (chunks fuel limit text).
Proof.
  intros Hl. revert text. induction fuel as [|fuel IH]; intros [|c text] Hf; simpl in *;
    try (split; [done|constructor]); [lia|].
  destruct limit as [|limit]; [lia|].
  destruct (IH (drop (S limit) (c :: text))) as [H1 H2]; [simpl; rewrite length_drop; lia|].
  split; [rewrite H1; apply (take_drop (S limit) (c :: text)) |].
  constructor; [|exact H2]. simpl. rewrite length_take. lia.
Qed.

(** A server notice of any length is delivered in pieces that fit: the pieces
    concatenate to the text, none is empty, and the line built from each stays
    within the 510 bytes of an IRC message. *)
Theorem server_notice_chunks_fit server nick text
    (prefix := format ":%s NOTICE %s :*** " [server; nick]) (limit := IRC_LINE_CONTENT_MAX - length prefix) :
  length prefix < IRC_LINE_CONTENT_MAX →
  concat (chunks (length text) limit text) = text ∧
  Forall (λ c, c ≠ [] ∧ length (format ":%s NOTICE %s :*** %.*s" [server; nick; c]) ≤ IRC_LINE_CONTENT_MAX)
    (chunks (length text) limit text).
Proof.
  intros Hp. destruct (chunks_spec (length text) limit text) as [H1 H2]; [unfold limit; lia|done|].
  split; [done|]. eapply Forall_impl; [exact H2|]. intros c Hc.
  split; [by intros ->; simpl in Hc; lia|].
  assert (length (format ":%s NOTICE %s :*** %.*s" [server; nick; c]) = length prefix + length c) as ->.
  { subst prefix. cbn. rewrite !length_app. cbn. rewrite !length_app. cbn. rewrite !length_app. cbn. lia. }
  unfold limit in Hc. lia.
Qed.

Lemma server_notice_chunks_fit_witness :
  concat (chunks 5 (IRC_LINE_CONTENT_MAX - length (format ":%s NOTICE %s :*** " [lit "s"; lit "n"])) (lit "hello"))
  = lit "hello".
Proof. apply (server_notice_chunks_fit (lit "s") (lit "n") (lit "hello")). vm_compute. lia. Defined.
