(* ===== verification/Tags.v ===== *)
(** * Client message tags ([src/ircv3.c], [ircv3_begin_command])

    The tag section of a client line is split at semicolons; of the client-only
    tags (those starting with a plus sign) the last occurrence of each key is
    relayed.  The source finds it with an open-addressing table of 4096 slots over
    at most 2048 tokens; [slots] is that table, a missing entry being
    [IRCV3_TAG_SLOT_EMPTY]. *)

From S2P Require Import Prelude CString Modes Output.

Definition IRCV3_TAG_TOKEN_MAX : nat := 2048.
Definition IRCV3_TAG_SLOT_COUNT : N := 4096.
Definition IRCV3_CLIENT_TAG_DATA_MAX : Z := 4094.
Definition IRCV3_LABEL_MAX : nat := 64.

(** ** Operations *)

(** Bytes of a tag value once its escapes are decoded. *)
Fixpoint decoded_tag_value_length (value : cstr) : nat :=
  match value with
  | [] => 0
  | c :: value' =>
      if Ascii.eqb c "\" then
        match value' with
        | [] => 0
        | _ :: value'' => S (decoded_tag_value_length value'')
        end
      else S (decoded_tag_value_length value')
  end.

(** FNV hash in a 64-bit [size_t]. *)
Definition tag_key_hash (key : cstr) : N :=
  fold_left (λ hash c, ((N.lxor hash (byte c) * 16777619) mod 2 ^ 64)%N) key 2166136261%N.

(** The key of a token: what precedes its first [=]. *)
Definition token_key (token : cstr) : cstr := (span (Ascii.eqb "=") token).1.
Definition client_only (token : cstr) : bool := Ascii.eqb (char0 token) "+".

Definition token_at (toks : list cstr) (i : nat) : cstr := default [] (toks !! i).

Definition home (key : cstr) : N := N.land (tag_key_hash key) (IRCV3_TAG_SLOT_COUNT - 1).

(** The probing loop of [tag_slot_for]; a table of fewer entries than slots has an
    empty one, so 4096 rounds are enough. *)
Fixpoint probe (fuel : nat) (toks : list cstr) (slots : gmap N nat) (key : cstr) (slot : N) : option N :=
  match slots !! slot with
  | None => Some slot
  | Some existing =>
      if streq (token_key (token_at toks existing)) key then Some slot else
      match fuel with
      | 0 => None
      | S fuel' => probe fuel' toks slots key (N.land (slot + 1) (IRCV3_TAG_SLOT_COUNT - 1))
      end
  end.

Definition tag_slot_for (toks : list cstr) (slots : gmap N nat) (index : nat) : option N :=
  let key := token_key (token_at toks index) in
  probe (N.to_nat IRCV3_TAG_SLOT_COUNT) toks slots key (home key).

(** First loop: enter every client-only token; [None] if a probe did not end. *)
Fixpoint fill_slots (toks : list cstr) (index : nat) (rest : list cstr) (slots : gmap N nat)
    : option (gmap N nat) :=
  match rest with
  | [] => Some slots
  | token :: rest' =>
      if client_only token then
        slot ← tag_slot_for toks slots index;
        fill_slots toks (S index) rest' (<[slot := index]> slots)
      else fill_slots toks (S index) rest' slots
  end.

(** Appends a token if the relay buffer has room for it. *)
Definition relay_token (out token : cstr) : cstr :=
  let sep := if empty out then [] else [";"%char] in
  if (Z.of_nat (length token + length sep) <=? IRCV3_CLIENT_TAG_DATA_MAX - Z.of_nat (length out))%Z
  then out ++ sep ++ token else out.

(** Second loop. *)
Fixpoint relay_loop (toks : list cstr) (slots : gmap N nat) (index : nat) (rest : list cstr) (out : cstr)
    : option cstr :=
  match rest with
  | [] => Some out
  | token :: rest' =>
      if client_only token then
        slot ← tag_slot_for toks slots index;
        relay_loop toks slots (S index) rest'
          (if bool_decide (slots !! slot = Some index) then relay_token out token else out)
      else relay_loop toks slots (S index) rest' out
  end.

Definition tag_tokens (tags : cstr) : list cstr := take IRCV3_TAG_TOKEN_MAX (tokens ";" tags).

(** [client->ircv3_client_tags] after [ircv3_begin_command]. *)
Definition relayed_tags (capabilities : N) (tags : cstr) : option cstr :=
  if empty tags || negb (has_cap capabilities CLIENT_CAP_MESSAGE_TAGS) then Some [] else
  let toks := tag_tokens tags in
  slots ← fill_slots toks 0 toks ∅;
  relay_loop toks slots 0 toks [].

(** [label]: the last [label] token decides; one with an unusable value clears it. *)
Definition label_step (label token : cstr) : cstr :=
  if streq (token_key token) "label" then
    match (span (Ascii.eqb "=") token).2 with
    | _ :: value =>
        if negb (empty value) && (length value <=? IRCV3_LABEL_ENCODED_MAX) &&
           (decoded_tag_value_length value <=? IRCV3_LABEL_MAX)
        then snprintf (IRCV3_LABEL_ENCODED_MAX + 1) value else []
    | [] => []
    end
  else label.

Definition command_label (capabilities : N) (tags : cstr) : cstr :=
  if empty tags then [] else
  let label := fold_left label_step (tag_tokens tags) [] in
  if has_cap capabilities CLIENT_CAP_LABELED_RESPONSE && has_cap capabilities CLIENT_CAP_BATCH
  then label else [].

(** ** The table *)

Section Table.
Context (toks : list cstr).
Implicit Types (slots : gmap N nat) (k : cstr).

Definition key_of (i : nat) : cstr := token_key (token_at toks i).

(** The [d]-th slot probed for key [k]. *)
Definition nth_slot k (d : N) : N := ((tag_key_hash k + d) mod IRCV3_TAG_SLOT_COUNT)%N.

(** Every entry is reached from its home through slots that hold other keys, and
    all slots are in range. *)
Record slots_ok slots : Prop := {
  slots_range : ∀ s i, slots !! s = Some i → (s < IRCV3_TAG_SLOT_COUNT)%N;
  slots_path : ∀ s i, slots !! s = Some i →
    ∃ d, (d < IRCV3_TAG_SLOT_COUNT)%N ∧ s = nth_slot (key_of i) d ∧
      ∀ e, (e < d)%N → ∃ j, slots !! nth_slot (key_of i) e = Some j ∧ key_of j ≠ key_of i }.

Lemma land_mod x : N.land x (IRCV3_TAG_SLOT_COUNT - 1) = (x mod IRCV3_TAG_SLOT_COUNT)%N.
Proof. change (IRCV3_TAG_SLOT_COUNT - 1)%N with (N.ones 12). apply N.land_ones. Qed.

Lemma nth_slot_range k d : (nth_slot k d < IRCV3_TAG_SLOT_COUNT)%N.
Proof. apply N.mod_lt. done. Qed.

(** Probing from the [d]-th slot finds the first slot that is free or holds the
    key, if there is one within reach. *)
Lemma probe_spec slots k fuel d e :
  (d ≤ e)%N → (N.to_nat (e - d) ≤ fuel)%nat →
  (slots !! nth_slot k e = None ∨ ∃ j, slots !! nth_slot k e = Some j ∧ key_of j = k) →
  (∀ x, (x < d)%N → ∃ j, slots !! nth_slot k x = Some j ∧ key_of j ≠ k) →
  ∃ f, (f ≤ e)%N ∧ probe fuel toks slots k (nth_slot k d) = Some (nth_slot k f) ∧
    (slots !! nth_slot k f = None ∨ ∃ j, slots !! nth_slot k f = Some j ∧ key_of j = k) ∧
    (∀ x, (x < f)%N → ∃ j, slots !! nth_slot k x = Some j ∧ key_of j ≠ k).
Proof.
  revert d. induction fuel as [|fuel IH]; intros d Hde Hf Hstop Hpre; simpl.
  - assert (d = e) as -> by lia. exists e. destruct Hstop as [->|(j & Ej & Hj)].
    + split_and!; auto; lia.
    + rewrite Ej. unfold key_of in Hj. rewrite (proj2 (streq_true _ _) Hj). split_and!; eauto; lia.
  - destruct (slots !! nth_slot k d) as [j|] eqn:Ed; [|by exists d; split_and!; auto].
    destruct (streq _ k) eqn:Ek.
    { apply streq_true in Ek. exists d. split_and!; eauto. }
    assert (Hne : key_of j ≠ k) by (intros E; apply streq_true in E; unfold key_of in E; congruence).
    assert (d ≠ e) as Hdne.
    { intros ->. rewrite Ed in Hstop. destruct Hstop as [|(? & [= <-] & ?)]; done. }
    rewrite land_mod. replace ((nth_slot k d + 1) mod IRCV3_TAG_SLOT_COUNT)%N with (nth_slot k (d + 1)).
    + apply IH; [lia|lia|done|]. intros x Hx. destruct (decide (x = d)) as [->|]; [eauto|].
      apply Hpre. lia.
    + unfold nth_slot. rewrite N.add_assoc, (N.Div0.add_mod_idemp_l (tag_key_hash k + d)). done.
Qed.

Definition all_slots : list N := N.of_nat <$> seq 0 (N.to_nat IRCV3_TAG_SLOT_COUNT).

Lemma elem_of_all_slots s : s ∈ all_slots ↔ (s < IRCV3_TAG_SLOT_COUNT)%N.
Proof.
  unfold all_slots. rewrite list_elem_of_fmap. split.
  - intros (n & -> & Hn%elem_of_seq). lia.
  - intros Hs. exists (N.to_nat s). rewrite N2Nat.id. split; [done|]. apply elem_of_seq. lia.
Qed.

(** A table with a free slot has one on every probe sequence. *)
Lemma free_slot slots k :
  size slots < N.to_nat IRCV3_TAG_SLOT_COUNT →
  ∃ e, (e < IRCV3_TAG_SLOT_COUNT)%N ∧ slots !! nth_slot k e = None.
Proof.
  intros Hsize. destruct (Forall_Exists_dec (λ s, is_Some (slots !! s)) (λ s, slots !! s = None)
    (λ s, match slots !! s as o return {is_Some o} + {o = None} with
          | Some x => left (ex_intro _ x eq_refl) | None => right eq_refl end) all_slots) as [Hall|Hex].
  - exfalso. assert (list_to_set all_slots ⊆ dom slots) as Hsub.
    { intros s Hs%elem_of_list_to_set. apply elem_of_dom. rewrite Forall_forall in Hall. auto. }
    apply subseteq_size in Hsub. rewrite size_list_to_set, size_dom in Hsub.
    + unfold all_slots in Hsub. rewrite length_fmap, length_seq in Hsub. lia.
    + apply NoDup_fmap_2; [apply _ | apply NoDup_seq].
  - apply Exists_exists in Hex as (s & Hs%elem_of_all_slots & Hnone).
    set (h := (tag_key_hash k mod IRCV3_TAG_SLOT_COUNT)%N).
    assert (Hh : (h < IRCV3_TAG_SLOT_COUNT)%N) by (by apply N.mod_lt).
    exists ((s + (IRCV3_TAG_SLOT_COUNT - h)) mod IRCV3_TAG_SLOT_COUNT)%N.
    split; [by apply N.mod_lt|]. rewrite <-Hnone. f_equal. unfold nth_slot.
    rewrite N.Div0.add_mod_idemp_r, <-N.Div0.add_mod_idemp_l. fold h.
    replace (h + (s + (IRCV3_TAG_SLOT_COUNT - h)))%N with (s + 1 * IRCV3_TAG_SLOT_COUNT)%N by lia.
    rewrite N.Div0.mod_add. by apply N.mod_small.
Qed.

(** The table represents the finite map [m] from keys to token indices. *)
Definition tabulates slots (m : gmap cstr nat) : Prop :=
  slots_ok slots ∧ size slots ≤ size m ∧
  ∀ k i, m !! k = Some i ↔ key_of i = k ∧ ∃ s, slots !! s = Some i.

Lemma slot_unique slots s s' i i' :
  slots_ok slots → slots !! s = Some i → slots !! s' = Some i' → key_of i = key_of i' → s = s'.
Proof.
  intros Hok E E' Hk. destruct (slots_path _ Hok _ _ E) as (d & _ & -> & Hd).
  destruct (slots_path _ Hok _ _ E') as (d' & _ & -> & Hd'). rewrite Hk in *.
  destruct (N.lt_trichotomy d d') as [Hlt|[->|Hlt]]; [|done|].
  - destruct (Hd' d Hlt) as (j & Ej & Hj). congruence.
  - destruct (Hd d' Hlt) as (j & Ej & Hj). congruence.
Qed.

(** Looking a key up in the table is looking it up in the map, and the slot found
    is where the key belongs. *)
Lemma tag_slot_for_spec slots m i :
  tabulates slots m → size m < N.to_nat IRCV3_TAG_SLOT_COUNT →
  ∃ f, tag_slot_for toks slots i = Some (nth_slot (key_of i) f) ∧ (f < IRCV3_TAG_SLOT_COUNT)%N ∧
    slots !! nth_slot (key_of i) f = m !! key_of i ∧
    (∀ x, (x < f)%N → ∃ j, slots !! nth_slot (key_of i) x = Some j ∧ key_of j ≠ key_of i).
Proof.
  intros (Hok & Hsz & Hm) Hlt. set (k := key_of i).
  destruct (free_slot slots k) as (e & He & Hnone); [lia|].
  destruct (probe_spec slots k (N.to_nat IRCV3_TAG_SLOT_COUNT) 0 e)
    as (f & Hfe & Hp & Hf & Hpre); [lia|lia|by left|lia|].
  exists f. split; [|split; [lia|split; [|done]]].
  - unfold tag_slot_for, home. fold (key_of i). fold k. rewrite land_mod.
    rewrite <-Hp. unfold nth_slot. by rewrite N.add_0_r.
  - destruct (m !! k) as [j|] eqn:Ej.
    + apply Hm in Ej as [Hj [s Hs]]. destruct Hf as [Hn|(j' & Ej' & Hj')].
      * destruct (slots_path _ Hok _ _ Hs) as (d & _ & -> & Hd). rewrite Hj in *.
        destruct (N.lt_trichotomy f d) as [Hl|[->|Hl]]; [|congruence|].
        -- destruct (Hd f Hl) as (? & ? & _). congruence.
        -- destruct (Hpre d Hl) as (? & ? & ?). congruence.
      * assert (nth_slot k f = s) as -> by (eapply slot_unique; eauto; congruence). done.
    + destruct Hf as [Hn|(j & Ej' & Hj)]; [done|].
      assert (m !! k = Some j) by (apply Hm; eauto). congruence.
Qed.

(** Entering a token updates the map. *)
Lemma enter_token slots m i :
  tabulates slots m → size m < N.to_nat IRCV3_TAG_SLOT_COUNT →
  ∃ s, tag_slot_for toks slots i = Some s ∧ tabulates (<[s := i]> slots) (<[key_of i := i]> m).
Proof.
  intros Ht Hlt. destruct (tag_slot_for_spec slots m i Ht Hlt) as (f & Hs & Hf & Hget & Hpre).
  destruct Ht as (Hok & Hsz & Hm). set (s := nth_slot (key_of i) f) in *. exists s. split; [done|].
  assert (Hold : ∀ j, slots !! s = Some j → key_of j = key_of i).
  { intros j Hj. rewrite Hget in Hj. by apply Hm in Hj as [? _]. }
  split; [split|split].
  - intros s' j [[<- _]|[_ Hj]]%lookup_insert_Some; [apply nth_slot_range|by eapply slots_range].
  - assert (Hkeep : ∀ k x j, slots !! nth_slot k x = Some j → key_of j ≠ k →
      ∃ j', <[s := i]> slots !! nth_slot k x = Some j' ∧ key_of j' ≠ k).
    { intros k x j Hj Hne. destruct (decide (s = nth_slot k x)) as [E|E].
      - exists i. rewrite E, lookup_insert_eq. split; [done|]. rewrite <-E in Hj.
        by rewrite <-(Hold j Hj).
      - exists j. by rewrite lookup_insert_ne. }
    intros s' j [[<- <-]|[Hne Hj]]%lookup_insert_Some.
    + exists f. split_and!; auto. intros e He. destruct (Hpre e He) as (j & Hj & Hk). eauto.
    + destruct (slots_path _ Hok _ _ Hj) as (d & Hd & -> & Hpath). exists d. split_and!; auto.
      intros e He. destruct (Hpath e He) as (j' & Hj' & Hk). eauto.
  - rewrite !map_size_insert, Hget. destruct (m !! key_of i); simpl; lia.
  - intros k j. rewrite lookup_insert_Some. split.
    + intros [[<- <-]|[Hne Hj]].
      * split; [done|]. exists s. apply lookup_insert_eq.
      * apply Hm in Hj as [Hk [s' Hs']]. split; [done|]. exists s'. rewrite lookup_insert_ne; [done|].
        intros ->. apply Hne. by rewrite <-Hk, (Hold j Hs').
    + intros [Hk [s' [[<- <-]|[Hne Hj]]%lookup_insert_Some]]; [by left|]. right. split.
      * intros E. apply Hne. assert (m !! key_of i = Some j) as Ej by (apply Hm; split; [congruence|eauto]).
        rewrite <-Hget in Ej. eapply slot_unique; eauto.
      * apply Hm. eauto.
Qed.
End Table.

Lemma tabulates_empty toks : tabulates toks ∅ ∅.
Proof.
  split; [split|split]; try done; intros *; rewrite ?lookup_empty; try done.
  split; [done|]. intros [_ [? ?]]. done.
Qed.

(** ** Last occurrences *)

(** The client-only tokens whose key does not occur again. *)
Fixpoint last_tags (toks : list cstr) : list cstr :=
  match toks with
  | [] => []
  | t :: rest =>
      if client_only t && negb (existsb (λ u, streq (token_key u) (token_key t)) rest)
      then t :: last_tags rest else last_tags rest
  end.

(** Index of the last client-only token with key [k]. *)
Fixpoint last_index (index : nat) (rest : list cstr) (k : cstr) : option nat :=
  match rest with
  | [] => None
  | t :: rest' =>
      match last_index (S index) rest' k with
      | Some j => Some j
      | None => if client_only t && streq (token_key t) k then Some index else None
      end
  end.

Lemma last_index_ge index rest k j : last_index index rest k = Some j → index ≤ j.
Proof.
  revert index. induction rest as [|t rest IH]; intros index; simpl; [done|].
  destruct (last_index (S index) rest k) eqn:E; [intros [= ->]; apply IH in E; lia|].
  case_if; [intros [= <-]; lia|done].
Qed.

Lemma last_index_app index pre rest k :
  last_index index (pre ++ rest) k =
  match last_index (index + length pre) rest k with
  | Some j => Some j
  | None => last_index index pre k
  end.
Proof.
  revert index. induction pre as [|t pre IH]; intros index; simpl.
  - rewrite Nat.add_0_r. by destruct (last_index index rest k).
  - rewrite IH. replace (S index + length pre) with (index + S (length pre)) by lia.
    by destruct (last_index (index + S (length pre)) rest k).
Qed.

Lemma client_only_key t : client_only t = true → Ascii.eqb (char0 (token_key t)) "+" = true.
Proof.
  unfold client_only, token_key. destruct t as [|c t]; simpl; [done|]. intros H.
  apply Ascii.eqb_eq in H as ->. simpl. destruct (span _ t). done.
Qed.

Lemma key_client_only t : Ascii.eqb (char0 (token_key t)) "+" = true → client_only t = true.
Proof.
  unfold client_only, token_key. destruct t as [|c t]; [done|]. cbn [span].
  destruct (Ascii.eqb "=" c); [by intros|]. by destruct (span _ t).
Qed.

(** A client-only key has no last index exactly when no token has it. *)
Lemma last_index_None index rest k :
  Ascii.eqb (char0 k) "+" = true →
  last_index index rest k = None ↔ existsb (λ u, streq (token_key u) k) rest = false.
Proof.
  intros Hk. revert index. induction rest as [|t rest IH]; intros index; simpl; [done|].
  rewrite orb_false_iff, <-(IH (S index)).
  destruct (streq (token_key t) k) eqn:E.
  - apply streq_true in E. subst k. rewrite (key_client_only t Hk). simpl.
    destruct (last_index _ rest _); naive_solver.
  - rewrite andb_false_r. destruct (last_index _ rest _); naive_solver.
Qed.

Lemma token_at_app pre t rest : token_at (pre ++ t :: rest) (length pre) = t.
Proof. unfold token_at. by rewrite list_lookup_middle. Qed.

Lemma fill_slots_spec toks pre rest slots m :
  toks = pre ++ rest → length toks ≤ IRCV3_TAG_TOKEN_MAX → size m ≤ length pre →
  tabulates toks slots m →
  ∃ slots' m', fill_slots toks (length pre) rest slots = Some slots' ∧ tabulates toks slots' m' ∧
    size m' ≤ length toks ∧
    ∀ k, m' !! k = match last_index (length pre) rest k with Some j => Some j | None => m !! k end.
Proof.
  revert pre slots m. induction rest as [|t rest IH]; intros pre slots m Etoks Hlen Hsz Ht.
  { exists slots, m. split_and!; auto. subst. rewrite length_app. lia. }
  assert (Hnext : toks = (pre ++ [t]) ++ rest) by (by rewrite <-app_assoc).
  assert (Hkey : key_of toks (length pre) = token_key t)
    by (unfold key_of; by rewrite Etoks, token_at_app).
  assert (size m < N.to_nat IRCV3_TAG_SLOT_COUNT).
  { apply (f_equal length) in Etoks. rewrite length_app in Etoks. simpl in Etoks.
    unfold IRCV3_TAG_TOKEN_MAX in Hlen. change (N.to_nat IRCV3_TAG_SLOT_COUNT) with (2048 + 2048).
    revert Hlen. generalize 2048. intros n Hlen. lia. }
  simpl. destruct (client_only t) eqn:Hc.
  - destruct (enter_token toks slots m (length pre) Ht) as (s & -> & Ht'); [done|]. simpl.
    destruct (IH (pre ++ [t]) (<[s := length pre]> slots) (<[key_of toks (length pre) := length pre]> m))
      as (slots' & m' & Hf & Htab & Hs' & Hm'); auto.
    { rewrite map_size_insert, length_app. simpl. destruct (m !! _); simpl; lia. }
    rewrite length_app, Nat.add_1_r in Hf, Hm'. exists slots', m'. split_and!; auto.
    intros k. rewrite Hm', Hkey. destruct (last_index _ rest k); [done|]. simpl.
    destruct (streq (token_key t) k) eqn:Ek.
    + apply streq_true in Ek. subst. by rewrite lookup_insert_eq.
    + rewrite lookup_insert_ne; [done|]. intros E. apply streq_true in E. congruence.
  - destruct (IH (pre ++ [t]) slots m) as (slots' & m' & Hf & Htab & Hs' & Hm'); auto.
    { rewrite length_app. simpl. lia. }
    rewrite length_app, Nat.add_1_r in Hf, Hm'. exists slots', m'. split_and!; auto.
    intros k. rewrite Hm'. by destruct (last_index _ rest k).
Qed.

Lemma relay_loop_spec toks pre rest slots m out :
  toks = pre ++ rest → tabulates toks slots m → size m < N.to_nat IRCV3_TAG_SLOT_COUNT →
  (∀ k, m !! k = last_index 0 toks k) →
  relay_loop toks slots (length pre) rest out = Some (fold_left relay_token (last_tags rest) out).
Proof.
  revert pre out. induction rest as [|t rest IH]; intros pre out Etoks Ht Hsz Hm; [done|].
  assert (Hnext : toks = (pre ++ [t]) ++ rest) by (by rewrite <-app_assoc).
  assert (Hkey : key_of toks (length pre) = token_key t)
    by (unfold key_of; by rewrite Etoks, token_at_app).
  specialize (IH (pre ++ [t])). rewrite length_app, Nat.add_1_r in IH.
  simpl. destruct (client_only t) eqn:Hc; simpl; [|by apply IH].
  destruct (tag_slot_for_spec toks slots m (length pre) Ht Hsz) as (f & -> & _ & Hget & _). simpl.
  rewrite Hget, Hkey, Hm, Etoks, last_index_app. simpl.
  pose proof (last_index_None (S (length pre)) rest (token_key t) (client_only_key t Hc)) as Hlast.
  rewrite Hc, streq_refl. simpl.
  destruct (last_index (S (length pre)) rest (token_key t)) as [j|] eqn:Ej.
  - destruct (existsb _ rest) eqn:Ee; [|destruct Hlast as [_ Hl]; discriminate (Hl eq_refl)].
    rewrite bool_decide_false; [rewrite <-Etoks; by apply IH|].
    intros [= ->]. apply last_index_ge in Ej. lia.
  - destruct Hlast as [Hl _]. rewrite (Hl eq_refl). simpl.
    rewrite bool_decide_true by done. rewrite <-Etoks. by apply IH.
Qed.

(** ** The relayed section *)

Definition join_tags (l : list cstr) : cstr :=
  match l with [] => [] | t :: l' => t ++ concat (map (cons ";"%char) l') end.

Fixpoint total_length (l : list cstr) : nat :=
  match l with [] => 0 | t :: l' => S (length t) + total_length l' end.

Lemma relay_all l out :
  out ≠ [] → (Z.of_nat (length out + total_length l) ≤ IRCV3_CLIENT_TAG_DATA_MAX)%Z →
  fold_left relay_token l out = out ++ concat (map (cons ";"%char) l).
Proof.
  revert out. induction l as [|t l IH]; intros out Hne Hlen; simpl; [by rewrite app_nil_r|].
  assert (relay_token out t = out ++ ";"%char :: t) as ->.
  { unfold relay_token. destruct out as [|x out]; [done|]. cbn [empty].
    simpl in Hlen |- *. replace (_ <=? _)%Z with true; [done|]. symmetry. apply Z.leb_le. lia. }
  rewrite IH; [by rewrite <-app_assoc | by destruct out |].
  rewrite length_app. simpl in *. lia.
Qed.

Lemma strtok_length d s tok rest :
  strtok d s = (Some tok, rest) → rest = [] ∧ length tok ≤ length s ∨ S (length tok + length rest) ≤ length s.
Proof.
  unfold strtok. pose proof (drop_while_suffix (λ c, has_char c d) s) as Hs.
  destruct (drop_while _ s) as [|c u]; [done|]. destruct (span _ (c :: u)) as [a b] eqn:E.
  intros [= <- <-]. apply span_app in E. apply suffix_length in Hs. rewrite E, length_app in Hs.
  destruct b; simpl in *; [left; split; [done|lia] | right; lia].
Qed.

Lemma tokens_total fuel d s : total_length (tokens_fuel fuel d s) ≤ S (length s).
Proof.
  revert s. induction fuel as [|fuel IH]; intros s; simpl; [lia|].
  destruct (strtok d s) as [[tok|] rest] eqn:E; [|simpl; lia]. simpl.
  apply strtok_length in E as [[-> Hl]|Hl].
  - assert (tokens_fuel fuel d [] = []) as -> by (by destruct fuel). simpl. lia.
  - specialize (IH rest). lia.
Qed.

Lemma tokens_nonempty fuel d s : Forall (λ t, t ≠ []) (tokens_fuel fuel d s).
Proof.
  revert s. induction fuel as [|fuel IH]; intros s; simpl; [constructor|].
  destruct (strtok d s) as [[tok|] rest] eqn:E; [|constructor].
  constructor; [by apply strtok_Some in E as [? _] | apply IH].
Qed.

Lemma total_length_take n l : total_length (take n l) ≤ total_length l.
Proof. revert n. induction l; intros [|n]; simpl; [done..|lia|]. specialize (IHl n). lia. Qed.

Lemma last_tags_total l : total_length (last_tags l) ≤ total_length l.
Proof. induction l; simpl; [done|]. case_if; simpl; lia. Qed.

Lemma last_tags_nonempty l : Forall (λ t, t ≠ []) l → Forall (λ t, t ≠ []) (last_tags l).
Proof. induction 1; simpl; [constructor|]. case_if; by try constructor. Qed.

(** C30: the relayed tag section holds exactly the last occurrence of every
    client-only key, in order.  The open-addressing table never fills and probing
    always ends; for a tag section within the protocol limit (4094 bytes) nothing
    is dropped, and a client without the message-tags capability relays nothing. *)
Theorem relayed_tags_spec capabilities tags :
  (Z.of_nat (length tags) ≤ IRCV3_CLIENT_TAG_DATA_MAX)%Z →
  relayed_tags capabilities tags =
    Some (if has_cap capabilities CLIENT_CAP_MESSAGE_TAGS
          then join_tags (last_tags (tag_tokens tags)) else []).
Proof.
  intros Hlen. unfold relayed_tags. destruct tags as [|c tags]; cbn [empty orb].
  { by destruct (has_cap _ _). }
  destruct (has_cap _ _); cbn [negb]; [|done]. set (text := c :: tags) in *. clearbody text.
  set (toks := tag_tokens text).
  assert (length toks ≤ IRCV3_TAG_TOKEN_MAX) as Htoks by apply length_take_le.
  destruct (fill_slots_spec toks [] toks ∅ ∅) as (slots & m & Hf & Ht & Hsz & Hm);
    [done|done|done|apply tabulates_empty|].
  simpl in Hf. rewrite Hf. cbn [mbind option_bind].
  assert (size m < N.to_nat IRCV3_TAG_SLOT_COUNT).
  { change (N.to_nat IRCV3_TAG_SLOT_COUNT) with (2048 + 2048). unfold IRCV3_TAG_TOKEN_MAX in Htoks.
    assert (0 < 2048) as Hpos by apply Nat.lt_0_succ. revert Htoks Hpos. generalize 2048. intros. lia. }
  rewrite (relay_loop_spec toks [] toks slots m); auto.
  2:{ intros k. rewrite Hm, lookup_empty. simpl. by destruct (last_index 0 toks k). }
  f_equal. assert (Htot : total_length (last_tags toks) ≤ S (length text)).
  { etrans; [apply last_tags_total|]. etrans; [apply total_length_take|]. apply tokens_total. }
  assert (Hne : Forall (λ t, t ≠ []) (last_tags toks)).
  { apply last_tags_nonempty, Forall_take, tokens_nonempty. }
  destruct (last_tags toks) as [|t l]; [done|]. apply Forall_cons in Hne as [Hne _].
  cbn [fold_left join_tags total_length] in *.
  assert (relay_token [] t = t) as ->.
  { unfold relay_token. cbn [empty length app]. replace (_ <=? _)%Z with true; [done|].
    symmetry. apply Z.leb_le. simpl. lia. }
  apply relay_all; [done|lia].
Qed.

Lemma relayed_tags_spec_witness :
  relayed_tags CLIENT_CAP_MESSAGE_TAGS "+a=1;x=2;+b;+a=3" = Some (lit "+b;+a=3").
Proof.
  rewrite (relayed_tags_spec CLIENT_CAP_MESSAGE_TAGS "+a=1;x=2;+b;+a=3"); [reflexivity|].
  vm_compute. discriminate.
Defined.
