(* ===== verification/Numerics.v ===== *)
(** * Numeric replies ([include/numerics.h])

    The format strings of the numerics the modelled handlers send. *)

From S2P Require Import Prelude.

Definition NOTICE_STARTDNS : cstr := ":%s NOTICE AUTH :*** Looking up your hostname".
Definition NOTICE_GOTDNS : cstr := ":%s NOTICE AUTH :*** Done looking up your hostname".
Definition NOTICE_FAILDNS : cstr := ":%s NOTICE AUTH :*** Hostname lookup failed; using IP instead".
Definition RPL_WELCOME : cstr := ":%s 001 %s :Welcome to the %s IRC Network %s!%s@%s".
Definition RPL_YOURHOST : cstr := ":%s 002 %s :Your host is %s running version %s".
Definition RPL_CREATED : cstr := ":%s 003 %s :This server was created %s".
Definition RPL_AVAILABLE : cstr := ":%s 004 %s %s %s %s %s".
Definition RPL_PROTOCOLS : cstr := ":%s 005 %s %s :are supported by this server".
Definition RPL_UMODEIS : cstr := ":%s 221 %s %s".
Definition RPL_LUSERCLIENT : cstr := ":%s 251 %s :There are %d users and %d invisible on %d servers".
Definition RPL_LUSEROP : cstr := ":%s 252 %s %d :operator(s) online".
Definition RPL_LUSERUNKNOWN : cstr := ":%s 253 %s %d :unknown connection(s)".
Definition RPL_LUSERCHANNELS : cstr := ":%s 254 %s %d :channels formed".
Definition RPL_LUSERME : cstr := ":%s 255 %s :I have %d clients and %d servers".
Definition RPL_LOCALUSERS : cstr := ":%s 265 %s :Current Local Users: %d  Max: %d".
Definition RPL_GLOBALUSERS : cstr := ":%s 266 %s :Current Global Users: %d  Max: %d".
Definition RPL_SILELIST : cstr := ":%s 271 %s %s %s".
Definition RPL_ENDOFSILELIST : cstr := ":%s 272 %s :End of Silence List".
Definition RPL_AWAY : cstr := ":%s 301 %s %s :%s".
Definition RPL_USERHOST : cstr := ":%s 302 %s :%s=+%s@%s".
Definition RPL_ISON : cstr := ":%s 303 %s :%s".
Definition RPL_UNAWAY : cstr := ":%s 305 %s :You are no longer marked as being away".
Definition RPL_NOWAWAY : cstr := ":%s 306 %s :You have been marked as being away".
Definition RPL_WHOISREGNICK : cstr := ":%s 307 %s %s :is a registered nick".
Definition RPL_WHOISHELPOP : cstr := ":%s 310 %s %s :is available for help.".
Definition RPL_WHOISUSER : cstr := ":%s 311 %s %s %s %s * :%s".
Definition RPL_WHOISSERVER : cstr := ":%s 312 %s %s %s :%s".
Definition RPL_WHOISADMIN : cstr := ":%s 313 %s %s :is an Administrator".
Definition RPL_WHOISOPERATOR : cstr := ":%s 313 %s %s :is an IRCop".
Definition RPL_WHOWASUSER : cstr := ":%s 314 %s %s %s %s * :%s".
Definition RPL_WHOISIDLE : cstr := ":%s 317 %s %s %ld %ld :seconds idle signon time".
Definition RPL_ENDOFWHOIS : cstr := ":%s 318 %s %s :End of /WHOIS list.".
Definition RPL_WHOISCHANNELS : cstr := ":%s 319 %s %s :%s".
Definition RPL_WHOISSPECIAL : cstr := ":%s 320 %s %s :%s".
Definition RPL_LISTSTART : cstr := ":%s 321 %s Channel :Users  Name".
Definition RPL_LIST : cstr := ":%s 322 %s %s %d :%s".
Definition RPL_LISTEND : cstr := ":%s 323 %s :End of /LIST".
Definition RPL_CHANNELMODEIS : cstr := ":%s 324 %s %s %s".
Definition RPL_NOTOPIC : cstr := ":%s 331 %s %s :No topic is set.".
Definition RPL_TOPIC : cstr := ":%s 332 %s %s :%s".
Definition RPL_TOPICWHOTIME : cstr := ":%s 333 %s %s %s %lu".
Definition RPL_WHOISBOT : cstr := lit ":%s 335 %s %s :is a " ++ [ascii_of_N 2] ++ lit "Bot" ++ [ascii_of_N 2].
Definition RPL_USERIP : cstr := ":%s 340 %s :%s=+%s@%s".
Definition RPL_INVITING : cstr := ":%s 341 %s %s %s".
Definition RPL_INVEXLIST : cstr := ":%s 346 %s %s %s %s %lu".
Definition RPL_ENDOFINVEXLIST : cstr := ":%s 347 %s %s :End of Channel Invite List".
Definition RPL_EXLIST : cstr := ":%s 348 %s %s %s %s %lu".
Definition RPL_ENDOFEXLIST : cstr := ":%s 349 %s %s :End of Channel Exception List".
Definition RPL_WHOREPLY : cstr := ":%s 352 %s %s %s %s %s %s %s :%d %s".
Definition RPL_NAMREPLY : cstr := ":%s 353 %s %c %s :%s".
Definition RPL_ENDOFNAMES : cstr := ":%s 366 %s %s :End of /NAMES list.".
Definition RPL_BANLIST : cstr := ":%s 367 %s %s %s %s %lu".
Definition RPL_ENDOFBANLIST : cstr := ":%s 368 %s %s :End of Channel Ban List".
Definition RPL_MOTD : cstr := ":%s 372 %s :- %s".
Definition RPL_MOTDSTART : cstr := ":%s 375 %s :- %s Message of the Day - ".
Definition RPL_ENDOFMOTD : cstr := ":%s 376 %s :End of /MOTD command.".
Definition RPL_WHOISHOST : cstr := ":%s 378 %s %s :is connecting from *@%s %s".
Definition RPL_YOUREOPER : cstr := ":%s 381 %s :You are now a%s".
Definition ERR_NOSUCHNICK : cstr := ":%s 401 %s %s :No such nick/channel".
Definition ERR_NOSUCHCHANNEL : cstr := ":%s 403 %s %s :No such channel".
Definition ERR_CANNOTSENDTOCHAN : cstr := ":%s 404 %s %s :Cannot send to channel (%s)".
Definition ERR_TOOMANYCHANNELS : cstr := ":%s 405 %s %s :You have joined too many channels".
Definition ERR_TOOMANYTARGETS : cstr := ":%s 407 %s %s :Duplicate recipients. No message delivered".
Definition ERR_NORECIPIENT : cstr := ":%s 411 %s :No recipient given (%s)".
Definition ERR_NOTEXTTOSEND : cstr := ":%s 412 %s :No text to send".
Definition ERR_UNKNOWNCOMMAND : cstr := ":%s 421 %s %s :Unknown command".
Definition ERR_NOMOTD : cstr := ":%s 422 %s :MOTD File is missing".
Definition ERR_NONICKNAMEGIVEN : cstr := ":%s 431 %s :No nickname given".
Definition ERR_ERRONEUSNICKNAME : cstr := ":%s 432 %s %s :Erroneous Nickname: Illegal characters".
Definition ERR_NICKNAMEINUSE : cstr := ":%s 433 %s %s :Nickname is already in use.".
Definition ERR_RESERVEDNICK : cstr := ":%s 437 %s %s :is a reserved nick".
Definition ERR_USERNOTINCHANNEL : cstr := ":%s 441 %s %s %s :They aren't on that channel".
Definition ERR_NOTONCHANNEL : cstr := ":%s 442 %s %s :You're not on that channel".
Definition ERR_USERONCHANNEL : cstr := ":%s 443 %s %s %s :is already on channel".
Definition ERR_NOTREGISTERED : cstr := ":%s 451 %s :You have not registered".
Definition ERR_NEEDMOREPARAMS : cstr := ":%s 461 %s %s :Not enough parameters".
Definition ERR_ALREADYREGISTRED : cstr := ":%s 462 %s :You may not reregister".
Definition ERR_PASSWDMISMATCH : cstr := ":%s 464 %s :Password Incorrect".
Definition ERR_YOUREBANNEDCREEP : cstr := ":%s 465 %s :You are banned from this server.  Mail %s for more information".
Definition ERR_ONLYSERVERSCANCHANGE : cstr := ":%s 468 %s %s :Only servers can change that mode".
Definition ERR_LINKCHANNEL : cstr := ":%s 470 %s [Link] %s has become full so you are automatically being transferred to the linked channel %s".
Definition ERR_CHANNELISFULL : cstr := ":%s 471 %s %s :Cannot join channel (+l)".
Definition ERR_UNKNOWNMODE : cstr := ":%s 472 %s %c :is unknown mode char to me".
Definition ERR_INVITEONLYCHAN : cstr := ":%s 473 %s %s :Cannot join channel (+i)".
Definition ERR_BANNEDFROMCHAN : cstr := ":%s 474 %s %s :Cannot join channel (+b)".
Definition ERR_BADCHANNELKEY : cstr := ":%s 475 %s %s :Cannot join channel (+k)".
Definition ERR_NEEDREGGEDNICK : cstr := ":%s 477 %s %s :You need a registered nick to join that channel.".
Definition ERR_CANNOTKNOCK : cstr := ":%s 480 %s :Cannot knock on %s (%s)".
Definition ERR_NOPRIVILEGES : cstr := ":%s 481 %s :Permission Denied- You do not have the correct IRC operator privileges".
Definition ERR_CHANOPRIVSNEEDED : cstr := ":%s 482 %s %s :You're not channel operator".
Definition ERR_ATTACKDENY : cstr := ":%s 484 %s %s :Cannot kick protected user %s.".
Definition ERR_KILLDENY : cstr := ":%s 485 %s :Cannot kill protected user %s.".
Definition ERR_NONONREG : cstr := ":%s 486 %s :%s only accepts private messages from registered users".
Definition ERR_SECUREONLYCHAN : cstr := ":%s 489 %s %s :Cannot join channel (SSL is required)".
Definition ERR_NOOPERHOST : cstr := ":%s 491 %s :No O-lines for your host".
Definition ERR_NOCTCP : cstr := ":%s 492 %s :%s does not accept CTCPs".
Definition ERR_TOOMANYJOINS : cstr := ":%s 500 %s %s :Too many join requests. Please wait a while and try again.".
Definition ERR_UMODEUNKNOWNFLAG : cstr := ":%s 501 %s :Unknown MODE flag".
Definition ERR_USERSDONTMATCH : cstr := ":%s 502 %s :Cant change mode for other users".
Definition ERR_SILELISTFULL : cstr := ":%s 511 %s %s :Your silence list is full".
Definition ERR_TOOMANYWATCH : cstr := ":%s 512 %s %s :Maximum size for WATCH-list is 128 entries".
Definition ERR_518 : cstr := ":%s 518 %s :Cannot invite (+V) at channel %s".
Definition ERR_519 : cstr := ":%s 519 %s :Cannot join channel %s (Admin only)".
Definition ERR_520 : cstr := ":%s 520 %s :Cannot join channel %s (IRCops only)".
Definition RPL_LOGON : cstr := ":%s 600 %s %s %s %s %d :logged online".
Definition RPL_LOGOFF : cstr := ":%s 601 %s %s %s %s %d :logged offline".
Definition RPL_WATCHOFF : cstr := ":%s 602 %s %s %s %s %d :stopped watching".
Definition RPL_WATCHSTAT : cstr := ":%s 603 %s :You have %d and are on %d WATCH entries".
Definition RPL_NOWON : cstr := ":%s 604 %s %s %s %s %ld :is online".
Definition RPL_NOWOFF : cstr := ":%s 605 %s %s %s %s %ld :is offline".
Definition RPL_WATCHLIST : cstr := ":%s 606 %s :%s".
Definition RPL_ENDOFWATCHLIST : cstr := ":%s 607 %s :End of WATCH %c".
Definition RPL_WHOISSECURE : cstr := ":%s 671 %s %s :%s".
Definition RPL_WHOISVERSION : cstr := ":%s 672 %s %s :%s".
Definition RPL_WHOISWEBSITE : cstr := ":%s 673 %s %s :%s".
Definition RPL_LOGGEDIN : cstr := ":%s 900 %s %s!%s@%s %s :You are now logged in as %s".
Definition RPL_SASLSUCCESS : cstr := ":%s 903 %s :SASL authentication successful".
Definition ERR_SASLFAIL : cstr := ":%s 904 %s :SASL authentication failed".
Definition ERR_SASLTOOLONG : cstr := ":%s 905 %s :SASL message too long".
Definition ERR_SASLABORTED : cstr := ":%s 906 %s :SASL authentication aborted".
Definition ERR_SASLALREADY : cstr := ":%s 907 %s :You have already authenticated using SASL".
Definition ERR_CANNOTCHANGECHANMODE : cstr := ":%s 974 %s %c :%s".
