(* ===== verification/Ircv3.v ===== *)
(** * IRCv3 delivery ([src/ircv3.c])

    Per-command tag context, live messages, TAGMSG, and the account, away and
    extended-join notifications. *)

From S2P Require Import Prelude CString Modes HashTable MaskMatch Output World Channel Invariant Policy Tags.

(** ** Per-command context *)

Definition ircv3_begin_command (c : ptr) (tags : option cstr) : M unit :=
  upd_client c (set_cl_ircv3_client_tags []) ;;
  match tags with
  | None => mret tt
  | Some tags =>
      K ← client c;
      cfg ← config;
      upd_client c (set_cl_ircv3_client_tags (default [] (relayed_tags (cl_capabilities K) tags))) ;;
      on_conn c (λ conn, client_labeled_response_begin conn (server_name cfg)
                           (command_label (cl_capabilities K) tags))
  end.

Definition labeled_response_end (c : ptr) : M unit := λ w,
  (tt, put_conn c (client_labeled_response_end (cl_capabilities (the_client w c))
                     (io_timestamp (w_io w)) (the_conn w c)) (io_serial (w_io w)) w).

Definition ircv3_end_command (c : ptr) : M unit :=
  labeled_response_end c ;; upd_client c (set_cl_ircv3_client_tags []).

(** ** Messages *)

Definition message_wire_length (source : Client) (command target text : cstr) : nat :=
  1 + length (cl_nick source) + 1 + length (cl_user source) + 1 + length (cl_display_host source) +
  1 + length command + 1 + length target + 2 + length text.

Definition ircv3_message_wire_fits (source : Client) (command target text : cstr) : bool :=
  message_wire_length source command target text <=? IRC_LINE_CONTENT_MAX.

(** Lines to the source of a command are its own echo, not part of the labeled
    response. *)
Definition outside_response (recipient source : ptr) (m : M unit) : M unit :=
  when (recipient =? source) (response_suppress recipient true) ;;
  m ;;
  when (recipient =? source) (response_suppress recipient false).

Definition ircv3_send_message (recipient source : ptr) (command target text : cstr) : M unit :=
  S ← client source;
  R ← client recipient;
  if negb (ircv3_message_wire_fits S command target text) then mret tt else
  outside_response recipient source
    (if has_cap (cl_capabilities R) CLIENT_CAP_MESSAGE_TAGS && negb (empty (cl_ircv3_client_tags S)) then
       tell recipient "@%s :%s!%s@%s %s %s :%s"
         [cl_ircv3_client_tags S; cl_nick S; cl_user S; cl_display_host S; command; target; text]
     else
       tell recipient ":%s!%s@%s %s %s :%s"
         [cl_nick S; cl_user S; cl_display_host S; command; target; text]).

Definition ircv3_broadcast_message (ch : ptr) (except : option ptr) (source : ptr)
    (command target text : cstr) : M unit :=
  S ← client source;
  if negb (ircv3_message_wire_fits S command target text) then mret tt else
  C ← channel ch;
  for_each (ch_members C) (λ m,
    if bool_decide (Some (m_client m) = except) then mret tt else
    R ← client (m_client m);
    if streq command "PRIVMSG" && negb (usermode_deaf_allows_text R text) then mret tt else
    ircv3_send_message (m_client m) source command target text).

Definition ircv3_send_tagmsg (recipient source : ptr) (target : cstr) : M unit :=
  S ← client source;
  R ← client recipient;
  if negb (has_cap (cl_capabilities R) CLIENT_CAP_MESSAGE_TAGS) || empty (cl_ircv3_client_tags S)
  then mret tt else
  outside_response recipient source
    (tell recipient "@%s :%s!%s@%s TAGMSG %s"
       [cl_ircv3_client_tags S; cl_nick S; cl_user S; cl_display_host S; target]).

Definition ircv3_broadcast_tagmsg (ch : ptr) (except : option ptr) (source : ptr) (target : cstr)
    : M unit :=
  C ← channel ch;
  for_each (ch_members C) (λ m,
    if bool_decide (Some (m_client m) = except) then mret tt
    else ircv3_send_tagmsg (m_client m) source target).

(** ** Notifications *)

Definition ircv3_broadcast_join (ch c : ptr) : M unit :=
  C ← channel ch;
  K ← client c;
  let account := if empty (cl_account_name K) then lit "*" else cl_account_name K in
  for_each (ch_members C) (λ m,
    R ← client (m_client m);
    if has_cap (cl_capabilities R) CLIENT_CAP_EXTENDED_JOIN then
      tell (m_client m) ":%s!%s@%s JOIN %s %s :%s"
        [cl_nick K; cl_user K; cl_display_host K; ch_name C; account; cl_realname K]
    else
      tell (m_client m) ":%s!%s@%s JOIN %s" [cl_nick K; cl_user K; cl_display_host K; ch_name C]).

Definition send_away_notify (recipient c : ptr) : M unit :=
  R ← client recipient;
  K ← client c;
  if (recipient =? c) || negb (has_cap (cl_capabilities R) CLIENT_CAP_AWAY_NOTIFY) then mret tt else
  if empty (cl_away K) then
    tell recipient ":%s!%s@%s AWAY" [cl_nick K; cl_user K; cl_display_host K]
  else
    tell recipient ":%s!%s@%s AWAY :%s" [cl_nick K; cl_user K; cl_display_host K; cl_away K].

(** [recipient] is a member of one of the channels visited [before]. *)
Definition seen_in_earlier_channel (w : World) (before : list ptr) (recipient : ptr) : bool :=
  existsb (λ ch, channel_has_client (the_channel w ch) recipient) before.

(** Runs [f] once for every client that shares a channel with [c]. *)
Fixpoint each_peer_from (c : ptr) (before links : list ptr) (f : ptr → M unit) : M unit :=
  match links with
  | [] => mret tt
  | ch :: links' =>
      C ← channel ch;
      for_each (ch_members C) (λ m,
        seen ← gets (λ w, seen_in_earlier_channel w before (m_client m));
        if (m_client m =? c) || seen then mret tt else f (m_client m)) ;;
      each_peer_from c (before ++ [ch]) links' f
  end.

Definition ircv3_away_notify (c : ptr) : M unit :=
  K ← client c;
  if negb (cl_registered K) then mret tt else
  each_peer_from c [] (cl_channels K) (λ r, send_away_notify r c).

Definition ircv3_away_notify_join (ch c : ptr) : M unit :=
  C ← channel ch;
  K ← client c;
  if empty (cl_away K) then mret tt else
  for_each (ch_members C) (λ m, send_away_notify (m_client m) c).

Definition ircv3_account_notify (c : ptr) : M unit :=
  K ← client c;
  if negb (cl_registered K) then mret tt else
  let account := if empty (cl_account_name K) then lit "*" else cl_account_name K in
  let message := snprintf IRCD_MESSAGE_BUFFER_SIZE
    (format ":%s!%s@%s ACCOUNT %s" [cl_nick K; cl_user K; cl_display_host K; account]) in
  each_peer_from c [] (cl_channels K) (λ r,
    R ← client r;
    when (has_cap (cl_capabilities R) CLIENT_CAP_ACCOUNT_NOTIFY) (_ ← send_line r message; mret tt)).

(** ** Frame *)

Lemma outside_response_quiet r s m : does quiet m → does quiet (outside_response r s m).
Proof. intros. unfold outside_response, response_suppress. frames. Qed.
#[export] Hint Resolve outside_response_quiet : frame.

Lemma ircv3_send_message_quiet r s cmd t text : does quiet (ircv3_send_message r s cmd t text).
Proof. unfold ircv3_send_message, client. frames. apply outside_response_quiet. frames. Qed.
#[export] Hint Resolve ircv3_send_message_quiet : frame.
Lemma ircv3_broadcast_message_quiet ch e s cmd t text : does quiet (ircv3_broadcast_message ch e s cmd t text).
Proof. unfold ircv3_broadcast_message, client, channel. frames. Qed.
Lemma ircv3_send_tagmsg_quiet r s t : does quiet (ircv3_send_tagmsg r s t).
Proof. unfold ircv3_send_tagmsg, client. frames. Qed.
#[export] Hint Resolve ircv3_send_tagmsg_quiet : frame.
Lemma ircv3_broadcast_tagmsg_quiet ch e s t : does quiet (ircv3_broadcast_tagmsg ch e s t).
Proof. unfold ircv3_broadcast_tagmsg, channel. frames. Qed.
Lemma ircv3_broadcast_join_quiet ch c : does quiet (ircv3_broadcast_join ch c).
Proof. unfold ircv3_broadcast_join, client, channel. frames. Qed.
Lemma send_away_notify_quiet r c : does quiet (send_away_notify r c).
Proof. unfold send_away_notify, client. frames. Qed.
#[export] Hint Resolve send_away_notify_quiet : frame.
Lemma each_peer_quiet c before links f :
  (∀ r, does quiet (f r)) → does quiet (each_peer_from c before links f).
Proof.
  intros Hf. revert before. induction links as [|ch links IH]; intros before; simpl;
    unfold channel; frames; auto.
Qed.
Lemma ircv3_away_notify_quiet c : does quiet (ircv3_away_notify c).
Proof. unfold ircv3_away_notify, client. frames. apply each_peer_quiet. intros. frames. Qed.
Lemma ircv3_away_notify_join_quiet ch c : does quiet (ircv3_away_notify_join ch c).
Proof. unfold ircv3_away_notify_join, client, channel. frames. Qed.
Lemma ircv3_account_notify_quiet c : does quiet (ircv3_account_notify c).
Proof.
  unfold ircv3_account_notify, client. frames. apply each_peer_quiet. intros. unfold client. frames.
Qed.
#[export] Hint Resolve ircv3_broadcast_message_quiet ircv3_broadcast_tagmsg_quiet
  ircv3_broadcast_join_quiet ircv3_away_notify_quiet ircv3_away_notify_join_quiet
  ircv3_account_notify_quiet : frame.

(** ** Notifying every peer once *)

(** The clients a notification visits, in order. *)
Fixpoint peers_from (w : World) (c : ptr) (before links : list ptr) : list ptr :=
  match links with
  | [] => []
  | ch :: links' =>
      filter (λ r, r ≠ c ∧ seen_in_earlier_channel w before r = false)
        (member_ids (the_channel w ch)) ++
      peers_from w c (before ++ [ch]) links'
  end.

Definition peers (w : World) (c : ptr) : list ptr := peers_from w c [] (cl_channels (the_client w c)).

Lemma channel_has_client_spec C c : channel_has_client C c = true ↔ c ∈ member_ids C.
Proof.
  unfold channel_has_client, channel_find_member, member_ids.
  induction (ch_members C) as [|m l IH]; simpl; [by split; [|intros ?%elem_of_nil]|].
  rewrite elem_of_cons. destruct (Nat.eqb_spec (m_client m) c) as [->|Hne]; [naive_solver|].
  rewrite IH. naive_solver.
Qed.

Lemma seen_spec w before r :
  seen_in_earlier_channel w before r = true ↔ ∃ ch, ch ∈ before ∧ r ∈ member_ids (the_channel w ch).
Proof.
  unfold seen_in_earlier_channel. rewrite existsb_exists.
  setoid_rewrite channel_has_client_spec. by setoid_rewrite list_elem_of_In.
Qed.

Lemma seen_false w before r :
  seen_in_earlier_channel w before r = false ↔ ∀ ch, ch ∈ before → r ∉ member_ids (the_channel w ch).
Proof.
  rewrite <-not_true_iff_false, seen_spec. naive_solver.
Qed.

Lemma elem_of_peers_from w c before links r :
  r ∈ peers_from w c before links ↔
  r ≠ c ∧ (∃ ch, ch ∈ links ∧ r ∈ member_ids (the_channel w ch)) ∧
  seen_in_earlier_channel w before r = false.
Proof.
  revert before. induction links as [|ch links IH]; intros before; simpl; [set_solver|].
  rewrite elem_of_app, list_elem_of_filter, IH, !seen_false.
  destruct (decide (r ∈ member_ids (the_channel w ch))) as [Hin|Hin]; set_solver.
Qed.

Lemma NoDup_peers_from w c before links :
  (∀ ch, ch ∈ links → NoDup (member_ids (the_channel w ch))) → NoDup (peers_from w c before links).
Proof.
  revert before. induction links as [|ch links IH]; intros before Hnd; simpl; [constructor|].
  apply NoDup_app. split_and!.
  - apply NoDup_filter, Hnd. set_solver.
  - intros r [_ Hr]%list_elem_of_filter (_ & _ & Hs)%elem_of_peers_from.
    rewrite seen_false in Hs. by apply (Hs ch); [set_solver|].
  - apply IH. set_solver.
Qed.

(** The store a visit sees differs from the first one only by output. *)
Lemma quiet_same_members w w' : quiet w w' → ∀ ch, the_channel w' ch = the_channel w ch.
Proof. intros H ch. unfold the_channel. by rewrite H. Qed.

Lemma seen_quiet w w' before r :
  quiet w w' → seen_in_earlier_channel w' before r = seen_in_earlier_channel w before r.
Proof.
  intros H. unfold seen_in_earlier_channel. induction before as [|b before IH]; simpl; [done|].
  by rewrite IH, (quiet_same_members w w' H).
Qed.

Lemma each_member_for_each w0 c before l f w :
  (∀ r, does quiet (f r)) → quiet w0 w →
  (for_each l (λ m, seen ← gets (λ w, seen_in_earlier_channel w before (m_client m));
     if (m_client m =? c) || seen then mret tt else f (m_client m))) w =
  for_each (filter (λ r, r ≠ c ∧ seen_in_earlier_channel w0 before r = false) (map m_client l)) f w.
Proof.
  intros Hf. revert w. induction l as [|m l IH]; intros w Hq; [done|].
  cbn [for_each map]. rewrite run_bind, run_gets.
  rewrite (seen_quiet w0 w) by done.
  rewrite filter_cons. destruct (Nat.eqb_spec (m_client m) c) as [E|E]; cbn [orb].
  { rewrite decide_False by naive_solver. apply (IH w Hq). }
  destruct (seen_in_earlier_channel w0 before (m_client m)).
  { rewrite decide_False by naive_solver. apply (IH w Hq). }
  rewrite decide_True by done. cbn [for_each]. rewrite run_bind.
  pose proof (Hf (m_client m) w) as Hs. destruct (f (m_client m) w) as [u w1]. simpl in Hs.
  apply IH. by etrans.
Qed.

Lemma for_each_app {S A} (l1 l2 : list A) (f : A → ST S unit) (s : S) :
  for_each (l1 ++ l2) f s = let '(_, s1) := for_each l1 f s in for_each l2 f s1.
Proof.
  revert s. induction l1 as [|x l1 IH]; intros s; simpl; [done|]. unfold mbind, ST_bind.
  destruct (f x s) as [u s1]. apply IH.
Qed.

Lemma each_peer_for_each w0 c before links f w :
  (∀ r, does quiet (f r)) → quiet w0 w →
  each_peer_from c before links f w = for_each (peers_from w0 c before links) f w.
Proof.
  intros Hf. revert before w. induction links as [|ch links IH]; intros before w Hq; [done|].
  cbn [each_peer_from peers_from]. unfold channel. rewrite run_gets, run_bind. rewrite (each_member_for_each w0 c before _ f w Hf Hq).
  rewrite (quiet_same_members w0 w Hq ch), for_each_app. unfold member_ids.
  assert (does quiet (for_each (filter (λ r, r ≠ c ∧ seen_in_earlier_channel w0 before r = false)
    (map m_client (ch_members (the_channel w0 ch)))) f)) as Hfe by (apply does_for_each; [apply _|done]).
  specialize (Hfe w). destruct (for_each (filter _ _) f w) as [u w1]. simpl in Hfe.
  apply IH. by etrans.
Qed.

(** Lines sent to a list of recipients are logged in order. *)
Lemma send_line_log r line w :
  io_log (w_io (send_line r line w).2) = io_log (w_io w) ++ [(r, line)].
Proof. unfold send_line. by destruct (client_send_line _ _ _ _ _) as [[rc serial] conn]. Qed.

Lemma notify_log l cap message w0 w :
  quiet w0 w →
  io_log (w_io (for_each l (λ r,
    R ← client r; when (has_cap (cl_capabilities R) cap) (_ ← send_line r message; mret tt)) w).2) =
  io_log (w_io w) ++
    map (λ r, (r, message)) (filter (λ r, has_cap (cl_capabilities (the_client w0 r)) cap = true) l).
Proof.
  revert w. induction l as [|r l IH]; intros w Hq; [by rewrite app_nil_r|].
  cbn [for_each]. unfold client in *. rewrite run_bind, run_gets.
  assert (the_client w r = the_client w0 r) as -> by (unfold the_client; by rewrite Hq).
  rewrite filter_cons. destruct (has_cap _ cap) eqn:E; cbn [when].
  - rewrite decide_True by done. rewrite run_bind.
    pose proof (send_line_log r message w) as Hlog. pose proof (send_line_quiet r message w) as Hq1.
    destruct (send_line r message w) as [rc w1]. simpl in Hlog, Hq1. cbn [mret ST_ret].
    rewrite IH by (by etrans). rewrite Hlog, <-app_assoc. done.
  - rewrite decide_False by done. cbn [mret ST_ret]. by apply IH.
Qed.

(** C33: an account change is announced exactly once to every capable client that
    shares a channel.  The lines sent are, in order, one ACCOUNT message to each
    peer that negotiated account-notify; no peer occurs twice however many channels
    are shared, the client itself is not among them, and the peers are exactly the
    other members of the client's channels. *)
Theorem account_notify_once w c :
  wf w → cl_registered (the_client w c) = true →
  let K := the_client w c in
  let account := if empty (cl_account_name K) then lit "*" else cl_account_name K in
  let message := snprintf IRCD_MESSAGE_BUFFER_SIZE
    (format ":%s!%s@%s ACCOUNT %s" [cl_nick K; cl_user K; cl_display_host K; account]) in
  io_log (w_io (ircv3_account_notify c w).2) = io_log (w_io w) ++
    map (λ r, (r, message))
      (filter (λ r, has_cap (cl_capabilities (the_client w r)) CLIENT_CAP_ACCOUNT_NOTIFY = true) (peers w c)) ∧
  NoDup (peers w c) ∧
  ∀ r, r ∈ peers w c ↔ r ≠ c ∧ ∃ ch, ch ∈ cl_channels K ∧ r ∈ member_ids (the_channel w ch).
Proof.
  intros Hw Hreg K account message. split_and!.
  - unfold ircv3_account_notify. change (client c) with (gets (λ w, the_client w c)).
    rewrite run_gets. cbv beta. rewrite Hreg. fold K.
    cbn [negb]. fold account message. rewrite (each_peer_for_each w); [|intros r; unfold client; frames|done].
    by apply notify_log.
  - apply NoDup_peers_from. intros ch _. unfold the_channel.
    destruct (w_channels w !! ch) as [C|] eqn:E; simpl; [by destruct (wf_channels w Hw _ _ E)|constructor].
  - intros r. unfold peers. rewrite elem_of_peers_from. unfold seen_in_earlier_channel. simpl. naive_solver.
Qed.
