(* ===== verification/Presence.v ===== *)
(** * SILENCE, WATCH and WHOWAS ([src/presence.c])

    Per-client mask and nickname lists, and the server's ring of departed
    identities. *)

From S2P Require Import Prelude CString Modes HashTable MaskMatch Output World Channel Invariant Policy Numerics.

Definition IRC_REALNAME_MAX : nat := 127.
Definition IRCD_SILENCE_MAX : nat := 64.
Definition IRCD_WATCH_MAX : nat := 128.
Definition IRCD_WHOWAS_MAX : nat := 256.

(** The source has its own copy of the RFC 1459 fold and of the comparison. *)
Fixpoint rfc1459_equal (left right : cstr) : bool :=
  match left, right with
  | l :: left', r :: right' =>
      if Ascii.eqb (rfc1459_fold l) (rfc1459_fold r) then rfc1459_equal left' right' else false
  | [], [] => true
  | _, _ => false
  end.

(** ** SILENCE *)

Definition presence_silence_add (ok : bool) (K : Client) (text : cstr) : Z * Client :=
  if empty text then ((-1)%Z, K) else
  if existsb (λ e, rfc1459_equal e text) (cl_silence_list K) then (0%Z, K) else
  if IRCD_SILENCE_MAX <=? cl_silence_count K then ((-1)%Z, K) else
  if negb ok then ((-1)%Z, K) else
  (1%Z, set_cl_silence_count (S (cl_silence_count K))
          (set_cl_silence_list (snprintf (IRC_CHANNEL_MASK_MAX + 1) text :: cl_silence_list K) K)).

Definition presence_silence_remove (K : Client) (text : cstr) : Z * Client :=
  if empty text then ((-1)%Z, K) else
  let '(found, l) := remove_first (λ e, rfc1459_equal e text) (cl_silence_list K) in
  if found : bool then (1%Z, set_cl_silence_count (cl_silence_count K - 1) (set_cl_silence_list l K))
  else (0%Z, K).

Definition presence_silence_matches (recipient sender : Client) : bool :=
  existsb (λ e, irc_mask_match e (identity sender)) (cl_silence_list recipient).

(** ** WATCH *)

Definition presence_watch_contains (K : Client) (nick : cstr) : bool :=
  existsb (λ e, rfc1459_equal e nick) (cl_watch_list K).

Definition presence_watch_add (ok : bool) (K : Client) (nick : cstr) : Z * Client :=
  if empty nick then ((-1)%Z, K) else
  if presence_watch_contains K nick then (0%Z, K) else
  if IRCD_WATCH_MAX <=? cl_watch_count K then ((-1)%Z, K) else
  if negb ok then ((-1)%Z, K) else
  (1%Z, set_cl_watch_count (S (cl_watch_count K))
          (set_cl_watch_list (snprintf (IRC_NICK_MAX + 1) nick :: cl_watch_list K) K)).

Definition presence_watch_remove (K : Client) (nick : cstr) : Z * Client :=
  if empty nick then ((-1)%Z, K) else
  let '(found, l) := remove_first (λ e, rfc1459_equal e nick) (cl_watch_list K) in
  if found : bool then (1%Z, set_cl_watch_count (cl_watch_count K - 1) (set_cl_watch_list l K))
  else (0%Z, K).

Definition presence_client_clear (K : Client) : Client :=
  set_cl_watch_count 0 (set_cl_watch_list [] (set_cl_silence_count 0 (set_cl_silence_list [] K))).

Definition presence_watch_online (subject : ptr) : M unit :=
  s ← client subject;
  if negb (cl_registered s) || empty (cl_nick s) then mret tt else
  modify (set_w_free_hook HOOK_PRESENCE) ;;
  cfg ← config;
  l ← gets w_client_array;
  for_each l (λ c,
    W ← client c;
    when (cl_registered W && presence_watch_contains W (cl_nick s))
      (tell c RPL_LOGON [server_name cfg; cl_nick W; cl_nick s; cl_user s; cl_display_host s;
                         dec (to_int (cl_signon_time s))])).

(** [nick_override], when given and not empty, replaces the subject's nickname. *)
Definition presence_nick (s : Client) (override : option cstr) : cstr :=
  match override with
  | Some n => if empty n then cl_nick s else n
  | None => cl_nick s
  end.

Definition presence_watch_offline (s : Client) (override : option cstr) : M unit :=
  let nick := presence_nick s override in
  if empty nick then mret tt else
  t ← now;
  cfg ← config;
  l ← gets w_client_array;
  for_each l (λ c,
    W ← client c;
    when (cl_registered W && presence_watch_contains W nick)
      (tell c RPL_LOGOFF [server_name cfg; cl_nick W; nick; cl_user s; cl_display_host s; dec (to_int t)])).

(** ** WHOWAS *)

(** The ring is kept as the list of its used cells; cell [i] is written in place
    once the ring is full. *)
Definition ring_put (l : list WhowasRecord) (i : nat) (r : WhowasRecord) : list WhowasRecord :=
  if i <? length l then <[i := r]> l else l ++ [r].

(** Writing a record at the next cell. *)
Definition ring_push (r : WhowasRecord) (w : World) : World :=
  set_w_whowas_count (if w_whowas_count w <? IRCD_WHOWAS_MAX then S (w_whowas_count w) else w_whowas_count w)
    (set_w_whowas_next ((w_whowas_next w + 1) mod IRCD_WHOWAS_MAX)
       (set_w_whowas (ring_put (w_whowas w) (w_whowas_next w) r) w)).

Definition presence_whowas_record (s : Client) (override : option cstr) : M unit :=
  if negb (cl_registered s) && (cl_signon_time s =? 0)%Z then mret tt else
  let nick := presence_nick s override in
  if empty nick then mret tt else
  t ← now;
  cfg ← config;
  let r := MkWhowas (snprintf (IRC_NICK_MAX + 1) nick) (snprintf (IRC_USER_MAX + 1) (cl_user s))
             (snprintf (IRC_HOST_MAX + 1) (cl_display_host s))
             (snprintf (IRC_REALNAME_MAX + 1) (cl_realname s))
             (snprintf (IRC_HOST_MAX + 1) (snprintf (IRC_SERVER_NAME_MAX + 1) (server_name cfg))) t in
  modify (ring_push r).

(** ** Frame *)

Lemma send_chunks_quiet c s n l : does quiet (send_chunks c s n l).
Proof. induction l; simpl; unfold overflowed; frames. Qed.
#[export] Hint Resolve send_chunks_quiet : frame.
Lemma send_server_notice_chunks_quiet c text : does quiet (send_server_notice_chunks c text).
Proof. unfold send_server_notice_chunks, config, client. frames. Qed.
#[export] Hint Resolve send_server_notice_chunks_quiet : frame.
Lemma server_notice_broadcast_quiet text : does quiet (server_notice_broadcast text).
Proof. unfold server_notice_broadcast, client. frames. Qed.
Lemma snotice_broadcast_quiet k f a : does quiet (snotice_broadcast k f a).
Proof. unfold snotice_broadcast, client. frames. Qed.
Lemma oper_message_broadcast_quiet s c t : does quiet (oper_message_broadcast s c t).
Proof. unfold oper_message_broadcast, client. frames. Qed.
Lemma presence_watch_offline_quiet s o : does quiet (presence_watch_offline s o).
Proof. unfold presence_watch_offline, now, config, client. frames. Qed.
#[export] Hint Resolve server_notice_broadcast_quiet snotice_broadcast_quiet
  oper_message_broadcast_quiet presence_watch_offline_quiet : frame.

Lemma presence_watch_online_calm s : does calm (presence_watch_online s).
Proof. unfold presence_watch_online, client, config. frames. Qed.
Lemma presence_whowas_record_calm s o : does calm (presence_whowas_record s o).
Proof. unfold presence_whowas_record, now, config. frames. Qed.
Lemma presence_watch_online_keeps s : does keeps (presence_watch_online s).
Proof. apply calm_keeps, presence_watch_online_calm. Qed.
Lemma presence_whowas_record_keeps s o : does keeps (presence_whowas_record s o).
Proof. apply calm_keeps, presence_whowas_record_calm. Qed.
#[export] Hint Resolve presence_watch_online_calm presence_whowas_record_calm : frame.
#[export] Hint Resolve presence_watch_online_keeps presence_whowas_record_keeps : frame.

(** ** WATCH and SILENCE lists are sets of folded names *)

Lemma rfc1459_equal_spec s t : rfc1459_equal s t = true ↔ map rfc1459_fold s = map rfc1459_fold t.
Proof.
  revert t. induction s as [|c s IH]; intros [|d t]; simpl; try done.
  destruct (Ascii.eqb_spec (rfc1459_fold c) (rfc1459_fold d)) as [E|E].
  - rewrite IH. split; intros H; [by rewrite E, H | by injection H].
  - split; [done|]. intros H. injection H as H1 _. done.
Qed.

Definition folded (l : list cstr) : list cstr := map (map rfc1459_fold) l.

Lemma existsb_equal l n :
  existsb (λ e, rfc1459_equal e n) l = true ↔ map rfc1459_fold n ∈ folded l.
Proof.
  unfold folded. induction l as [|e l IH]; simpl; [by split; [|intros ?%elem_of_nil]|].
  rewrite orb_true_iff, IH, elem_of_cons, rfc1459_equal_spec. naive_solver.
Qed.

(** A bounded list with its counter, without two entries that fold alike. *)
Record entries_ok (max count : nat) (l : list cstr) : Prop := {
  entries_count : count = length l;
  entries_max : count ≤ max;
  entries_nodup : NoDup (folded l) }.

Lemma entries_add max count l n :
  entries_ok max count l → map rfc1459_fold n ∉ folded l → count < max →
  entries_ok max (S count) (n :: l).
Proof.
  intros [H1 H2 H3] Hn Hc. split; simpl; [congruence|lia|]. apply NoDup_cons. auto.
Qed.

Lemma entries_remove max count l n :
  entries_ok max count l →
  let '(found, l') := remove_first (λ e, rfc1459_equal e n) l in
  (found = true ↔ map rfc1459_fold n ∈ folded l) ∧
  entries_ok max (if found then count - 1 else count) (if found then l' else l) ∧
  ∀ m, m ∈ folded (if found then l' else l) ↔ m ∈ folded l ∧ m ≠ map rfc1459_fold n.
Proof.
  intros [-> Hmax Hnd].
  assert (let '(found, l') := remove_first (λ e, rfc1459_equal e n) l in
    (found = true ↔ map rfc1459_fold n ∈ folded l) ∧ NoDup (folded l') ∧
    (found = true → length l = S (length l')) ∧ (found = false → l' = l) ∧
    ∀ m, m ∈ folded l' ↔ m ∈ folded l ∧ m ≠ map rfc1459_fold n) as H.
  { clear Hmax. induction l as [|e l IH]; simpl; [split_and!; set_solver|].
    simpl in Hnd. apply NoDup_cons in Hnd as [He Hnd]. destruct (rfc1459_equal e n) eqn:E.
    - apply rfc1459_equal_spec in E. rewrite E in *. split_and!; try done; set_solver.
    - assert (map rfc1459_fold e ≠ map rfc1459_fold n).
      { intros E'. apply rfc1459_equal_spec in E'. congruence. }
      specialize (IH Hnd). destruct (remove_first _ l) as [found l']. destruct IH as (I1 & I2 & I3 & I4 & I5).
      split_and!; simpl; [set_solver| |naive_solver|naive_solver|set_solver].
      apply NoDup_cons. split; [|done]. rewrite I5. naive_solver. }
  destruct (remove_first _ l) as [found l']. destruct H as (I1 & I2 & I3 & I4 & I5).
  destruct found; split_and!; try done.
  - specialize (I3 eq_refl). split; [lia|lia|done].
  - rewrite (I4 eq_refl) in I5. done.
Qed.

(** ** The WHOWAS ring *)

(** The ring as [Server] has it: as many used cells as the counter says, none past
    the end, and until it is full the next cell to write is the first unused one. *)
Record ring_ok (w : World) : Prop := {
  ring_length : length (w_whowas w) = w_whowas_count w;
  ring_max : w_whowas_count w ≤ IRCD_WHOWAS_MAX;
  ring_next : w_whowas_next w < IRCD_WHOWAS_MAX;
  ring_filling : w_whowas_count w < IRCD_WHOWAS_MAX → w_whowas_next w = w_whowas_count w }.

(** Newest first: the order in which WHOWAS walks the ring. *)
Definition whowas_index (w : World) (k : nat) : nat :=
  (w_whowas_next w + IRCD_WHOWAS_MAX - 1 - k) mod IRCD_WHOWAS_MAX.
Definition recent (w : World) : list WhowasRecord :=
  (λ k, default (MkWhowas [] [] [] [] [] 0) (w_whowas w !! whowas_index w k)) <$> seq 0 (w_whowas_count w).

Lemma recent_lookup w k :
  recent w !! k = if k <? w_whowas_count w
    then Some (default (MkWhowas [] [] [] [] [] 0) (w_whowas w !! whowas_index w k)) else None.
Proof.
  unfold recent. rewrite list_lookup_fmap. case_if; bools.
  - by rewrite lookup_seq_lt.
  - by rewrite lookup_seq_ge.
Qed.

(** The positions read while walking backwards from the next cell. *)
Lemma whowas_index_cases w k :
  w_whowas_next w < IRCD_WHOWAS_MAX → k < IRCD_WHOWAS_MAX →
  whowas_index w k = if k <? w_whowas_next w then w_whowas_next w - 1 - k
                     else w_whowas_next w + IRCD_WHOWAS_MAX - 1 - k.
Proof.
  unfold whowas_index, IRCD_WHOWAS_MAX. intros Hn Hk. case_if; bools.
  - replace (w_whowas_next w + 256 - 1 - k) with (w_whowas_next w - 1 - k + 1 * 256) by lia.
    rewrite Nat.Div0.mod_add. apply Nat.mod_small. lia.
  - apply Nat.mod_small. lia.
Qed.

Lemma ring_step_next n :
  n < IRCD_WHOWAS_MAX → (n + 1) mod IRCD_WHOWAS_MAX = if n <? IRCD_WHOWAS_MAX - 1 then n + 1 else 0.
Proof.
  unfold IRCD_WHOWAS_MAX. intros H. case_if; bools; [apply Nat.mod_small; lia|].
  replace (n + 1) with 256 by lia. reflexivity.
Qed.

Lemma ring_push_ok r w : ring_ok w → ring_ok (ring_push r w).
Proof.
  intros [H1 H2 H3 H4]. pose proof (ring_step_next _ H3) as Hs. unfold ring_push, ring_put.
  split; cbn [set_w_whowas_count set_w_whowas_next set_w_whowas w_whowas w_whowas_next w_whowas_count];
    rewrite ?Hs; unfold IRCD_WHOWAS_MAX in *;
    repeat case_if; bools; rewrite ?length_insert, ?length_app; cbn [length]; lia.
Qed.

Lemma ring_push_recent r w :
  ring_ok w → recent (ring_push r w) = take IRCD_WHOWAS_MAX (r :: recent w).
Proof.
  intros Hw. pose proof (ring_push_ok r w Hw) as Hw'. destruct Hw as [H1 H2 H3 H4].
  pose proof (ring_step_next _ H3) as Hs.
  assert (Hn : w_whowas_next (ring_push r w) = (w_whowas_next w + 1) mod IRCD_WHOWAS_MAX) by done.
  assert (Hc : w_whowas_count (ring_push r w) =
    if w_whowas_count w <? IRCD_WHOWAS_MAX then S (w_whowas_count w) else w_whowas_count w) by done.
  assert (Hl : w_whowas (ring_push r w) = ring_put (w_whowas w) (w_whowas_next w) r) by done.
  apply list_eq. intros k. rewrite recent_lookup.
  destruct (decide (k < IRCD_WHOWAS_MAX)) as [Hk|Hk].
  2:{ rewrite lookup_take_ge by lia. case_if; [|done]. bools. destruct Hw'. lia. }
  rewrite lookup_take_lt by done.
  rewrite whowas_index_cases by (try done; apply Hw').
  rewrite Hl, Hn, Hs. unfold ring_put. unfold IRCD_WHOWAS_MAX in *.
  assert (Hcount : (k <? w_whowas_count (ring_push r w)) = (k <=? w_whowas_count w)).
  { rewrite Hc. apply eq_true_iff_eq. rewrite Nat.ltb_lt, Nat.leb_le. case_if; bools; lia. }
  rewrite Hcount. destruct k as [|k]; cbn [lookup list_lookup].
  - replace (0 <=? w_whowas_count w) with true by done. f_equal.
    assert (Hpos : (if 0 <? (if w_whowas_next w <? 256 - 1 then w_whowas_next w + 1 else 0)
       then (if w_whowas_next w <? 256 - 1 then w_whowas_next w + 1 else 0) - 1 - 0
       else (if w_whowas_next w <? 256 - 1 then w_whowas_next w + 1 else 0) + 256 - 1 - 0) = w_whowas_next w).
    { repeat case_if; bools; lia. }
    rewrite Hpos. case_if; bools.
    + by rewrite list_lookup_insert_eq.
    + replace (w_whowas_next w) with (length (w_whowas w)) by lia.
      by rewrite list_lookup_middle.
  - change ((r :: recent w) !! S k) with (recent w !! k). rewrite recent_lookup.
    rewrite whowas_index_cases by (unfold IRCD_WHOWAS_MAX; lia). unfold IRCD_WHOWAS_MAX.
    replace (S k <=? w_whowas_count w) with (k <? w_whowas_count w) by done.
    destruct (k <? w_whowas_count w) eqn:E; [|done]. bools. do 2 f_equal.
    assert (Hpos : (if S k <? (if w_whowas_next w <? 256 - 1 then w_whowas_next w + 1 else 0)
       then (if w_whowas_next w <? 256 - 1 then w_whowas_next w + 1 else 0) - 1 - S k
       else (if w_whowas_next w <? 256 - 1 then w_whowas_next w + 1 else 0) + 256 - 1 - S k) =
      (if k <? w_whowas_next w then w_whowas_next w - 1 - k else w_whowas_next w + 256 - 1 - k)).
    { repeat case_if; bools; lia. }
    rewrite Hpos. destruct (w_whowas_next w <? length (w_whowas w)) eqn:En; bools.
    + rewrite list_lookup_insert_ne; [done|]. case_if; bools; lia.
    + rewrite lookup_app_l; [done|]. case_if; bools; lia.
Qed.

(** C32: the WHOWAS ring holds the newest identities.  Recording a departed,
    named client puts its record (each field cut to its buffer, the time of the
    departure) in front of the history and drops what is older than the last 256
    records; a client that never registered or has no name leaves the ring alone.
    The positions written stay inside the array of 256 cells. *)
Theorem whowas_ring_keeps_newest s override w :
  ring_ok w →
  let nick := presence_nick s override in
  let w' := (presence_whowas_record s override w).2 in
  ring_ok w' ∧
  recent w' =
    (if (cl_registered s || negb (cl_signon_time s =? 0)%Z) && negb (empty nick) then
       take IRCD_WHOWAS_MAX
         (MkWhowas (take IRC_NICK_MAX nick) (take IRC_USER_MAX (cl_user s))
            (take IRC_HOST_MAX (cl_display_host s)) (take IRC_REALNAME_MAX (cl_realname s))
            (take IRC_HOST_MAX (take IRC_SERVER_NAME_MAX (server_name (w_config w)))) (w_now w)
          :: recent w)
     else recent w).
Proof.
  intros Hw nick w'. unfold w', presence_whowas_record.
  destruct (cl_registered s), (cl_signon_time s =? 0)%Z; cbn [negb andb orb]; try done;
    fold nick; destruct (empty nick) eqn:E; cbn [negb]; try done;
    (split; [by apply ring_push_ok | by apply ring_push_recent]).
Qed.

Lemma whowas_ring_keeps_newest_witness :
  let ann := set_cl_registered true (set_cl_nick (lit "ann") calloc_client) in
  let w := (presence_whowas_record ann None boot).2 in
  map wh_nick (recent w) = [lit "ann"] ∧ ring_ok w.
Proof.
  intros ann w. split; [vm_compute; reflexivity|].
  apply (whowas_ring_keeps_newest ann None boot). split; vm_compute; lia.
Defined.

(** A WATCH list is a bounded set of nicknames up to RFC 1459 case.  Adding
    makes exactly the given name present or, when the list has 128 names or memory
    is short, changes nothing and reports failure; adding a present name succeeds
    without change; removing makes exactly that name absent and reports whether it
    was there; the counter always is the length and never exceeds 128. *)
Theorem watch_list_is_set K nick ok :
  entries_ok IRCD_WATCH_MAX (cl_watch_count K) (cl_watch_list K) →
  nick ≠ [] → length nick ≤ IRC_NICK_MAX →
  (let '(rc, K') := presence_watch_add ok K nick in
   entries_ok IRCD_WATCH_MAX (cl_watch_count K') (cl_watch_list K') ∧
   (((0 ≤ rc)%Z ∧ ∀ n, presence_watch_contains K' n = presence_watch_contains K n || rfc1459_equal nick n) ∨
    ((rc < 0)%Z ∧ K' = K ∧ presence_watch_contains K nick = false ∧
     (IRCD_WATCH_MAX ≤ cl_watch_count K ∨ ok = false)))) ∧
  (let '(rc, K') := presence_watch_remove K nick in
   entries_ok IRCD_WATCH_MAX (cl_watch_count K') (cl_watch_list K') ∧
   rc = (if presence_watch_contains K nick then 1 else 0)%Z ∧
   ∀ n, presence_watch_contains K' n = presence_watch_contains K n && negb (rfc1459_equal nick n)).
Proof.
  intros Hok Hne Hlen. destruct nick as [|x nick]; [done|]. set (nk := x :: nick) in *. split.
  - unfold presence_watch_add. change (empty nk) with false. cbn iota.
    destruct (presence_watch_contains K nk) eqn:Hc.
    { split; [done|]. left. split; [done|]. intros n. destruct (rfc1459_equal nk n) eqn:E; [|by rewrite orb_false_r].
      rewrite orb_true_r. unfold presence_watch_contains in *. rewrite existsb_equal in *.
      apply rfc1459_equal_spec in E. by rewrite <-E. }
    destruct (IRCD_WATCH_MAX <=? cl_watch_count K) eqn:Hf; bools; [split; [done|]; right; split_and!; auto; lia|].
    destruct ok; cbn [negb]; [|split; [done|]; right; split_and!; auto; lia].
    rewrite snprintf_id by lia. simpl. split.
    + apply entries_add; [done| |lia]. unfold presence_watch_contains in Hc.
      intros Hin. apply existsb_equal in Hin. congruence.
    + left. split; [done|]. intros n. unfold presence_watch_contains. simpl. apply orb_comm.
  - unfold presence_watch_remove. change (empty nk) with false. cbn iota.
    pose proof (entries_remove _ _ _ nk Hok) as H. destruct (remove_first _ _) as [found l'].
    destruct H as (H1 & H2 & H3). unfold presence_watch_contains.
    assert (Hcont : existsb (λ e, rfc1459_equal e nk) (cl_watch_list K) = found).
    { apply eq_true_iff_eq. by rewrite existsb_equal, H1. }
    assert (Hall : ∀ n, existsb (λ e, rfc1459_equal e n) (if found then l' else cl_watch_list K) =
      existsb (λ e, rfc1459_equal e n) (cl_watch_list K) && negb (rfc1459_equal nk n)).
    { intros n. apply eq_true_iff_eq. rewrite andb_true_iff, !existsb_equal, negb_true_iff, H3.
      rewrite <-not_true_iff_false, rfc1459_equal_spec. naive_solver. }
    rewrite Hcont. destruct found; simpl; split_and!; auto.
Qed.

Lemma watch_list_is_set_witness :
  let K := set_cl_watch_count 1 (set_cl_watch_list [lit "Bob"] calloc_client) in
  presence_watch_contains (presence_watch_add true K "al[").2 "AL{" = true ∧
  entries_ok IRCD_WATCH_MAX (cl_watch_count (presence_watch_add true K "al[").2)
    (cl_watch_list (presence_watch_add true K "al[").2).
Proof.
  intros K. split; [reflexivity|].
  destruct (watch_list_is_set K "al[" true) as [H _].
  - split; simpl; [done | vm_compute; lia | apply (bool_decide_eq_true_1 _); vm_compute; reflexivity].
  - discriminate.
  - vm_compute. lia.
  - destruct (presence_watch_add true K "al[") as [rc K']. exact (proj1 H).
Defined.
