(* ===== verification/Env.v ===== *)
(** * What the server asks of its environment

    Results of code outside the modelled components: OpenSSL, the address
    conversion of the C library, the random generator, files, the resolver threads
    and the SQLite-backed policy databases.  Every definition that needs one of them
    takes it from the class [Env], so its theorems hold for every behaviour of the
    environment; [quiet_env] is one instance, used in examples. *)

From S2P Require Import Prelude CString Modes HashTable MaskMatch Output World.

Inductive BanType := BAN_TYPE_KLINE | BAN_TYPE_ZLINE.
Inductive BanExceptionType :=
  | BAN_EXCEPTION_KLINE | BAN_EXCEPTION_ZLINE | BAN_EXCEPTION_CONNECTION_LIMIT | BAN_EXCEPTION_DNSBL | BAN_EXCEPTION_GEOBAN.

(** [ban_db_match]: no row, a row with its mask and reason, or an error. *)
Inductive BanMatch := NoBan | Banned (mask reason : cstr) | BanError.

(** A row of [operators.db]. *)
Record OperatorRecord := MkOperator {
  or_name : cstr;
  or_password_hash : cstr;
  or_permissions : cstr;
  or_vhost : cstr;
  or_enabled : bool }.

Class Env := {
  (** HMAC-SHA256 of a message under a key; [None] when OpenSSL fails. *)
  hmac_sha256 : cstr → cstr → option cstr;
  (** [inet_pton] for the two address families: the address bytes. *)
  inet_pton_v4 : cstr → option cstr;
  inet_pton_v6 : cstr → option cstr;
  (** [inet_ntop] of address bytes. *)
  inet_ntop_v4 : cstr → option cstr;
  inet_ntop_v6 : cstr → option cstr;
  (** [RAND_bytes] for a cookie of 16 bytes. *)
  RAND_bytes : World → option cstr;
  (** The cached MOTD file and the PCHANNELS cache. *)
  motd_text : World → option cstr;
  get_pchannels_cache : World → cstr;
  (** [dnsbl_resolver_submit(...) == 0]. *)
  dnsbl_resolver_submit : N → cstr → bool;
  (** [dns_resolver_submit(...) == 0]. *)
  dns_resolver_submit : N → cstr → bool;
  (** [eline_policy_match_server] on one identity. *)
  eline_policy_match_server : BanExceptionType → cstr → bool;
  (** [bans.db]: whether it can be opened, and the lookups. *)
  registration_ban_handle : bool;
  ban_db_match : BanType → cstr → option cstr → BanMatch;
  registration_exception_matches : BanExceptionType → cstr → cstr → bool;
  (** [strftime] of a broken-down local or universal time; empty on failure. *)
  strftime_local : cstr → Z → cstr;
  strftime_utc : cstr → Z → cstr;
  (** [argon2id_verify(hash, password) == ARGON2_OK]. *)
  argon2id_verify : cstr → cstr → bool;
  (** [operators.db]: [None] when it cannot be opened; then the row of a name. *)
  operator_db : World → option (cstr → option OperatorRecord);
  (** [EVP_DecodeBlock] of a text whose length is a multiple of four. *)
  EVP_DecodeBlock : cstr → option cstr;
  (** [geoip_lookup]: what MaxMind's databases say of an address. *)
  geoip_lookup : cstr → ClientGeoIP;
  (** A GeoIP rule that matches the record: type, value and reason. *)
  geoban_db_match : ClientGeoIP → option (cstr * cstr * cstr);
  (** [nickserv.db] can be opened, and SQLite runs the statement of a function on it. *)
  nickserv_db_opens : World → bool;
  sqlite_step : string → World → bool;
  (** [getrandom] for a salt, and the encoded Argon2 hash of a password with it. *)
  getrandom : World → option cstr;
  argon2id_hash_encoded : cstr → cstr → option cstr;
  SHA256 : cstr → cstr;
  (** [mail_send_async(...) == 0] for recipient, sender, subject and body. *)
  mail_send_async : World → cstr → cstr → cstr → cstr → bool;
  (** What [inet_ntop] writes, [inet_pton] reads back as the same address of the same family. *)
  inet_v4_round_trip a t : inet_ntop_v4 a = Some t → t ≠ [] ∧ inet_pton_v4 t = Some a;
  inet_v6_round_trip a t : inet_ntop_v6 a = Some t → t ≠ [] ∧ inet_pton_v4 t = None ∧ inet_pton_v6 t = Some a }.

(** An environment in which no lookup finds anything. *)
#[refine] Definition quiet_env : Env := {|
  hmac_sha256 := λ _ _, None;
  inet_pton_v4 := λ _, None;
  inet_pton_v6 := λ _, None;
  inet_ntop_v4 := λ _, None;
  inet_ntop_v6 := λ _, None;
  RAND_bytes := λ _, None;
  motd_text := λ _, None;
  get_pchannels_cache := λ _, [];
  dnsbl_resolver_submit := λ _ _, true;
  dns_resolver_submit := λ _ _, true;
  eline_policy_match_server := λ _ _, false;
  registration_ban_handle := true;
  ban_db_match := λ _ _ _, NoBan;
  registration_exception_matches := λ _ _ _, false;
  strftime_local := λ _ _, [];
  strftime_utc := λ _ _, [];
  argon2id_verify := λ _ _, false;
  operator_db := λ _, None;
  EVP_DecodeBlock := λ _, None;
  geoip_lookup := λ _, no_geoip;
  geoban_db_match := λ _, None;
  nickserv_db_opens := λ _, false;
  sqlite_step := λ _ _, true;
  getrandom := λ _, None;
  argon2id_hash_encoded := λ _ _, None;
  SHA256 := λ s, s;
  mail_send_async := λ _ _ _ _ _, false |}.
Proof. all: done. Defined.
