(* ===== verification/Cloak.v ===== *)
(** * Host cloaking ([src/cloak.c], [src/usermode_policy.c])

    What others see as a client's host: its vhost, a keyed cloak of its real
    identity, or the identity itself. *)

From S2P Require Import Prelude CString Modes HashTable MaskMatch Output World Channel Invariant Policy Numerics Presence Env.

Section Cloak.
Context `{E : Env}.

(** The first four bytes of the MAC, most significant first. *)
Definition be32 (d : cstr) : N :=
  fold_left (λ v b, (v * 256 + byte b)%N) (take 4 d) 0%N.

Definition hmac32 (cfg : ServerConfig) (label data : cstr) : option N :=
  if empty (cloak_key cfg) then None else
  digest ← hmac_sha256 (cloak_key cfg) (label ++ "|" ++ data);
  if length digest <? 4 then None else Some (be32 digest).

(** [%08X]. *)
Definition token8 (v : N) : cstr := hex_fixed true 8 v.

Definition cloak_ip (cfg : ServerConfig) (l1 l2 l3 : cstr) (n2 n3 : nat) (address : cstr) : option cstr :=
  a ← hmac32 cfg l1 address;
  b ← hmac32 cfg l2 (take n2 address);
  c ← hmac32 cfg l3 (take n3 address);
  Some (snprintf (IRC_HOST_MAX + 1) (format "%08X.%08X.%08X.IP" [token8 a; token8 b; token8 c])).

Definition cloak_ipv4 (cfg : ServerConfig) (address : cstr) : option cstr :=
  cloak_ip cfg "ipv4/full" "ipv4/24" "ipv4/16" 3 2 address.

Definition cloak_ipv6 (cfg : ServerConfig) (address : cstr) : option cstr :=
  cloak_ip cfg "ipv6/full" "ipv6/64" "ipv6/48" 8 6 address.

(** What follows the first dot that is followed by a letter. *)
Fixpoint cloak_suffix (s : cstr) : option cstr :=
  match s with
  | [] => None
  | c :: s' =>
      match s' with
      | d :: _ => if Ascii.eqb c "." && isalpha d then Some s' else cloak_suffix s'
      | [] => None
      end
  end.

Definition cloak_hostname (cfg : ServerConfig) (host : cstr) : option cstr :=
  if empty host || (IRC_HOST_MAX <? length host) then None else
  let normalized := map tolower host in
  t ← hmac32 cfg "hostname" normalized;
  let text := match cloak_suffix normalized with
              | Some suffix => format "%s-%08X.%s" [cloak_prefix cfg; token8 t; suffix]
              | None => format "%s-%08X" [cloak_prefix cfg; token8 t]
              end in
  if length text <? IRC_HOST_MAX + 1 then Some text else None.

Definition cloak_generate (cfg : ServerConfig) (real_ip real_host : cstr) : option cstr :=
  if empty (cloak_prefix cfg) || empty (cloak_key cfg) then None else
  if negb (empty real_host) then cloak_hostname cfg real_host else
  match inet_pton_v4 real_ip with
  | Some address => cloak_ipv4 cfg address
  | None =>
      match inet_pton_v6 real_ip with
      | Some address => cloak_ipv6 cfg address
      | None => None
      end
  end.

(** [real_host], or [real_ip] when there is none. *)
Definition real_identity (K : Client) : cstr :=
  if empty (cl_real_host K) then cl_real_ip K else cl_real_host K.

Definition cloak_refresh_display_host (cfg : ServerConfig) (K : Client) : Client :=
  if client_mode_has (cl_modes K) CLIENT_MODE_VHOST then K else
  let plain := set_cl_display_host (snprintf (IRC_HOST_MAX + 1) (real_identity K)) K in
  if client_mode_has (cl_modes K) CLIENT_MODE_CLOAKED then
    match cloak_generate cfg (cl_real_ip K) (cl_real_host K) with
    | Some text => set_cl_display_host (snprintf (IRC_HOST_MAX + 1) text) K
    | None => plain
    end
  else plain.

Definition usermode_apply_cloak (cfg : ServerConfig) (K : Client) : Client :=
  cloak_refresh_display_host cfg (set_cl_modes (client_mode_add (cl_modes K) CLIENT_MODE_CLOAKED) K).

Definition usermode_remove_cloak (K : Client) : Client :=
  let K := set_cl_modes (client_mode_remove (cl_modes K) CLIENT_MODE_CLOAKED) K in
  if client_mode_has (cl_modes K) CLIENT_MODE_VHOST then K else
  set_cl_display_host (snprintf (IRC_HOST_MAX + 1) (real_identity K)) K.

(** ** A generated cloak fits a host field and depends on the identity only *)

Lemma hex_fixed_length u n v : length (hex_fixed u n v) = n.
Proof. revert v. induction n as [|n IH]; intros v; simpl; [done|]. rewrite length_app, IH. simpl. lia. Qed.

Lemma cloak_generate_length cfg ip host text :
  cloak_generate cfg ip host = Some text → length text ≤ IRC_HOST_MAX.
Proof.
  unfold cloak_generate, cloak_ipv4, cloak_ipv6, cloak_ip, cloak_hostname.
  assert (Hs : ∀ s, length (snprintf (IRC_HOST_MAX + 1) s) ≤ IRC_HOST_MAX).
  { intros s. unfold snprintf. rewrite length_take. unfold IRC_HOST_MAX. lia. }
  destruct (_ || _); [done|]. case_if.
  - destruct (_ || _); [done|]. intros (t & _ & H)%bind_Some. revert H.
    cbv zeta. generalize (match cloak_suffix (map tolower host) with
      | Some suffix => format "%s-%08X.%s" [cloak_prefix cfg; token8 t; suffix]
      | None => format "%s-%08X" [cloak_prefix cfg; token8 t] end).
    intros s'. case_if; [|done]. intros H. injection H as <-. bools. lia.
  - destruct (inet_pton_v4 ip).
    + intros (? & _ & (? & _ & (? & _ & [= <-])%bind_Some)%bind_Some)%bind_Some. apply Hs.
    + destruct (inet_pton_v6 ip); [|done].
      intros (? & _ & (? & _ & (? & _ & [= <-])%bind_Some)%bind_Some)%bind_Some. apply Hs.
Qed.

(** Cloaking is presentation only. *)
Lemma cloak_keeps_identity cfg K :
  let K' := usermode_apply_cloak cfg K in
  cl_real_ip K' = cl_real_ip K ∧ cl_real_host K' = cl_real_host K ∧ cl_nick K' = cl_nick K ∧
  cl_channels K' = cl_channels K ∧ cl_channel_count K' = cl_channel_count K.
Proof.
  unfold usermode_apply_cloak, cloak_refresh_display_host. cbv zeta.
  repeat case_if; try destruct (cloak_generate _ _ _); by split_and!.
Qed.
End Cloak.
