(* ===== verification/Register.v ===== *)
(** * Registration ([src/commands/common.c], [src/nospoof.c], [src/commands/motd.c])

    From a fresh connection to a registered client: the PING cookie, the ban policy
    consulted before registration, the welcome numerics, and the check every other
    command starts with. *)

From S2P Require Import Prelude CString Modes HashTable MaskMatch Output World Channel Invariant Policy Numerics Presence Env Cloak.

Definition IRCD_DEFAULT_SERVER_NAME : cstr := "scratch.local".
Definition IRCD_VERSION : cstr := "ScratchIRCd-0.34".
Definition IRCD_CREATED : cstr := "August 2026".
Definition IRCD_SUPPORTED_USER_MODES : cstr := "".
Definition IRCD_SUPPORTED_CHANNEL_MODES : cstr := "".
Definition IRC_MAX_CHANNELS_PER_CLIENT : nat := 32.
Definition IRC_KICK_REASON_MAX : nat := 255.
Definition IRC_MODE_MAX_PARAMS : nat := 32.
Definition IRC_QUIT_REASON_MAX : nat := 255.

(** The name 451 replies carry: the configured one, set once at start-up. *)
Definition command_server_name (cfg : ServerConfig) : cstr :=
  snprintf (IRC_HOST_MAX + 1) (if empty (server_name cfg) then IRCD_DEFAULT_SERVER_NAME else server_name cfg).

(** [true] when the client is not registered and was told so. *)
Definition command_require_registered (c : ptr) : M bool :=
  K ← client c;
  if cl_registered K then mret false else
  cfg ← config;
  tell c ERR_NOTREGISTERED [command_server_name cfg; command_reply_nick K] ;; mret true.

(** ** TOPIC length ([src/irc.c]) *)

Definition irc_topic_limit (cfg : ServerConfig) : nat :=
  let nick := replicate IRC_NICK_MAX "n"%char in
  let user := replicate IRC_USER_MAX "u"%char in
  let host := replicate IRC_HOST_MAX "h"%char in
  let channel := "#"%char :: replicate (IRC_CHANNEL_NAME_MAX - 1) "c"%char in
  let query_overhead := length (format RPL_TOPIC [server_name cfg; nick; channel; []]) in
  let relay_overhead := length (format ":%s!%s@%s TOPIC %s :" [nick; user; host; channel]) in
  if (IRC_LINE_CONTENT_MAX <=? query_overhead) || (IRC_LINE_CONTENT_MAX <=? relay_overhead) then 0 else
  let query_limit := IRC_LINE_CONTENT_MAX - query_overhead in
  let relay_limit := IRC_LINE_CONTENT_MAX - relay_overhead in
  let limit := IRC_CHANNEL_TOPIC_MAX in
  let limit := if query_limit <? limit then query_limit else limit in
  if relay_limit <? limit then relay_limit else limit.

(** ** ISUPPORT *)

Definition isupport_payload_fits (cfg : ServerConfig) (K : Client) (payload : cstr) : bool :=
  length (format RPL_PROTOCOLS [server_name cfg; cl_nick K; payload]) <=? IRC_LINE_CONTENT_MAX.

Definition send_isupport_payload (c : ptr) (payload : cstr) : M unit :=
  cfg ← config;
  K ← client c;
  when (isupport_payload_fits cfg K payload) (tell c RPL_PROTOCOLS [server_name cfg; cl_nick K; payload]).

(** The names of the cache from the cursor on; [payload] is what the current line
    holds, [in_chunk] whether it already has a name.  [return] leaves without
    sending what is pending. *)
Fixpoint pchannels_loop (fuel : nat) (c : ptr) (cursor payload : cstr) (in_chunk : bool) : M unit :=
  match fuel with
  | 0 => mret tt
  | S fuel' =>
      match cursor with
      | [] => send_isupport_payload c payload
      | _ =>
          let '(name, rest) := span (Ascii.eqb ",") cursor in
          if empty name || (IRC_CHANNEL_NAME_MAX <? length name) then mret tt else
          cfg ← config;
          K ← client c;
          let candidate := payload ++ (if in_chunk then "," else "") ++ name in
          let cursor' := tail rest in
          if (length candidate <? IRC_LINE_CONTENT_MAX + 1) && isupport_payload_fits cfg K candidate
          then pchannels_loop fuel' c cursor' candidate true
          else
            send_isupport_payload c payload ;;
            let payload' := format "PCHANNELS=%s" [name] in
            if negb (length payload' <? IRC_LINE_CONTENT_MAX + 1) || negb (isupport_payload_fits cfg K payload')
            then mret tt
            else pchannels_loop fuel' c cursor' payload' true
      end
  end.

Section Register.
Context `{E : Env}.

Definition send_pchannels_isupport (c : ptr) (base : cstr) : M unit :=
  cached ← gets get_pchannels_cache;
  pchannels_loop (S (length cached)) c cached
    (snprintf (IRC_LINE_CONTENT_MAX + 1) (format "%s PCHANNELS=" [base])) false.

Definition send_isupport (c : ptr) : M unit :=
  cfg ← config;
  let first := snprintf IRCD_MESSAGE_BUFFER_SIZE (format
    "CASEMAPPING=rfc1459 CHANTYPES=#& PREFIX=(qaohv)~&@%%+ CHANMODES=beI,,kljBL,AciKMmnOprRSstTVz CHANLIMIT=#&:%u NICKLEN=%u USERLEN=%u HOSTLEN=%u CHANNELLEN=%u TOPICLEN=%u KICKLEN=%u MODES=%u NETWORK=%s"
    [dec_nat IRC_MAX_CHANNELS_PER_CLIENT; dec_nat IRC_NICK_MAX; dec_nat IRC_USER_MAX; dec_nat IRC_HOST_MAX;
     dec_nat IRC_CHANNEL_NAME_MAX; dec_nat (irc_topic_limit cfg); dec_nat IRC_KICK_REASON_MAX;
     dec_nat IRC_MODE_MAX_PARAMS; network_name cfg]) in
  let second_base := snprintf IRCD_MESSAGE_BUFFER_SIZE (format
    "EXCEPTS=e INVEX=I MAXLIST=b:%u,e:%u,I:%u WATCH=%u SILENCE=%u TARGMAX=PRIVMSG:1,NOTICE:1,JOIN:1,PART:1,KICK:1,NAMES:1 MSGREFTYPES=timestamp CHATHISTORY=%zu"
    [dec_nat IRC_CHANNEL_MASK_LIST_MAX; dec_nat IRC_CHANNEL_MASK_LIST_MAX; dec_nat IRC_CHANNEL_MASK_LIST_MAX;
     dec_nat IRCD_WATCH_MAX; dec_nat IRCD_SILENCE_MAX; dec_nat (history_limit cfg)]) in
  send_isupport_payload c first ;;
  send_pchannels_isupport c second_base.

(** ** MOTD *)

(** One logical line in pieces of at most [limit] bytes, until the queue overflows. *)
Fixpoint send_motd_chunks (c : ptr) (server nick : cstr) (l : list cstr) : M unit :=
  match l with
  | [] => mret tt
  | chunk :: l' =>
      full ← overflowed c;
      if full : bool then mret tt else
      tell c RPL_MOTD [server; nick; chunk] ;; send_motd_chunks c server nick l'
  end.

(** The line without a trailing CR. *)
Definition strip_cr (line : cstr) : cstr :=
  match last line with Some ch => if Ascii.eqb ch CR then removelast line else line | None => line end.

Fixpoint motd_loop (fuel : nat) (c : ptr) (server nick : cstr) (limit : nat) (text : cstr) : M unit :=
  match fuel with
  | 0 => mret tt
  | S fuel' =>
      match text with
      | [] => mret tt
      | _ =>
          let '(raw, rest) := span (Ascii.eqb LF) text in
          let line := strip_cr raw in
          (if empty line then tell c RPL_MOTD [server; nick; []]
           else send_motd_chunks c server nick (chunks (length line) limit line)) ;;
          full ← overflowed c;
          if full : bool then mret tt else motd_loop fuel' c server nick limit (tail rest)
      end
  end.

Definition send_cached_motd_lines (c : ptr) (text : cstr) : M unit :=
  cfg ← config;
  K ← client c;
  let overhead := length (format RPL_MOTD [server_name cfg; cl_nick K; []]) in
  if IRC_LINE_CONTENT_MAX <=? overhead then mret tt else
  motd_loop (S (length text)) c (server_name cfg) (cl_nick K) (IRC_LINE_CONTENT_MAX - overhead) text.

Definition command_send_motd (c : ptr) : M unit :=
  K ← client c;
  if negb (cl_registered K) then mret tt else
  cfg ← config;
  text ← gets motd_text;
  match text with
  | None => tell c ERR_NOMOTD [server_name cfg; cl_nick K]
  | Some text =>
      tell c RPL_MOTDSTART [server_name cfg; cl_nick K; server_name cfg] ;;
      send_cached_motd_lines c text ;;
      full ← overflowed c;
      when (negb full) (tell c RPL_ENDOFMOTD [server_name cfg; cl_nick K])
  end.

Definition command_motd (c : ptr) (params : option cstr) : M CommandResult :=
  u ← command_require_registered c;
  if u : bool then keep else command_send_motd c ;; keep.

(** ** Registration bans *)

(** Refusal: the reason is kept for QUIT and the socket shut down. *)
Definition registration_refuse (c : ptr) (reason : cstr) : M unit :=
  cfg ← config;
  K ← client c;
  tell c ERR_YOUREBANNEDCREEP [server_name cfg; command_reply_nick K; admin_email cfg] ;;
  upd_client c (λ K, set_cl_fd_shutdown true
                       (set_cl_quit_reason (snprintf (IRC_QUIT_REASON_MAX + 1) reason) K)).

Definition registration_geo_banned (c : ptr) : M bool :=
  K ← client c;
  match geoban_db_match (cl_geoip K) with
  | None => mret false
  | Some (type, value, reason) =>
      let ip_identity := snprintf IRCD_MESSAGE_BUFFER_SIZE (format "%s@%s" [cl_user K; cl_real_ip K]) in
      let who := [command_reply_nick K; cl_user K; cl_display_host K; cl_real_ip K; type; value] in
      if registration_ban_handle &&
         registration_exception_matches BAN_EXCEPTION_GEOBAN (cl_real_ip K) ip_identity then
        snotice_broadcast SNOTICE_GEOBANS
          "Registration GEOBAN match exempted by ELINE: %s!%s@%s [real_ip=%s] matched %s {%s}" who ;;
        mret false
      else
        snotice_broadcast SNOTICE_GEOBANS
          "Registration rejected by GEOBAN: %s!%s@%s [real_ip=%s] matched %s {%s}" who ;;
        registration_refuse c (if empty reason then lit "GeoIP policy ban" else reason) ;;
        mret true
  end.

Definition registration_ban_policy_error (c : ptr) : M bool :=
  K ← client c;
  snotice_broadcast (N.lor SNOTICE_SECURITY SNOTICE_BANS)
    "Registration rejected because KLINE/ZLINE policy could not be read safely for %s!%s@%s [real_ip=%s]"
    [command_reply_nick K; cl_user K; cl_display_host K; cl_real_ip K] ;;
  registration_refuse c "Ban policy database error" ;;
  mret true.

(** One database lookup with its exceptions: the row that applies, if any. *)
Definition registration_lookup (c : ptr) (type : BanType) (exception : BanExceptionType)
    (name id1 : cstr) (id2 : option cstr) (exc1 exc2 : cstr) : M BanMatch :=
  match ban_db_match type id1 id2 with
  | Banned mask reason =>
      if registration_exception_matches exception exc1 exc2 then
        K ← client c;
        snotice_broadcast SNOTICE_BANS
          "Registration %s match exempted by ELINE: %s!%s@%s [real_ip=%s] matched %s"
          [name; command_reply_nick K; cl_user K; cl_display_host K; cl_real_ip K; mask] ;;
        mret NoBan
      else mret (Banned mask reason)
  | m => mret m
  end.

Definition registration_reject (c : ptr) (name mask reason : cstr) : M bool :=
  K ← client c;
  snotice_broadcast SNOTICE_BANS
    "Registration rejected by %s: %s!%s@%s [real_ip=%s] matched %s"
    [name; command_reply_nick K; cl_user K; cl_display_host K; cl_real_ip K; mask] ;;
  registration_refuse c (if empty reason then lit "Banned" else reason) ;;
  mret true.

Definition registration_banned (c : ptr) : M bool :=
  if negb registration_ban_handle then registration_ban_policy_error c else
  K ← client c;
  let ip_identity := snprintf IRCD_MESSAGE_BUFFER_SIZE (format "%s@%s" [cl_user K; cl_real_ip K]) in
  let identity1 :=
    if empty (cl_real_host K) then ip_identity
    else snprintf IRCD_MESSAGE_BUFFER_SIZE (format "%s@%s" [cl_user K; cl_real_host K]) in
  z ← registration_lookup c BAN_TYPE_ZLINE BAN_EXCEPTION_ZLINE "ZLINE" (cl_real_ip K) None
        (cl_real_ip K) ip_identity;
  match z with
  | BanError => registration_ban_policy_error c
  | Banned mask reason => registration_reject c "ZLINE" mask reason
  | NoBan =>
      k ← registration_lookup c BAN_TYPE_KLINE BAN_EXCEPTION_KLINE "KLINE" identity1 (Some ip_identity)
            identity1 ip_identity;
      match k with
      | BanError => registration_ban_policy_error c
      | Banned mask reason => registration_reject c "KLINE" mask reason
      | NoBan => mret false
      end
  end.

(** ** Registration *)

(** The conditions that only wait for something else to happen. *)
Definition registration_waits (cfg : ServerConfig) (K : Client) : bool :=
  cl_registered K || empty (cl_nick K) || empty (cl_user K) || cl_cap_negotiating K ||
  bool_decide (cl_dns_state K = CLIENT_DNS_PENDING) || bool_decide (cl_dns_state K = CLIENT_DNS_NONE) ||
  (negb (empty (server_password cfg)) && negb (cl_pass_accepted K)) ||
  (nospoof_enabled cfg && (negb (cl_nospoof_started K) || negb (cl_nospoof_verified K))).

(** The DNSBL step: [true] when a query was submitted and registration waits for it. *)
Definition registration_dnsbl (c : ptr) : M bool :=
  K ← client c;
  if negb (bool_decide (cl_dnsbl_state K = CLIENT_DNSBL_NONE)) then mret false else
  cfg ← config;
  if dnsbl_count cfg =? 0 then upd_client c (set_cl_dnsbl_state CLIENT_DNSBL_CLEAR) ;; mret false else
  if dnsbl_resolver_submit (cl_id K) (cl_real_ip K) then
    t ← now;
    upd_client c (λ K, set_cl_dnsbl_deadline (t + dnsbl_timeout_seconds cfg)%Z
                         (set_cl_dnsbl_state CLIENT_DNSBL_PENDING K)) ;;
    mret true
  else
    upd_client c (set_cl_dnsbl_state CLIENT_DNSBL_ERROR) ;;
    snotice_broadcast (N.lor SNOTICE_DNS SNOTICE_FLOOD)
      "DNSBL resolver queue saturated/unavailable for %s; registration fails open" [cl_real_ip K] ;;
    mret false.

Definition send_welcome (c : ptr) : M unit :=
  cfg ← config;
  K ← client c;
  tell c RPL_WELCOME [server_name cfg; cl_nick K; network_name cfg; cl_nick K; cl_user K; cl_display_host K] ;;
  tell c RPL_YOURHOST [server_name cfg; cl_nick K; server_name cfg; IRCD_VERSION] ;;
  tell c RPL_CREATED [server_name cfg; cl_nick K; IRCD_CREATED] ;;
  tell c RPL_AVAILABLE [server_name cfg; cl_nick K; server_name cfg; IRCD_VERSION;
                        IRCD_SUPPORTED_USER_MODES; IRCD_SUPPORTED_CHANNEL_MODES] ;;
  send_isupport c ;;
  command_send_motd c ;;
  presence_watch_online c ;;
  snotice_broadcast SNOTICE_CONNECTIONS "Client registered: %s!%s@%s [real_ip=%s real_host=%s%s]"
    [cl_nick K; cl_user K; cl_display_host K; cl_real_ip K;
     (if empty (cl_real_host K) then lit "-" else cl_real_host K);
     (if cl_webirc_active K then lit " webirc" else [])].

Definition command_maybe_register (c : ptr) : M unit :=
  cfg ← config;
  K ← client c;
  if registration_waits cfg K then mret tt else
  when (negb (cl_geoip_complete K))
    (upd_client c (λ K, set_cl_geoip_complete true (set_cl_geoip (geoip_lookup (cl_real_ip K)) K))) ;;
  geo ← registration_geo_banned c;
  if geo : bool then mret tt else
  waits ← registration_dnsbl c;
  if waits : bool then mret tt else
  K ← client c;
  if bool_decide (cl_dnsbl_state K = CLIENT_DNSBL_PENDING) || bool_decide (cl_dnsbl_state K = CLIENT_DNSBL_LISTED)
  then mret tt else
  banned ← registration_banned c;
  if banned : bool then mret tt else
  upd_client c (usermode_apply_cloak cfg) ;;
  upd_client c (set_cl_registered true) ;;
  send_welcome c.

(** ** The PING cookie *)

(** Two hexadecimal digits per byte. *)
Definition hex_cookie (bytes : option cstr) : cstr :=
  match bytes with
  | None => []
  | Some b => concat (map (λ x, hex_fixed false 2 (byte x)) b)
  end.

Definition nospoof_start (c : ptr) : M unit :=
  cfg ← config;
  K ← client c;
  if negb (nospoof_enabled cfg) || cl_nospoof_started K || empty (cl_nick K) then mret tt else
  bytes ← gets RAND_bytes;
  let cookie := hex_cookie bytes in
  upd_client c (set_cl_nospoof_cookie cookie) ;;
  if empty cookie then mret tt else
  t ← now;
  upd_client c (λ K, set_cl_nospoof_deadline (t + nospoof_timeout_seconds cfg)%Z (set_cl_nospoof_started true K)) ;;
  tell c "PING :%s" [cookie].

Definition request_version (c : ptr) : M unit :=
  cfg ← config;
  K ← client c;
  if negb (nospoof_enabled cfg) || negb (cl_nospoof_verified K) || cl_version_requested K || empty (cl_nick K)
  then mret tt else
  tell c (":%s PRIVMSG %s :" ++ [ascii_of_N 1] ++ "VERSION" ++ [ascii_of_N 1]) [server_name cfg; cl_nick K] ;;
  upd_client c (set_cl_version_requested true).

Definition nospoof_request_website (c : ptr) : M unit :=
  cfg ← config;
  K ← client c;
  if negb (nospoof_enabled cfg) || negb (cl_nospoof_verified K) || negb (cl_webirc_active K) ||
     cl_website_requested K || empty (cl_nick K)
  then mret tt else
  tell c (":%s PRIVMSG %s :" ++ [ascii_of_N 1] ++ "WEBSITE" ++ [ascii_of_N 1]) [server_name cfg; cl_nick K] ;;
  upd_client c (set_cl_website_requested true).

Definition skip_spaces (s : cstr) : cstr := drop_while (Ascii.eqb " ") s.
Definition skip_colon (s : cstr) : cstr :=
  match s with ch :: s' => if Ascii.eqb ch ":" then s' else s | [] => s end.

Definition clean_param (params : cstr) : cstr := skip_colon (skip_spaces params).

(** What follows the last space, if there is one. *)
Fixpoint after_last_space (s : cstr) : option cstr :=
  match s with
  | [] => None
  | ch :: s' => match after_last_space s' with
                | Some r => Some r
                | None => if Ascii.eqb ch " " then Some s' else None
                end
  end.

Definition nospoof_handle_pong (c : ptr) (params : option cstr) : M bool :=
  K ← client c;
  match params with
  | None => mret false
  | Some params =>
      if negb (cl_nospoof_started K) || cl_nospoof_verified K then mret false else
      let token := clean_param params in
      let token := match after_last_space token with Some s => clean_param s | None => token end in
      if negb (streq token (cl_nospoof_cookie K)) then mret false else
      upd_client c (λ K, set_cl_nospoof_cookie [] (set_cl_nospoof_verified true K)) ;;
      request_version c ;;
      nospoof_request_website c ;;
      command_maybe_register c ;;
      mret true
  end.

Definition nospoof_version_restricted (cfg : ServerConfig) (K : Client) : bool :=
  nospoof_enabled cfg && cl_version_requested K && negb (cl_version_received K).

Definition nospoof_version_target_allowed (c : ptr) (target : cstr) : M bool :=
  cfg ← config;
  K ← client c;
  if negb (nospoof_version_restricted cfg K) then mret true else
  if empty target || strchr IRC_CHANNEL_PREFIXES (char0 target) then mret false else
  d ← find_nick target;
  match d with
  | None => mret false
  | Some d =>
      D ← client d;
      mret (client_mode_has (cl_modes D) (N.lor CLIENT_MODE_OPER CLIENT_MODE_NETADMIN))
  end.

Definition CTCP : ascii := ascii_of_N 1.

(** The payload of a CTCP reply called [name], cut to [size - 1] bytes. *)
Definition capture_ctcp (size : nat) (text name : cstr) : option cstr :=
  if negb (Ascii.eqb (char0 text) CTCP) || negb (strcaseeq (take (length name) (tail text)) name) then None else
  let value := drop (length name) (tail text) in
  if negb (Ascii.eqb (char0 value) " ") && negb (Ascii.eqb (char0 value) CTCP) then None else
  let value := if Ascii.eqb (char0 value) " " then tail value else value in
  let value := match last value with
               | Some ch => if Ascii.eqb ch CTCP then removelast value else value
               | None => value
               end in
  Some (take (size - 1) value).

Definition IRCD_CLIENT_VERSION_MAX : nat := 255.
Definition IRCD_CLIENT_WEBSITE_MAX : nat := 255.

Definition nospoof_handle_notice (c : ptr) (params : option cstr) : M bool :=
  cfg ← config;
  K ← client c;
  match params with
  | None => mret false
  | Some params =>
      if negb (nospoof_enabled cfg) then mret false else
      let copy := snprintf IRCD_MESSAGE_BUFFER_SIZE params in
      let '(target, rest) := strtok " " copy in
      match target, strtok_rest rest with
      | Some target, Some text =>
          if negb (strcaseeq target (server_name cfg)) then mret false else
          let text := skip_colon text in
          let version := if cl_version_requested K && negb (cl_version_received K)
                         then capture_ctcp (IRCD_CLIENT_VERSION_MAX + 1) text "VERSION" else None in
          match version with
          | Some v => upd_client c (λ K, set_cl_version_received true (set_cl_client_version v K)) ;; mret true
          | None =>
              let website := if cl_webirc_active K && cl_website_requested K && negb (cl_website_received K)
                             then capture_ctcp (IRCD_CLIENT_WEBSITE_MAX + 1) text "WEBSITE" else None in
              match website with
              | Some v => upd_client c (λ K, set_cl_website_received true (set_cl_client_website v K)) ;; mret true
              | None => mret false
              end
          end
      | _, _ => mret false
      end
  end.

(** ** When a client gets registered *)

(** The row of the ban database that applies to the client, exceptions considered. *)
Definition applicable (type : BanType) (exception : BanExceptionType) (id1 : cstr) (id2 : option cstr)
    (exc1 exc2 : cstr) : BanMatch :=
  match ban_db_match type id1 id2 with
  | Banned mask reason => if registration_exception_matches exception exc1 exc2 then NoBan else Banned mask reason
  | m => m
  end.

Definition user_at (K : Client) (host : cstr) : cstr :=
  snprintf IRCD_MESSAGE_BUFFER_SIZE (format "%s@%s" [cl_user K; host]).

(** The record once its address was looked up. *)
Definition located (K : Client) : Client :=
  if cl_geoip_complete K then K else set_cl_geoip_complete true (set_cl_geoip (geoip_lookup (cl_real_ip K)) K).

(** No GeoIP rule, or an exception for it. *)
Definition geo_passes (K : Client) : bool :=
  match geoban_db_match (cl_geoip K) with
  | None => true
  | Some _ => registration_ban_handle &&
      registration_exception_matches BAN_EXCEPTION_GEOBAN (cl_real_ip K) (user_at K (cl_real_ip K))
  end.

(** The blocklist lookup is over and found nothing, or was not possible. *)
Definition dnsbl_passes (cfg : ServerConfig) (K : Client) : bool :=
  match cl_dnsbl_state K with
  | CLIENT_DNSBL_NONE => (dnsbl_count cfg =? 0) || negb (dnsbl_resolver_submit (cl_id K) (cl_real_ip K))
  | CLIENT_DNSBL_PENDING | CLIENT_DNSBL_LISTED => false
  | _ => true
  end.

(** The ban database can be read and no ZLINE and no KLINE applies. *)
Definition bans_pass (K : Client) : bool :=
  let ip := user_at K (cl_real_ip K) in
  let host := if empty (cl_real_host K) then ip else user_at K (cl_real_host K) in
  registration_ban_handle &&
  match applicable BAN_TYPE_ZLINE BAN_EXCEPTION_ZLINE (cl_real_ip K) None (cl_real_ip K) ip with
  | NoBan => match applicable BAN_TYPE_KLINE BAN_EXCEPTION_KLINE host (Some ip) host ip with
             | NoBan => true
             | _ => false
             end
  | _ => false
  end.

(** ** Frame and invariant *)

Lemma command_require_registered_quiet c : does quiet (command_require_registered c).
Proof. unfold command_require_registered, client, config. frames. Qed.

(** A registered client passes; anybody else is told so, and the command ends. *)
Lemma require_registered_cases c w :
  (cl_registered (the_client w c) = true ∧ command_require_registered c w = (false, w)) ∨
  (cl_registered (the_client w c) = false ∧ ∃ i, command_require_registered c w = (true, set_w_io i w)).
Proof.
  destruct (run_quiet (command_require_registered c) w) as (u & i & Hrun); [apply command_require_registered_quiet|].
  revert Hrun. unfold command_require_registered, client. rewrite run_gets.
  destruct (cl_registered (the_client w c)); [intros _; by left|]. intros Hrun. right. split; [done|]. exists i.
  assert (u = true) as ->; [|exact Hrun].
  match type of Hrun with ?m w = _ => assert (returns true m) as Hr by auto 6 with irc; specialize (Hr w) end.
  by rewrite Hrun in Hr.
Qed.
Lemma send_isupport_payload_quiet c p : does quiet (send_isupport_payload c p).
Proof. unfold send_isupport_payload, client, config. frames. Qed.
#[local] Hint Resolve send_isupport_payload_quiet : frame.
Lemma pchannels_loop_quiet n c s p b : does quiet (pchannels_loop n c s p b).
Proof.
  revert s p b. induction n as [|n IH]; intros s p b; [apply does_ret, _|].
  cbn [pchannels_loop]. unfold client, config. frames.
Qed.
#[local] Hint Resolve pchannels_loop_quiet : frame.
Lemma send_isupport_quiet c : does quiet (send_isupport c).
Proof. unfold send_isupport, send_pchannels_isupport, config. frames. Qed.
Lemma send_motd_chunks_quiet c s n l : does quiet (send_motd_chunks c s n l).
Proof. induction l; simpl; unfold overflowed; frames. Qed.
#[local] Hint Resolve send_motd_chunks_quiet : frame.
Lemma motd_loop_quiet f c s n l t : does quiet (motd_loop f c s n l t).
Proof.
  revert t. induction f as [|f IH]; intros t; [apply does_ret, _|].
  cbn [motd_loop]. unfold overflowed. frames.
Qed.
#[local] Hint Resolve motd_loop_quiet : frame.
Lemma command_send_motd_quiet c : does quiet (command_send_motd c).
Proof. unfold command_send_motd, send_cached_motd_lines, overflowed, client, config. frames. Qed.
Lemma registration_lookup_quiet c t e n i1 i2 e1 e2 : does quiet (registration_lookup c t e n i1 i2 e1 e2).
Proof. unfold registration_lookup, client. frames. Qed.
#[local] Hint Resolve send_isupport_quiet command_send_motd_quiet registration_lookup_quiet
  command_require_registered_quiet : frame.

Lemma apply_cloak_keeps c cfg : does keeps (upd_client c (usermode_apply_cloak cfg)).
Proof.
  apply upd_client_keeps. intros K. destruct (cloak_keeps_identity cfg K) as (_ & _ & H1 & H2 & H3).
  by split_and!.
Qed.
#[local] Hint Resolve apply_cloak_keeps : frame.

Lemma registration_refuse_keeps c r : does keeps (registration_refuse c r).
Proof. unfold registration_refuse, client, config. frames. Qed.
#[local] Hint Resolve registration_refuse_keeps : frame.
Lemma registration_geo_banned_keeps c : does keeps (registration_geo_banned c).
Proof. unfold registration_geo_banned, client. frames. Qed.
Lemma registration_banned_keeps c : does keeps (registration_banned c).
Proof. unfold registration_banned, registration_reject, registration_ban_policy_error, client. frames. Qed.
Lemma registration_dnsbl_keeps c : does keeps (registration_dnsbl c).
Proof. unfold registration_dnsbl, client, config, now. frames. Qed.
Lemma send_welcome_keeps c : does keeps (send_welcome c).
Proof. unfold send_welcome, client, config. frames. Qed.
#[local] Hint Resolve registration_geo_banned_keeps registration_banned_keeps registration_dnsbl_keeps
  send_welcome_keeps : frame.
Lemma command_maybe_register_keeps c : does keeps (command_maybe_register c).
Proof. unfold command_maybe_register, client, config. frames. Qed.
Lemma nospoof_start_keeps c : does keeps (nospoof_start c).
Proof. unfold nospoof_start, client, config, now. frames. Qed.
Lemma request_version_keeps c : does keeps (request_version c).
Proof. unfold request_version, client, config. frames. Qed.
Lemma nospoof_request_website_keeps c : does keeps (nospoof_request_website c).
Proof. unfold nospoof_request_website, client, config. frames. Qed.
#[local] Hint Resolve command_maybe_register_keeps request_version_keeps nospoof_request_website_keeps : frame.
Lemma nospoof_handle_pong_keeps c p : does keeps (nospoof_handle_pong c p).
Proof. unfold nospoof_handle_pong, client. frames. Qed.
Lemma nospoof_handle_notice_keeps c p : does keeps (nospoof_handle_notice c p).
Proof. unfold nospoof_handle_notice, client, config. frames. Qed.
Lemma nospoof_version_target_allowed_quiet c t : does quiet (nospoof_version_target_allowed c t).
Proof. unfold nospoof_version_target_allowed, client, config, find_nick. frames. Qed.
(** *** Runs of the steps of a registration *)

Abbreviation same_flag := (same_at cl_registered).

Lemma registration_refuse_flag d c r : does (same_flag d) (registration_refuse c r).
Proof. unfold registration_refuse, client, config. frames. Qed.
#[local] Hint Resolve registration_refuse_flag : frame.

(** A refusal ends in [true] with the flag unchanged; otherwise only lines were sent. *)
Definition verdict (c : ptr) (w : World) (pass : bool) (r : bool * World) : Prop :=
  if pass then r.1 = false ∧ quiet w r.2 else r.1 = true ∧ same_flag c w r.2.

Lemma refusal c w (m : M bool) : returns true m → does (same_flag c) m → verdict c w false (m w).
Proof. intros H1 H2. split; [apply H1 | apply H2]. Qed.

Lemma geo_verdict c w : verdict c w (geo_passes (the_client w c)) (registration_geo_banned c w).
Proof.
  unfold registration_geo_banned. change (client c) with (gets (λ w, the_client w c)). rewrite run_gets.
  unfold geo_passes. destruct (geoban_db_match _) as [[[ty value] reason]|]; [|by split].
  unfold user_at. cbv zeta. destruct (registration_ban_handle && _).
  - apply quiet_step; [eauto with frame|]. intros _ i. split; [done|apply quiet_set_io].
  - apply refusal; [auto 8 with irc | frames].
Qed.

Lemma registration_lookup_run c t e n i1 i2 e1 e2 w :
  ∃ i, registration_lookup c t e n i1 i2 e1 e2 w = (applicable t e i1 i2 e1 e2, set_w_io i w).
Proof.
  pose proof (registration_lookup_quiet c t e n i1 i2 e1 e2 w) as Hq.
  assert (H1 : (registration_lookup c t e n i1 i2 e1 e2 w).1 = applicable t e i1 i2 e1 e2).
  { unfold registration_lookup, applicable. destruct (ban_db_match t i1 i2); try done.
    destruct (registration_exception_matches e e1 e2); [|done]. apply returns_bind. auto 8 with irc. }
  destruct (registration_lookup _ _ _ _ _ _ _ _ w) as [m w']. exists (w_io w').
  unfold quiet in Hq. simpl in *. by rewrite H1, <-Hq.
Qed.

Lemma error_verdict c w : verdict c w false (registration_ban_policy_error c w).
Proof.
  unfold registration_ban_policy_error, client. apply refusal; [auto 8 with irc | frames].
Qed.

Lemma reject_verdict c n m r w : verdict c w false (registration_reject c n m r w).
Proof.
  unfold registration_reject, client. apply refusal; [auto 8 with irc | frames].
Qed.

Lemma bans_verdict c w : verdict c w (bans_pass (the_client w c)) (registration_banned c w).
Proof.
  unfold registration_banned, bans_pass. destruct registration_ban_handle; cbn [negb andb]; [|apply error_verdict].
  change (client c) with (gets (λ w, the_client w c)). rewrite run_gets. cbv zeta. unfold user_at.
  rewrite run_bind. edestruct registration_lookup_run as [i ->].
  assert (Hf : ∀ pass r, pass = false → verdict c (set_w_io i w) pass r → verdict c w false r).
  { intros pass r -> [? ?]. split; done. }
  destruct (applicable BAN_TYPE_ZLINE _ _ _ _ _).
  2: eapply Hf; [reflexivity | apply reject_verdict].
  2: eapply Hf; [reflexivity | apply error_verdict].
  rewrite run_bind. edestruct registration_lookup_run as [j ->].
  destruct (applicable BAN_TYPE_KLINE _ _ _ _ _).
  - by split.
  - destruct (reject_verdict c (lit "KLINE") mask reason (set_w_io j (set_w_io i w))). by split.
  - destruct (error_verdict c (set_w_io j (set_w_io i w))). by split.
Qed.

(** The DNSBL step changes only the client's lookup state; registration goes on
    exactly when [dnsbl_passes]. *)
Lemma dnsbl_run c w K :
  w_clients w !! c = Some K →
  ∃ b w' st dl, registration_dnsbl c w = (b, w') ∧ w_config w' = w_config w ∧
    the_client w' c = set_cl_dnsbl_deadline dl (set_cl_dnsbl_state st K) ∧
    (b || bool_decide (st = CLIENT_DNSBL_PENDING) || bool_decide (st = CLIENT_DNSBL_LISTED)) =
      negb (dnsbl_passes (w_config w) K).
Proof.
  intros HK. assert (Hthe : the_client w c = K) by (unfold the_client; by rewrite HK).
  assert (Hupd : ∀ f, the_client (put_client c f w) c = f K).
  { intros f. unfold the_client, put_client. simpl. by rewrite lookup_alter_eq, HK. }
  unfold registration_dnsbl. change (client c) with (gets (λ w, the_client w c)). rewrite run_gets, Hthe.
  unfold dnsbl_passes. cbv beta.
  destruct (cl_dnsbl_state K) eqn:Est;
    eval_decide; cbn [negb];
    try (exists false, w, (cl_dnsbl_state K), (cl_dnsbl_deadline K); rewrite Est;
         split_and!; [done | done | rewrite Hthe, <-Est; by destruct K | done]).
  unfold config. rewrite run_gets. destruct (dnsbl_count (w_config w) =? 0); cbn [orb].
  { eexists _, _, CLIENT_DNSBL_CLEAR, (cl_dnsbl_deadline K). split; [reflexivity|].
    split_and!; [done | rewrite Hupd; by destruct K | done]. }
  destruct (dnsbl_resolver_submit _ _).
  { unfold now. rewrite run_gets. eexists _, _, CLIENT_DNSBL_PENDING, _. split; [reflexivity|].
    split_and!; [done | rewrite Hupd; reflexivity | done]. }
  rewrite run_bind. cbn [upd_client modify]. rewrite run_bind.
  edestruct (run_quiet (snotice_broadcast (N.lor SNOTICE_DNS SNOTICE_FLOOD)
    "DNSBL resolver queue saturated/unavailable for %s; registration fails open" [cl_real_ip K]))
    as (a & i & ->); [eauto with frame|].
  eexists _, _, CLIENT_DNSBL_ERROR, (cl_dnsbl_deadline K). split; [reflexivity|].
  split_and!; [done | | done].
  change (the_client (set_w_io i ?w) c) with (the_client w c). rewrite Hupd. by destruct K.
Qed.

Lemma presence_watch_online_flag d c : does (same_flag d) (presence_watch_online c).
Proof. unfold presence_watch_online, client, config. frames. Qed.
#[local] Hint Resolve presence_watch_online_flag : frame.
Lemma send_welcome_flag d c : does (same_flag d) (send_welcome c).
Proof. unfold send_welcome, client, config. frames. Qed.
#[local] Hint Resolve send_welcome_flag : frame.

Lemma maybe_register_others d c : d ≠ c → does (same_flag d) (command_maybe_register c).
Proof.
  intros Hd. unfold command_maybe_register, registration_geo_banned, registration_dnsbl, registration_banned,
    registration_reject, registration_ban_policy_error, client, config, now.
  frames.
Qed.

(** The last steps. *)
Lemma registered_by_welcome cfg c w :
  is_Some (w_clients w !! c) →
  cl_registered (the_client ((upd_client c (usermode_apply_cloak cfg) ;;
    upd_client c (set_cl_registered true) ;; send_welcome c) w).2 c) = true.
Proof.
  intros [K HK].
  etrans; [exact (send_welcome_flag c c (put_client c (set_cl_registered true)
    (put_client c (usermode_apply_cloak cfg) w)))|]. unfold put_client, the_client. simpl.
  by rewrite !lookup_alter_eq, HK.
Qed.

(** Nothing is awaited: a nickname and a user name are set, capability negotiation and
    the DNS lookup are over, a configured server password was given, and the PING cookie
    came back where one is required. *)
Record nothing_awaited (cfg : ServerConfig) (K : Client) : Prop := {
  awaited_nick : cl_nick K ≠ [];
  awaited_user : cl_user K ≠ [];
  awaited_capabilities : cl_cap_negotiating K = false;
  awaited_dns : cl_dns_state K ≠ CLIENT_DNS_NONE ∧ cl_dns_state K ≠ CLIENT_DNS_PENDING;
  awaited_password : server_password cfg = [] ∨ cl_pass_accepted K = true;
  awaited_cookie : nospoof_enabled cfg = true → cl_nospoof_started K = true ∧ cl_nospoof_verified K = true }.

Lemma registration_waits_spec cfg K :
  cl_registered K = false → registration_waits cfg K = false ↔ nothing_awaited cfg K.
Proof.
  intros Hreg. unfold registration_waits. rewrite Hreg. cbn [orb]. split.
  - intros H. repeat (apply orb_false_elim in H as [H ?]). bools.
    split; try done; [by intros E1; rewrite E1 in * | by intros E1; rewrite E1 in *| |].
    + destruct (server_password cfg); [by left|right]. by destruct (cl_pass_accepted K).
    + intros Hn. rewrite Hn in *. by destruct (cl_nospoof_started K), (cl_nospoof_verified K).
  - intros [Hn Hu Hc [Hd1 Hd2] Hp Hs]. rewrite Hc, !bool_decide_false by done.
    destruct (cl_nick K), (cl_user K); [done..|]. cbn [empty orb].
    assert ((negb (empty (server_password cfg)) && negb (cl_pass_accepted K)) = false) as ->
      by (destruct Hp as [->| ->]; [done | by rewrite andb_false_r]).
    destruct (nospoof_enabled cfg); [|done]. by destruct (Hs eq_refl) as [-> ->].
Qed.

Lemma located_fields cfg K :
  cl_registered (located K) = cl_registered K ∧ dnsbl_passes cfg (located K) = dnsbl_passes cfg K ∧
  bans_pass (located K) = bans_pass K ∧ cl_geoip_complete (located K) = true.
Proof. unfold located. by destruct (cl_geoip_complete K) eqn:Ec. Qed.
Lemma locate_run c K w :
  w_clients w !! c = Some K →
  ∃ w', when (negb (cl_geoip_complete K))
      (upd_client c (λ K, set_cl_geoip_complete true (set_cl_geoip (geoip_lookup (cl_real_ip K)) K))) w = (tt, w') ∧
    w_clients w' !! c = Some (located K) ∧ w_config w' = w_config w.
Proof.
  intros HK. unfold located. destruct (cl_geoip_complete K); eexists; (split; [reflexivity|]); [done|].
  split; [|done]. simpl. by rewrite lookup_alter_eq, HK.
Qed.

(** C7: registration is gated.  Running the registration check on a client that is
    not registered registers it exactly when nothing is awaited, no GeoIP rule, ZLINE or
    KLINE applies that is not exempted, the ban database could be read, and the blocklist
    lookup is neither running nor positive; the registration flag of no other client
    changes. *)
Theorem registration_gate w c K :
  w_clients w !! c = Some K → cl_registered K = false →
  let w' := (command_maybe_register c w).2 in
  (cl_registered (the_client w' c) = true ↔
    nothing_awaited (w_config w) K ∧ geo_passes (located K) && dnsbl_passes (w_config w) K && bans_pass K = true) ∧
  ∀ d, d ≠ c → cl_registered (the_client w' d) = cl_registered (the_client w d).
Proof.
  intros HK Hreg w'. split; [|intros d Hd; by apply maybe_register_others].
  rewrite <-(registration_waits_spec (w_config w) K Hreg).
  cut (cl_registered (the_client w' c) =
    negb (registration_waits (w_config w) K) && (geo_passes (located K) && dnsbl_passes (w_config w) K && bans_pass K)).
  { intros ->. destruct (registration_waits _ K), (geo_passes (located K) && _ && _); naive_solver. }
  unfold w', command_maybe_register, config. rewrite run_gets.
  change (client c) with (gets (λ w, the_client w c)). rewrite run_gets.
  assert (the_client w c = K) as Hthe by (unfold the_client; by rewrite HK). rewrite Hthe. cbv beta.
  destruct (registration_waits (w_config w) K) eqn:Hwait; [simpl; by rewrite Hthe|]. cbn [negb andb].
  rewrite run_bind. destruct (locate_run c K w HK) as (w1 & -> & HK1 & Hcfg1).
  assert (Hthe1 : the_client w1 c = located K) by (unfold the_client; by rewrite HK1).
  destruct (located_fields (w_config w) K) as (Hflag & Ed & Eb & Edone).
  pose proof (geo_verdict c w1) as Hgeo. rewrite Hthe1 in Hgeo. rewrite run_bind.
  destruct (registration_geo_banned c w1) as [r w2]. destruct (geo_passes (located K)); destruct Hgeo as [Hr Hw2]; simpl in Hr; subst r; cbn [andb].
  2:{ simpl in *. unfold same_at in Hw2. by rewrite Hw2, Hthe1, Hflag. }
  simpl in Hw2. rewrite Hw2. generalize (w_io w2). clear w2 Hw2. intros i.
  destruct (dnsbl_run c (set_w_io i w1) (located K) HK1) as (b & w3 & st & dl & Hrun & Hcfg & HK3 & Hpass).
  rewrite run_bind, Hrun.
  change (w_config (set_w_io i w1)) with (w_config w1) in Hpass. rewrite Hcfg1 in Hpass.
  rewrite Ed in Hpass.
  destruct b; cbn [orb] in Hpass.
  { destruct (dnsbl_passes _ K); [done|]. simpl. rewrite HK3. transitivity (cl_registered (located K)); [reflexivity | congruence]. }
  rewrite run_gets, HK3. cbv beta. cbn [cl_dnsbl_state set_cl_dnsbl_deadline set_cl_dnsbl_state].
  rewrite Hpass. destruct (dnsbl_passes _ K); cbn [negb andb]; [|simpl; rewrite HK3; transitivity (cl_registered (located K)); [reflexivity | congruence]].
  pose proof (bans_verdict c w3) as Hban. rewrite HK3 in Hban.
  change (bans_pass (set_cl_dnsbl_deadline _ _)) with (bans_pass (located K)) in Hban.
  rewrite Eb in Hban. rewrite run_bind.
  destruct (registration_banned c w3) as [r w4]. destruct (bans_pass K); destruct Hban as [Hr Hw4]; simpl in Hr; subst r.
  2:{ simpl in *. unfold same_at in Hw4. rewrite Hw4, HK3. transitivity (cl_registered (located K)); [reflexivity | congruence]. }
  simpl in Hw4. rewrite Hw4. generalize (w_io w4). clear w4 Hw4. intros j.
  apply registered_by_welcome. destruct (w_clients w3 !! c) eqn:Hlive; [eauto|].
  unfold the_client in HK3. rewrite Hlive in HK3. exfalso.
  apply (f_equal cl_geoip_complete) in HK3. revert HK3. simpl. by rewrite Edone.
Qed.

End Register.

#[export] Hint Resolve command_require_registered_quiet command_send_motd_quiet command_maybe_register_keeps
  nospoof_start_keeps nospoof_handle_pong_keeps nospoof_handle_notice_keeps
  nospoof_version_target_allowed_quiet send_isupport_quiet registration_lookup_quiet apply_cloak_keeps : frame.

Lemma registration_gate_witness :
  let K := set_cl_dns_state CLIENT_DNS_VERIFIED (set_cl_user (lit "ann") (set_cl_nick (lit "ann") calloc_client)) in
  let w := set_w_clients {[ 0 := K ]} boot in
  cl_registered (the_client (command_maybe_register (E := quiet_env) 0 w).2 0) = true.
Proof.
  intros K w. destruct (registration_gate (E := quiet_env) w 0 K) as [H _];
    [reflexivity | reflexivity |]. apply H. split; [|vm_compute; reflexivity].
  split; vm_compute; [discriminate | discriminate | reflexivity | split; discriminate | left; reflexivity | discriminate].
Defined.
