(* ===== verification/Connection.v ===== *)
(** * Connection commands ([src/commands/]: [nick.c], [user.c], [pass.c], [ping.c],
    [quit.c], [away.c]) and the PMSTATS feed of [dispatch.c]

    NICK keeps the nickname table and the clients' nicknames in step. *)

From S2P Require Import Prelude CString Modes HashTable MaskMatch Output World Channel Invariant Policy Numerics Ircv3 Presence Env Cloak Register.

Definition IRC_DEFAULT_QUIT_REASON : cstr := "Client quit".
Definition IRC_AWAY_MAX : nat := 255.

(** ** The PMSTATS feed *)

(** One line to every subscriber. *)
Definition pmstats_feed (fmt : cstr) (args : list cstr) : M unit :=
  cfg ← config;
  l ← gets w_client_array;
  for_each l (λ t,
    T ← client t;
    when (cl_pmstats_enabled T) (tell t fmt (server_name cfg :: cl_nick T :: args))).

Definition server_pmstats_disconnect (K : Client) : M unit :=
  if negb (cl_registered K) || empty (cl_nick K) then mret tt else
  pmstats_feed ":%s 803 %s :%s" [cl_nick K].

Definition server_pmstats_private_message (sender receiver : cstr) : M unit :=
  pmstats_feed ":%s 801 %s :%s %s" [sender; receiver].

Definition server_pmstats_nick_change (old_nick new_nick : cstr) : M unit :=
  pmstats_feed ":%s 802 %s :%s %s" [old_nick; new_nick].

Definition pmstats_has_subscribers (w : World) : bool :=
  existsb (λ t, cl_pmstats_enabled (the_client w t)) (w_client_array w).

(** Nobody listens any more: [pmstats_server = NULL; client_set_free_hook(NULL)]. *)
Definition pmstats_release : M unit :=
  modify (λ w, if pmstats_has_subscribers w then w
               else set_w_free_hook HOOK_NONE (set_w_pmstats_server false w)).

Definition server_pmstats_set_enabled (c : ptr) (enabled : bool) : M unit :=
  upd_client c (set_cl_pmstats_enabled enabled) ;;
  if enabled then modify (λ w, set_w_free_hook HOOK_PMSTATS (set_w_pmstats_server true w)) else
  active ← gets w_pmstats_server;
  when active pmstats_release.

Definition pmstats_client_free (K : Client) : M unit :=
  active ← gets w_pmstats_server;
  when active
    (when (cl_registered K && negb (empty (cl_nick K))) (server_pmstats_disconnect K) ;;
     pmstats_release).

Definition drop_trailing_spaces (s : cstr) : cstr := reverse (drop_while (Ascii.eqb " ") (reverse s)).

Definition command_pmstats (c : ptr) (params : option cstr) : M CommandResult :=
  cfg ← config;
  K ← client c;
  let is_netadmin := client_mode_has (cl_modes K) CLIENT_MODE_NETADMIN in
  let is_stats_oper := client_mode_has (cl_modes K) CLIENT_MODE_OPER && client_mode_has (cl_modes K) CLIENT_MODE_BOT &&
                       oper_permission_has (cl_oper_permissions K) OPER_PERMISSION_STATS in
  if negb is_netadmin && negb is_stats_oper
  then reply c ":%s 421 %s PMSTATS :Unknown command" [server_name cfg; command_reply_nick K] else
  let value := drop_trailing_spaces (skip_spaces (default [] params)) in
  if strcaseeq value "on" then server_pmstats_set_enabled c true ;; keep else
  if strcaseeq value "off" then server_pmstats_set_enabled c false ;; keep else
  reply c ":%s 461 %s PMSTATS :Expected ON or OFF" [server_name cfg; command_reply_nick K].

(** ** NICK *)

Definition nick_special (ch : ascii) : bool := has_char ch "[]\`_^{|}".

Definition valid_nick_char (ch : ascii) : bool :=
  isalnum ch || Ascii.eqb ch "-" || nick_special ch.

Definition valid_nickname (nick : cstr) : bool :=
  match nick with
  | [] => false
  | ch :: rest =>
      if IRC_NICK_MAX <? length nick then false else
      if negb (isalpha ch || nick_special ch) then false else forallb valid_nick_char rest
  end.

Definition clients_share_channel (w : World) (left right : ptr) : bool :=
  existsb (λ ch, channel_has_client (the_channel w ch) right) (cl_channels (the_client w left)).

Definition broadcast_nick_change (c : ptr) (old_nick : cstr) : M unit :=
  K ← client c;
  let message := snprintf IRCD_MESSAGE_BUFFER_SIZE
    (format ":%s!%s@%s NICK :%s" [old_nick; cl_user K; cl_display_host K; cl_nick K]) in
  l ← gets w_client_array;
  for_each l (λ t,
    share ← gets (λ w, clients_share_channel w c t);
    when (negb (t =? c) && share) (_ ← send_line t message; mret tt)) ;;
  _ ← send_line c message; mret tt.

Definition service_nickname_reserved (nick : cstr) : bool :=
  strcaseeq nick "NickServ" || strcaseeq nick "ChanServ" || strcaseeq nick "MemoServ".

Definition nickserv_config_reserved_nickname (cfg : ServerConfig) (nick : cstr) : bool :=
  existsb (λ r, strcaseeq r nick) (reserved_nicks cfg).

Definition nickserv_reserved_nickname_allowed (K : Client) : bool :=
  client_mode_has (cl_modes K) CLIENT_MODE_OPER || client_mode_has (cl_modes K) CLIENT_MODE_NETADMIN.

(** The table and the client, from the old nickname to the new one; [false] when
    the entry could not be allocated, which leaves the client without a nickname. *)
Definition change_nick (c : ptr) (nick : cstr) : M bool :=
  K ← client c;
  when (negb (empty (cl_nick K)))
    (modify (λ w, set_w_clients_by_nick (hash_remove (w_clients_by_nick w) (cl_nick K)).2 w)) ;;
  let new := snprintf (IRC_NICK_MAX + 1) nick in
  upd_client c (set_cl_nick new) ;;
  ok ← alloc;
  t ← gets w_clients_by_nick;
  let '(rc, t') := hash_set ok t new c in
  modify (set_w_clients_by_nick t') ;;
  if negb (rc =? 0)%Z then upd_client c (set_cl_nick []) ;; mret false else mret true.

Section Connection.
Context `{E : Env}.

(** The rest of NICK once the name was found acceptable. *)
Definition take_nick (c : ptr) (K : Client) (nick : cstr) : M CommandResult :=
  let old_nick := snprintf (IRC_NICK_MAX + 1) (cl_nick K) in
  let announce := cl_registered K && negb (empty old_nick) in
  when announce (presence_whowas_record K (Some old_nick) ;; presence_watch_offline K (Some old_nick)) ;;
  ok ← change_nick c nick;
  if negb ok then keep else
  when announce
    (broadcast_nick_change c old_nick ;;
     presence_watch_online c ;;
     K' ← client c;
     server_pmstats_nick_change old_nick (cl_nick K')) ;;
  when (negb (cl_registered K)) (nospoof_start c) ;;
  command_maybe_register c ;;
  keep.

Definition command_nick (c : ptr) (params : option cstr) : M CommandResult :=
  cfg ← config;
  K ← client c;
  match params with
  | None | Some [] => reply c ERR_NONICKNAMEGIVEN [server_name cfg; command_reply_nick K]
  | Some params =>
      let nick := (span (Ascii.eqb " ") params).1 in
      if negb (valid_nickname nick)
      then reply c ERR_ERRONEUSNICKNAME [server_name cfg; command_reply_nick K; nick] else
      if service_nickname_reserved nick ||
         (nickserv_config_reserved_nickname cfg nick && negb (nickserv_reserved_nickname_allowed K))
      then reply c ERR_RESERVEDNICK [server_name cfg; command_reply_nick K; nick] else
      existing ← find_nick nick;
      if match existing with Some x => negb (x =? c) | None => false end
      then reply c ERR_NICKNAMEINUSE [server_name cfg; command_reply_nick K; nick] else
      take_nick c K nick
  end.

(** ** USER *)

Definition valid_user_char (ch : ascii) : bool :=
  isalnum ch || Ascii.eqb ch "-" || Ascii.eqb ch "_" || Ascii.eqb ch ".".

Definition valid_username (user : cstr) : bool :=
  if empty user || (IRC_USER_MAX <? length user) then false else forallb valid_user_char user.

Definition valid_realname (realname : cstr) : bool :=
  if empty realname || (IRC_REALNAME_MAX <? length realname) then false else
  forallb (λ ch, negb ((byte ch <? 32)%N || (byte ch =? 127)%N)) realname.

Definition command_user (c : ptr) (params : option cstr) : M CommandResult :=
  cfg ← config;
  K ← client c;
  if cl_registered K || negb (empty (cl_user K))
  then reply c ERR_ALREADYREGISTRED [server_name cfg; command_reply_nick K] else
  let need := reply c ERR_NEEDMOREPARAMS [server_name cfg; command_reply_nick K; lit "USER"] in
  match params with
  | None => need
  | Some params =>
      let '(user, rest) := strtok " " params in
      let '(mode, rest) := strtok " " rest in
      let '(unused, rest) := strtok " " rest in
      match user, mode, unused, strtok_rest rest with
      | Some user, Some _, Some _, Some realname =>
          let realname := skip_colon realname in
          if negb (valid_username user) || negb (valid_realname realname)
          then reply c ":%s 468 %s :Invalid USER identity" [server_name cfg; command_reply_nick K] else
          upd_client c (λ K, set_cl_realname (snprintf (IRC_REALNAME_MAX + 1) realname)
                               (set_cl_user (snprintf (IRC_USER_MAX + 1) user) K)) ;;
          command_maybe_register c ;;
          keep
      | _, _, _, _ => need
      end
  end.

(** ** PASS *)

Definition command_pass (c : ptr) (params : option cstr) : M CommandResult :=
  cfg ← config;
  K ← client c;
  if cl_registered K then reply c ERR_ALREADYREGISTRED [server_name cfg; cl_nick K] else
  match (params ← params; (strtok " " params).1) with
  | None => reply c ERR_NEEDMOREPARAMS [server_name cfg; command_reply_nick K; lit "PASS"]
  | Some password =>
      if empty (server_password cfg) || streq password (server_password cfg) then
        upd_client c (set_cl_pass_accepted true) ;;
        command_maybe_register c ;;
        keep
      else
        upd_client c (set_cl_pass_accepted false) ;;
        reply c ERR_PASSWDMISMATCH [server_name cfg; command_reply_nick K]
  end.

(** ** PING, PONG *)

Definition command_ping (c : ptr) (params : option cstr) : M CommandResult :=
  cfg ← config;
  let token := match params with
               | None | Some [] => server_name cfg
               | Some params => params
               end in
  let overhead := length (format ":%s PONG %s :" [server_name cfg; server_name cfg]) in
  if IRC_LINE_CONTENT_MAX <=? overhead then keep else
  reply c ":%s PONG %s :%.*s" [server_name cfg; server_name cfg; take (IRC_LINE_CONTENT_MAX - overhead) token].

Definition pong_token (params : option cstr) : option cstr :=
  params ← params;
  let token := skip_spaces params in
  let token := match after_last_space token with Some s => skip_spaces s | None => token end in
  let token := skip_colon token in
  if empty token then None else Some token.

Definition command_pong (c : ptr) (params : option cstr) : M CommandResult :=
  _ ← nospoof_handle_pong c params;
  K ← client c;
  t ← now;
  when (cl_ping_pending K && match pong_token params with
                             | Some token => streq token (cl_ping_token K)
                             | None => false
                             end)
    (upd_client c (λ K, set_cl_last_liveness_activity t (set_cl_ping_token [] (set_cl_ping_deadline 0
                          (set_cl_ping_pending false K))))) ;;
  keep.

(** ** QUIT, AWAY *)

Definition quit_wire_fits (K : Client) (reason : cstr) : bool :=
  1 + length (cl_nick K) + 1 + length (cl_user K) + 1 + length (cl_display_host K) + length (lit " QUIT :") +
  length reason <=? IRC_LINE_CONTENT_MAX.

Definition command_quit (c : ptr) (params : option cstr) : M CommandResult :=
  K ← client c;
  let reason := default [] (skip_colon <$> params) in
  let reason := if empty reason || (IRC_QUIT_REASON_MAX <? length reason) ||
                   (cl_registered K && negb (quit_wire_fits K reason))
                then IRC_DEFAULT_QUIT_REASON else reason in
  upd_client c (set_cl_quit_reason (snprintf (IRC_QUIT_REASON_MAX + 1) reason)) ;;
  mret COMMAND_DISCONNECT_CLIENT.

Definition command_away (c : ptr) (params : option cstr) : M CommandResult :=
  u ← command_require_registered c;
  if u : bool then keep else
  cfg ← config;
  K ← client c;
  let message := default [] (skip_colon <$> params) in
  if empty message then
    upd_client c (set_cl_away []) ;;
    tell c RPL_UNAWAY [server_name cfg; cl_nick K] ;;
    ircv3_away_notify c ;;
    keep
  else
    upd_client c (set_cl_away (snprintf (IRC_AWAY_MAX + 1) message)) ;;
    tell c RPL_NOWAWAY [server_name cfg; cl_nick K] ;;
    ircv3_away_notify c ;;
    keep.

(** ** Frame *)

Lemma pmstats_feed_quiet f a : does quiet (pmstats_feed f a).
Proof. unfold pmstats_feed, config, client. frames. Qed.
#[local] Hint Resolve pmstats_feed_quiet : frame.
Lemma server_pmstats_disconnect_quiet K : does quiet (server_pmstats_disconnect K).
Proof. unfold server_pmstats_disconnect. frames. Qed.
#[local] Hint Resolve server_pmstats_disconnect_quiet : frame.
Lemma pmstats_release_keeps : does keeps pmstats_release.
Proof. intros w Hw. unfold pmstats_release, modify. simpl. case_if; [by split|]. split; [by apply (wf_same_state w) | done]. Qed.
#[local] Hint Resolve pmstats_release_keeps : frame.
Lemma pmstats_client_free_keeps K : does keeps (pmstats_client_free K).
Proof. unfold pmstats_client_free. frames. Qed.
Lemma command_pmstats_keeps c p : does keeps (command_pmstats c p).
Proof. unfold command_pmstats, server_pmstats_set_enabled, config, client. frames. all: same_state. Qed.
Lemma server_pmstats_nick_change_quiet o n : does quiet (server_pmstats_nick_change o n).
Proof. unfold server_pmstats_nick_change. frames. Qed.
Lemma server_pmstats_private_message_quiet o n : does quiet (server_pmstats_private_message o n).
Proof. unfold server_pmstats_private_message. frames. Qed.
Lemma broadcast_nick_change_quiet c o : does quiet (broadcast_nick_change c o).
Proof. unfold broadcast_nick_change, client. frames. Qed.
#[local] Hint Resolve server_pmstats_nick_change_quiet broadcast_nick_change_quiet : frame.

(** The table after the old nickname was taken out. *)
Definition table_without (w : World) (c : ptr) : HashTable ptr :=
  if empty (cl_nick (the_client w c)) then w_clients_by_nick w
  else (hash_remove (w_clients_by_nick w) (cl_nick (the_client w c))).2.

Lemma change_nick_run c nick w :
  length nick ≤ IRC_NICK_MAX →
  change_nick c nick w =
    let '(rc, t') := hash_set (hd true (w_alloc w)) (table_without w c) nick c in
    let w' := set_w_alloc (tail (w_alloc w)) (set_w_clients_by_nick t' (put_client c (set_cl_nick nick) w)) in
    if (rc =? 0)%Z then (true, w') else (false, put_client c (set_cl_nick []) w').
Proof.
  intros Hl. unfold change_nick, client, table_without, when, gets, modify, alloc, upd_client, mbind, ST_bind, mret, ST_ret.
  rewrite snprintf_id by (unfold IRC_NICK_MAX in *; lia).
  destruct (empty (cl_nick (the_client w c))); cbn [negb]; simpl; destruct (hash_set _ _ nick c) as [rc t'];
    by destruct (rc =? 0)%Z.
Qed.

Lemma alter_nick_twice (m : gmap ptr Client) c a b :
  alter (set_cl_nick a) c (alter (set_cl_nick b) c m) = alter (set_cl_nick a) c m.
Proof. rewrite alter_alter_eq. by apply alter_ext. Qed.

Lemma change_nick_spec c nick w :
  wf w → is_Some (w_clients w !! c) → nick ≠ [] → length nick ≤ IRC_NICK_MAX →
  (∀ x, hash_get (w_clients_by_nick w) nick = Some x → x = c) →
  let '(ok, w') := change_nick c nick w in
  wf w' ∧ w_clients w' = alter (set_cl_nick (if ok then nick else [])) c (w_clients w) ∧
  w_config w' = w_config w.
Proof.
  intros Hw [K HK] Hne Hlen Hfree. rewrite change_nick_run by done.
  assert (Ht : others_only c w (table_without w c)).
  { unfold table_without, the_client. rewrite HK. simpl. destruct (cl_nick K) eqn:En; simpl.
    - by apply (no_nick_others c K).
    - rewrite <-En. apply remove_nick_others; [done..|]. by rewrite En. }
  assert (Hnone : hash_get (table_without w c) nick = None).
  { destruct (hash_get (table_without w c) nick) as [x|] eqn:G; [|done]. apply Ht in G as (Hx & K' & HK').
    destruct Hx. apply Hfree. apply (wf_nicks w Hw). eauto. }
  pose proof (hash_set_spec (hd true (w_alloc w)) (table_without w c) nick c (proj1 Ht)) as Hs.
  destruct (hash_set _ _ nick c) as [rc t']. destruct Hs as (Ht' & Hok & Hbad & _).
  destruct (Z.eqb_spec rc 0) as [E0|E0]; cbn iota; split_and!; try done.
  - eapply wf_same_state; [|eapply take_nick_wf; eauto]. reflexivity.
  - destruct (Hbad E0) as (_ & -> & _).
    eapply wf_same_state; [|apply (drop_nick_wf c _ w Hw Ht)]. simpl. by rewrite alter_nick_twice.
  - simpl. by rewrite alter_nick_twice.
Qed.

(** What remains after the nickname was set touches no nickname. *)
Lemma maybe_register_nick d c : does (same_at cl_nick d) (command_maybe_register c).
Proof.
  unfold command_maybe_register, registration_geo_banned, registration_dnsbl, registration_banned,
    registration_reject, registration_ban_policy_error, registration_refuse, send_welcome, presence_watch_online,
    client, config, now.
  frames. apply same_at_upd. intros K. by destruct (cloak_keeps_identity a K) as (_ & _ & ? & _).
Qed.
Lemma nospoof_start_nick d c : does (same_at cl_nick d) (nospoof_start c).
Proof. unfold nospoof_start, client, config, now. frames. Qed.
Lemma presence_watch_online_nick d c : does (same_at cl_nick d) (presence_watch_online c).
Proof. unfold presence_watch_online, client, config. frames. Qed.

#[local] Hint Resolve maybe_register_nick nospoof_start_nick presence_watch_online_nick : frame.

(** The name NICK asks for may be taken: well formed, not reserved, in nobody
    else's use. *)
Definition nick_available (w : World) (c : ptr) (nick : cstr) : Prop :=
  valid_nickname nick = true ∧ service_nickname_reserved nick = false ∧
  (nickserv_config_reserved_nickname (w_config w) nick = true → nickserv_reserved_nickname_allowed (the_client w c) = true) ∧
  ∀ d D, w_clients w !! d = Some D → fold_key (cl_nick D) = fold_key nick → d = c.

Lemma valid_nickname_length nick : valid_nickname nick = true → nick ≠ [] ∧ length nick ≤ IRC_NICK_MAX.
Proof. unfold valid_nickname. destruct nick; [done|]. case_if; [done|]. bools. done. Qed.

Lemma valid_nick_span s : empty (span (Ascii.eqb " ") s).1 = false → s ≠ [].
Proof. by destruct s. Qed.

Lemma take_nick_spec c K nick w :
  wf w → is_Some (w_clients w !! c) → valid_nickname nick = true →
  (∀ x, hash_get (w_clients_by_nick w) nick = Some x → x = c) →
  let w' := (take_nick c K nick w).2 in
  wf w' ∧ links w' = links w ∧
  (∀ d, d ≠ c → cl_nick (the_client w' d) = cl_nick (the_client w d)) ∧
  (cl_nick (the_client w' c) = nick ∨ cl_nick (the_client w' c) = []).
Proof.
  intros Hw Hlive [Hne Hlen]%valid_nickname_length Hfree. unfold take_nick. cbv zeta.
  set (announce := cl_registered K && _). rewrite run_bind.
  assert (Hcalm : does calm (when announce (presence_whowas_record K (Some (snprintf (IRC_NICK_MAX + 1) (cl_nick K))) ;;
    presence_watch_offline K (Some (snprintf (IRC_NICK_MAX + 1) (cl_nick K)))))) by frames.
  pose proof (calm_keeps _ Hcalm w Hw) as [Hw1 _]. specialize (Hcalm w).
  destruct (when announce _ w) as [u w1]. simpl in Hw1. unfold calm in Hcalm.
  injection Hcalm as E0 E1 E2 E3 E4 E5 E6 E7.
  rewrite run_bind. pose proof (change_nick_spec c nick w1 Hw1) as Hn. rewrite E2, E4 in Hn.
  specialize (Hn Hlive Hne Hlen Hfree). destruct (change_nick c nick w1) as [ok w2].
  destruct Hn as (Hw2 & Hcl & _).
  assert (Hthe : ∀ d, cl_nick (the_client w2 d) = if decide (d = c) then (if ok then nick else []) else cl_nick (the_client w d)).
  { intros d. unfold the_client. rewrite Hcl. case_decide; subst.
    - rewrite lookup_alter_eq. by destruct Hlive as [K0 ->].
    - by rewrite lookup_alter_ne by congruence. }
  assert (Hdom : links w2 = links w).
  { unfold links. rewrite Hcl. by apply (links_put c (set_cl_nick (if ok then nick else [])) w). }
  destruct ok; cbn [negb].
  2:{ simpl. split_and!; [done | done | | right]; [intros d Hd; rewrite Hthe; by rewrite decide_False|].
      rewrite Hthe. by rewrite decide_True. }
  match goal with |- context [?m w2] =>
    assert (Hk : does keeps m) by frames; assert (Hs : ∀ d, does (same_at cl_nick d) m) by (intros; frames);
    destruct (Hk w2 Hw2) as [Hw3 Hd3]; destruct (m w2) as [r w3] eqn:Em;
    assert (Hs3 : ∀ d, cl_nick (the_client w3 d) = cl_nick (the_client w2 d))
      by (intros d; specialize (Hs d w2); by rewrite Em in Hs) end.
  simpl in *. split_and!; [done | congruence | | left].
  - intros d Hd. rewrite Hs3, Hthe. by rewrite decide_False.
  - rewrite Hs3, Hthe. by rewrite decide_True.
Qed.

(** NICK answers with a line, or goes on with an available name. *)
Lemma command_nick_cases c params w :
  wf w →
  (∃ i, (command_nick c params w).2 = set_w_io i w) ∨
  (∃ p, params = Some p ∧ let nick := (span (Ascii.eqb " ") p).1 in nick_available w c nick ∧
     (∀ x, hash_get (w_clients_by_nick w) nick = Some x → x = c) ∧
     (command_nick c params w).2 = (take_nick c (the_client w c) nick w).2).
Proof.
  intros Hw. assert (Hq : ∀ m : M CommandResult, does quiet m → ∃ i, (m w).2 = set_w_io i w).
  { intros m Hm. destruct (run_quiet m w Hm) as (r & i & ->). by exists i. }
  unfold command_nick, config, client, find_nick. rewrite !run_gets.
  destruct params as [[|x p]|]; [left; apply Hq; frames | | left; apply Hq; frames]. cbv zeta.
  set (nick := (span (Ascii.eqb " ") (x :: p)).1).
  destruct (valid_nickname nick) eqn:Hv; cbn [negb]; [|left; apply Hq; frames].
  destruct (service_nickname_reserved nick) eqn:Hs; cbn [orb]; [left; apply Hq; frames|].
  destruct (_ && _) eqn:Hr; [left; apply Hq; frames|]. rewrite run_gets.
  destruct (match hash_get _ nick with Some _ => _ | None => _ end) eqn:Hx; [left; apply Hq; frames|].
  assert (Hfree : ∀ y, hash_get (w_clients_by_nick w) nick = Some y → y = c).
  { intros y Hy. rewrite Hy in Hx. bools. done. }
  right. exists (x :: p). fold nick. split_and!; [done| | done | done]. split_and!; [done..| |].
  - intros Hres. rewrite Hres in Hr. by destruct (nickserv_reserved_nickname_allowed _).
  - intros d D HD Hf. apply Hfree. apply (wf_nicks w Hw). exists D. split_and!; [done | | done].
    destruct (valid_nickname_length nick Hv) as [Hne _]. intros He. rewrite He in Hf. by destruct nick.
Qed.

Lemma command_nick_wf c p w :
  wf w → is_Some (w_clients w !! c) →
  wf (command_nick c p w).2 ∧ links (command_nick c p w).2 = links w.
Proof.
  intros Hw Hlive. destruct (command_nick_cases c p w Hw) as [(i & ->)|(p' & Hp & Hav & Hfree & ->)].
  - split; [by apply (wf_same_state w) | done].
  - destruct (take_nick_spec c (the_client w c) _ w Hw Hlive (proj1 Hav) Hfree) as (H1 & H2 & _). done.
Qed.

(** C6: NICK keeps nicknames unique.  From a consistent state it leaves a
    consistent one (each nickname in the table leads to the one client that carries
    it, up to RFC 1459 case, and every named client is found); nobody leaves or joins a
    channel and nobody else's nickname changes; and the client keeps its nickname, or gets the requested one, which then
    was well formed, not reserved and used by nobody else, or, when the table entry
    could not be allocated, is left without one. *)
Theorem command_nick_unique c params w :
  wf w → is_Some (w_clients w !! c) →
  let w' := (command_nick c params w).2 in
  wf w' ∧ links w' = links w ∧
  (∀ d, d ≠ c → cl_nick (the_client w' d) = cl_nick (the_client w d)) ∧
  (cl_nick (the_client w' c) = cl_nick (the_client w c) ∨
   ∃ p, params = Some p ∧ let nick := (span (Ascii.eqb " ") p).1 in
     nick_available w c nick ∧ (cl_nick (the_client w' c) = nick ∨ cl_nick (the_client w' c) = [])).
Proof.
  intros Hw Hlive. destruct (command_nick_cases c params w Hw) as [(i & ->)|(p & Hp & Hav & Hfree & ->)].
  - simpl. split_and!; [by apply (wf_same_state w) | done | done | by left].
  - destruct (take_nick_spec c (the_client w c) _ w Hw Hlive (proj1 Hav) Hfree) as (H1 & H2 & H3 & H4).
    split_and!; try done. right. by exists p.
Qed.

(** ** The invariant *)

Lemma command_user_keeps c p : does keeps (command_user c p).
Proof. unfold command_user. frames. Qed.
Lemma command_pass_keeps c p : does keeps (command_pass c p).
Proof. unfold command_pass. frames. Qed.
Lemma command_ping_quiet c p : does quiet (command_ping c p).
Proof. unfold command_ping. frames. Qed.
Lemma command_pong_keeps c p : does keeps (command_pong c p).
Proof. unfold command_pong. frames. Qed.
Lemma command_quit_keeps c p : does keeps (command_quit c p).
Proof. unfold command_quit. frames. Qed.
Lemma command_away_keeps c p : does keeps (command_away c p).
Proof. unfold command_away. frames. Qed.
Lemma command_motd_quiet c p : does quiet (command_motd c p).
Proof. unfold command_motd. frames. Qed.
End Connection.

#[export] Hint Resolve pmstats_client_free_keeps command_pmstats_keeps server_pmstats_disconnect_quiet
  server_pmstats_private_message_quiet command_user_keeps command_pass_keeps command_ping_quiet
  command_pong_keeps command_quit_keeps command_away_keeps command_motd_quiet : frame.
