(* ===== verification/Services.v ===== *)
(** * ChanServ and the channel log, as the channel commands use them

    The commands on channels call the services of [src/chanserv.c],
    [src/chanserv_persist.c] and [src/channel_log.c], which keep their data in SQLite.
    [Services] lists those calls; its laws state how far they may reach: a service
    changes only the channel it was called for, and of that channel neither the name
    nor the membership, it allocates memory, changes its database and sends lines.  The
    theorems about the commands are proved for every such service; [ChanServProps] shows
    that ChanServ's functions are one. *)

From S2P Require Import Prelude CString Modes HashTable MaskMatch Output World Channel Invariant.

(** Only channel [ch] may differ, within [same_channel_shape]; memory may be allocated
    and lines sent. *)
Definition serviced (ch : ptr) (w w' : World) : Prop :=
  ∃ f i k, (∀ C, same_channel_shape C (f C)) ∧ w' = set_w_io i (set_w_alloc (drop k (w_alloc w)) (put_channel ch f w)).

(** A step that only leaves traces outside the server: nothing is sent. *)
Definition silent_step (w w' : World) : Prop := quiet w w' ∧ io_log (w_io w') = io_log (w_io w).

(** ChanServ's tables stay as they are; the channel log keeps its own. *)
Definition same_tables (w w' : World) : Prop := io_chanserv (w_io w') = io_chanserv (w_io w).

(** Whether a mode may be changed under the registration's mode lock. *)
Definition chanserv_mode_change_allowed (C : Channel) (bit : ChannelModeSet) (adding : bool) : bool :=
  if (bit =? 0)%N || negb (channel_mode_has (ch_modes C) CHANNEL_MODE_REGISTERED) then true else
  if negb (ch_chanserv_policy_valid C) then false else
  Bool.eqb (negb (N.land (ch_chanserv_mode_lock C) bit =? 0)%N) adding.

Class Services := {
  (** Applies the registration's stored topic, modes and policy to the channel. *)
  chanserv_restore_channel : ptr → M unit;
  (** Restores +k, +l, +j, +L, +B and the mask lists; not 0 on failure. *)
  chanserv_persist_restore : ptr → M Z;
  (** The privileges of the client's account on a channel. *)
  chanserv_client_privileges : ptr → cstr → M ChannelPrivilegeSet;
  (** Reconciles the service privileges of the members. *)
  chanserv_sync_channel_privileges : ptr → M unit;
  (** Saves the parameter modes and mask lists. *)
  chanserv_persist_channel : ptr → M unit;
  (** [sync_member_privileges]: reconciles those of one member. *)
  sync_member_privileges : ptr → ptr → M unit;
  (** Tells the client how many memos wait for its account. *)
  memoserv_notify_unread : ptr → M unit;
  channel_log_join : ptr → ptr → M unit;
  channel_log_part : ptr → ptr → cstr → M unit;
  channel_log_quit : ptr → ptr → cstr → M unit;
  channel_log_message : ptr → ptr → cstr → bool → M unit;
  (** SET LOGGING of the channel log; [true]: the text was that command. *)
  channel_log_handle_chanserv : ptr → cstr → M bool;

  restore_channel_serviced ch : does (serviced ch) (chanserv_restore_channel ch);
  persist_restore_serviced ch : does (serviced ch) (chanserv_persist_restore ch);
  client_privileges_quiet c name : does quiet (chanserv_client_privileges c name);
  sync_channel_serviced ch : does (serviced ch) (chanserv_sync_channel_privileges ch);
  sync_member_serviced ch c : does (serviced ch) (sync_member_privileges ch c);
  notify_unread_quiet c : does quiet (memoserv_notify_unread c);
  persist_channel_quiet ch : does quiet (chanserv_persist_channel ch);
  log_join_quiet ch c : does quiet (channel_log_join ch c);
  log_part_quiet ch c reason : does quiet (channel_log_part ch c reason);
  log_quit_quiet ch c reason : does quiet (channel_log_quit ch c reason);
  log_message_silent ch c text notice : does silent_step (channel_log_message ch c text notice);
  log_handle_quiet c text : does quiet (channel_log_handle_chanserv c text);
  log_handle_tables c text : does same_tables (channel_log_handle_chanserv c text) }.

Lemma same_channel_shape_refl C : same_channel_shape C C.
Proof. by split_and!. Qed.
Lemma same_channel_shape_trans C1 C2 C3 : same_channel_shape C1 C2 → same_channel_shape C2 C3 → same_channel_shape C1 C3.
Proof. intros (A1 & A2 & A3 & A4) (B1 & B2 & B3 & B4). split_and!; [congruence..|auto]. Qed.

Lemma serviced_trans ch : Transitive (serviced ch).
Proof.
  intros w1 w2 w3 (f & i & k & Hf & ->) (g & j & l & Hg & ->). exists (g ∘ f), j, (k + l).
  split; [intros C; by eapply same_channel_shape_trans|].
  transitivity (set_w_io j (set_w_alloc (drop (k + l) (w_alloc w1)) (put_channel ch g (put_channel ch f w1)))).
  - rewrite <-drop_drop. reflexivity.
  - by rewrite put_channel_twice.
Qed.

#[export] Instance serviced_silent ch : Silent (serviced ch).
Proof.
  split; [split|].
  - intros w. exists id, (w_io w), 0. split; [intros; apply same_channel_shape_refl|]. rewrite put_channel_id. by destruct w.
  - apply serviced_trans.
  - intros w w' H. exists id, (w_io w'), 0. split; [intros; apply same_channel_shape_refl|]. rewrite put_channel_id.
    unfold quiet in H. rewrite H at 1. reflexivity.
Qed.
Lemma quiet_serviced ch w w' : quiet w w' → serviced ch w w'.
Proof. apply silent_quiet. Qed.

Lemma serviced_upd ch f : (∀ C, same_channel_shape C (f C)) → does (serviced ch) (upd_channel ch f).
Proof. intros Hf w. exists f, (w_io w), 0. split; [done|]. by destruct w. Qed.
Lemma serviced_alloc ch : does (serviced ch) alloc.
Proof.
  intros w. exists id, (w_io w), 1. split; [intros; apply same_channel_shape_refl|]. rewrite put_channel_id.
  assert (drop 1 (w_alloc w) = tail (w_alloc w)) as -> by (by destruct (w_alloc w)). reflexivity.
Qed.

(** A server without registered channels, logs or databases. *)
#[refine] Definition no_services : Services := {|
  chanserv_restore_channel _ := mret tt;
  chanserv_persist_restore _ := mret 0%Z;
  chanserv_client_privileges _ _ := mret 0%N;
  chanserv_sync_channel_privileges _ := mret tt;
  chanserv_persist_channel _ := mret tt;
  sync_member_privileges _ _ := mret tt;
  memoserv_notify_unread _ := mret tt;
  channel_log_join _ _ := mret tt;
  channel_log_part _ _ _ := mret tt;
  channel_log_quit _ _ _ := mret tt;
  channel_log_message _ _ _ _ := mret tt;
  channel_log_handle_chanserv _ _ := mret false |}.
Proof. all: intros; try (apply does_ret, _); intros w; first [apply quiet_serviced; simpl; reflexivity | by split | done]. Defined.

(** ** What the laws give *)

Lemma serviced_keeps ch w w' : serviced ch w w' → keeps w w'.
Proof.
  intros (f & i & k & Hf & ->) Hw. split; [|done]. apply (wf_same_state (put_channel ch f w)); [done|].
  apply put_channel_wf; auto.
Qed.

(** Steps that add to the channels but free none. *)
Definition grows (w w' : World) : Prop := dom (w_channels w) ⊆ dom (w_channels w').
#[export] Instance grows_silent : Silent grows.
Proof.
  split; [split; unfold grows; [intros ?; reflexivity | intros ???; set_solver]|].
  intros w w' H. unfold quiet in H. unfold grows. rewrite H. reflexivity.
Qed.

Lemma serviced_grows ch w w' : serviced ch w w' → grows w w'.
Proof. intros (f & i & k & _ & ->). unfold grows. simpl. by rewrite dom_alter_L. Qed.

Lemma serviced_same_at {A} (g : Client → A) c ch w w' : serviced ch w w' → same_at g c w w'.
Proof. intros (f & i & k & _ & ->). done. Qed.

Section Laws.
Context `{S : Services}.

Lemma serviced_all {A} (m : M A) ch (R : relation World) :
  (∀ w w', serviced ch w w' → R w w') → does (serviced ch) m → does R m.
Proof. intros H Hm w. apply H, Hm. Qed.

Lemma silent_quiet_step {A} (m : M A) : does silent_step m → does quiet m.
Proof. apply does_weaken. by intros w w' [H _]. Qed.
Lemma log_message_quiet ch c text notice : does quiet (channel_log_message ch c text notice).
Proof. apply silent_quiet_step, log_message_silent. Qed.
Lemma restore_channel_keeps ch : does keeps (chanserv_restore_channel ch).
Proof. eapply serviced_all; [apply serviced_keeps | apply restore_channel_serviced]. Qed.
Lemma persist_restore_keeps ch : does keeps (chanserv_persist_restore ch).
Proof. eapply serviced_all; [apply serviced_keeps | apply persist_restore_serviced]. Qed.
Lemma sync_channel_keeps ch : does keeps (chanserv_sync_channel_privileges ch).
Proof. eapply serviced_all; [apply serviced_keeps | apply sync_channel_serviced]. Qed.
Lemma sync_member_keeps ch c : does keeps (sync_member_privileges ch c).
Proof. eapply serviced_all; [apply serviced_keeps | apply sync_member_serviced]. Qed.
Lemma restore_channel_grows ch : does grows (chanserv_restore_channel ch).
Proof. eapply serviced_all; [apply serviced_grows | apply restore_channel_serviced]. Qed.
Lemma persist_restore_grows ch : does grows (chanserv_persist_restore ch).
Proof. eapply serviced_all; [apply serviced_grows | apply persist_restore_serviced]. Qed.
End Laws.

#[export] Hint Resolve client_privileges_quiet persist_channel_quiet log_join_quiet
  log_part_quiet log_quit_quiet log_message_quiet restore_channel_keeps persist_restore_keeps sync_channel_keeps
  sync_member_keeps notify_unread_quiet log_handle_quiet
  restore_channel_grows persist_restore_grows : frame.
#[export] Hint Extern 4 (does grows (upd_client _ _)) => intros ?; reflexivity : frame.
#[export] Hint Extern 5 (does grows _) => apply (does_quiet _); solve [eauto with frame] : frame.
