(* ===== verification/Registry.v ===== *)
(** * Connections ([src/server.c]: accepting, counting and disconnecting clients)

    The array of clients, the index by connection id, the number of connections of
    every address, and the life of a client from [accept_clients] to
    [server_disconnect].  What the sockets and TLS report is part of the input of
    [accept_clients]. *)

From S2P Require Import Prelude CString Modes HashTable MaskMatch Output World Channel Invariant Policy Tags Numerics Ircv3 Presence Env Cloak Register Connection Services.

Definition SERVER_ACCEPT_BUDGET_PER_LISTENER : nat := 32.
Definition IRC_IP_MAX : nat := 45.

Definition client_id_key (id : N) : cstr := dec (Z.of_N id).

Section Registry.
Context `{E : Env} `{S : Services}.

(** ** Addresses *)

Definition canonical_numeric_ip (ip : cstr) : option cstr :=
  if empty ip then None else
  match inet_pton_v4 ip with
  | Some a => inet_ntop_v4 a
  | None => a ← inet_pton_v6 ip; inet_ntop_v6 a
  end.

Definition numeric_ip_equal (left right : cstr) : bool :=
  match canonical_numeric_ip left, canonical_numeric_ip right with
  | Some l, Some r => streq l r
  | _, _ => false
  end.

(** ** Connections by address *)

Definition SIZE_MAX : Z := 2 ^ 64 - 1.

Definition counts_set (t : HashTable nat) : M unit := modify (set_w_connection_counts_by_ip t).

(** [true] for 0.  Replacing the count of a present key is the increment in place. *)
Definition connection_count_add (ip : cstr) : M bool :=
  match canonical_numeric_ip ip with
  | None => mret false
  | Some key =>
      t ← gets w_connection_counts_by_ip;
      match hash_get t key with
      | Some count =>
          if (Z.of_nat count =? SIZE_MAX)%Z then mret false else
          counts_set (hash_set true t key (count + 1)).2 ;; mret true
      | None =>
          record ← alloc;
          if negb record then mret false else
          entry ← alloc;
          let '(rc, t') := hash_set entry t key 1 in
          if negb (rc =? 0)%Z then mret false else counts_set t' ;; mret true
      end
  end.

Definition connection_count_remove (ip : cstr) : M unit :=
  match canonical_numeric_ip ip with
  | None => mret tt
  | Some key =>
      t ← gets w_connection_counts_by_ip;
      match hash_get t key with
      | None => mret tt
      | Some count =>
          if 1 <? count then counts_set (hash_set true t key (count - 1)).2
          else counts_set (hash_remove t key).2
      end
  end.

Definition server_connection_count_move (old_ip new_ip : cstr) : M bool :=
  match canonical_numeric_ip old_ip, canonical_numeric_ip new_ip with
  | Some old_key, Some new_key =>
      t ← gets w_connection_counts_by_ip;
      match hash_get t old_key with
      | None | Some 0 => mret false
      | Some _ =>
          if streq old_key new_key then mret true else
          added ← connection_count_add new_key;
          if negb added then mret false else
          connection_count_remove old_key ;; mret true
      end
  | _, _ => mret false
  end.

Definition server_connection_limit_ip_exempt (cfg : ServerConfig) (ip : cstr) : bool :=
  negb (empty ip) &&
  (existsb (numeric_ip_equal ip) (connection_limit_exempt_ips cfg) ||
   existsb (numeric_ip_equal ip) (map gw_ip (webirc_gateways cfg)) ||
   eline_policy_match_server BAN_EXCEPTION_CONNECTION_LIMIT ip).

Definition server_connection_limit_reached (w : World) (ip : cstr) (exclude : option Client) : bool :=
  let cfg := w_config w in
  if empty ip || (max_connections_per_ip cfg =? 0) || server_connection_limit_ip_exempt cfg ip then false else
  let key := canonical_numeric_ip ip in
  let count := default 0 (key ← key; hash_get (w_connection_counts_by_ip w) key) in
  let count := match exclude, key with
               | Some K, Some key => if (0 <? count) && numeric_ip_equal (cl_real_ip K) key then count - 1 else count
               | _, _ => count
               end in
  max_connections_per_ip cfg <=? count.

(** ** Creating and freeing clients *)

Definition presence_on_client_free (K : Client) : M unit :=
  if (cl_signon_time K =? 0)%Z || empty (cl_nick K) then mret tt else
  presence_whowas_record K None ;;
  presence_watch_offline K None.

Definition forget_client (c : ptr) (w : World) : World :=
  set_w_io (set_io_conns (delete c (io_conns (w_io w))) (w_io w)) (set_w_clients (delete c (w_clients w)) w).

Definition client_free (c : ptr) : M unit :=
  K ← client c;
  hook ← gets w_free_hook;
  match hook with
  | HOOK_NONE => mret tt
  | HOOK_PRESENCE => presence_on_client_free K
  | HOOK_PMSTATS => pmstats_client_free K
  end ;;
  modify (forget_client c).

Definition client_create_record (id : N) (ip : cstr) (now : Z) : Client :=
  let real_ip := snprintf (IRC_IP_MAX + 1) ip in
  set_cl_id id (set_cl_signon_time now (set_cl_last_activity now (set_cl_last_liveness_activity now
    (set_cl_real_ip real_ip (set_cl_display_host (snprintf (IRC_HOST_MAX + 1) real_ip) calloc_client))))).

(** A new client with its connection; [None] when memory runs out. *)
Definition client_create (id : N) (ip : cstr) (conn : Conn) : M (option ptr) :=
  ok ← alloc;
  if negb ok then mret None else
  t ← now;
  c ← gets w_next_ptr;
  modify (λ w, set_w_io (set_io_conns (<[c := conn]> (io_conns (w_io w))) (w_io w))
    (set_w_next_ptr (Datatypes.S c) (set_w_clients (<[c := client_create_record id ip t]> (w_clients w)) w))) ;;
  mret (Some c).

Definition ensure_client_capacity : M bool :=
  n ← gets (λ w, length (w_client_array w));
  capacity ← gets w_client_capacity;
  cfg ← config;
  if n <? capacity then mret true else
  let wanted := if capacity =? 0 then 16 else capacity * 2 in
  let wanted := if max_clients cfg <? wanted then max_clients cfg else wanted in
  if wanted <=? capacity then mret false else
  ok ← alloc;
  if negb ok then mret false else
  modify (set_w_client_capacity wanted) ;; mret true.

(** ** Accepting *)

(** What one [accept] reports: interrupted, nothing to accept, or a socket with its
    peer address ([None] when it cannot be determined), whether it can be made
    non-blocking, whether TLS can be set up on it, and its future writes. *)
Inductive AcceptResult :=
  | ACCEPT_INTERRUPTED
  | ACCEPT_FAILED
  | ACCEPTED (peer : option cstr) (nonblocking ssl : bool) (writes : list WriteResult) (allocs : list bool).

Definition reject (category : N) (fmt : cstr) (args : list cstr) : M unit := snotice_broadcast category fmt args.

Definition id_index_add (id : N) (c : ptr) : M bool :=
  ok ← alloc;
  t ← gets w_clients_by_id;
  let '(rc, t') := hash_set ok t (client_id_key id) c in
  if negb (rc =? 0)%Z then mret false else modify (set_w_clients_by_id t') ;; mret true.

Definition id_index_remove (id : N) : M unit :=
  modify (λ w, set_w_clients_by_id (hash_remove (w_clients_by_id w) (client_id_key id)).2 w).

(** The lookups a new client starts with. *)
Definition start_lookups (use_tls : bool) (id : N) (c : ptr) (real_ip : cstr) : M unit :=
  cfg ← config;
  t ← now;
  upd_client c (λ K, set_cl_dns_deadline (t + dns_timeout_seconds cfg)%Z (set_cl_dns_state CLIENT_DNS_PENDING K)) ;;
  when (negb use_tls) (tell c NOTICE_STARTDNS [server_name cfg]) ;;
  when (negb (dns_resolver_submit id real_ip))
    (upd_client c (set_cl_dns_state CLIENT_DNS_FAILED) ;;
     snotice_broadcast SNOTICE_DNS "FCrDNS submission failed for %s" [real_ip] ;;
     when (negb use_tls) (tell c NOTICE_FAILDNS [server_name cfg])).

(** The rest of the loop body, once the client object exists. *)
Definition accept_created (use_tls ssl : bool) (id : N) (ip : cstr) (c : ptr) : M unit :=
  if use_tls && negb ssl then
    reject SNOTICE_SECURITY "TLS connection setup failed from %s" [ip] ;; client_free c
  else
  indexed ← id_index_add id c;
  if negb indexed then
    reject SNOTICE_FLOOD "Connection rejected from %s: client ID index allocation failure" [ip] ;; client_free c
  else
  K ← client c;
  counted ← connection_count_add (cl_real_ip K);
  if negb counted then
    reject SNOTICE_FLOOD "Connection rejected from %s: per-IP index allocation failure" [ip] ;;
    id_index_remove id ;;
    client_free c
  else
  modify (λ w, set_w_client_array (w_client_array w ++ [c]) w) ;;
  snotice_broadcast SNOTICE_CONNECTIONS "Client connection accepted: real_ip=%s transport=%s"
    [cl_real_ip K; if use_tls then lit "TLS" else lit "plain"] ;;
  start_lookups use_tls id c (cl_real_ip K).

Definition accept_one (use_tls : bool) (peer : option cstr) (nonblocking ssl : bool)
    (writes : list WriteResult) (allocs : list bool) : M unit :=
  cfg ← config;
  n ← gets (λ w, length (w_client_array w));
  match peer with
  | None => reject SNOTICE_FLOOD "Connection rejected: unable to determine peer IP" []
  | Some ip =>
      if max_clients cfg <=? n then
        reject SNOTICE_FLOOD "Connection rejected from %s: global client limit reached (%zu/%zu)"
          [ip; dec_nat n; dec_nat (max_clients cfg)] else
      limited ← gets (λ w, server_connection_limit_reached w ip None);
      if limited : bool then
        reject (N.lor SNOTICE_FLOOD SNOTICE_SECURITY)
          "Connection rejected from %s: per-IP concurrent connection limit reached (%zu)"
          [ip; dec_nat (max_connections_per_ip cfg)] else
      last_id ← gets w_next_client_id;
      if (last_id =? 18446744073709551615)%N then
        reject SNOTICE_FLOOD "Connection rejected from %s: client ID space exhausted" [ip] else
      capacity ← ensure_client_capacity;
      if negb capacity || negb nonblocking then
        reject SNOTICE_FLOOD "Connection rejected from %s: server resource allocation/setup failure" [ip] else
      let id := (last_id + 1)%N in
      modify (set_w_next_client_id id) ;;
      created ← client_create id ip
        (client_set_output_limit (conn_create use_tls writes allocs) (output_queue_max_bytes cfg));
      match created with
      | None => reject SNOTICE_FLOOD "Connection rejected from %s: client allocation failure" [ip]
      | Some c => accept_created use_tls ssl id ip c
      end
  end.

(** [handled] counts towards the budget; the list is what [accept] will report. *)
Fixpoint accept_clients (use_tls : bool) (handled : nat) (pending : list AcceptResult) : M unit :=
  match pending with
  | [] | ACCEPT_FAILED :: _ => mret tt
  | ACCEPT_INTERRUPTED :: rest =>
      if SERVER_ACCEPT_BUDGET_PER_LISTENER <=? handled then mret tt else accept_clients use_tls handled rest
  | ACCEPTED peer nonblocking ssl writes allocs :: rest =>
      if SERVER_ACCEPT_BUDGET_PER_LISTENER <=? handled then mret tt else
      accept_one use_tls peer nonblocking ssl writes allocs ;;
      accept_clients use_tls (Datatypes.S handled) rest
  end.

(** ** Disconnecting *)

(** [while (client->channels != NULL)]; every round drops a link of the client. *)
Fixpoint leave_all (fuel : nat) (c : ptr) (reason : cstr) : M unit :=
  match fuel with
  | 0 => mret tt
  | Datatypes.S fuel' =>
      K ← client c;
      match cl_channels K with
      | [] => mret tt
      | ch :: _ =>
          when (cl_registered K) (channel_log_quit ch c reason) ;;
          channel_remove_client ch c ;;
          server_remove_channel_if_empty ch ;;
          leave_all fuel' c reason
      end
  end.

(** [clients[i] = clients[count - 1]; --count]. *)
Fixpoint replace_first (c last : ptr) (l : list ptr) : list ptr :=
  match l with
  | [] => []
  | x :: l => if x =? c then last :: l else x :: replace_first c last l
  end.
Definition array_remove (c : ptr) (l : list ptr) : list ptr :=
  if existsb (Nat.eqb c) l then
    match last l with Some z => removelast (replace_first c z l) | None => l end
  else l.

Definition or_star (s : cstr) : cstr := if empty s then lit "*" else s.

Definition server_disconnect (c : ptr) (reason : option cstr) : M unit :=
  let quit_reason := default IRC_DEFAULT_QUIT_REASON reason in
  K ← client c;
  when (cl_registered K) (server_pmstats_disconnect K) ;;
  snotice_broadcast SNOTICE_CONNECTIONS
    "Client disconnect: nick=%s user=%s display_host=%s real_ip=%s real_host=%s registered=%s reason=%s"
    [or_star (cl_nick K); or_star (cl_user K);
     if empty (cl_display_host K) then cl_real_ip K else cl_display_host K; cl_real_ip K;
     if empty (cl_real_host K) then lit "-" else cl_real_host K;
     if cl_registered K then lit "yes" else lit "no"; quit_reason] ;;
  when (cl_registered K)
    (let quit_message := snprintf IRCD_MESSAGE_BUFFER_SIZE
       (format ":%s!%s@%s QUIT :%s" [cl_nick K; cl_user K; cl_display_host K; quit_reason]) in
     l ← gets w_client_array;
     for_each l (λ candidate,
       share ← gets (λ w, negb (candidate =? c) && clients_share_channel w c candidate);
       when share (_ ← send_line candidate quit_message; mret tt))) ;;
  leave_all (length (cl_channels K)) c quit_reason ;;
  when (negb (empty (cl_nick K)))
    (modify (λ w, set_w_clients_by_nick (hash_remove (w_clients_by_nick w) (cl_nick K)).2 w)) ;;
  id_index_remove (cl_id K) ;;
  connection_count_remove (cl_real_ip K) ;;
  modify (λ w, set_w_client_array (array_remove c (w_client_array w)) w) ;;
  upd_client c (set_cl_registered false) ;;
  client_free c.

Definition server_find_client_by_id (id : N) : M (option ptr) :=
  gets (λ w, hash_get (w_clients_by_id w) (client_id_key id)).

End Registry.
