(* ===== verification/RegistryProps.v ===== *)
(** * What the registry of connections guarantees

    [leave_all] and [server_disconnect] take a client out of every structure that
    mentions it and touch nothing else; [registry_ok] says that the client array, the
    index by id and the counters by address describe exactly the live clients, and
    accepting and disconnecting keep it so. *)

From S2P Require Import Prelude CString Modes HashTable MaskMatch Output World Channel Invariant Policy Tags Numerics Ircv3 Presence Env Cloak Register Connection Services Registry.

(** ** What disconnecting leaves behind *)

(** The channel without [c]; [None] when nobody is left. *)
Definition depart (c : ptr) (C : Channel) : option Channel :=
  if bool_decide (c ∈ member_ids C) then
    let C' := drop_member c C in
    if ch_member_count C' =? 0 then None else Some C'
  else Some C.

Lemma depart_id c C : c ∉ member_ids C → depart c C = Some C.
Proof. intros H. unfold depart. by rewrite bool_decide_eq_false_2. Qed.

Lemma depart_twice c C C' : channel_ok C → depart c C = Some C' → depart c C' = Some C'.
Proof.
  intros HC. unfold depart at 1. destruct (bool_decide _) eqn:E; bools.
  - case_if; [done|]. intros [= <-]. apply depart_id. intros Hin.
    by apply (drop_member_ok c C HC) in Hin as [_ ?].
  - intros [= <-]. by apply depart_id.
Qed.

(** [c] is on no channel any more: its channel list is empty, and so is its entry in
    every channel. *)
Definition unlink (K : Client) : Client := set_cl_channels [] (set_cl_channel_count 0 K).

(** Fields of the server that the registry of connections consists of. *)
Definition registry_part (w : World) :=
  (w_config w, w_client_array w, w_next_client_id w, w_clients_by_id w, w_connection_counts_by_ip w,
   w_client_capacity w, w_clients_by_nick w, w_next_ptr w).

(** Only the channels and the channel list of [c] may differ. *)
Definition relinked (c : ptr) (w w' : World) : Prop :=
  registry_part w' = registry_part w ∧
  (∀ x, x ≠ c → w_clients w' !! x = w_clients w !! x) ∧
  unlink <$> w_clients w' !! c = unlink <$> w_clients w !! c.

#[export] Instance relinked_silent c : Silent (relinked c).
Proof.
  split.
  - split; [done|]. intros w1 w2 w3 (A1 & A2 & A3) (B1 & B2 & B3).
    split_and!; [congruence| |congruence]. intros x Hx. by rewrite B2, A2.
  - intros w w' H. unfold quiet in H. rewrite H. done.
Qed.

Lemma drop_link_unlink ch K : unlink (drop_link ch K) = unlink K.
Proof. unfold drop_link. by destruct (remove_first _ _) as [[] l]. Qed.

Lemma remove_client_relinked ch c : does (relinked c) (channel_remove_client ch c).
Proof.
  intros w. split_and!; [done| |].
  - intros x Hx. simpl. by rewrite lookup_alter_ne by congruence.
  - simpl. rewrite lookup_alter_eq. destruct (w_clients w !! c); simpl; [|done]. by rewrite drop_link_unlink.
Qed.

Lemma remove_if_empty_relinked ch c : does (relinked c) (server_remove_channel_if_empty ch).
Proof.
  intros w. split_and!; [|by rewrite (proj1 (server_remove_channel_if_empty_same ch w))..].
  unfold server_remove_channel_if_empty, channel, gets, modify, channel_free, mbind, ST_bind. simpl.
  case_if; [done|]. destruct (hash_remove _ _) as [[p|] t']; simpl; [|done].
  by destruct (0 <? w_channel_count w).
Qed.

#[export] Hint Resolve remove_client_relinked remove_if_empty_relinked : frame.
#[export] Hint Extern 5 (does (relinked _) _) => apply (does_quiet _); solve [eauto with frame] : frame.

(** One round: [c] leaves the first channel of its list. *)
Lemma drop_first_link ch l K : cl_channels K = ch :: l → cl_channels (drop_link ch K) = l.
Proof. intros H. unfold drop_link. rewrite H. simpl. by rewrite Nat.eqb_refl. Qed.

Lemma remove_client_channels ch c w C :
  wf w → w_channels w !! ch = Some C → c ∈ member_ids C →
  w_channels ((channel_remove_client ch c ;; server_remove_channel_if_empty ch) w).2 =
  match depart c C with Some C' => <[ch := C']> (w_channels w) | None => delete ch (w_channels w) end.
Proof.
  intros Hw HC Hin. destruct (remove_client_left ch c w Hw) as (Hw1 & _ & _).
  rewrite run_bind. destruct (channel_remove_client ch c w) as [u w1] eqn:E1. simpl in Hw1.
  assert (E : w_channels w1 = <[ch := drop_member c C]> (w_channels w)).
  { injection E1 as _ <-. simpl. apply map_eq. intros i. destruct (decide (i = ch)) as [->|].
    - by rewrite lookup_alter_eq, lookup_insert_eq, HC.
    - by rewrite lookup_alter_ne, lookup_insert_ne. }
  assert (HC1 : w_channels w1 !! ch = Some (drop_member c C)) by (by rewrite E, lookup_insert_eq).
  unfold depart. rewrite bool_decide_eq_true_2 by done.
  rewrite (remove_if_empty_all ch w1 _ Hw1 HC1).
  destruct (ch_member_count (drop_member c C) =? 0); [|done]. by rewrite E, delete_insert_eq.
Qed.

(** A client with an empty channel list is on no channel. *)
Lemma unlinked_channels c w K :
  wf w → w_clients w !! c = Some K → cl_channels K = [] → w_channels w = omap (depart c) (w_channels w).
Proof.
  intros Hw HK El. apply map_eq. intros ch. rewrite lookup_omap. destruct (w_channels w !! ch) as [C|] eqn:HC; simpl; [|done].
  symmetry. apply depart_id. intros Hin. assert (linked_to w c ch) as (K' & HK' & Hl) by (apply (wf_symmetric w Hw); by exists C).
  rewrite HK in HK'. simplify_eq. rewrite El in Hl. by apply elem_of_nil in Hl.
Qed.

Lemma unlinked_self c w K : wf w → w_clients w !! c = Some K → cl_channels K = [] → w_clients w !! c = Some (unlink K).
Proof.
  intros Hw HK El. rewrite HK. f_equal. destruct (wf_clients w Hw c K HK) as [_ Hc].
  rewrite El in Hc. destruct K. simpl in *. by subst.
Qed.

(** Departing from one channel and then from all. *)
Lemma depart_rest c ch C (m : gmap ptr Channel) :
  m !! ch = Some C → channel_ok C →
  omap (depart c) (match depart c C with Some C' => <[ch := C']> m | None => delete ch m end) = omap (depart c) m.
Proof.
  intros HC Hok. apply map_eq. intros i. rewrite !lookup_omap. destruct (decide (i = ch)) as [->|Hi].
  - rewrite HC. simpl. destruct (depart c C) as [C'|] eqn:E.
    + rewrite lookup_insert_eq. simpl. by apply (depart_twice c C).
    + by rewrite lookup_delete_eq.
  - destruct (depart c C); by rewrite ?lookup_insert_ne, ?lookup_delete_ne by congruence.
Qed.

Section Disconnect.
Context `{E : Env} `{S : Services}.

Lemma leave_all_relinked fuel c reason : does (relinked c) (leave_all fuel c reason).
Proof. induction fuel; simpl; frames. Qed.

(** The loop takes [c] off every channel and frees those it leaves empty. *)
Lemma leave_all_spec fuel c reason w K :
  wf w → w_clients w !! c = Some K → length (cl_channels K) ≤ fuel →
  let w' := (leave_all fuel c reason w).2 in
  wf w' ∧ w_channels w' = omap (depart c) (w_channels w) ∧ w_clients w' !! c = Some (unlink K).
Proof.
  revert w K. induction fuel as [|fuel IH]; intros w K Hw HK Hlen w'.
  - destruct (cl_channels K) as [|ch l] eqn:El; [|simpl in Hlen; lia].
    split_and!; [done | by apply (unlinked_channels c w K) | by apply (unlinked_self c w K)].
  - unfold w'. cbn [leave_all]. unfold client. rewrite run_gets. unfold the_client. rewrite HK. cbn [default from_option id].
    destruct (cl_channels K) as [|ch l] eqn:El.
    { split_and!; [done | by apply (unlinked_channels c w K) | by apply (unlinked_self c w K)]. }
    apply (quiet_step _ _ w (λ r, wf r.2 ∧ w_channels r.2 = omap (depart c) (w_channels w) ∧ w_clients r.2 !! c = Some (unlink K))).
    { frames. }
    intros _ i. set (v := set_w_io i w).
    assert (Hv : wf v) by (by apply (wf_same_state w)).
    assert (member_of v c ch) as (C & HC & Hin).
    { apply (wf_symmetric v Hv). exists K. split; [done|]. rewrite El. by left. }
    pose proof (remove_client_channels ch c v C Hv HC Hin) as Hch.
    destruct (leave_spec ch c v Hv) as [(Hw1 & _ & _) _].
    set (next := (channel_remove_client ch c ;; server_remove_channel_if_empty ch) v) in *.
    assert (Hnext : (channel_remove_client ch c ;; server_remove_channel_if_empty ch ;; leave_all fuel c reason) v =
      leave_all fuel c reason next.2) by (by unfold next; rewrite !run_bind; destruct (channel_remove_client ch c v) as [? v1]; rewrite run_bind; destruct (server_remove_channel_if_empty ch v1)).
    rewrite Hnext. assert (HK1 : w_clients next.2 !! c = Some (drop_link ch K)).
    { unfold next. rewrite run_bind. destruct (channel_remove_client ch c v) as [u v1] eqn:E1.
      rewrite (proj1 (server_remove_channel_if_empty_same ch v1)). injection E1 as _ <-. simpl.
      by rewrite lookup_alter_eq, HK. }
    destruct (IH next.2 (drop_link ch K) Hw1 HK1) as (I1 & I2 & I3).
    { rewrite (drop_first_link ch l K El). simpl in Hlen. lia. }
    rewrite drop_link_unlink in I3. split_and!; [done| |done].
    rewrite I2, Hch. apply depart_rest; [done | by apply (wf_channels w Hw ch)].
Qed.

End Disconnect.

(** ** Identifiers *)

Lemma lit_inj a b : lit a = lit b → a = b.
Proof. intros H. rewrite <-(String.string_of_list_ascii_of_string a), <-(String.string_of_list_ascii_of_string b). unfold lit in H. by rewrite H. Qed.

Lemma digit_unfolded n : irc_fold (pretty_N_char n) = pretty_N_char n.
Proof. unfold pretty_N_char. by repeat case_match. Qed.

Lemma digits_unfolded n s : fold_key (lit s) = lit s → fold_key (lit (pretty_N_go n s)) = lit (pretty_N_go n s).
Proof.
  revert s. induction (N.lt_wf_0 n) as [n _ IH]; intros s Hs. destruct (decide (n = 0%N)) as [->|Hn]; [done|].
  rewrite pretty_N_go_step by lia. apply IH; [apply N.div_lt; lia|].
  change (irc_fold (pretty_N_char (n `mod` 10)) :: fold_key (lit s) = pretty_N_char (n `mod` 10) :: lit s).
  by rewrite digit_unfolded, Hs.
Qed.

(** The decimal digits of two ids fold to different keys. *)
Lemma client_id_key_inj a b : fold_key (client_id_key a) = fold_key (client_id_key b) → a = b.
Proof.
  assert (Hu : ∀ id, fold_key (client_id_key id) = client_id_key id).
  { intros [|p]; [done|]. exact (digits_unfolded (Npos p) "" eq_refl). }
  rewrite !Hu. intros H%lit_inj%(inj pretty). lia.
Qed.

(** ** The registry *)

(** Id and address of every live client. *)
Definition identities (w : World) : gmap ptr (N * cstr) := (λ K, (cl_id K, cl_real_ip K)) <$> w_clients w.

Section Counts.
Context `{E : Env}.

Definition address_key (ip : cstr) : option cstr := fold_key <$> canonical_numeric_ip ip.

(** A canonical address is its own canonical form. *)
Lemma canonical_idempotent ip key : canonical_numeric_ip ip = Some key → canonical_numeric_ip key = Some key.
Proof.
  unfold canonical_numeric_ip. destruct (empty ip); [done|]. destruct (inet_pton_v4 ip) as [a|].
  - intros H. destruct (inet_v4_round_trip a key H) as [Hne ->]. by destruct key.
  - intros (a & _ & H)%bind_Some. destruct (inet_v6_round_trip a key H) as (Hne & -> & ->). by destruct key.
Qed.

(** How many of these clients come from the address [key]. *)
Definition from (key : cstr) (m : gmap ptr (N * cstr)) : nat :=
  size (filter (λ p, address_key p.2.2 = Some (fold_key key)) m).

Lemma from_insert key c id ip (m : gmap ptr (N * cstr)) :
  m !! c = None → from key (<[c := (id, ip)]> m) = (if decide (address_key ip = Some (fold_key key)) then 1 else 0) + from key m.
Proof.
  intros Hc. unfold from. rewrite map_filter_insert. case_decide; simpl.
  - rewrite decide_True by done. rewrite map_size_insert_None; [done|]. apply map_lookup_filter_None. by left.
  - rewrite decide_False by done. by rewrite delete_id.
Qed.

Lemma from_delete key c id ip (m : gmap ptr (N * cstr)) :
  m !! c = Some (id, ip) → from key m = (if decide (address_key ip = Some (fold_key key)) then 1 else 0) + from key (delete c m).
Proof.
  intros Hc. rewrite <-(insert_delete_id m c (id, ip) Hc) at 1. apply from_insert, lookup_delete_eq.
Qed.

(** The counters say for every address how many clients come from it. *)
Definition counts_ok (t : HashTable nat) (m : gmap ptr (N * cstr)) : Prop :=
  table_wf t ∧ ∀ key, hash_get t key = if from key m =? 0 then None else Some (from key m).

Lemma from_key key k m : fold_key key = fold_key k → from key m = from k m.
Proof. intros H. unfold from. by rewrite H. Qed.

Lemma counts_up alloc t m c id ip key :
  counts_ok t m → m !! c = None → canonical_numeric_ip ip = Some key →
  let '(rc, t') := hash_set alloc t key (from key m + 1) in
  (rc = 0%Z → counts_ok t' (<[c := (id, ip)]> m)) ∧ (rc ≠ 0%Z → t' = t) ∧ (alloc = true → rc = 0%Z).
Proof.
  intros [Ht Hget] Hc Ek. pose proof (hash_set_spec alloc t key (from key m + 1) Ht) as H.
  destruct (hash_set _ _ _ _) as [rc t']. destruct H as (Ht' & Hok & Hbad & Hrc).
  split_and!; [|intros Hne; apply (Hbad Hne)|done]. intros H0. split; [done|]. intros k. rewrite Hok by done.
  rewrite from_insert by done. unfold address_key. rewrite Ek. simpl. destruct (decide (fold_key key = fold_key k)) as [Hk|Hk].
  - rewrite decide_True by (by rewrite Hk). rewrite (from_key key k) by done. simpl. f_equal. lia.
  - rewrite decide_False by congruence. apply Hget.
Qed.

Lemma count_add_spec ip w m c id :
  counts_ok (w_connection_counts_by_ip w) m → m !! c = None →
  let '(ok, w') := connection_count_add ip w in
  ∃ t l, w' = set_w_alloc l (set_w_connection_counts_by_ip t w) ∧
    if ok : bool then counts_ok t (<[c := (id, ip)]> m) else t = w_connection_counts_by_ip w.
Proof.
  intros Hm Hc. unfold connection_count_add.
  assert (Hno : ∀ l, ∃ t l', set_w_alloc l w = set_w_alloc l' (set_w_connection_counts_by_ip t w) ∧ t = w_connection_counts_by_ip w).
  { intros l. eexists _, l. split; [|reflexivity]. by destruct w. }
  assert (Hsame : w = set_w_alloc (w_alloc w) w) by (by destruct w).
  destruct (canonical_numeric_ip ip) as [key|] eqn:Ek; [|simpl; rewrite Hsame; apply Hno].
  rewrite run_gets. pose proof (proj2 Hm key) as Hget. rewrite Hget. destruct (from key m =? 0) eqn:E0; bools.
  - unfold alloc, counts_set. rewrite run_bind. destruct (hd true (w_alloc w)); cbn [negb];
[|apply Hno].
    rewrite run_bind. set (a := hd true _). pose proof (counts_up a _ m c id ip key Hm Hc Ek) as H. rewrite E0 in H.
    change (w_connection_counts_by_ip (set_w_alloc _ w)) with (w_connection_counts_by_ip w).
    change (0 + 1) with 1 in H. destruct (hash_set a _ key 1) as [rc t']. destruct H as (Hok & Hbad & _).
    destruct (Z.eqb_spec rc 0) as [Erc|Erc]; cbn [negb].
    + eexists t', _. split; [reflexivity|]. auto.
    + apply Hno.
  - cbv beta iota. case_if; [simpl; rewrite Hsame; apply Hno|]. unfold counts_set. rewrite run_modify.
    pose proof (counts_up true _ m c id ip key Hm Hc Ek) as H.
    destruct (hash_set true _ key _) as [rc t']. destruct H as (Hok & _ & Hrc).
    exists t', (w_alloc w). split; [destruct w; reflexivity | by apply Hok, Hrc].
Qed.

Lemma count_remove_spec w m c id ip :
  counts_ok (w_connection_counts_by_ip w) m → m !! c = Some (id, ip) →
  ∃ t, connection_count_remove ip w = (tt, set_w_connection_counts_by_ip t w) ∧ counts_ok t (delete c m).
Proof.
  intros [Ht Hget] Hc. unfold connection_count_remove.
  destruct (canonical_numeric_ip ip) as [key|] eqn:Ek.
  2:{ exists (w_connection_counts_by_ip w). split; [by destruct w|]. split; [done|]. intros k. rewrite Hget.
      rewrite (from_delete k c id ip m Hc). unfold address_key. by rewrite Ek. }
  assert (Hdel : ∀ k, from k m = (if decide (fold_key key = fold_key k) then 1 else 0) + from k (delete c m)).
  { intros k. rewrite (from_delete k c id ip m Hc). unfold address_key. rewrite Ek. simpl.
    f_equal. destruct (decide (fold_key key = fold_key k)) as [->|]; [by rewrite decide_True | rewrite decide_False; congruence]. }
  assert (Hpos : from key m = 1 + from key (delete c m)) by (rewrite Hdel; by rewrite decide_True).
  rewrite run_gets, Hget. destruct (from key m =? 0) eqn:E0; bools; [lia|].
  case_if; bools; unfold counts_set, modify.
  - pose proof (hash_set_spec true (w_connection_counts_by_ip w) key (from key m - 1) Ht) as H.
    destruct (hash_set _ _ _ _) as [rc t']. destruct H as (Ht' & Hok & _ & Hrc). exists t'. split; [done|].
    split; [done|]. intros k. rewrite (Hok (Hrc eq_refl)), Hget. rewrite (Hdel k).
    destruct (decide (fold_key key = fold_key k)) as [Hk|Hk]; [|done].
    rewrite <-(from_key key k) by done. destruct (from key (delete c m) =? 0) eqn:E1; bools; [lia|]. f_equal. lia.
  - pose proof (hash_remove_spec (w_connection_counts_by_ip w) key Ht) as H.
    destruct (hash_remove _ _) as [r t']. destruct H as (Ht' & _ & Hrem). exists t'. split; [done|].
    split; [done|]. intros k. rewrite Hrem, Hget, (Hdel k).
    destruct (decide (fold_key key = fold_key k)) as [Hk|Hk]; [|done].
    rewrite <-(from_key key k) by done. destruct (from key (delete c m) =? 0) eqn:E1; bools; [done | lia].
Qed.
Lemma count_remove_run ip w :
  ∃ t, connection_count_remove ip w = (tt, set_w_connection_counts_by_ip t w) ∧
    ∀ m c id, counts_ok (w_connection_counts_by_ip w) m → m !! c = Some (id, ip) → counts_ok t (delete c m).
Proof.
  assert (∃ t, connection_count_remove ip w = (tt, set_w_connection_counts_by_ip t w)) as [t Ht].
  { assert (Hid : w = set_w_connection_counts_by_ip (w_connection_counts_by_ip w) w) by (by destruct w).
    unfold connection_count_remove. destruct (canonical_numeric_ip ip); [|exists (w_connection_counts_by_ip w); by rewrite <-Hid].
    rewrite run_gets. destruct (hash_get _ _); [case_if; eexists; reflexivity|].
    exists (w_connection_counts_by_ip w). by rewrite <-Hid. }
  exists t. split; [done|]. intros m c id Hm Hc. destruct (count_remove_spec w m c id ip Hm Hc) as (t' & Ht' & Hok).
  rewrite Ht in Ht'. apply (f_equal (λ r, w_connection_counts_by_ip r.2)) in Ht'. simpl in Ht'. by rewrite Ht'.
Qed.
End Counts.

Section Live.
Context `{E : Env} `{S : Services}.

(** The client array, the index by id and the counters by address describe the live
    clients; ids have been issued; the array fits its allocation. *)
Record registry_ok (w : World) : Prop := {
  reg_nodup : NoDup (w_client_array w);
  reg_array : ∀ c, c ∈ w_client_array w ↔ is_Some (identities w !! c);
  reg_ids : table_wf (w_clients_by_id w) ∧ ∀ id c,
    hash_get (w_clients_by_id w) (client_id_key id) = Some c ↔ ∃ ip, identities w !! c = Some (id, ip);
  reg_issued : ∀ c id ip, identities w !! c = Some (id, ip) → (id ≤ w_next_client_id w)%N;
  reg_counts : counts_ok (w_connection_counts_by_ip w) (identities w);
  reg_capacity : length (w_client_array w) ≤ w_client_capacity w }.

(** What the registry depends on. *)
Definition same_registry (w w' : World) : Prop :=
  registry_part w' = registry_part w ∧ identities w' = identities w.

#[export] Instance same_registry_silent : Silent same_registry.
Proof.
  split.
  - split; [done|]. intros w1 w2 w3 [] []. split; congruence.
  - intros w w' H. unfold quiet in H. rewrite H. done.
Qed.

Lemma same_registry_ok w w' : same_registry w w' → registry_ok w → registry_ok w'.
Proof.
  intros [Hp Hi] [H1 H2 H3 H4 H5 H6]. unfold registry_part in Hp. injection Hp as E1 E2 E3 E4 E5 E6 E7 E8.
  split; rewrite ?E2, ?E3, ?E4, ?E5, ?E6, ?Hi; auto.
Qed.

Lemma replace_first_split c z l1 l2 : c ∉ l1 → replace_first c z (l1 ++ c :: l2) = l1 ++ z :: l2.
Proof.
  induction l1 as [|x l1 IH]; simpl; intros H; [by rewrite Nat.eqb_refl|].
  apply not_elem_of_cons in H as [Hx H]. rewrite (proj2 (Nat.eqb_neq x c)) by congruence. by rewrite IH.
Qed.

Lemma array_remove_spec c l :
  NoDup l → c ∈ l → NoDup (array_remove c l) ∧ (∀ x, x ∈ array_remove c l ↔ x ∈ l ∧ x ≠ c) ∧
  length l = Datatypes.S (length (array_remove c l)).
Proof.
  intros Hnd Hin. unfold array_remove.
  assert (existsb (Nat.eqb c) l = true) as ->.
  { apply existsb_exists. exists c. split; [by apply list_elem_of_In | apply Nat.eqb_refl]. }
  apply list_elem_of_split in Hin as (l1 & l2 & ->).
  assert (Hc1 : c ∉ l1) by (intros H; apply NoDup_app in Hnd as (_ & Hd & _); apply (Hd c H); by left).
  destruct l2 as [|z l2 _] using rev_ind.
  - rewrite last_snoc, replace_first_split, List.removelast_last by done. rewrite NoDup_app in Hnd.
    split_and!; [naive_solver| |rewrite length_app; simpl; lia]. intros x. set_solver.
  - replace (l1 ++ c :: l2 ++ [z]) with ((l1 ++ c :: l2) ++ [z]) in * by (by rewrite <-app_assoc).
    rewrite last_snoc. rewrite <-app_assoc. cbn [app]. rewrite replace_first_split by done.
    replace (l1 ++ z :: l2 ++ [z]) with ((l1 ++ z :: l2) ++ [z]) by (by rewrite <-app_assoc).
    rewrite List.removelast_last.
    assert (Hp : (l1 ++ c :: l2) ++ [z] ≡ₚ c :: (l1 ++ z :: l2)) by (solve_Permutation).
    rewrite Hp in Hnd. apply NoDup_cons in Hnd as [Hnot Hnd]. split_and!; [done| |].
    + intros x. replace (l1 ++ c :: l2 ++ [z]) with ((l1 ++ c :: l2) ++ [z]) by (by rewrite <-app_assoc).
      rewrite Hp, elem_of_cons. naive_solver.
    + replace (l1 ++ c :: l2 ++ [z]) with ((l1 ++ c :: l2) ++ [z]) by (by rewrite <-app_assoc).
      rewrite Hp. done.
Qed.

(** Steps after which only the books of the finished client and the output differ. *)
Definition settled (w w' : World) : Prop :=
  (registry_part w', w_clients w', w_channels w', w_channels_by_name w', w_channel_count w') =
  (registry_part w, w_clients w, w_channels w, w_channels_by_name w, w_channel_count w).

#[export] Instance settled_silent : Silent settled.
Proof.
  split; [split; unfold settled; [done | intros ???; congruence]|].
  intros w w' H. unfold quiet in H. by rewrite H.
Qed.
#[local] Hint Extern 4 (does settled (modify _)) => intros ?; reflexivity : frame.
#[local] Hint Extern 5 (does settled _) => apply (does_quiet _); solve [eauto with frame] : frame.

Lemma presence_on_client_free_settled K : does settled (presence_on_client_free K).
Proof. unfold presence_on_client_free, presence_whowas_record. frames. Qed.
Lemma pmstats_client_free_settled K : does settled (pmstats_client_free K).
Proof.
  pose proof pmstats_feed_quiet. unfold pmstats_client_free, server_pmstats_disconnect, pmstats_release. frames.
  intros w. unfold modify. simpl. by destruct (pmstats_has_subscribers w).
Qed.
#[local] Hint Resolve presence_on_client_free_settled pmstats_client_free_settled : frame.

(** [client_free] forgets the client. *)
Lemma client_free_spec c w : ∃ v, settled w v ∧ client_free c w = (tt, forget_client c v).
Proof.
  unfold client_free, client. rewrite run_gets. rewrite run_gets. destruct (w_free_hook w).
  - exists w. split; [done|]. reflexivity.
  - rewrite run_bind. pose proof (presence_on_client_free_settled (the_client w c) w) as H.
    destruct (presence_on_client_free _ w) as [[] v]. exists v. split; [exact H | done].
  - rewrite run_bind. pose proof (pmstats_client_free_settled (the_client w c) w) as H.
    destruct (pmstats_client_free _ w) as [[] v]. exists v. split; [exact H | done].
Qed.

(** Forgetting a client that is on no channel and whose name is in no table. *)
Lemma forget_wf c K w t :
  wf w → w_clients w !! c = Some K → cl_channels K = [] → others_only c w t →
  wf (set_w_clients (delete c (w_clients w)) (set_w_clients_by_nick t w)).
Proof.
  intros Hw HK El [Ht Hget]. destruct Hw as [H1 H2 H3 H4 H5 [H6 H6'] [H7 H7']]. split; simpl; auto.
  - intros x K' [_ Hx]%lookup_delete_Some. eauto.
  - intros x ch. etrans; [exact (H3 x ch)|]. unfold linked_to. simpl. split.
    + intros (K' & HK' & Hin). exists K'. rewrite lookup_delete_ne; [done|]. intros ->. rewrite HK in HK'.
      simplify_eq. rewrite El in Hin. by apply elem_of_nil in Hin.
    + intros (K' & [_ HK']%lookup_delete_Some & Hin). eauto.
  - split; [done|]. intros nick x. rewrite Hget. setoid_rewrite lookup_delete_Some. naive_solver.
  - split; [done|]. intros x [K' [_ Hx]%lookup_delete_Some]. eauto.
Qed.

(** The name of the client leaves the table. *)
Lemma release_nick_run c K w :
  wf w → w_clients w !! c = Some K →
  ∃ t, when (negb (empty (cl_nick K))) (modify (λ w, set_w_clients_by_nick (hash_remove (w_clients_by_nick w) (cl_nick K)).2 w)) w
       = (tt, set_w_clients_by_nick t w) ∧ others_only c w t.
Proof.
  intros Hw HK. destruct (cl_nick K) as [|a n] eqn:En; simpl.
  - exists (w_clients_by_nick w). split; [by destruct w|]. by apply (no_nick_others c K w).
  - eexists. split; [reflexivity|]. rewrite <-En. apply (remove_nick_others c K w); [done..|congruence].
Qed.

(** The state in which [server_disconnect] leaves the server: [v] is the state after
    the loop over the channels. *)
Definition disconnected (c : ptr) (K : Client) (w w' : World) : Prop :=
  ∃ v nicks counts,
    relinked c w v ∧ wf v ∧ w_channels v = omap (depart c) (w_channels w) ∧ w_clients v !! c = Some (unlink K) ∧
    others_only c v nicks ∧
    (∀ m id, counts_ok (w_connection_counts_by_ip w) m → m !! c = Some (id, cl_real_ip K) → counts_ok counts (delete c m)) ∧
    settled (set_w_clients (delete c (w_clients v)) (set_w_client_array (array_remove c (w_client_array w))
      (set_w_connection_counts_by_ip counts (set_w_clients_by_id (hash_remove (w_clients_by_id w) (client_id_key (cl_id K))).2
        (set_w_clients_by_nick nicks v))))) w'.

Lemma server_disconnect_run c reason w K :
  wf w → w_clients w !! c = Some K → disconnected c K w (server_disconnect c reason w).2.
Proof.
  intros Hw HK. unfold server_disconnect. cbv zeta. unfold client at 1. rewrite run_gets.
  assert (HcK : the_client w c = K) by (unfold the_client; by rewrite HK). rewrite HcK.
  pose proof pmstats_feed_quiet as Hfeed.
  apply (quiet_step _ _ _ (λ r, disconnected c K w r.2)); [unfold server_pmstats_disconnect; frames|]. intros _ i0.
  apply (quiet_step _ _ _ (λ r, disconnected c K w r.2)); [frames|]. intros _ i1.
  apply (quiet_step _ _ _ (λ r, disconnected c K w r.2)); [frames|]. intros _ i2.
  set (u := set_w_io i2 _). assert (Hu : wf u) by (by apply (wf_same_state w)).
  assert (HuK : w_clients u !! c = Some K) by done.
  set (quit := default _ reason).
  destruct (leave_all_spec (length (cl_channels K)) c quit u K Hu HuK (le_n _)) as (Hv & Hch & Hself).
  pose proof (leave_all_relinked (length (cl_channels K)) c quit u) as Hrel. rewrite run_bind.
  destruct (leave_all _ c quit u) as [[] v]. cbn [snd] in *.
  destruct (release_nick_run c (unlink K) v Hv Hself) as (nicks & Hn & Hothers).
  change (cl_nick (unlink K)) with (cl_nick K) in Hn. rewrite run_bind, Hn. unfold id_index_remove. rewrite run_modify.
  set (v1 := set_w_clients_by_id _ _). destruct (count_remove_run (cl_real_ip K) v1) as (counts & Hc & Hcounts).
  rewrite run_bind, Hc, run_modify, run_upd_client. set (v2 := put_client c _ _).
  destruct (client_free_spec c v2) as (v3 & Hset & ->). cbn [snd].
  assert (Hreg : registry_part v = registry_part w) by apply Hrel. unfold registry_part in Hreg.
  injection Hreg as R1 R2 R3 R4 R5 R6 R7 R8.
  exists v, nicks, counts. split_and!; try done.
  - intros m id. rewrite <-R5. apply Hcounts.
  - unfold settled, registry_part in *. cbn in Hset |- *. injection Hset as S1 S2 S3 S4 S5 S6 S7 S8 S9 S10 S11 S12.
    rewrite S1, S2, S3, S4, S5, S6, S7, S8, S9, S10, S11, S12, R2, R4. by rewrite delete_alter_eq.
Qed.

Lemma relinked_delete c w v : relinked c w v → delete c (w_clients v) = delete c (w_clients w).
Proof.
  intros (_ & Hx & _). apply map_eq. intros i. destruct (decide (i = c)) as [->|Hi]; [by rewrite !lookup_delete_eq|].
  rewrite !lookup_delete_ne by congruence. by apply Hx.
Qed.

Lemma disconnected_wf c K v nicks l counts ids w' :
  wf v → w_clients v !! c = Some (unlink K) → others_only c v nicks →
  settled (set_w_clients (delete c (w_clients v)) (set_w_client_array l
      (set_w_connection_counts_by_ip counts (set_w_clients_by_id ids (set_w_clients_by_nick nicks v))))) w' → wf w'.
Proof.
  intros Hv Hself Hoth Hset. pose proof (forget_wf c (unlink K) v nicks Hv Hself eq_refl Hoth) as Hf. revert Hf.
  unfold settled, registry_part in Hset. cbn in Hset. injection Hset as S1 S2 S3 S4 S5 S6 S7 S8 S9 S10 S11 S12.
  apply wf_same_state. cbn. congruence.
Qed.

Lemma settled_heap u w' : settled u w' → w_clients w' = w_clients u ∧ w_channels w' = w_channels u.
Proof. unfold settled. intros H. injection H. auto. Qed.

Lemma disconnected_facts c K w w' :
  disconnected c K w w' → wf w' ∧ w_clients w' = delete c (w_clients w) ∧ w_channels w' = omap (depart c) (w_channels w).
Proof.
  intros (v & nicks & counts & Hrel & Hv & Hch & Hself & Hoth & _ & Hset).
  split; [exact (disconnected_wf c K v nicks _ _ _ w' Hv Hself Hoth Hset)|].
  destruct (settled_heap _ _ Hset) as [-> ->]. split; [exact (relinked_delete c w v Hrel) | exact Hch].
Qed.

Lemma disconnected_clients c reason w K :
  wf w → w_clients w !! c = Some K →
  let w' := (server_disconnect c reason w).2 in
  wf w' ∧ w_clients w' = delete c (w_clients w) ∧ w_channels w' = omap (depart c) (w_channels w).
Proof. intros Hw HK. exact (disconnected_facts c K w _ (server_disconnect_run c reason w K Hw HK)). Qed.

(** C5: the end of a connection leaves no trace of the client in the shared state.
    [server_disconnect] preserves the invariant; the client's record is freed and
    every other client's record is untouched; the client is gone from the member list
    of every channel it was on, the channels it leaves empty are freed, and every
    other channel and membership stays as it was; its nickname no longer resolves,
    while all others do. *)
Theorem disconnect_leaves_no_trace c reason w K :
  wf w → w_clients w !! c = Some K →
  let w' := (server_disconnect c reason w).2 in
  wf w' ∧
  w_clients w' = delete c (w_clients w) ∧
  w_channels w' = omap (depart c) (w_channels w) ∧
  (∀ x ch, member_of w' x ch ↔ member_of w x ch ∧ x ≠ c) ∧
  (∀ nick x, hash_get (w_clients_by_nick w') nick = Some x ↔ hash_get (w_clients_by_nick w) nick = Some x ∧ x ≠ c).
Proof.
  intros Hw HK. cbv zeta. destruct (disconnected_clients c reason w K Hw HK) as (Hw' & Hcl & Hch').
  generalize dependent (server_disconnect c reason w).2. intros w' Hw' Hcl Hch'.
  split_and!; [done..| |].
  - intros x ch. rewrite (wf_symmetric w' Hw'), (wf_symmetric w Hw). unfold linked_to. rewrite Hcl.
    setoid_rewrite lookup_delete_Some. naive_solver.
  - intros nick x. destruct (wf_nicks w Hw) as [_ ->]. destruct (wf_nicks w' Hw') as [_ ->]. rewrite Hcl.
    setoid_rewrite lookup_delete_Some. naive_solver.
Qed.

(** ** The registry through disconnecting *)

Lemma disconnect_registry c reason w K :
  wf w → registry_ok w → w_clients w !! c = Some K → registry_ok (server_disconnect c reason w).2.
Proof.
  intros Hw [H1 H2 [H3 H3'] H4 H5 H6] HK.
  destruct (server_disconnect_run c reason w K Hw HK) as (v & nicks & counts & Hrel & _ & _ & _ & _ & Hcounts & Hset).
  set (w' := (server_disconnect c reason w).2) in *.
  assert (Hid : identities w !! c = Some (cl_id K, cl_real_ip K)) by (unfold identities; by rewrite lookup_fmap, HK).
  assert (Hreg : registry_part v = registry_part w) by apply Hrel. unfold registry_part in Hreg.
  injection Hreg as _ _ R3 _ _ R6 _ _.
  unfold settled, registry_part in Hset. cbn in Hset. injection Hset as _ S2 S3 S4 S5 S6 _ _ S9 _ _ _.
  assert (Hi : identities w' = delete c (identities w)).
  { unfold identities. by rewrite S9, (relinked_delete c w v Hrel), fmap_delete. }
  destruct (array_remove_spec c (w_client_array w) H1) as (A1 & A2 & A3); [apply H2; eauto|].
  split; rewrite ?S2, ?S3, ?S4, ?S5, ?S6, ?R3, ?R6, ?Hi; [done| | | | |lia].
  - intros x. rewrite A2, H2. destruct (decide (x = c)) as [->|Hx].
    + rewrite lookup_delete_eq. split; [by intros [_ []] | by intros []].
    + rewrite lookup_delete_ne by congruence. naive_solver.
  - pose proof (hash_remove_spec (w_clients_by_id w) (client_id_key (cl_id K)) H3) as Hr.
    destruct (hash_remove _ _) as [r t']. destruct Hr as (Ht & _ & Hr). split; [done|]. intros id x. cbn [snd]. rewrite Hr.
    destruct (decide _) as [<-%client_id_key_inj|Hne].
    + split; [done|]. intros (ip & [Hx Hl]%lookup_delete_Some).
      assert (hash_get (w_clients_by_id w) (client_id_key (cl_id K)) = Some x) by (apply H3'; eauto).
      assert (hash_get (w_clients_by_id w) (client_id_key (cl_id K)) = Some c) by (apply H3'; eauto). congruence.
    + rewrite H3'. split; intros (ip & Hl).
      * exists ip. rewrite lookup_delete_ne; [done|]. intros ->. rewrite Hid in Hl. simplify_eq.
      * apply lookup_delete_Some in Hl as [_ Hl]. eauto.
  - intros x id ip [_ Hl]%lookup_delete_Some. eauto.
  - by apply (Hcounts _ (cl_id K)).
Qed.

(** ** The registry through accepting *)

(** A new client enters the three structures. *)
Lemma register_client_ok w c id ip ids counts :
  registry_ok w → identities w !! c = None → (w_next_client_id w < id)%N →
  length (w_client_array w) < w_client_capacity w →
  (table_wf ids ∧ ∀ k, hash_get ids k = if decide (fold_key (client_id_key id) = fold_key k) then Some c else hash_get (w_clients_by_id w) k) →
  counts_ok counts (<[c := (id, ip)]> (identities w)) →
  ∀ w', identities w' = <[c := (id, ip)]> (identities w) → w_client_array w' = w_client_array w ++ [c] →
    w_clients_by_id w' = ids → w_connection_counts_by_ip w' = counts → w_next_client_id w' = id →
    w_client_capacity w' = w_client_capacity w → registry_ok w'.
Proof.
  intros [H1 H2 [H3 H3'] H4 H5 H6] Hc Hid Hcap [Hids Hget] Hcounts w' Hi Ea Eids Ec En Ecap.
  split; rewrite ?Hi, ?Ea, ?Eids, ?Ec, ?En, ?Ecap; [| | | |done|rewrite length_app; simpl; lia].
  - apply NoDup_app. split_and!; [done| |apply NoDup_singleton]. intros x Hx ->%list_elem_of_singleton.
    apply H2 in Hx. rewrite Hc in Hx. by destruct Hx.
  - intros x. rewrite elem_of_app, list_elem_of_singleton, H2. destruct (decide (x = c)) as [->|Hx].
    + rewrite lookup_insert_eq. naive_solver.
    + rewrite lookup_insert_ne by congruence. naive_solver.
  - split; [done|]. intros id' x. rewrite Hget. destruct (decide _) as [->%client_id_key_inj|Hne].
    + split; [intros [= <-]; exists ip; apply lookup_insert_eq|].
      intros (ip' & [[<- _]|[_ Hl]]%lookup_insert_Some); [done|]. apply H4 in Hl. lia.
    + rewrite H3'. split; intros (ip' & Hl).
      * exists ip'. rewrite lookup_insert_ne; [done|congruence].
      * apply lookup_insert_Some in Hl as [[<- Hl]|[_ Hl]]; [simplify_eq|eauto].
  - intros x id' ip' [[<- Hl]|[_ Hl]]%lookup_insert_Some; [simplify_eq; lia|]. apply H4 in Hl. lia.
Qed.

(** Steps that admit and drop nobody: the tables answer as before, and the counters of
    pointers and ids and the capacity of the array only grow. *)
Record idle (w w' : World) : Prop := {
  idle_state : (w_config w', w_clients w', w_channels w', w_channels_by_name w', w_channel_count w',
      w_clients_by_nick w', w_client_array w', w_connection_counts_by_ip w') =
    (w_config w, w_clients w, w_channels w, w_channels_by_name w, w_channel_count w,
      w_clients_by_nick w, w_client_array w, w_connection_counts_by_ip w);
  idle_ids : table_wf (w_clients_by_id w) →
    table_wf (w_clients_by_id w') ∧ ∀ k, hash_get (w_clients_by_id w') k = hash_get (w_clients_by_id w) k;
  idle_next_ptr : w_next_ptr w ≤ w_next_ptr w';
  idle_next_id : (w_next_client_id w ≤ w_next_client_id w')%N;
  idle_capacity : w_client_capacity w ≤ w_client_capacity w' }.

#[export] Instance idle_silent : Silent idle.
Proof.
  split; [split|].
  - intros w. by split.
  - intros w1 w2 w3 [A1 A2 A3 A4 A5] [B1 B2 B3 B4 B5]. split; [congruence| |lia..].
    intros H. destruct (A2 H) as [H' G]. destruct (B2 H') as [H'' G']. split; [done|]. intros k. by rewrite G', G.
  - intros w w' H. unfold quiet in H. rewrite H. by split.
Qed.

Lemma idle_wf w w' : idle w w' → wf w → wf w'.
Proof.
  intros [A1 _ A3 _ _] [H1 H2 H3 H4 H5 H6 [H7 H7']]. injection A1 as E0 E1 E2 E3 E4 E5 _ _.
  split; unfold member_of, linked_to in *; rewrite ?E1, ?E2, ?E3, ?E4, ?E5; auto.
  split; intros i Hi; [apply H7 in Hi | apply H7' in Hi]; lia.
Qed.

Lemma idle_registry w w' : idle w w' → registry_ok w → registry_ok w'.
Proof.
  intros [A1 A2 _ A4 A5] [H1 H2 [H3 H3'] H4 H5 H6]. injection A1 as E0 E1 E2 E3 E4 E5 E6 E7.
  destruct (A2 H3) as [Ht Hget]. assert (Ei : identities w' = identities w) by (unfold identities; by rewrite E1).
  split; rewrite ?E6, ?E7, ?Ei; auto; [|..|lia].
  - split; [done|]. intros id c. by rewrite Hget.
  - intros c id ip Hl. apply H4 in Hl. lia.
Qed.

Lemma ensure_capacity_spec w :
  length (w_client_array w) ≤ w_client_capacity w →
  let '(ok, w') := ensure_client_capacity w in
  idle w w' ∧ w_next_ptr w' = w_next_ptr w ∧ w_next_client_id w' = w_next_client_id w ∧
  w_clients_by_id w' = w_clients_by_id w ∧
  (ok = true → length (w_client_array w) < w_client_capacity w').
Proof.
  intros Hlen. unfold ensure_client_capacity, config. rewrite !run_gets. case_if; bools; [by split_and!|].
  set (a := if w_client_capacity w =? 0 then 16 else _). set (b := if _ <? a then _ else _).
  destruct (b <=? w_client_capacity w) eqn:Eb; bools; [by split_and!|].
  unfold alloc. rewrite run_bind. destruct (hd true (w_alloc w)); cbn [negb].
  - rewrite run_modify. split_and!; try done; [|simpl; lia]. split; try done. simpl. lia.
  - split_and!; try done.
Qed.

(** Giving up on a client that was created but not entered into the array. *)
Lemma abandon_idle c K w u :
  w_clients w !! c = None →
  (w_config u, w_clients u, w_channels u, w_channels_by_name u, w_channel_count u, w_clients_by_nick u,
    w_client_array u, w_connection_counts_by_ip u) =
  (w_config w, <[c := K]> (w_clients w), w_channels w, w_channels_by_name w, w_channel_count w, w_clients_by_nick w,
    w_client_array w, w_connection_counts_by_ip w) →
  (table_wf (w_clients_by_id w) →
    table_wf (w_clients_by_id u) ∧ ∀ k, hash_get (w_clients_by_id u) k = hash_get (w_clients_by_id w) k) →
  w_next_ptr w ≤ w_next_ptr u → (w_next_client_id w ≤ w_next_client_id u)%N → w_client_capacity w ≤ w_client_capacity u →
  idle w (client_free c u).2.
Proof.
  intros Hc Hu Hids Hp Hid Hcap. destruct (client_free_spec c u) as (v & Hv & ->). cbn [snd].
  unfold settled, registry_part in Hv. injection Hv as S1 S2 S3 S4 S5 S6 S7 S8 S9 S10 S11 S12.
  injection Hu as U1 U2 U3 U4 U5 U6 U7 U8.
  split; simpl; rewrite ?S3, ?S4, ?S6, ?S8; auto.
  rewrite S9, U2, delete_insert_id by done. congruence.
Qed.

(** ** What accepting a connection does *)

(** The new client [c] is in the array and has the next id; the limits had room for it. *)
Record admits (ip : cstr) (c : ptr) (w w' : World) : Prop := {
  admits_new : identities w !! c = None;
  admits_identity : identities w' = <[c := ((w_next_client_id w + 1)%N, take IRC_IP_MAX ip)]> (identities w);
  admits_array : w_client_array w' = w_client_array w ++ [c];
  admits_unlinked : links w' = <[c := []]> (links w) }.

(** Steps after the array holds the client. *)
Definition steady (w w' : World) : Prop := keeps w w' ∧ same_registry w w'.
#[export] Instance steady_silent : Silent steady.
Proof.
  split; [split|].
  - intros w. split; [by intros ? | reflexivity].
  - intros w1 w2 w3 [A1 A2] [B1 B2]. split; [by etrans | by etrans].
  - intros w w' H. split; by apply silent_quiet.
Qed.

Lemma upd_client_steady c f :
  (∀ K, same_client_shape K (f K) ∧ cl_id (f K) = cl_id K ∧ cl_real_ip (f K) = cl_real_ip K) → does steady (upd_client c f).
Proof.
  intros Hf w. split; [apply upd_client_keeps, Hf|]. split; [done|]. unfold identities. simpl. apply map_eq. intros i.
  rewrite !lookup_fmap. destruct (decide (i = c)) as [->|]; [rewrite lookup_alter_eq | by rewrite lookup_alter_ne].
  destruct (w_clients w !! c) as [K|]; simpl; [|done]. destruct (Hf K) as (_ & -> & ->). done.
Qed.

#[local] Hint Extern 5 (does steady _) => apply (does_quiet _); solve [eauto with frame] : frame.
#[local] Hint Extern 4 (does steady (upd_client _ _)) => apply upd_client_steady; intros ?; by split_and! : frame.

Lemma start_lookups_steady use_tls id c ip : does steady (start_lookups use_tls id c ip).
Proof. unfold start_lookups. frames. Qed.

Lemma admitted_steady ip c w u u' :
  admits ip c w u → wf u → registry_ok u → steady u u' → admits ip c w u' ∧ wf u' ∧ registry_ok u'.
Proof.
  intros [A1 A2 A3 A4] Hu Hr [Hk Hs]. destruct (Hk Hu) as [W4 L4]. split_and!; [|done|by apply (same_registry_ok u)].
  destruct Hs as [Hp Hi]. unfold registry_part in Hp. injection Hp as _ Ha _ _ _ _ _ _.
  split; [done | by rewrite Hi | by rewrite Ha | by rewrite L4].
Qed.

Lemma id_index_add_run id c w :
  ∃ l t ok, id_index_add id c w = (ok, set_w_alloc l (set_w_clients_by_id t w)) ∧
    (table_wf (w_clients_by_id w) → table_wf t ∧
       if ok : bool then ∀ k, hash_get t k = if decide (fold_key (client_id_key id) = fold_key k) then Some c else hash_get (w_clients_by_id w) k
       else t = w_clients_by_id w).
Proof.
  unfold id_index_add, alloc. rewrite run_bind, run_gets. set (a := hd true _).
  change (w_clients_by_id (set_w_alloc _ w)) with (w_clients_by_id w).
  pose proof (hash_set_spec a (w_clients_by_id w) (client_id_key id) c) as H.
  destruct (hash_set a _ _ _) as [rc t]. destruct (Z.eqb_spec rc 0) as [Erc|Erc]; cbn [negb].
  - eexists _, t, true. split; [reflexivity|]. intros Ht. destruct (H Ht) as (H1 & H2 & _). auto.
  - eexists _, (w_clients_by_id w), false. split; [by destruct w|]. done.
Qed.

(** Removing the entry just added restores every lookup. *)
Lemma index_undone w c id ids :
  registry_ok w → (w_next_client_id w < id)%N → table_wf ids →
  (∀ k, hash_get ids k = if decide (fold_key (client_id_key id) = fold_key k) then Some c else hash_get (w_clients_by_id w) k) →
  table_wf (hash_remove ids (client_id_key id)).2 ∧
  ∀ k, hash_get (hash_remove ids (client_id_key id)).2 k = hash_get (w_clients_by_id w) k.
Proof.
  intros [_ _ [Ht Hids] Hiss _ _] Hid Hwf Hget. pose proof (hash_remove_spec ids (client_id_key id) Hwf) as H.
  destruct (hash_remove _ _) as [r t]. destruct H as (H1 & _ & H2). split; [done|]. intros k. cbn [snd]. rewrite H2, Hget.
  destruct (decide _) as [Hk|]; [|done]. destruct (hash_get (w_clients_by_id w) k) as [x|] eqn:G; [|done]. exfalso.
  pose proof (hash_get_fold (w_clients_by_id w) _ _ Ht Hk) as Hf. rewrite G in Hf.
  apply Hids in Hf as (ip & Hl%Hiss). lia.
Qed.

(** The world in which [client_create] leaves the server. *)
Definition created (c : ptr) (K : Client) (id : N) (io : IO) (allocs : list bool) (w : World) : World :=
  set_w_io io (set_w_next_ptr (Datatypes.S c) (set_w_clients (<[c := K]> (w_clients w))
    (set_w_alloc allocs (set_w_next_client_id id w)))).

Lemma created_wf c K w u :
  wf w → c = w_next_ptr w → cl_nick K = [] → cl_channels K = [] → cl_channel_count K = 0 →
  (w_channels u, w_clients u, w_channels_by_name u, w_clients_by_nick u, w_channel_count u, w_next_ptr u) =
  (w_channels w, <[c := K]> (w_clients w), w_channels_by_name w, w_clients_by_nick w, w_channel_count w, Datatypes.S c) →
  wf u.
Proof.
  intros Hw -> E1 E2 E3 Hu. pose proof (new_client_wf K w E1 E2 E3 Hw) as H. revert H. apply wf_same_state.
  rewrite Hu. reflexivity.
Qed.

Lemma fresh_client w : wf w → w_clients w !! w_next_ptr w = None.
Proof.
  intros Hw. destruct (w_clients w !! w_next_ptr w) eqn:G; [|done].
  assert (w_next_ptr w < w_next_ptr w) by (apply (proj2 (wf_fresh w Hw)); rewrite G; eauto). lia.
Qed.

Lemma accept_created_spec use_tls ssl id ip t io allocs w :
  wf w → registry_ok w → id = (w_next_client_id w + 1)%N → length (w_client_array w) < w_client_capacity w →
  let c := w_next_ptr w in
  let w' := (accept_created use_tls ssl id ip c (created c (client_create_record id ip t) id io allocs w)).2 in
  idle w w' ∨ admits ip c w w' ∧ wf w' ∧ registry_ok w'.
Proof.
  intros Hw Hreg Hid Hcap c w'. pose proof (fresh_client w Hw) as Hfresh. fold c in Hfresh.
  assert (Hnew : identities w !! c = None) by (unfold identities; by rewrite lookup_fmap, Hfresh).
  set (K := client_create_record id ip t) in *. set (u := created c K id io allocs w) in *.
  unfold w', accept_created. case_if.
  { left. apply (quiet_step _ _ _ (λ r, idle w r.2)); [unfold reject; frames|]. intros _ i.
    apply (abandon_idle c K); try done; simpl; lia. }
  rewrite run_bind. destruct (id_index_add_run id c u) as (l & ids & ok & -> & Hids). destruct ok; cbn [negb].
  2:{ left. apply (quiet_step _ _ _ (λ r, idle w r.2)); [unfold reject; frames|]. intros _ i.
      apply (abandon_idle c K); try done; simpl; [|lia..]. intros Ht. destruct (Hids Ht) as [? ->]. done. }
  unfold client. rewrite run_gets. set (u1 := set_w_alloc l _).
  assert (HK : the_client u1 c = K) by (unfold the_client; simpl; by rewrite lookup_insert_eq). rewrite HK.
  rewrite run_bind. pose proof (count_add_spec (cl_real_ip K) u1 (identities w) c id (reg_counts w Hreg) Hnew) as Hadd.
  destruct (connection_count_add (cl_real_ip K) u1) as [counted u2]. destruct Hadd as (counts & l2 & -> & Hcounts).
  destruct (Hids (proj1 (reg_ids w Hreg))) as [Ht Hget]. destruct counted; cbn [negb].
  2:{ left. apply (quiet_step _ _ _ (λ r, idle w r.2)); [unfold reject; frames|]. intros _ i.
      unfold id_index_remove. rewrite run_modify. apply (abandon_idle c K); simpl; [done|by rewrite Hcounts| |lia..].
      intros _. apply (index_undone w c id); [done | lia | done | done]. }
  right. rewrite run_modify. set (u3 := set_w_client_array _ _).
  assert (W3 : wf u3) by exact (created_wf c K w u3 Hw eq_refl eq_refl eq_refl eq_refl eq_refl).
  assert (I3 : identities u3 = <[c := (id, cl_real_ip K)]> (identities w))
    by (exact (fmap_insert (λ K, (cl_id K, cl_real_ip K)) (w_clients w) c K)).
  assert (R3 : registry_ok u3)
    by (apply (register_client_ok w c id (cl_real_ip K) ids counts); [done|done|lia|done|done|done|done..]).
  assert (A3 : admits ip c w u3).
  { split; [done | by rewrite I3, Hid | done | exact (fmap_insert cl_channels (w_clients w) c K)]. }
  apply (admitted_steady ip c w u3); [done..|].
  match goal with |- steady u3 (?m u3).2 => assert (Htail : does steady m) end; [|apply Htail].
  pose proof start_lookups_steady. frames.
Qed.

Lemma admits_idle ip c w v w' :
  idle w v → w_next_client_id v = w_next_client_id w → admits ip c v w' → admits ip c w w'.
Proof.
  intros [Hs _ _ _ _] En [A1 A2 A3 A4]. injection Hs as _ Ec _ _ _ _ Ea _.
  assert (Ei : identities v = identities w) by (unfold identities; by rewrite Ec).
  assert (El : links v = links w) by (unfold links; by rewrite Ec).
  rewrite Ei in A1, A2. rewrite Ea in A3. rewrite El in A4. rewrite En in A2. by split.
Qed.

(** Everything [accept_one] can do. *)
Lemma accept_one_outcome use_tls peer nonblocking ssl writes allocs w :
  wf w → registry_ok w →
  let w' := (accept_one use_tls peer nonblocking ssl writes allocs w).2 in
  idle w w' ∨
  ∃ ip c, peer = Some ip ∧ length (w_client_array w) < max_clients (w_config w) ∧
    server_connection_limit_reached w ip None = false ∧ w_next_client_id w ≠ 18446744073709551615%N ∧
    admits ip c w w' ∧ wf w' ∧ registry_ok w'.
Proof.
  intros Hw Hreg w'. unfold w', accept_one, config. rewrite !run_gets.
  assert (Hrej : ∀ u k f a, idle w u → idle w (reject k f a u).2).
  { intros u k f a Hu. etrans; [exact Hu|]. unfold reject. apply (does_quiet idle). frames. }
  destruct peer as [ip|]; [|left; by apply Hrej].
  case_if; [left; by apply Hrej|]. bools. rewrite run_gets. case_if; [left; by apply Hrej|].
  rewrite run_gets. destruct (N.eqb_spec (w_next_client_id w) 18446744073709551615) as [Emax|Emax]; [left; by apply Hrej|].
  rewrite run_bind. pose proof (ensure_capacity_spec w (reg_capacity w Hreg)) as Hcap.
  destruct (ensure_client_capacity w) as [ok v]. destruct Hcap as (Hv & Ep & Ei & _ & Hlt).
  destruct (negb ok || negb nonblocking) eqn:Eok; [left; by apply Hrej|]. bools.
  rewrite run_modify. set (v1 := set_w_next_client_id _ v). rewrite run_bind. unfold client_create, alloc, now.
  rewrite run_bind. destruct (hd true _); cbn [negb].
  2:{ left. apply Hrej. etrans; [exact Hv|]. split; try done. simpl. lia. }
  rewrite !run_gets, run_modify.
  assert (Hlen : length (w_client_array v) < w_client_capacity v).
  { destruct Hv as [Hs _ _ _ _]. injection Hs as _ _ _ _ _ _ -> _. by apply Hlt. }
  destruct (accept_created_spec use_tls ssl (w_next_client_id w + 1) ip (w_now v)
    (set_io_conns (<[w_next_ptr v := client_set_output_limit (conn_create use_tls writes allocs)
       (output_queue_max_bytes (w_config w))]> (io_conns (w_io v))) (w_io v)) (tail (w_alloc v)) v)
    as [Hidle|(Ha & Hw' & Hr')]; [by apply (idle_wf w) | by apply (idle_registry w) | by rewrite Ei | done | |].
  - left. etrans; [exact Hv | exact Hidle].
  - right. exists ip, (w_next_ptr v). split_and!; [done | lia | done | done | | done | done].
    by apply (admits_idle ip _ w v).
Qed.

Lemma accept_one_ok use_tls peer nonblocking ssl writes allocs w :
  wf w → registry_ok w →
  let w' := (accept_one use_tls peer nonblocking ssl writes allocs w).2 in wf w' ∧ registry_ok w'.
Proof.
  intros Hw Hreg w'. destruct (accept_one_outcome use_tls peer nonblocking ssl writes allocs w Hw Hreg)
    as [Hidle|(ip & c & _ & _ & _ & _ & _ & Hw' & Hr')]; [|done].
  split; [by apply (idle_wf w) | by apply (idle_registry w)].
Qed.

(** The loop over a listener. *)
Lemma accept_clients_ok use_tls handled pending w :
  wf w → registry_ok w → let w' := (accept_clients use_tls handled pending w).2 in wf w' ∧ registry_ok w'.
Proof.
  revert handled w. induction pending as [|[| |peer nonblocking ssl writes allocs] pending IH]; intros handled w Hw Hreg; cbn [accept_clients]; [done|by case_if; [|apply IH]|done|].
  case_if; [done|]. rewrite run_bind. destruct (accept_one_ok use_tls peer nonblocking ssl writes allocs w Hw Hreg) as [H1 H2].
  destruct (accept_one _ _ _ _ _ _ w) as [u w1]. by apply IH.
Qed.

(** The counter of the address had room before the client was admitted. *)
Lemma limit_has_room w ip key :
  registry_ok w → server_connection_limit_reached w ip None = false →
  max_connections_per_ip (w_config w) ≠ 0 → server_connection_limit_ip_exempt (w_config w) ip = false →
  canonical_numeric_ip ip = Some key → from key (identities w) < max_connections_per_ip (w_config w).
Proof.
  intros Hreg Hl Hmax Hex Hkey. unfold server_connection_limit_reached in Hl. rewrite Hex, Hkey in Hl.
  rewrite (proj2 (Nat.eqb_neq _ 0) Hmax) in Hl. assert (empty ip = false) as He by (by destruct ip).
  rewrite He in Hl. cbn [orb] in Hl. simpl in Hl. rewrite (proj2 (reg_counts w Hreg)) in Hl. bools.
  destruct (from key (identities w) =? 0) eqn:E0; bools; simpl in Hl; lia.
Qed.

(** C4: the registry of connections describes exactly the live clients, and the limits
    hold.  [registry_ok] (the client array lists every live client once, the index by
    id finds exactly the live client with that id, ids were issued by the counter, and
    for every address the counter is the number of live clients from it) and the
    invariant [wf] are preserved by handling one result of [accept], by the loop over a
    listener and by [server_disconnect].  A connection is admitted only while there are fewer than
    [max_clients] clients, gets an id nobody else has, and afterwards at most
    [max_connections_per_ip] clients come from its address unless the address is exempt;
    otherwise nobody is admitted. *)
Theorem registry_invariant w :
  wf w → registry_ok w →
  (∀ use_tls peer nonblocking ssl writes allocs,
     let w' := (accept_one use_tls peer nonblocking ssl writes allocs w).2 in
     wf w' ∧ registry_ok w' ∧
     (identities w' = identities w ∧ w_client_array w' = w_client_array w ∨
      ∃ ip c, peer = Some ip ∧ admits ip c w w' ∧ length (w_client_array w') ≤ max_clients (w_config w) ∧
        (max_connections_per_ip (w_config w) ≠ 0 → server_connection_limit_ip_exempt (w_config w) ip = false →
         length ip ≤ IRC_IP_MAX → ∀ key, canonical_numeric_ip ip = Some key →
         from key (identities w') ≤ max_connections_per_ip (w_config w)))) ∧
  (∀ use_tls handled pending,
     let w' := (accept_clients use_tls handled pending w).2 in wf w' ∧ registry_ok w') ∧
  (∀ c reason, is_Some (w_clients w !! c) →
     let w' := (server_disconnect c reason w).2 in
     wf w' ∧ registry_ok w' ∧ identities w' = delete c (identities w)).
Proof.
  intros Hw Hreg. split; [|split; [intros; by apply accept_clients_ok|]].
  - intros use_tls peer nonblocking ssl writes allocs w'.
    destruct (accept_one_outcome use_tls peer nonblocking ssl writes allocs w Hw Hreg)
      as [Hidle|(ip & c & -> & Hmax & Hlim & _ & Ha & Hw' & Hr')].
    + fold w' in Hidle. split_and!; [by apply (idle_wf w) | by apply (idle_registry w) | left].
      pose proof (idle_state _ _ Hidle) as Hs. injection Hs as _ Ec _ _ _ _ Ea _. unfold identities. split; congruence.
    + fold w' in Ha, Hw', Hr'. split_and!; [done..|right]. exists ip, c. destruct Ha as [A1 A2 A3 A4]. split_and!; [done|by split| |].
      * rewrite A3, length_app. simpl. lia.
      * intros Hm Hex Hlen key Hkey. rewrite A2, take_id by done. rewrite from_insert by done.
        pose proof (limit_has_room w ip key Hreg Hlim Hm Hex Hkey). case_decide; lia.
  - intros c reason [K HK] w'. destruct (disconnected_clients c reason w K Hw HK) as (Hw' & Hc & _). fold w' in Hw', Hc.
    split_and!; [done | by apply (disconnect_registry c reason w K) |].
    unfold identities. by rewrite Hc, fmap_delete.
Qed.

(** The server starts with an empty registry. *)
Lemma server_init_registry cfg n time stamp w : server_init cfg n time stamp = Some w → registry_ok w.
Proof.
  unfold server_init. intros (t0 & H0 & (t1 & H1 & (t2 & H2 & (t3 & H3 & [= <-])%bind_Some)%bind_Some)%bind_Some)%bind_Some.
  destruct (hash_init_wf _ _ _ H0) as [W0 G0]. destruct (hash_init_wf _ _ _ H3) as [W3 G3].
  split; unfold identities; simpl; rewrite ?fmap_empty; try done.
  - constructor.
  - intros c. rewrite lookup_empty. split; [by intros ?%elem_of_nil | by intros []].
  - split; [done|]. intros id c. rewrite G0. setoid_rewrite lookup_empty. naive_solver.
Qed.

End Live.
