(* ===== verification/Sound.v ===== *)
(** * The invariant of the running server

    [sound]: the shared state is well formed, the registry of connections describes the
    live clients, and memory has not run out.  [sober] steps leave the registry alone;
    what one command may do to the server is [stable]: it keeps [sound] and its caller
    alive, whoever else it disconnects. *)

From S2P Require Import Prelude CString Modes HashTable MaskMatch Output World Channel Invariant Policy Tags Numerics Ircv3 Presence Env Cloak Register Connection Services Registry RegistryProps.

(** No allocation is going to fail. *)
Definition plenty (w : World) : Prop := Forall (λ ok, ok = true) (w_alloc w).

Definition roster (w : World) :=
  (w_client_array w, w_next_client_id w, w_clients_by_id w, w_connection_counts_by_ip w, w_client_capacity w).

(** Who is connected, with the bytes read and not yet processed. *)
Definition holders (w : World) : gmap ptr (N * cstr * cstr) :=
  (λ K, (cl_id K, cl_real_ip K, cl_inbuf K)) <$> w_clients w.

(** Nobody joins or leaves the registry of connections, and no input is consumed. *)
Record sober (w w' : World) : Prop := {
  sober_roster : roster w' = roster w;
  sober_holders : holders w' = holders w;
  sober_plenty : plenty w → plenty w' }.

#[export] Instance sober_silent : Silent sober.
Proof.
  split; [split|].
  - intros w. by split.
  - intros w1 w2 w3 [A1 A2 A3] [B1 B2 B3]. split; [congruence..|auto].
  - intros w w' H. unfold quiet in H. rewrite H. by split.
Qed.

Lemma sober_modify g :
  (∀ w, roster (g w) = roster w ∧ w_clients (g w) = w_clients w ∧ w_alloc (g w) = w_alloc w) → does sober (modify g).
Proof. intros H w. destruct (H w) as (H1 & H2 & H3). unfold modify. simpl. split; unfold holders, plenty; by rewrite ?H2, ?H3. Qed.

Lemma sober_upd_channel ch f : does sober (upd_channel ch f).
Proof. intros w. by split. Qed.

(** Updates of a client that keep who it is. *)
Definition same_identity (K K' : Client) : Prop :=
  cl_id K' = cl_id K ∧ cl_real_ip K' = cl_real_ip K ∧ cl_inbuf K' = cl_inbuf K.

Lemma put_client_holders c f w :
  (∀ K, w_clients w !! c = Some K → same_identity K (f K)) → holders (put_client c f w) = holders w.
Proof.
  intros Hf. unfold holders. simpl. apply map_eq. intros i. rewrite !lookup_fmap.
  destruct (decide (i = c)) as [->|]; [rewrite lookup_alter_eq | by rewrite lookup_alter_ne].
  destruct (w_clients w !! c) as [K|]; simpl; [|done]. by destruct (Hf K eq_refl) as (-> & -> & ->).
Qed.
Lemma sober_upd_client c f : (∀ K, same_identity K (f K)) → does sober (upd_client c f).
Proof. intros Hf w. split; [done| |done]. apply put_client_holders. auto. Qed.

(** Reading the record of a client, and writing it back changed. *)
Lemma sober_write_back {A} c (f : Client → A * Client) (g : A → M unit) :
  (∀ K, same_identity K (f K).2) → (∀ a, does sober (g a)) →
  does sober (K ← client c; let '(a, K') := f K in upd_client c (λ _, K') ;; g a).
Proof.
  intros Hf Hg w. unfold client. rewrite run_gets. specialize (Hf (the_client w c)).
  destruct (f (the_client w c)) as [a K']. rewrite run_upd_client. etrans; [|apply Hg].
  split; [done| |done]. apply put_client_holders. intros K HK. unfold the_client in Hf. by rewrite HK in Hf.
Qed.

Lemma sober_alloc : does sober alloc.
Proof. intros w. split; [done..|]. unfold plenty. simpl. by destruct 1. Qed.

#[export] Hint Resolve sober_upd_channel sober_alloc : frame.
#[export] Hint Extern 4 (does sober (modify _)) =>
  apply sober_modify; intros ?; repeat case_match; by split_and! : frame.
(** Shows that an update keeps who the client is, looking into a named one. *)
Ltac keeps_identity :=
  intros ?; first [by split | by repeat case_match |
    match goal with |- same_identity ?K ?t =>
      let rec head t := lazymatch t with ?f _ => head f | _ => t end in
      let h := head t in unfold h; cbv zeta; by repeat case_match
    end].
#[export] Hint Extern 4 (does sober (upd_client _ _)) => apply sober_upd_client; keeps_identity : frame.
#[export] Hint Extern 5 (does sober _) => apply (does_quiet _); solve [eauto with frame] : frame.

Section Sound.
Context `{E : Env} `{S : Services}.

Definition sound (w : World) : Prop := wf w ∧ registry_ok w ∧ plenty w.

Definition alive (w : World) (c : ptr) : Prop := is_Some (w_clients w !! c).

(** The input of [c] left to process. *)
Definition input (w : World) (c : ptr) : cstr := cl_inbuf (the_client w c).

Lemma holders_lookup w c : holders w !! c = (λ K, (cl_id K, cl_real_ip K, cl_inbuf K)) <$> w_clients w !! c.
Proof. apply lookup_fmap. Qed.

Lemma sober_alive w w' c : sober w w' → alive w c → alive w' c.
Proof.
  intros [_ Hi _] [K HK]. assert (H : is_Some (holders w' !! c)) by (rewrite Hi, holders_lookup, HK; eauto).
  rewrite holders_lookup in H. unfold alive. destruct (w_clients w' !! c); [eauto | by destruct H].
Qed.
Lemma sober_input w w' c : sober w w' → input w' c = input w c.
Proof.
  intros [_ Hi _]. apply (f_equal (lookup c)) in Hi. rewrite !holders_lookup in Hi. unfold input, the_client.
  destruct (w_clients w !! c), (w_clients w' !! c); simpl in *; [congruence | done | done | done].
Qed.

Lemma holders_identities w w' : holders w' = holders w → identities w' = identities w.
Proof.
  intros H. apply map_eq. intros i. apply (f_equal (lookup i)) in H. rewrite !holders_lookup in H.
  unfold identities. rewrite !lookup_fmap. destruct (w_clients w !! i), (w_clients w' !! i); simpl in *; congruence.
Qed.
Lemma sober_registry w w' : sober w w' → registry_ok w → registry_ok w'.
Proof.
  intros [Hr Hi%holders_identities _] [H1 H2 H3 H4 H5 H6]. unfold roster in Hr. injection Hr as E1 E2 E3 E4 E5.
  split; rewrite ?E1, ?E2, ?E3, ?E4, ?E5, ?Hi; auto.
Qed.

(** What a command run for [c] may do. *)
Definition stable (c : ptr) (w w' : World) : Prop :=
  sound w → alive w c → sound w' ∧ alive w' c ∧ input w' c = input w c.

#[export] Instance stable_silent c : Silent (stable c).
Proof.
  split; [split|].
  - by intros w.
  - intros w1 w2 w3 A B H1 H2. destruct (A H1 H2) as (H3 & H4 & E1). destruct (B H3 H4) as (H5 & H6 & E2).
    split_and!; [done..|congruence].
  - intros w w' H (H1 & H2 & H3) Hc. split_and!; [split_and!| |].
    + by apply (silent_quiet (R := keeps) w w' H).
    + apply (sober_registry w); [by apply silent_quiet | done].
    + unfold quiet in H. unfold plenty. by rewrite H.
    + apply (sober_alive w); [by apply silent_quiet | done].
    + apply sober_input. by apply silent_quiet.
Qed.

(** Most commands are sober and keep the state well formed. *)
Lemma sober_stable {A} c (m : M A) :
  does sober m → (∀ w, wf w → alive w c → wf (m w).2) → does (stable c) m.
Proof.
  intros Hs Hw w (H1 & H2 & H3) Hc. specialize (Hs w). split_and!; [split_and!| |].
  - by apply Hw.
  - by apply (sober_registry w).
  - by apply Hs.
  - by apply (sober_alive w).
  - by apply sober_input.
Qed.
Lemma steps_stable {A} c (m : M A) : does sober m → does keeps m → does (stable c) m.
Proof. intros Hs Hk. apply sober_stable; [done|]. intros w Hw _. by apply (Hk w). Qed.
End Sound.
