(* ===== verification/Flood.v ===== *)
(** * Flood control ([src/commands/dispatch.c])

    Two token buckets per client, one for every command and one for expensive commands,
    and a server-wide bucket for expensive commands.  Token counts are C's [unsigned
    int], so they live modulo 2^32; times are [time_t]. *)

From S2P Require Import Prelude CString Modes HashTable MaskMatch Output World Channel Invariant Policy Tags Numerics Ircv3 Presence Env Cloak Register.

Definition COMMAND_BUDGET_BURST : Z := 20.
Definition COMMAND_BUDGET_REFILL_PER_SECOND : Z := 4.
Definition COMMAND_GLOBAL_BUDGET_BURST : Z := 200.
Definition COMMAND_GLOBAL_BUDGET_REFILL_PER_SECOND : Z := 40.
Definition COMMAND_THROTTLE_SNOTICE_SECONDS : Z := 5.
Definition FLOOD_BUDGET_BURST : Z := 80.
Definition FLOOD_BUDGET_REFILL_PER_SECOND : Z := 20.
Definition FLOOD_VIOLATION_WINDOW_SECONDS : Z := 5.
Definition FLOOD_VIOLATIONS_BEFORE_DISCONNECT : Z := 3.

(** [unsigned int] and [unsigned long] arithmetic. *)
Definition uint (z : Z) : Z := (z mod 2 ^ 32)%Z.
Definition ulong (z : Z) : Z := (z mod 2 ^ 64)%Z.

Definition operator_modes : ClientModeSet := N.lor CLIENT_MODE_OPER CLIENT_MODE_NETADMIN.

(** ** Every command *)

Definition general_flood_cost (command : cstr) : Z :=
  if strcaseeq command "QUIT" || strcaseeq command "PONG" then 0 else
  if existsb (strcaseeq command) (map lit
       ["PRIVMSG"; "NOTICE"; "JOIN"; "PART"; "NICK"; "MODE"; "TOPIC"; "KICK"; "INVITE"; "KNOCK"]) then 2 else 1.

(** A numeric about a command name, the name cut so that the line fits. *)
Definition send_bounded_command_numeric (c : ptr) (numeric command text : cstr) : M unit :=
  cfg ← config;
  K ← client c;
  let command := if empty command then lit "*" else command in
  let base_length := length (format ":%s %03d %s  :%s" [server_name cfg; numeric; command_reply_nick K; text]) in
  if IRC_LINE_CONTENT_MAX <? base_length then mret tt else
  tell c ":%s %03d %s %.*s :%s"
    [server_name cfg; numeric; command_reply_nick K; take (IRC_LINE_CONTENT_MAX - base_length) command; text].

(** The bucket after its refill at time [now]. *)
Definition flood_refill (now : Z) (K : Client) : Client :=
  if (cl_flood_budget_updated K =? 0)%Z then
    set_cl_flood_budget_tokens FLOOD_BUDGET_BURST (set_cl_flood_budget_updated now K)
  else if (cl_flood_budget_updated K <? now)%Z then
    let refill := ulong (ulong (now - cl_flood_budget_updated K) * FLOOD_BUDGET_REFILL_PER_SECOND) in
    set_cl_flood_budget_updated now (set_cl_flood_budget_tokens
      (if (uint (FLOOD_BUDGET_BURST - cl_flood_budget_tokens K) <=? refill)%Z then FLOOD_BUDGET_BURST
       else uint (cl_flood_budget_tokens K + uint refill)) K)
  else K.

Definition flood_violation (now : Z) (K : Client) : Client :=
  if (cl_flood_violation_window K =? 0)%Z ||
     (FLOOD_VIOLATION_WINDOW_SECONDS <=? now - cl_flood_violation_window K)%Z
  then set_cl_flood_violation_count 1 (set_cl_flood_violation_window now K)
  else set_cl_flood_violation_count (uint (cl_flood_violation_count K + 1)) K.

(** 1: go on; 0: disconnect; -1: refused. *)
Definition general_flood_allow (c : ptr) (command : cstr) (cost : Z) : M Z :=
  K ← client c;
  if (cost =? 0)%Z || client_mode_has (cl_modes K) operator_modes then mret 1%Z else
  t ← now;
  upd_client c (flood_refill t) ;;
  K ← client c;
  if (cost <=? cl_flood_budget_tokens K)%Z
  then upd_client c (set_cl_flood_budget_tokens (cl_flood_budget_tokens K - cost)) ;; mret 1%Z else
  upd_client c (flood_violation t) ;;
  K ← client c;
  if (FLOOD_VIOLATIONS_BEFORE_DISCONNECT <=? cl_flood_violation_count K)%Z then
    snotice_broadcast SNOTICE_FLOOD "Client flood disconnected: nick=%s real_ip=%s command=%s"
      [command_reply_nick K; cl_real_ip K; command] ;;
    upd_client c (set_cl_quit_reason "Excess flood") ;;
    cfg ← config;
    tell c ":%s ERROR :Excess flood" [server_name cfg] ;;
    mret 0%Z
  else
    send_bounded_command_numeric c "263" command "Flood protection - please slow down" ;;
    mret (-1)%Z.

(** ** Expensive commands *)

(** [refill_weighted_budget] on the pair it updates in place: (updated, tokens). *)
Definition refill_weighted_budget (now : Z) (budget : Z * Z) (burst refill_per_second : Z) : Z * Z :=
  let '(updated, tokens) := budget in
  if (updated =? 0)%Z then (now, burst) else
  if (now <=? updated)%Z then (updated, tokens) else
  let refill := ulong (ulong (now - updated) * refill_per_second) in
  (now, if (burst <=? tokens)%Z || (uint (burst - tokens) <=? refill)%Z then burst else uint (tokens + uint refill)).

Definition command_budget (K : Client) : Z * Z := (cl_command_budget_updated K, cl_command_budget_tokens K).
Definition set_command_budget (b : Z * Z) (K : Client) : Client :=
  set_cl_command_budget_tokens b.2 (set_cl_command_budget_updated b.1 K).
Definition global_budget (w : World) : Z * Z := (w_command_global_budget_updated w, w_command_global_budget_tokens w).
Definition set_global_budget (b : Z * Z) (w : World) : World :=
  set_w_command_global_budget_tokens b.2 (set_w_command_global_budget_updated b.1 w).

(** [t == 0 || now - t >= COMMAND_THROTTLE_SNOTICE_SECONDS]. *)
Definition notice_due (now t : Z) : bool := (t =? 0)%Z || (COMMAND_THROTTLE_SNOTICE_SECONDS <=? now - t)%Z.

Definition command_expensive_allow (c : ptr) (command : cstr) (cost : Z) : M bool :=
  K ← client c;
  if (cost =? 0)%Z || client_mode_has (cl_modes K) operator_modes then mret true else
  t ← now;
  cfg ← config;
  upd_client c (λ K, set_command_budget
    (refill_weighted_budget t (command_budget K) COMMAND_BUDGET_BURST COMMAND_BUDGET_REFILL_PER_SECOND) K) ;;
  modify (λ w, set_global_budget (refill_weighted_budget t (global_budget w)
    COMMAND_GLOBAL_BUDGET_BURST COMMAND_GLOBAL_BUDGET_REFILL_PER_SECOND) w) ;;
  K ← client c;
  if (cl_command_budget_tokens K <? cost)%Z then
    tell c ":%s 263 %s %s :Please wait before repeating this command" [server_name cfg; command_reply_nick K; command] ;;
    when (notice_due t (cl_command_throttle_notice_time K))
      (snotice_broadcast SNOTICE_FLOOD "Expensive command throttled: nick=%s real_ip=%s command=%s"
         [command_reply_nick K; cl_real_ip K; command] ;;
       upd_client c (set_cl_command_throttle_notice_time t)) ;;
    mret false
  else
  g ← gets w_command_global_budget_tokens;
  if (g <? cost)%Z then
    tell c ":%s 263 %s %s :Server busy - please retry this expensive command shortly"
      [server_name cfg; command_reply_nick K; command] ;;
    last ← gets w_command_global_throttle_notice_time;
    when (notice_due t last)
      (snotice_broadcast SNOTICE_FLOOD "Global expensive-command budget exhausted: nick=%s real_ip=%s command=%s"
         [command_reply_nick K; cl_real_ip K; command] ;;
       modify (set_w_command_global_throttle_notice_time t)) ;;
    mret false
  else
  upd_client c (λ K, set_cl_command_budget_tokens (cl_command_budget_tokens K - cost) K) ;;
  modify (λ w, set_w_command_global_budget_tokens (w_command_global_budget_tokens w - cost) w) ;;
  mret true.

(** ** Long MODE lines *)

Definition channel_mode_wire_fits (K : Client) (params : option cstr) : bool :=
  match params with
  | None => true
  | Some params =>
      let target := drop_while (Ascii.eqb " ") params in
      if negb (Ascii.eqb (char0 target) "#") && negb (Ascii.eqb (char0 target) "&") then true else
      1 + length (cl_nick K) + 1 + length (cl_user K) + 1 + length (cl_display_host K) + 6 + length params <=? 510
  end.

(** ** Frame *)

Lemma send_bounded_command_numeric_quiet c n cmd t : does quiet (send_bounded_command_numeric c n cmd t).
Proof. unfold send_bounded_command_numeric. frames. Qed.
#[export] Hint Resolve send_bounded_command_numeric_quiet : frame.

Lemma flood_refill_shape t K : same_client_shape K (flood_refill t K).
Proof. unfold flood_refill. repeat case_if; by split_and!. Qed.
Lemma flood_violation_shape t K : same_client_shape K (flood_violation t K).
Proof. unfold flood_violation. case_if; by split_and!. Qed.
Lemma general_flood_allow_keeps c cmd cost : does keeps (general_flood_allow c cmd cost).
Proof.
  unfold general_flood_allow. pose proof (λ t, upd_client_keeps c _ (flood_refill_shape t)).
  pose proof (λ t, upd_client_keeps c _ (flood_violation_shape t)). frames.
Qed.

Lemma command_expensive_allow_keeps c cmd cost : does keeps (command_expensive_allow c cmd cost).
Proof. unfold command_expensive_allow. frames. all: apply calm_keeps; intros ?; reflexivity. Qed.
#[export] Hint Resolve general_flood_allow_keeps command_expensive_allow_keeps : frame.

(** ** Buckets *)

(** A bucket that was never used, or whose level is within its size; the clock values
    are those of a [time_t] that has not run for 2^57 seconds. *)
Definition bucket_ok (burst : Z) (b : Z * Z) : Prop :=
  (0 ≤ b.1 < 2 ^ 57 ∧ 0 ≤ b.2 ≤ burst)%Z.

(** What a refill does: the level rises by [rate] a second up to [burst]. *)
Definition refilled (now burst rate : Z) (b : Z * Z) : Z * Z :=
  if (b.1 =? 0)%Z then (now, burst) else
  if (now <=? b.1)%Z then b else (now, Z.min burst (b.2 + rate * (now - b.1)))%Z.

Lemma refill_level burst rate tokens elapsed :
  (0 ≤ tokens ≤ burst → 0 < burst < 2 ^ 32 → 0 < rate ≤ 40 → 0 < elapsed < 2 ^ 57 →
  (if uint (burst - tokens) <=? ulong (ulong elapsed * rate) then burst else uint (tokens + uint (ulong (ulong elapsed * rate)))) =
  Z.min burst (tokens + rate * elapsed))%Z.
Proof.
  intros Ht Hb Hr He. assert (2 ^ 57 = 144115188075855872 ∧ 2 ^ 64 = 18446744073709551616 ∧ 2 ^ 32 = 4294967296)%Z as (E57 & E64 & E32) by done.
  unfold ulong, uint. rewrite (Z.mod_small elapsed) by lia. rewrite (Z.mod_small (elapsed * rate)) by nia.
  rewrite (Z.mod_small (burst - tokens)) by lia. destruct (Z.leb_spec (burst - tokens) (elapsed * rate)); [lia|].
  assert (0 ≤ elapsed * rate)%Z by nia. rewrite (Z.mod_small (elapsed * rate)), Z.mod_small by lia. lia.
Qed.

Section Bucket.
Context (burst rate : Z) (Hburst : (0 < burst < 2 ^ 32)%Z) (Hrate : (0 < rate ≤ 40)%Z).

Lemma refill_weighted_spec now b :
  (0 < now < 2 ^ 57)%Z → bucket_ok burst b → refill_weighted_budget now b burst rate = refilled now burst rate b.
Proof using Hburst Hrate.
  intros Hn [Hu Ht]. destruct b as [u t]. simpl in Hu, Ht. unfold refill_weighted_budget, refilled. simpl.
  destruct (Z.eqb_spec u 0); [done|]. destruct (Z.leb_spec now u); [done|]. f_equal.
  rewrite <-refill_level by lia. destruct (Z.leb_spec burst t); [|done].
  assert (t = burst) as -> by lia. rewrite Z.sub_diag. change (uint 0) with 0%Z.
  rewrite (proj2 (Z.leb_le 0 _)); [done|]. apply Z.mod_pos_bound. lia.
Qed.

Lemma refilled_ok now b : (0 < now < 2 ^ 57)%Z → bucket_ok burst b → bucket_ok burst (refilled now burst rate b).
Proof using Hburst Hrate.
  intros Hn [Hu Ht]. unfold refilled. repeat case_if; split; bools; simpl in *; try lia. nia.
Qed.

(** Bookkeeping over requests made between [lo] and [hi]: [s] was granted so far. *)
Definition accounted (lo hi : Z) (b : Z * Z) (s : Z) : Prop :=
  bucket_ok burst b ∧ (b.1 ≤ hi)%Z ∧
  (s = 0%Z ∨ (0 < s ∧ lo ≤ b.1 ∧ 0 < b.1 ∧ b.2 + s ≤ burst + rate * (b.1 - lo))%Z).

Lemma accounted_refill lo hi b s now :
  (0 < lo ≤ now ∧ now ≤ hi < 2 ^ 57)%Z → accounted lo hi b s →
  let r := refilled now burst rate b in
  accounted lo hi r s ∧ (now ≤ r.1)%Z ∧ (r.2 ≤ burst)%Z.
Proof using Hburst Hrate.
  intros Hn (Hok & Hle & Hs) r.
  assert (bucket_ok burst r) as Hr by (apply refilled_ok; [lia|done]).
  assert (now ≤ r.1 ∧ r.1 ≤ hi)%Z as [H1 H2] by (unfold r, refilled; repeat case_if; bools; simpl; lia).
  split; [|split; [done|apply Hr]]. split_and!; [done..|]. destruct Hs as [->|Hs]; [by left|right].
  split_and!; [lia..|]. destruct Hok as [? ?]. unfold r, refilled in *. repeat case_if; bools; simpl in *; nia.
Qed.

Lemma accounted_spend lo hi b s cost now :
  (0 < lo ≤ now)%Z → (now ≤ b.1)%Z → (0 < cost ≤ b.2)%Z → (0 ≤ s)%Z → accounted lo hi b s →
  accounted lo hi (b.1, b.2 - cost)%Z (s + cost).
Proof using Hburst Hrate.
  intros Hlo Hn Hc Hs0 ([Hu Ht] & Hle & Hs). split_and!; [split; simpl; lia|done|]. right. simpl.
  split_and!; [lia..|]. destruct Hs as [->|Hs]; nia.
Qed.

Lemma accounted_bound lo hi b s : (lo ≤ hi)%Z → accounted lo hi b s → (s ≤ burst + rate * (hi - lo))%Z.
Proof using Hburst Hrate. intros Hlo ([Hu Ht] & Hle & [->|Hs]); nia. Qed.
End Bucket.

(** ** The rate of expensive commands *)

Definition is_operator (K : Client) : bool := client_mode_has (cl_modes K) operator_modes.

(** What the budgets depend on. *)
Definition budget_view (K : Client) : ClientModeSet * (Z * Z) := (cl_modes K, command_budget K).

Abbreviation own_refilled := (λ t, refilled t COMMAND_BUDGET_BURST COMMAND_BUDGET_REFILL_PER_SECOND).
Abbreviation global_refilled := (λ t, refilled t COMMAND_GLOBAL_BUDGET_BURST COMMAND_GLOBAL_BUDGET_REFILL_PER_SECOND).
Definition spent (ok : bool) (cost : Z) (b : Z * Z) : Z * Z := if ok then (b.1, b.2 - cost)%Z else b.

(** Steps on everything else. *)
Definition same_budgets (w w' : World) : Prop :=
  w_now w' = w_now w ∧ budget_view <$> w_clients w' = budget_view <$> w_clients w ∧ global_budget w' = global_budget w.
#[local] Instance same_budgets_silent : Silent same_budgets.
Proof.
  split; [split; unfold same_budgets; [done | intros ??? (?&?&?) (?&?&?); split_and!; congruence]|].
  intros w w' H. unfold quiet in H. by rewrite H.
Qed.
Lemma same_budgets_upd c f : (∀ K, budget_view (f K) = budget_view K) → does same_budgets (upd_client c f).
Proof.
  intros Hf w. split_and!; [done| |done]. simpl. apply map_eq. intros i. rewrite !lookup_fmap.
  destruct (decide (i = c)) as [->|]; [rewrite lookup_alter_eq | by rewrite lookup_alter_ne].
  destruct (w_clients w !! c); [|done]. simpl. by rewrite Hf.
Qed.
#[local] Hint Extern 4 (does same_budgets (upd_client _ _)) => apply same_budgets_upd; intros ?; reflexivity : frame.
#[local] Hint Extern 4 (does same_budgets (modify _)) => intros ?; by split_and! : frame.
#[local] Hint Extern 5 (does same_budgets _) => apply (does_quiet _); solve [eauto with frame] : frame.

(** One request of an ordinary client: granted when both buckets, refilled, hold the
    cost, which is then taken out of both. *)
Lemma expensive_step c cmd cost w K :
  w_clients w !! c = Some K → is_operator K = false → cost ≠ 0%Z → (0 < w_now w < 2 ^ 57)%Z →
  bucket_ok COMMAND_BUDGET_BURST (command_budget K) → bucket_ok COMMAND_GLOBAL_BUDGET_BURST (global_budget w) →
  let own := own_refilled (w_now w) (command_budget K) in
  let all := global_refilled (w_now w) (global_budget w) in
  let ok := (cost <=? own.2)%Z && (cost <=? all.2)%Z in
  let w' := (command_expensive_allow c cmd cost w).2 in
  (command_expensive_allow c cmd cost w).1 = ok ∧ w_now w' = w_now w ∧
  budget_view <$> w_clients w' = <[c := (cl_modes K, spent ok cost own)]> (budget_view <$> w_clients w) ∧
  global_budget w' = spent ok cost all.
Proof.
  intros HK Hop Hc Hn Hb Hg own all ok w'. subst w'.
  unfold command_expensive_allow, client, now, config. rewrite !run_gets.
  assert (the_client w c = K) as -> by (unfold the_client; by rewrite HK).
  unfold is_operator in Hop. rewrite (proj2 (Z.eqb_neq _ _) Hc), Hop. cbn [orb].
  rewrite !run_gets, run_upd_client, run_modify, run_gets.
  match goal with |- context [set_global_budget ?b (put_client c ?g w)] =>
    set (w1 := set_global_budget b (put_client c g w)); pose (f := g) end.
  assert (E1 : refill_weighted_budget (w_now w) (command_budget K) COMMAND_BUDGET_BURST
    COMMAND_BUDGET_REFILL_PER_SECOND = own) by (by apply refill_weighted_spec).
  assert (E2 : refill_weighted_budget (w_now w) (global_budget w) COMMAND_GLOBAL_BUDGET_BURST
    COMMAND_GLOBAL_BUDGET_REFILL_PER_SECOND = all) by (by apply refill_weighted_spec).
  assert (Hw1 : w_clients w1 !! c = Some (set_command_budget own K)).
  { change (w_clients w1) with (alter f c (w_clients w)). rewrite lookup_alter_eq, HK, <-E1. done. }
  assert (Hv1 : budget_view <$> w_clients w1 = <[c := (cl_modes K, own)]> (budget_view <$> w_clients w)).
  { apply map_eq. intros j. rewrite lookup_fmap. destruct (decide (j = c)) as [->|Hj].
    - rewrite Hw1, lookup_insert_eq. cbn. unfold budget_view, command_budget. cbn. by destruct own.
    - rewrite lookup_insert_ne, lookup_fmap by done. change (w_clients w1) with (alter f c (w_clients w)).
      by rewrite lookup_alter_ne. }
  assert (Hg1 : global_budget w1 = all).
  { assert (Hset : ∀ b v, global_budget (set_global_budget b v) = b) by (by intros [] ?). etrans; [apply Hset | exact E2]. }
  assert (Hn1 : w_now w1 = w_now w) by done.
  clearbody w1. assert (the_client w1 c = set_command_budget own K) as -> by (unfold the_client; by rewrite Hw1).
  change (cl_command_budget_tokens (set_command_budget own K)) with own.2.
  rewrite (Z.ltb_antisym cost own.2). destruct (cost <=? own.2)%Z eqn:Hown; cbn [negb]; cycle 1.
  { match goal with |- (?m w1).1 = _ ∧ _ => assert (does same_budgets m) as Hm by frames;
      assert (returns false m) as Hf by auto 10 with irc end. destruct (Hm w1) as (H1 & H2 & H3). specialize (Hf w1).
    unfold ok. rewrite ?Hown. cbn [andb spent]. by rewrite Hf, H1, H2, H3. }
  rewrite run_gets. assert (w_command_global_budget_tokens w1 = all.2) as -> by (by rewrite <-Hg1).
  rewrite (Z.ltb_antisym cost all.2). destruct (cost <=? all.2)%Z eqn:Hall; cbn [negb]; cycle 1.
  { match goal with |- (?m w1).1 = _ ∧ _ => assert (does same_budgets m) as Hm by frames;
      assert (returns false m) as Hf by auto 10 with irc end. destruct (Hm w1) as (H1 & H2 & H3). specialize (Hf w1).
    unfold ok. rewrite ?Hown, ?Hall. cbn [andb spent]. by rewrite Hf, H1, H2, H3. }
  unfold ok. rewrite ?Hown, ?Hall. cbn [andb spent]. split_and!; [done..| |].
  - change (budget_view <$> alter (λ K, set_cl_command_budget_tokens (cl_command_budget_tokens K - cost) K) c (w_clients w1) =
      <[c := (cl_modes K, (own.1, own.2 - cost)%Z)]> (budget_view <$> w_clients w)).
    apply map_eq. intros j. assert (Hj := f_equal (λ m, m !! j) Hv1). cbv beta in Hj. rewrite lookup_fmap in *.
    destruct (decide (j = c)) as [->|Hne].
    + by rewrite lookup_alter_eq, Hw1, lookup_insert_eq.
    + rewrite lookup_alter_ne, lookup_insert_ne in * by done. done.
  - by rewrite <-Hg1.
Qed.

(** Requests of several clients, in the order the server sees them. *)
Record Request := MkRequest { rq_time : Z; rq_client : ptr; rq_command : cstr; rq_cost : Z }.

Fixpoint expensive_run (l : list Request) : M (list bool) :=
  match l with
  | [] => mret []
  | r :: l =>
      modify (set_w_now (rq_time r)) ;;
      ok ← command_expensive_allow (rq_client r) (rq_command r) (rq_cost r);
      rest ← expensive_run l;
      mret (ok :: rest)
  end.

(** The total cost of the granted requests of the clients in [P]. *)
Fixpoint granted (P : ptr → bool) (l : list Request) (out : list bool) : Z :=
  match l, out with
  | r :: l, ok :: out => ((if ok && P (rq_client r) then rq_cost r else 0) + granted P l out)%Z
  | _, _ => 0%Z
  end.

Abbreviation own_accounted := (accounted COMMAND_BUDGET_BURST COMMAND_BUDGET_REFILL_PER_SECOND).
Abbreviation global_accounted := (accounted COMMAND_GLOBAL_BUDGET_BURST COMMAND_GLOBAL_BUDGET_REFILL_PER_SECOND).

(** A request within the period, of a live client. *)
Definition timely (lo hi : Z) (w : World) (r : Request) : Prop :=
  (lo ≤ rq_time r ≤ hi)%Z ∧ (0 ≤ rq_cost r)%Z ∧ is_Some (w_clients w !! rq_client r).

(** The books: [s c] granted to [c], [total] to all, [ops] the operators. *)
Record books (lo hi : Z) (ops : ptr → bool) (w : World) (s : ptr → Z) (total : Z) : Prop := {
  books_ops c v : (budget_view <$> w_clients w) !! c = Some v → client_mode_has v.1 operator_modes = ops c;
  books_own c v : (budget_view <$> w_clients w) !! c = Some v → own_accounted lo hi v.2 (s c);
  books_all : global_accounted lo hi (global_budget w) total;
  books_nonneg c : (0 ≤ s c)%Z;
  books_total : (0 ≤ total)%Z }.

Lemma own_rate : (0 < COMMAND_BUDGET_REFILL_PER_SECOND ≤ 40)%Z.
Proof. done. Qed.
Lemma global_rate : (0 < COMMAND_GLOBAL_BUDGET_REFILL_PER_SECOND ≤ 40)%Z.
Proof. done. Qed.

Lemma books_step lo hi ops w s total r :
  (0 < lo)%Z → (hi < 2 ^ 57)%Z → timely lo hi w r → books lo hi ops w s total →
  let out := command_expensive_allow (rq_client r) (rq_command r) (rq_cost r) (set_w_now (rq_time r) w) in
  let charged := if out.1 && negb (ops (rq_client r)) then rq_cost r else 0%Z in
  books lo hi ops out.2 (λ c, if decide (c = rq_client r) then s c + charged else s c)%Z (total + charged) ∧
  dom (w_clients out.2) = dom (w_clients w).
Proof.
  intros Hlo Hhi (Ht & Hcost & [K HK]) HB out charged. destruct r as [t c cmd cost]; simpl in *.
  pose proof (books_ops _ _ _ _ _ _ HB c) as Hops. rewrite lookup_fmap, HK in Hops.
  specialize (Hops (budget_view K) eq_refl). change (is_operator K = ops c) in Hops.
  set (w0 := set_w_now t w) in *.
  assert (Hfree : (cost = 0%Z ∨ is_operator K = true) → out = (true, w0)).
  { intros Hor. unfold out, command_expensive_allow, client. rewrite run_gets.
    assert (the_client w0 c = K) as -> by (unfold the_client; by simpl; rewrite HK).
    unfold is_operator in Hor. destruct Hor as [->| ->]; [done|]. by rewrite orb_true_r. }
  destruct (decide (cost = 0%Z ∨ is_operator K = true)) as [Hor|Hno].
  { rewrite (Hfree Hor). assert (charged = 0%Z) as ->.
    { unfold charged. destruct Hor as [->|Hop]; [by case_if|]. by rewrite <-Hops, Hop, andb_false_r. }
    split; [|done]. rewrite Z.add_0_r. assert (∀ d, (if decide (d = c) then s d + 0 else s d)%Z = s d) as Hs by (intros; case_decide; lia).
    split; [apply HB| |apply HB| |apply HB]; intros d; [intros v|]; rewrite Hs; apply HB. }
  assert (cost ≠ 0%Z ∧ is_operator K = false) as [Hc Hop] by (destruct (is_operator K); naive_solver).
  assert (HKb : own_accounted lo hi (command_budget K) (s c)).
  { apply (books_own _ _ _ _ _ _ HB c (budget_view K)). by rewrite lookup_fmap, HK. }
  pose proof (books_all _ _ _ _ _ _ HB) as HG.
  destruct (expensive_step c cmd cost w0 K) as (Hok & _ & Hv & Hg); [done..|simpl; lia|apply HKb|apply HG|].
  simpl in Hv, Hg. fold out in Hok, Hv, Hg.
  destruct (accounted_refill COMMAND_BUDGET_BURST _ ltac:(done) own_rate lo hi _ _ t
    ltac:(lia) HKb) as (HK1 & HK2 & _).
  destruct (accounted_refill COMMAND_GLOBAL_BUDGET_BURST _ ltac:(done) global_rate lo hi _ _ t
    ltac:(lia) HG) as (HG1 & HG2 & _).
  assert (Hch : charged = if out.1 then cost else 0%Z) by (unfold charged; by rewrite <-Hops, Hop, andb_true_r).
  rewrite Hok in Hch. clearbody charged. subst charged. clear Hfree.
  set (own := refilled t _ _ _) in *. set (all := refilled t _ _ (global_budget w)) in *.
  set (ok := _ && _) in *. pose proof (books_nonneg _ _ _ _ _ _ HB c) as Hs. pose proof (books_total _ _ _ _ _ _ HB) as Htot.
  assert (Hown : own_accounted lo hi (spent ok cost own) (s c + if ok then cost else 0)%Z ∧
                 global_accounted lo hi (spent ok cost all) (total + if ok then cost else 0)%Z).
  { destruct ok eqn:Hb; simpl; [|by rewrite !Z.add_0_r]. unfold ok in Hb. bools.
    assert (cost ≤ own.2 ∧ cost ≤ all.2)%Z as [? ?] by (split; assumption).
    split; [apply (accounted_spend COMMAND_BUDGET_BURST _ ltac:(done) own_rate lo hi own (s c) cost t)
           |apply (accounted_spend COMMAND_GLOBAL_BUDGET_BURST _ ltac:(done) global_rate lo hi all total cost t)]; (done || lia). }
  destruct Hown as [Hown Hall]. split; [split|].
  - rewrite Hv. intros d v [[<- <-]|[? Hd]]%lookup_insert_Some; [exact Hops|]. by apply (books_ops _ _ _ _ _ _ HB).
  - rewrite Hv. intros d v [[<- <-]|[? Hd]]%lookup_insert_Some; [by rewrite decide_True|].
    rewrite decide_False by done. by apply (books_own _ _ _ _ _ _ HB).
  - by rewrite Hg.
  - intros d. pose proof (books_nonneg _ _ _ _ _ _ HB d). case_decide; [case_match; lia|done].
  - case_match; lia.
  - apply (f_equal dom) in Hv. rewrite dom_insert_L, !dom_fmap_L in Hv. rewrite Hv. apply elem_of_dom_2 in HK. set_solver.
Qed.

Lemma books_run lo hi ops l w s total :
  (0 < lo)%Z → (lo ≤ hi)%Z → (hi < 2 ^ 57)%Z → Forall (timely lo hi w) l → books lo hi ops w s total →
  let out := (expensive_run l w).1 in
  (∀ c, ops c = false → is_Some (w_clients w !! c) →
     s c + granted (λ d, bool_decide (d = c)) l out ≤ COMMAND_BUDGET_BURST + COMMAND_BUDGET_REFILL_PER_SECOND * (hi - lo))%Z ∧
  (total + granted (λ d, negb (ops d)) l out ≤
     COMMAND_GLOBAL_BUDGET_BURST + COMMAND_GLOBAL_BUDGET_REFILL_PER_SECOND * (hi - lo))%Z.
Proof.
  intros Hlo Hle Hhi Hl. revert w s total Hl. induction l as [|r l IH]; intros w s total Hl HB.
  - cbn [expensive_run granted mret ST_ret fst]. split.
    + intros c _ [K HK]. rewrite Z.add_0_r. eapply (accounted_bound COMMAND_BUDGET_BURST _ ltac:(done) own_rate); [done|].
      apply (books_own _ _ _ _ _ _ HB c (budget_view K)). by rewrite lookup_fmap, HK.
    + rewrite Z.add_0_r. eapply (accounted_bound COMMAND_GLOBAL_BUDGET_BURST _ ltac:(done) global_rate); [done|apply HB].
  - apply Forall_cons in Hl as [Hr Hl]. destruct (books_step lo hi ops w s total r) as [HB' Hdom]; [done..|].
    cbn [expensive_run]. rewrite run_modify, run_bind.
    destruct (command_expensive_allow _ _ _ _) as [ok w']. cbn [fst snd] in *.
    assert (Hl' : Forall (timely lo hi w') l).
    { eapply Forall_impl; [exact Hl|]. intros q (H1 & H2 & H3). split_and!; [lia..|].
      apply elem_of_dom. rewrite Hdom. by apply elem_of_dom. }
    specialize (IH w' _ _ Hl' HB') as [IH1 IH2]. rewrite run_bind. destruct (expensive_run l w') as [out w'']. cbn in *.
    split.
    + intros c Hc Hlive. assert (is_Some (w_clients w' !! c)) as Hlive'
        by (apply elem_of_dom; rewrite Hdom; by apply elem_of_dom).
      specialize (IH1 c Hc Hlive'). destruct (decide (c = rq_client r)) as [->|Hne].
      * rewrite bool_decide_true by done. rewrite Hc in IH1. cbn in IH1. destruct ok; cbn in *; lia.
      * rewrite bool_decide_false by done. rewrite andb_false_r. lia.
    + destruct (ok && negb (ops (rq_client r))); lia.
Qed.

(** C22: expensive commands are rationed.  Whatever the clients send between [lo] and
    [hi], in whatever order, an ordinary client is granted commands of total cost at most
    20 + 4 (hi - lo), and all ordinary clients together at most 200 + 40 (hi - lo).  The
    state may be any in which the buckets are within their sizes and were not refilled in
    the future, among them the zeroed buckets of new clients. *)
Theorem expensive_commands_rationed lo hi l w :
  (0 < lo)%Z → (lo ≤ hi)%Z → (hi < 2 ^ 57)%Z → Forall (timely lo hi w) l →
  (∀ c K, w_clients w !! c = Some K →
     bucket_ok COMMAND_BUDGET_BURST (command_budget K) ∧ cl_command_budget_updated K ≤ hi)%Z →
  (bucket_ok COMMAND_GLOBAL_BUDGET_BURST (global_budget w) ∧ w_command_global_budget_updated w ≤ hi)%Z →
  let out := (expensive_run l w).1 in
  let ordinary c := negb (is_operator (the_client w c)) in
  (∀ c, ordinary c = true → is_Some (w_clients w !! c) →
     granted (λ d, bool_decide (d = c)) l out ≤ COMMAND_BUDGET_BURST + COMMAND_BUDGET_REFILL_PER_SECOND * (hi - lo))%Z ∧
  (granted ordinary l out ≤
     COMMAND_GLOBAL_BUDGET_BURST + COMMAND_GLOBAL_BUDGET_REFILL_PER_SECOND * (hi - lo))%Z.
Proof.
  intros Hlo Hle Hhi Hl Hown Hall out ordinary.
  destruct (books_run lo hi (λ c, is_operator (the_client w c)) l w (λ _, 0%Z) 0) as [H1 H2]; [done..| |].
  - split; try done.
    + intros c v. rewrite lookup_fmap. unfold the_client. destruct (w_clients w !! c); simpl; [|done]. by intros [= <-].
    + intros c v. rewrite lookup_fmap. destruct (w_clients w !! c) as [K|] eqn:HK; simpl; [|done]. intros [= <-].
      destruct (Hown c K HK). split_and!; [done..|]. by left.
    + destruct Hall. split_and!; [done..|]. by left.
  - split; [|exact H2]. intros c Hc Hlive. apply negb_true_iff in Hc. exact (H1 c Hc Hlive).
Qed.

Lemma expensive_commands_rationed_witness :
  let w := set_w_clients {[ 0 := calloc_client ]} boot in
  let l := [MkRequest 10 0 (lit "LIST") 5; MkRequest 10 0 (lit "WHO") 4; MkRequest 12 0 (lit "LIST") 5;
            MkRequest 12 0 (lit "LIST") 5; MkRequest 12 0 (lit "LIST") 5; MkRequest 12 0 (lit "WHO") 4; MkRequest 12 0 (lit "WHO") 4] in
  Forall (timely 10 12 w) l ∧ (expensive_run l w).1 = [true; true; true; true; true; true; false] ∧
  (granted (λ d, bool_decide (d = 0%nat)) l (expensive_run l w).1 ≤ 28)%Z.
Proof.
  intros w l. assert (Hl : Forall (timely 10 12 w) l) by (repeat constructor; (simpl; lia) || (eexists; reflexivity)).
  split; [exact Hl|]. split; [vm_compute; reflexivity|].
  apply (expensive_commands_rationed 10 12 l w); try done.
  intros c K HK. change (({[ 0 := calloc_client ]} : gmap ptr Client) !! c = Some K) in HK.
  apply lookup_singleton_Some in HK as [<- <-]. done.
Defined.

(** ** Disconnecting a client that floods *)

Definition flood_bucket (K : Client) : Z * Z := (cl_flood_budget_updated K, cl_flood_budget_tokens K).
Definition flood_strikes (K : Client) : Z * Z := (cl_flood_violation_window K, cl_flood_violation_count K).
Definition flood_view (K : Client) : ClientModeSet * (Z * Z) * (Z * Z) := (cl_modes K, flood_bucket K, flood_strikes K).

Definition strike (t : Z) (v : Z * Z) : Z * Z :=
  if (v.1 =? 0)%Z || (FLOOD_VIOLATION_WINDOW_SECONDS <=? t - v.1)%Z then (t, 1%Z) else (v.1, uint (v.2 + 1)).

Lemma flood_refill_view t K :
  (0 < t < 2 ^ 57)%Z → bucket_ok FLOOD_BUDGET_BURST (flood_bucket K) →
  flood_view (flood_refill t K) =
    (cl_modes K, refilled t FLOOD_BUDGET_BURST FLOOD_BUDGET_REFILL_PER_SECOND (flood_bucket K), flood_strikes K).
Proof.
  intros Ht [Hu Hb]. simpl in Hu, Hb. unfold flood_refill, refilled. cbn [flood_bucket fst snd].
  destruct (Z.eqb_spec (cl_flood_budget_updated K) 0); [done|].
  destruct (Z.ltb_spec (cl_flood_budget_updated K) t), (Z.leb_spec t (cl_flood_budget_updated K)); try lia; [|done].
  unfold flood_view, flood_bucket, flood_strikes.
  rewrite <-(refill_level FLOOD_BUDGET_BURST FLOOD_BUDGET_REFILL_PER_SECOND) by (done || lia). reflexivity.
Qed.

Lemma flood_violation_view t K :
  flood_view (flood_violation t K) = (cl_modes K, flood_bucket K, strike t (flood_strikes K)).
Proof. unfold flood_violation, strike. cbn [flood_strikes fst snd]. by case_if. Qed.

(** One command of an ordinary client. *)
Definition flood_step (t cost : Z) (b v : Z * Z) : Z * (Z * Z) * (Z * Z) :=
  let own := refilled t FLOOD_BUDGET_BURST FLOOD_BUDGET_REFILL_PER_SECOND b in
  if (cost <=? own.2)%Z then (1%Z, (own.1, own.2 - cost)%Z, v)
  else ((if FLOOD_VIOLATIONS_BEFORE_DISCONNECT <=? (strike t v).2 then 0 else -1)%Z, own, strike t v).

Lemma general_flood_step c cmd cost w K :
  w_clients w !! c = Some K → is_operator K = false → cost ≠ 0%Z → (0 < w_now w < 2 ^ 57)%Z →
  bucket_ok FLOOD_BUDGET_BURST (flood_bucket K) →
  let '(r, b, v) := flood_step (w_now w) cost (flood_bucket K) (flood_strikes K) in
  let w' := (general_flood_allow c cmd cost w).2 in
  (general_flood_allow c cmd cost w).1 = r ∧ flood_view (the_client w' c) = (cl_modes K, b, v).
Proof.
  intros HK Hop Hc Hn Hb. pose proof (flood_refill_view _ K Hn Hb) as Hv.
  unfold flood_step. set (own := refilled _ _ _ _) in *.
  unfold general_flood_allow, client, now. rewrite !run_gets.
  assert (the_client w c = K) as -> by (unfold the_client; by rewrite HK).
  unfold is_operator in Hop. rewrite (proj2 (Z.eqb_neq _ _) Hc), Hop. cbn [orb]. rewrite run_gets, run_upd_client, run_gets.
  set (w1 := put_client _ _ w).
  assert (Hw1 : w_clients w1 !! c = Some (flood_refill (w_now w) K)) by (unfold w1; simpl; by rewrite lookup_alter_eq, HK).
  assert (the_client w1 c = flood_refill (w_now w) K) as -> by (unfold the_client; by rewrite Hw1).
  set (K1 := flood_refill (w_now w) K) in *.
  assert (flood_bucket K1 = own) as Hf by exact (f_equal (λ v, v.1.2) Hv).
  change (cl_flood_budget_tokens K1) with (flood_bucket K1).2. rewrite Hf.
  destruct (cost <=? own.2)%Z.
  { split; [done|]. change (flood_view (the_client (put_client c (set_cl_flood_budget_tokens (own.2 - cost)) w1) c) =
      (cl_modes K, (own.1, own.2 - cost)%Z, flood_strikes K)).
    rewrite the_client_put, decide_True, Hw1 by done.
    change (flood_view (set_cl_flood_budget_tokens (own.2 - cost) K1)) with
      (cl_modes K1, ((flood_bucket K1).1, own.2 - cost)%Z, flood_strikes K1).
    rewrite Hf. unfold flood_view in Hv. congruence. }
  rewrite run_upd_client, run_gets. set (w2 := put_client _ _ w1).
  assert (the_client w2 c = flood_violation (w_now w) K1) as Hw2 by (unfold w2; by rewrite the_client_put, decide_True, Hw1).
  rewrite Hw2. pose proof (flood_violation_view (w_now w) K1) as Hv2. set (K2 := flood_violation (w_now w) K1) in *.
  assert (flood_view K2 = (cl_modes K, own, strike (w_now w) (flood_strikes K))) as HK2.
  { rewrite Hv2. unfold flood_view in Hv. congruence. }
  assert (flood_strikes K2 = strike (w_now w) (flood_strikes K)) as Hst by exact (f_equal snd HK2).
  change (cl_flood_violation_count K2) with (flood_strikes K2).2. rewrite Hst, <-HK2, <-Hw2.
  destruct (FLOOD_VIOLATIONS_BEFORE_DISCONNECT <=? _)%Z;
    match goal with |- (?m w2).1 = ?r ∧ _ => assert (returns r m) as Hr by auto 10 with irc;
      assert (does (same_at flood_view c) m) as Hm by frames; split; [apply Hr | apply Hm] end.
Qed.

(** The commands of one client, in order. *)
Fixpoint flood_run (c : ptr) (l : list (Z * cstr * Z)) : M (list Z) :=
  match l with
  | [] => mret []
  | (t, cmd, cost) :: l =>
      modify (set_w_now t) ;;
      r ← general_flood_allow c cmd cost;
      rest ← flood_run c l;
      mret (r :: rest)
  end.

Fixpoint flood_granted (l : list (Z * cstr * Z)) (out : list Z) : Z :=
  match l, out with
  | (_, _, cost) :: l, r :: out => ((if (r =? 1)%Z then cost else 0) + flood_granted l out)%Z
  | _, _ => 0%Z
  end.

(** When commands were refused, newest first, on top of [before]. *)
Fixpoint refusals (before : list Z) (l : list (Z * cstr * Z)) (out : list Z) : list Z :=
  match l, out with
  | (t, _, _) :: l, r :: out => refusals (if (r =? 1)%Z then before else t :: before) l out
  | _, _ => before
  end.

(** Times that do not go back, from [lo] to [hi], and commands that cost something. *)
Fixpoint in_order (lo hi : Z) (l : list (Z * cstr * Z)) : Prop :=
  match l with
  | [] => (lo ≤ hi)%Z
  | (t, _, cost) :: l => (lo ≤ t)%Z ∧ (0 < cost)%Z ∧ in_order t hi l
  end.

Lemma in_order_le lo hi l : in_order lo hi l → (lo ≤ hi)%Z.
Proof. revert lo. induction l as [|[[t ?] ?] l IH]; intros lo; simpl; [done|]. intros (? & ? & ?%IH). lia. Qed.

(** The results, from the bucket and the strikes alone. *)
Fixpoint flood_results (l : list (Z * cstr * Z)) (b v : Z * Z) : list Z :=
  match l with
  | [] => []
  | (t, _, cost) :: l => let '(r, b', v') := flood_step t cost b v in r :: flood_results l b' v'
  end.

Lemma flood_step_ok t cost b v :
  (0 < t < 2 ^ 57)%Z → (0 < cost)%Z → bucket_ok FLOOD_BUDGET_BURST b → bucket_ok FLOOD_BUDGET_BURST (flood_step t cost b v).1.2.
Proof.
  intros Ht Hc Hb. pose proof (refilled_ok FLOOD_BUDGET_BURST FLOOD_BUDGET_REFILL_PER_SECOND ltac:(done) ltac:(done) t b Ht Hb) as [H1 H2].
  unfold flood_step. case_if; bools; split; simpl; lia.
Qed.

Definition same_dom (w w' : World) : Prop := dom (w_clients w') = dom (w_clients w).
#[local] Instance same_dom_silent : Silent same_dom.
Proof. split; [split; unfold same_dom; [done|congruence]|]. intros w w' H. unfold quiet in H. unfold same_dom. by rewrite H. Qed.
#[local] Hint Extern 4 (does same_dom (upd_client _ _)) => intros ?; apply dom_alter_L : frame.
#[local] Hint Extern 5 (does same_dom _) => apply (does_quiet _); solve [eauto with frame] : frame.
Lemma general_flood_allow_dom c cmd cost : does same_dom (general_flood_allow c cmd cost).
Proof. unfold general_flood_allow. frames. Qed.

Lemma flood_run_results c l lo hi w K :
  (0 < lo)%Z → (hi < 2 ^ 57)%Z → in_order lo hi l → w_clients w !! c = Some K → is_operator K = false →
  bucket_ok FLOOD_BUDGET_BURST (flood_bucket K) →
  (flood_run c l w).1 = flood_results l (flood_bucket K) (flood_strikes K).
Proof.
  intros Hlo Hhi. revert lo w K Hlo. induction l as [|[[t cmd] cost] l IH]; intros lo w K Hlo Hl HK Hop Hb; [done|].
  destruct Hl as (Ht & Hc & Hl). pose proof (in_order_le _ _ _ Hl). cbn [flood_run flood_results]. rewrite run_modify, run_bind.
  pose proof (general_flood_step c cmd cost (set_w_now t w) K HK Hop ltac:(lia) ltac:(simpl; lia) Hb) as Hs.
  pose proof (general_flood_allow_dom c cmd cost (set_w_now t w)) as Hd.
  change (w_now (set_w_now t w)) with t in Hs.
  pose proof (flood_step_ok t cost _ (flood_strikes K) ltac:(lia) Hc Hb) as Hok.
  destruct (flood_step t cost _ _) as [[r b] v]. destruct (general_flood_allow _ _ _ _) as [r' w']. cbn [fst snd] in *.
  destruct Hs as [-> Hv].
  assert (is_Some (w_clients w' !! c)) as [K' HK'] by (apply elem_of_dom; rewrite Hd; by apply elem_of_dom).
  unfold the_client in Hv. rewrite HK' in Hv. change (flood_view K' = (cl_modes K, b, v)) in Hv.
  assert (cl_modes K' = cl_modes K) as Hm by exact (f_equal (λ v, v.1.1) Hv).
  assert (flood_bucket K' = b) as E1 by exact (f_equal (λ v, v.1.2) Hv).
  assert (flood_strikes K' = v) as E2 by exact (f_equal snd Hv).
  specialize (IH t w' K' ltac:(lia) Hl HK'). rewrite E1, E2 in IH. rewrite run_bind.
  destruct (flood_run c l w') as [out w'']. cbn in *. f_equal. apply IH; [|done].
  unfold is_operator in *. by rewrite Hm.
Qed.

Lemma flood_results_granted l lo hi b v s last :
  (0 < lo)%Z → (lo ≤ last)%Z → (hi < 2 ^ 57)%Z → in_order last hi l → (0 ≤ s)%Z →
  accounted FLOOD_BUDGET_BURST FLOOD_BUDGET_REFILL_PER_SECOND lo hi b s →
  (s + flood_granted l (flood_results l b v) ≤ FLOOD_BUDGET_BURST + FLOOD_BUDGET_REFILL_PER_SECOND * (hi - lo))%Z.
Proof.
  intros Hlo Hle Hhi. revert b v s last Hle. induction l as [|[[t cmd] cost] l IH]; intros b v s last Hle Hl Hs Ha.
  - simpl in *. rewrite Z.add_0_r. by eapply (accounted_bound FLOOD_BUDGET_BURST FLOOD_BUDGET_REFILL_PER_SECOND ltac:(done) ltac:(done)); [lia|].
  - destruct Hl as (Ht & Hc & Hl). pose proof (in_order_le _ _ _ Hl).
    destruct (accounted_refill FLOOD_BUDGET_BURST FLOOD_BUDGET_REFILL_PER_SECOND ltac:(done) ltac:(done) lo hi b s t ltac:(lia) Ha)
      as (H1 & H2 & _).
    cbn [flood_results]. unfold flood_step. case_if; bools.
    + cbn [flood_granted]. change (1 =? 1)%Z with true. cbv iota. rewrite Z.add_assoc. eapply (IH _ _ _ t); [lia|done|lia|].
      apply (accounted_spend FLOOD_BUDGET_BURST FLOOD_BUDGET_REFILL_PER_SECOND ltac:(done) ltac:(done) lo hi _ s cost t); done || lia.
    + cbn [flood_granted]. assert (((if (FLOOD_VIOLATIONS_BEFORE_DISCONNECT <=? (strike t v).2) then 0 else -1) =? 1)%Z = false) as -> by (by case_if).
      rewrite Z.add_0_l. by eapply (IH _ _ _ t); [lia|..].
Qed.

(** The strikes of the current window are the newest refusals. *)
Definition struck (last : Z) (v : Z * Z) (before : list Z) : Prop :=
  (v.1 ≤ last)%Z ∧ (0 ≤ v.2)%Z ∧
  ∃ n, (v.2 ≤ Z.of_nat n)%Z ∧ n ≤ length before ∧ Forall (λ x, v.1 ≤ x)%Z (take n before).

Lemma strike_struck last t v before :
  (last ≤ t)%Z → struck last v before →
  struck t (strike t v) (t :: before) ∧
  ((FLOOD_VIOLATIONS_BEFORE_DISCONNECT ≤ (strike t v).2)%Z →
   ∃ b a rest, t :: before = t :: b :: a :: rest ∧ (t - a < FLOOD_VIOLATION_WINDOW_SECONDS)%Z).
Proof.
  intros Ht (H1 & H2 & n & Hn & Hlen & Hall). unfold strike. case_if.
  - split; [|done]. split_and!; simpl; [lia..|]. exists 1. split_and!; [done|simpl; lia|]. simpl. by constructor.
  - bools. assert (uint (v.2 + 1) ≤ v.2 + 1)%Z by (apply Z.mod_le; lia).
    split.
    + split_and!; simpl; [lia|by apply Z.mod_pos_bound|]. exists (S n). simpl. split_and!; [lia..|]. constructor; [lia|done].
    + simpl. unfold FLOOD_VIOLATIONS_BEFORE_DISCONNECT. intros Hc.
      destruct n as [|[|n]]; [lia..|]. destruct before as [|b [|a rest]]; [simpl in Hlen; lia..|].
      exists b, a, rest. split; [done|]. simpl in Hall. inversion_clear Hall as [|?? _ Ha]. inversion_clear Ha. lia.
Qed.

Lemma flood_results_strikes l hi b v last before k t cmd cost :
  in_order last hi l → struck last v before →
  l !! k = Some (t, cmd, cost) → flood_results l b v !! k = Some 0%Z →
  ∃ x y rest, refusals before (take (S k) l) (take (S k) (flood_results l b v)) = t :: x :: y :: rest ∧
    (t - y < FLOOD_VIOLATION_WINDOW_SECONDS)%Z.
Proof.
  revert b v last before k. induction l as [|[[u cmd'] cost'] l IH]; intros b v last before k Hl Hv Hk Hr; [done|].
  destruct Hl as (Hu & Hc & Hl). cbn [flood_results] in *. unfold flood_step in *. case_if.
  - destruct k as [|k]; [done|]. cbn [lookup list_lookup take refusals] in *. change (1 =? 1)%Z with true. cbv iota.
    eapply (IH _ _ u); try done. destruct Hv as (? & ? & ?). split_and!; [lia|done|done].
  - destruct (strike_struck last u v before Hu Hv) as [Hs Hd].
    destruct k as [|k]; cbn [lookup list_lookup take refusals] in *.
    + injection Hk as -> -> ->. injection Hr as Hr.
      destruct (FLOOD_VIOLATIONS_BEFORE_DISCONNECT <=? (strike t v).2)%Z eqn:H3; [|done].
      rewrite !take_0. cbn. by apply Hd, Z.leb_le.
    + assert (((if (FLOOD_VIOLATIONS_BEFORE_DISCONNECT <=? (strike u v).2) then 0 else -1) =? 1)%Z = false) as -> by (by case_if).
      by eapply (IH _ _ u).
Qed.

(** C23: flood control.  Of the commands an ordinary client sends between [lo] and [hi]
    the server executes a total cost of at most 80 + 20 (hi - lo).  It disconnects the
    client for flooding only at a command that is refused together with at least two
    earlier ones of the last five seconds. *)
Theorem flood_control_fair c l lo hi w K :
  (0 < lo)%Z → (hi < 2 ^ 57)%Z → in_order lo hi l → w_clients w !! c = Some K → is_operator K = false →
  bucket_ok FLOOD_BUDGET_BURST (flood_bucket K) → (cl_flood_budget_updated K ≤ hi)%Z → flood_strikes K = (0%Z, 0%Z) →
  let out := (flood_run c l w).1 in
  (flood_granted l out ≤ FLOOD_BUDGET_BURST + FLOOD_BUDGET_REFILL_PER_SECOND * (hi - lo))%Z ∧
  ∀ k t cmd cost, l !! k = Some (t, cmd, cost) → out !! k = Some 0%Z →
    ∃ x y rest, refusals [] (take (S k) l) (take (S k) out) = t :: x :: y :: rest ∧
      (t - y < FLOOD_VIOLATION_WINDOW_SECONDS)%Z.
Proof.
  intros Hlo Hhi Hl HK Hop Hb Hu Hv out. unfold out. rewrite (flood_run_results c l lo hi w K) by done. rewrite Hv. split.
  - rewrite <-(Z.add_0_l (flood_granted _ _)). apply (flood_results_granted l lo hi _ _ 0 lo); (done || lia || idtac).
    split_and!; [done..|]. by left.
  - intros k t cmd cost Hk Hr. eapply flood_results_strikes; try done.
    split_and!; simpl; [lia..|]. exists 0. split_and!; simpl; [lia..|constructor].
Qed.

(** Forty messages fill the bucket; the next three are refused and the client is gone. *)
Lemma flood_control_fair_witness :
  let w := set_w_clients {[ 0 := calloc_client ]} boot in
  let l := replicate 43 (10%Z, lit "PRIVMSG", 2%Z) in
  (flood_run 0 l w).1 = replicate 40 1%Z ++ [-1; -1; 0]%Z ∧
  (flood_granted l (flood_run 0 l w).1 ≤ 80)%Z.
Proof.
  intros w l. split; [vm_compute; reflexivity|].
  apply (flood_control_fair 0 l 10 10 w calloc_client); try done.
Defined.
