(* ===== verification/JoinPart.v ===== *)
(** * JOIN, PART and NAMES ([src/commands/joinpart.c], [src/commands/names.c], the
    NAMES reply of [src/commands/common.c]) *)

From S2P Require Import Prelude CString Modes HashTable MaskMatch Output World Channel Invariant Policy Numerics Ircv3 Presence Env Cloak Register Services.

Definition IRC_JOIN_REDIRECT_MAX : nat := 4.
Definition IRC_DEFAULT_PART_REASON : cstr := "Leaving".
Definition IRC_NAMES_PUBLIC_MARKER : ascii := "=".
Definition IRC_NAMES_PRIVATE_MARKER : ascii := "*".

(** ** The NAMES reply *)

(** A member as listed: its prefix and nickname, unless longer than a token. *)
Definition member_token (w : World) (m : ChannelMember) : option cstr :=
  let prefix := channel_privilege_prefix (m_privileges m) in
  let nick := cl_nick (the_client w (m_client m)) in
  let token := if Ascii.eqb prefix NUL then nick else prefix :: nick in
  if IRC_NICK_MAX + 2 <=? length token then None else Some token.

(** The lines sent while going through the members, and the unfinished last one. *)
Fixpoint names_chunks (fits : cstr → bool) (names : cstr) (tokens : list cstr) : list cstr * cstr :=
  match tokens with
  | [] => ([], names)
  | token :: rest =>
      let candidate := names ++ (if empty names then [] else lit " ") ++ token in
      if (length candidate <? IRC_LINE_CONTENT_MAX + 1) && fits candidate
      then names_chunks fits candidate rest
      else let '(sent, final) := names_chunks fits token rest in
           ((if empty names then [] else [names]) ++ sent, final)
  end.

Definition names_payload_fits (cfg : ServerConfig) (K : Client) (marker : ascii) (C : Channel) (names : cstr) : bool :=
  length (format RPL_NAMREPLY [server_name cfg; cl_nick K; [marker]; ch_name C; names]) <=? IRC_LINE_CONTENT_MAX.

Definition send_names_chunk (c : ptr) (marker : ascii) (C : Channel) (names : cstr) : M unit :=
  cfg ← config;
  K ← client c;
  tell c RPL_NAMREPLY [server_name cfg; cl_nick K; [marker]; ch_name C; names].

(** Everything one NAMES reply sends before the end-of-list line. *)
Definition names_lines (w : World) (c : ptr) (marker : ascii) (C : Channel) : list cstr :=
  let '(sent, final) := names_chunks (names_payload_fits (w_config w) (the_client w c) marker C) []
                          (omap (member_token w) (ch_members C)) in
  sent ++ (if negb (empty final) || (ch_member_count C =? 0) then [final] else []).

Definition command_send_names (ch c : ptr) : M unit :=
  C ← channel ch;
  cfg ← config;
  K ← client c;
  let marker := if Ascii.eqb (char0 (ch_name C)) "&" then IRC_NAMES_PRIVATE_MARKER else IRC_NAMES_PUBLIC_MARKER in
  lines ← gets (λ w, names_lines w c marker C);
  for_each lines (λ names, send_names_chunk c marker C names) ;;
  tell c RPL_ENDOFNAMES [server_name cfg; cl_nick K; ch_name C].

(** The NAMES command stops when the output queue overflows; [false] then. *)
Fixpoint send_names_chunks (c : ptr) (marker : ascii) (C : Channel) (lines : list cstr) : M bool :=
  match lines with
  | [] => mret true
  | names :: rest =>
      send_names_chunk c marker C names ;;
      full ← overflowed c;
      if full : bool then mret false else send_names_chunks c marker C rest
  end.

Definition send_names_for_channel (c ch : ptr) : M unit :=
  C ← channel ch;
  cfg ← config;
  K ← client c;
  let done := tell c RPL_ENDOFNAMES [server_name cfg; cl_nick K; ch_name C] in
  if negb (visibility_names_channel K c C) then done else
  let marker := if channel_mode_has (ch_modes C) CHANNEL_MODE_SECRET then "@"%char
                else if channel_mode_has (ch_modes C) CHANNEL_MODE_PRIVATE || Ascii.eqb (char0 (ch_name C)) "&"
                then IRC_NAMES_PRIVATE_MARKER else IRC_NAMES_PUBLIC_MARKER in
  lines ← gets (λ w, names_lines w c marker C);
  ok ← send_names_chunks c marker C lines;
  if ok : bool then done else mret tt.

(** A numeric that quotes what the client typed, cut so that the line fits. *)
Definition send_query_numeric (c : ptr) (fmt : cstr) (query : cstr) : M unit :=
  cfg ← config;
  K ← client c;
  let base_length := length (format fmt [server_name cfg; cl_nick K; []]) in
  if IRC_LINE_CONTENT_MAX <? base_length then mret tt else
  tell c fmt [server_name cfg; cl_nick K; take (IRC_LINE_CONTENT_MAX - base_length) query].

Definition send_end_of_names_query (c : ptr) (query : cstr) : M unit :=
  send_query_numeric c ":%s 366 %s %.*s :End of /NAMES list." query.

(** The walk over the table: one chain, then the chains in turn; the overflow test
    ends both. *)
Fixpoint names_chain (c : ptr) (entries : list ptr) : M unit :=
  match entries with
  | [] => mret tt
  | ch :: rest =>
      C ← channel ch;
      K ← client c;
      if visibility_names_channel K c C then
        send_names_for_channel c ch ;;
        full ← overflowed c;
        if full : bool then mret tt else names_chain c rest
      else names_chain c rest
  end.

Fixpoint names_buckets (c : ptr) (chains : list (list ptr)) : M unit :=
  match chains with
  | [] => mret tt
  | chain :: rest =>
      full ← overflowed c;
      if full : bool then mret tt else names_chain c chain ;; names_buckets c rest
  end.

Definition command_names (c : ptr) (params : option cstr) : M CommandResult :=
  u ← command_require_registered c;
  if u : bool then keep else
  match (params ← params; (strtok " ," params).1) with
  | Some name =>
      found ← find_channel name;
      match found with
      | Some ch => send_names_for_channel c ch ;; keep
      | None => send_end_of_names_query c name ;; keep
      end
  | None =>
      chains ← gets (λ w, map (map snd) (buckets (w_channels_by_name w)));
      names_buckets c chains ;; keep
  end.

(** ** JOIN *)

Definition send_no_such_channel_query (c : ptr) (query : option cstr) : M unit :=
  send_query_numeric c ":%s 403 %s %.*s :No such channel" (default (lit "*") query).

(** What JOIN decides about a client [K] and a channel [C] in its present state. *)
Inductive JoinDecision := Refuse (numeric : cstr) | Redirect (target : cstr) | Admit.

Definition join_banned (sp : ChannelPrivilegeSet) (C : Channel) (K : Client) : bool :=
  if channel_privilege_has sp CHANNEL_PRIV_OWNER then false else
  if channel_privilege_has sp CHANNEL_PRIV_PROTECTED then channel_client_is_banned_protected C K
  else channel_client_is_banned C K.

(** [may_redirect]: the depth limit is not reached. *)
Definition join_decision (time : Z) (may_redirect : bool) (sp : ChannelPrivilegeSet) (key : option cstr)
    (C : Channel) (K : Client) : JoinDecision :=
  let redirect_to target numeric :=
    if negb (empty target) && may_redirect && channel_name_valid target then Redirect target else Refuse numeric in
  if negb (empty (ch_key C)) && negb (match key with Some k => streq (ch_key C) k | None => false end)
  then Refuse ERR_BADCHANNELKEY else
  if join_banned sp C K then redirect_to (ch_ban_redirect C) ERR_BANNEDFROMCHAN else
  if negb (ch_user_limit C =? 0)%Z && (ch_user_limit C <=? Z.of_nat (ch_member_count C))%Z
  then redirect_to (ch_limit_redirect C) ERR_CHANNELISFULL else
  if channel_mode_has (ch_modes C) CHANNEL_MODE_REGONLY_JOIN && negb (client_mode_has (cl_modes K) CLIENT_MODE_REGISTERED)
  then Refuse ERR_NEEDREGGEDNICK else
  if channel_mode_has (ch_modes C) CHANNEL_MODE_OPER_ONLY &&
     negb (client_mode_has (cl_modes K) (N.lor CLIENT_MODE_OPER CLIENT_MODE_NETADMIN))
  then Refuse ERR_520 else
  if channel_mode_has (ch_modes C) CHANNEL_MODE_ADMIN_ONLY && negb (client_mode_has (cl_modes K) CLIENT_MODE_NETADMIN)
  then Refuse ERR_519 else
  if channel_mode_has (ch_modes C) CHANNEL_MODE_SECURE_ONLY && negb (client_mode_has (cl_modes K) CLIENT_MODE_SECURE)
  then Refuse ERR_SECUREONLYCHAN else
  if channel_mode_has (ch_modes C) CHANNEL_MODE_INVITE_ONLY && negb (channel_invite_has C (cl_id K)) &&
     negb (channel_client_is_invex C K)
  then Refuse ERR_INVITEONLYCHAN else
  if negb (channel_join_throttle_allows time C) then Refuse ERR_TOOMANYJOINS else Admit.

Section Join.
Context `{S : Services}.

(** The last steps of a JOIN that was admitted; [invited] and [sp] as found before. *)
Definition join_announce (ch c : ptr) : M unit :=
  ircv3_broadcast_join ch c ;;
  ircv3_away_notify_join ch c ;;
  channel_log_join ch c ;;
  cfg ← config;
  K ← client c;
  C ← channel ch;
  (if empty (ch_topic C) then tell c RPL_NOTOPIC [server_name cfg; cl_nick K; ch_name C]
   else
     tell c RPL_TOPIC [server_name cfg; cl_nick K; ch_name C; ch_topic C] ;;
     tell c RPL_TOPICWHOTIME [server_name cfg; cl_nick K; ch_name C; ch_topic_setter C;
                              dec (ch_topic_time C mod 2 ^ 64)]) ;;
  when (negb (empty (ch_chanserv_greeting C)))
    (tell c ":ChanServ!service@%s NOTICE %s :%s" [server_name cfg; cl_nick K; ch_chanserv_greeting C]) ;;
  command_send_names ch c.

Definition join_privileges (ch c : ptr) (first_member : bool) (sp : ChannelPrivilegeSet) : M unit :=
  C ← channel ch;
  let registered := channel_mode_has (ch_modes C) CHANNEL_MODE_REGISTERED in
  when (first_member && negb registered)
    (_ ← channel_add_privileges ch c (N.lor CHANNEL_PRIV_OWNER CHANNEL_PRIV_OPERATOR); mret tt) ;;
  when (registered && negb (sp =? 0)%N) (_ ← channel_set_service_privileges ch c sp; mret tt) ;;
  when registered (chanserv_sync_channel_privileges ch).

Definition join_admit (ch c : ptr) (invited : bool) (sp : ChannelPrivilegeSet) : M unit :=
  C ← channel ch;
  K ← client c;
  let first_member := ch_member_count C =? 0 in
  rc ← channel_add_client ch c;
  if (rc <? 0)%Z then mret tt else
  t ← now;
  upd_channel ch (channel_join_throttle_record t) ;;
  when invited (_ ← channel_invite_consume ch (cl_id K); mret tt) ;;
  join_privileges ch c first_member sp ;;
  join_announce ch c.

(** Looks the channel up or creates it; the flag says that it was created. *)
Definition join_channel (c : ptr) (name : cstr) : M (option (ptr * bool)) :=
  found ← find_channel name;
  match found with
  | Some ch => mret (Some (ch, false))
  | None =>
      cfg ← config;
      K ← client c;
      n ← gets w_channel_count;
      if max_channels cfg <=? n then
        tell c ":%s NOTICE %s :Cannot create %s: server channel limit reached (%zu)"
          [server_name cfg; cl_nick K; name; dec_nat (max_channels cfg)] ;;
        snotice_broadcast SNOTICE_FLOOD
          "Channel creation rejected for %s (nick=%s): global channel limit reached (%zu/%zu)"
          [name; cl_nick K; dec_nat n; dec_nat (max_channels cfg)] ;;
        mret None
      else
        ch ← server_get_or_create_channel name;
        mret (p ← ch; Some (p, true))
  end.

(** Applies the stored state of a registered channel; [false] when that fails. *)
Definition join_restore (c ch : ptr) (created : bool) : M bool :=
  chanserv_restore_channel ch ;;
  C ← channel ch;
  rc ← (if channel_mode_has (ch_modes C) CHANNEL_MODE_REGISTERED then chanserv_persist_restore ch else mret 0%Z);
  if negb (rc =? 0)%Z then
    cfg ← config;
    K ← client c;
    tell c ":%s NOTICE %s :Cannot join %s: persistent channel state could not be restored."
      [server_name cfg; cl_nick K; ch_name C] ;;
    when created (server_remove_channel_if_empty ch) ;;
    mret false
  else mret true.

(** One channel; [redirect] is the recursive call, which the depth limit withholds. *)
Definition join_step (c : ptr) (name : option cstr) (key : option cstr) (redirect : option (cstr → M unit)) : M unit :=
  match name with
  | None => send_no_such_channel_query c None
  | Some name =>
      if negb (channel_name_valid name) then send_no_such_channel_query c (Some name) else
      cfg ← config;
      K ← client c;
      if IRC_MAX_CHANNELS_PER_CLIENT <=? cl_channel_count K
      then tell c ERR_TOOMANYCHANNELS [server_name cfg; cl_nick K; name] else
      found ← join_channel c name;
      match found with
      | None => mret tt
      | Some (ch, created) =>
          C ← channel ch;
          if channel_has_client C c then mret tt else
          ok ← join_restore c ch created;
          if negb ok then mret tt else
          C ← channel ch;
          sp ← chanserv_client_privileges c (ch_name C);
          t ← now;
          match join_decision t (bool_decide (is_Some redirect)) sp key C K with
          | Refuse numeric => tell c numeric [server_name cfg; cl_nick K; ch_name C]
          | Redirect target =>
              tell c ERR_LINKCHANNEL [server_name cfg; cl_nick K; ch_name C; target] ;;
              match redirect with Some join => join target | None => mret tt end
          | Admit => join_admit ch c (channel_invite_has C (cl_id K)) sp
          end
      end
  end.

(** [left] is [IRC_JOIN_REDIRECT_MAX - redirect_depth]. *)
Fixpoint join_one (left : nat) (c : ptr) (name : option cstr) (key : option cstr) : M unit :=
  join_step c name key
    match left with
    | 0 => None
    | Datatypes.S left' => Some (λ target, join_one left' c (Some target) None)
    end.

Definition command_join (c : ptr) (params : option cstr) : M CommandResult :=
  u ← command_require_registered c;
  if u : bool then keep else
  cfg ← config;
  K ← client c;
  match params with
  | None => reply c ERR_NEEDMOREPARAMS [server_name cfg; cl_nick K; lit "JOIN"]
  | Some params =>
      if nospoof_version_restricted cfg K then
        reply c ":%s NOTICE %s :You must respond to the CTCP VERSION request before joining channels."
          [server_name cfg; cl_nick K]
      else
        let '(name, rest) := strtok " " params in
        let '(key, _) := strtok " " rest in
        join_one IRC_JOIN_REDIRECT_MAX c name key ;; keep
  end.

(** ** PART *)

Definition command_part (c : ptr) (params : option cstr) : M CommandResult :=
  u ← command_require_registered c;
  if u : bool then keep else
  cfg ← config;
  K ← client c;
  match params with
  | None => reply c ERR_NEEDMOREPARAMS [server_name cfg; cl_nick K; lit "PART"]
  | Some params =>
      let '(name, rest) := strtok " " params in
      let reason := default [] (skip_colon <$> strtok_rest rest) in
      match name with
      | None => send_no_such_channel_query c None ;; keep
      | Some name =>
          if negb (channel_name_valid name) then send_no_such_channel_query c (Some name) ;; keep else
          found ← find_channel name;
          match found with
          | None => reply c ERR_NOSUCHCHANNEL [server_name cfg; cl_nick K; name]
          | Some ch =>
              C ← channel ch;
              if negb (channel_has_client C c) then reply c ERR_NOTONCHANNEL [server_name cfg; cl_nick K; ch_name C] else
              let delivered := if empty reason then IRC_DEFAULT_PART_REASON else reason in
              let delivered := if ircv3_message_wire_fits K "PART" (ch_name C) delivered
                               then delivered else IRC_DEFAULT_PART_REASON in
              channel_log_part ch c delivered ;;
              channel_broadcast ch None (snprintf IRCD_MESSAGE_BUFFER_SIZE
                (format ":%s!%s@%s PART %s :%s" [cl_nick K; cl_user K; cl_display_host K; ch_name C; delivered] ++ [CR; LF])) ;;
              channel_remove_client ch c ;;
              server_remove_channel_if_empty ch ;;
              keep
          end
      end
  end.

(** ** Frame *)

Lemma send_names_chunk_quiet c m C n : does quiet (send_names_chunk c m C n).
Proof. unfold send_names_chunk. frames. Qed.
#[local] Hint Resolve send_names_chunk_quiet : frame.
Lemma command_send_names_quiet ch c : does quiet (command_send_names ch c).
Proof. unfold command_send_names. frames. Qed.
Lemma send_names_chunks_quiet c m C l : does quiet (send_names_chunks c m C l).
Proof. induction l; simpl; frames. Qed.
#[local] Hint Resolve command_send_names_quiet send_names_chunks_quiet : frame.
Lemma send_names_for_channel_quiet c ch : does quiet (send_names_for_channel c ch).
Proof. unfold send_names_for_channel. frames. Qed.
#[local] Hint Resolve send_names_for_channel_quiet : frame.
Lemma names_chain_quiet c l : does quiet (names_chain c l).
Proof. induction l; simpl; frames. Qed.
#[local] Hint Resolve names_chain_quiet : frame.
Lemma names_buckets_quiet c l : does quiet (names_buckets c l).
Proof. induction l; simpl; frames. Qed.
#[local] Hint Resolve names_buckets_quiet : frame.
Lemma send_query_numeric_quiet c f q : does quiet (send_query_numeric c f q).
Proof. unfold send_query_numeric. frames. Qed.
#[local] Hint Resolve send_query_numeric_quiet : frame.
Lemma command_names_quiet c p : does quiet (command_names c p).
Proof. unfold command_names, send_end_of_names_query. frames. Qed.
Lemma send_no_such_channel_query_quiet c q : does quiet (send_no_such_channel_query c q).
Proof. unfold send_no_such_channel_query. frames. Qed.
#[local] Hint Resolve send_no_such_channel_query_quiet : frame.

(** ** Membership *)

Lemma has_client_spec C c : channel_has_client C c = true ↔ c ∈ member_ids C.
Proof.
  unfold channel_has_client, channel_find_member, member_ids. induction (ch_members C) as [|m l IH]; simpl.
  - split; [done|]. by intros ?%elem_of_nil.
  - destruct (Nat.eqb_spec (m_client m) c) as [<-|Hne]; [split; [intros _; left | done]|].
    rewrite elem_of_cons, IH. naive_solver.
Qed.

Lemma channel_add_client_spec ch c w :
  wf w → is_Some (w_clients w !! c) → is_Some (w_channels w !! ch) →
  let w' := (channel_add_client ch c w).2 in
  wf w' ∧ (links w' = links w ∨ links w' = alter (cons ch) c (links w)).
Proof.
  intros Hw Hc Hch. unfold channel_add_client, channel, gets, alloc, upd_channel, upd_client, modify, mbind, ST_bind.
  simpl. destruct (channel_has_client (the_channel w ch) c) eqn:Hm; [by auto|]. simpl.
  destruct (_ || _); simpl.
  { split; [|by left]. by apply (wf_same_state w). }
  split.
  - eapply wf_same_state; [|apply (add_client_wf ch c w Hch Hc)]; [reflexivity| |done].
    intros (C & HC & Hin). unfold the_channel in Hm. rewrite HC in Hm. simpl in Hm.
    apply has_client_spec in Hin. congruence.
  - right. apply map_eq. intros i. unfold links, put_client. simpl. rewrite lookup_fmap.
    destruct (decide (c = i)) as [->|]; [rewrite !lookup_alter_eq | rewrite !lookup_alter_ne by done];
      rewrite lookup_fmap; by destruct (w_clients w !! i).
Qed.

#[local] Hint Extern 4 (does keeps (upd_channel _ (channel_join_throttle_record _))) =>
  apply upd_channel_keeps; intros ?; apply throttle_record_shape : frame.

Lemma join_announce_quiet ch c : does quiet (join_announce ch c).
Proof. unfold join_announce. frames. Qed.
Lemma join_privileges_keeps ch c b sp : does keeps (join_privileges ch c b sp).
Proof. unfold join_privileges. frames. Qed.
#[local] Hint Resolve join_announce_quiet join_privileges_keeps : frame.

(** The part of an admitted JOIN after the membership was recorded. *)
Lemma join_admit_spec ch c b sp w :
  wf w → is_Some (w_clients w !! c) → is_Some (w_channels w !! ch) →
  let w' := (join_admit ch c b sp w).2 in
  wf w' ∧ (links w' = links w ∨ links w' = alter (cons ch) c (links w)).
Proof.
  intros Hw Hc Hch. unfold join_admit, channel, client. rewrite !run_gets. cbv zeta. rewrite run_bind.
  pose proof (channel_add_client_spec ch c w Hw Hc Hch) as [Hw1 Hl1].
  destruct (channel_add_client ch c w) as [rc w1]. simpl in Hw1, Hl1.
  destruct (rc <? 0)%Z; [done|].
  match goal with |- context [?m w1] => assert (Hk : does keeps m) by frames end.
  destruct (Hk w1 Hw1) as [Hw2 Hl2]. split; [done|]. rewrite Hl2. done.
Qed.

(** The steps of a JOIN that only look, or prepare the channel. *)
Definition prepares (w w' : World) : Prop :=
  wf w → wf w' ∧ w_clients w' = w_clients w ∧ w_config w' = w_config w.
#[local] Instance prepares_silent : Silent prepares.
Proof.
  split; [split|].
  - intros w Hw. done.
  - intros a b d H1 H2 Ha. destruct (H1 Ha) as (Hb & E1 & F1). destruct (H2 Hb) as (Hd & E2 & F2).
    split_and!; congruence.
  - intros w w' H Hw. unfold quiet in H. rewrite H. split_and!; [by apply (wf_same_state w) | done | done].
Qed.

Lemma serviced_prepares ch w w' : serviced ch w w' → prepares w w'.
Proof.
  intros H Hw. destruct (serviced_keeps ch w w' H Hw) as [Hw' _]. destruct H as (f & i & k & _ & ->). done.
Qed.

Lemma join_channel_spec c name w :
  wf w →
  let '(r, w') := join_channel c name w in
  prepares w w' ∧ ∀ ch b, r = Some (ch, b) → is_Some (w_channels w' !! ch).
Proof.
  intros Hw. unfold join_channel, find_channel. rewrite run_gets.
  destruct (hash_get (w_channels_by_name w) name) as [ch|] eqn:G.
  { split; [reflexivity|]. intros ch' b [= <- <-]. apply (proj2 (wf_names w Hw)) in G as (C & HC & _). eauto. }
  unfold config, client. rewrite !run_gets. destruct (max_channels _ <=? _).
  - match goal with |- let '(r, w') := ?m w in _ => assert (does quiet m) as Hq by frames; specialize (Hq w);
      assert (returns None m) as Hr by auto 8 with irc; specialize (Hr w); destruct (m w) as [r w'] end.
    simpl in *. subst r. split; [by apply silent_quiet | done].
  - rewrite run_bind. pose proof (server_get_or_create_channel_spec name w Hw) as H.
    destruct (server_get_or_create_channel name w) as [r w']. destruct H as (Hw' & Ec & Ef & Hch & _). simpl.
    split; [done|]. intros ch b Hr. destruct r as [p|]; [|done]. simplify_eq/=.
    destruct (Hch ch eq_refl) as (C & HC & _). eauto.
Qed.

Lemma join_restore_spec c ch created w :
  let '(ok, w') := join_restore c ch created w in
  prepares w w' ∧ (wf w → ok = true → is_Some (w_channels w !! ch) → is_Some (w_channels w' !! ch)).
Proof.
  unfold join_restore. rewrite run_bind. pose proof (restore_channel_serviced ch w) as H1.
  destruct (chanserv_restore_channel ch w) as [u w1]. simpl in H1.
  unfold channel. rewrite run_gets. cbv beta.
  assert (H2 : ∀ b : bool, does (serviced ch) (if b then chanserv_persist_restore ch else mret 0%Z)).
  { intros []; [apply persist_restore_serviced|]. intros v. apply quiet_serviced. simpl. reflexivity. }
  rewrite run_bind. match goal with |- context [(if ?b then chanserv_persist_restore ch else _) w1] =>
    specialize (H2 b w1); destruct ((if b then chanserv_persist_restore ch else mret 0%Z) w1) as [rc w2] end.
  simpl in H2. assert (prepares w w2) as Hp by (etrans; eapply serviced_prepares; eauto).
  assert (dom (w_channels w) ⊆ dom (w_channels w2)) as Hg.
  { pose proof (serviced_grows _ _ _ H1). pose proof (serviced_grows _ _ _ H2). unfold grows in *. set_solver. }
  destruct (rc =? 0)%Z; cbn [negb].
  - split; [done|]. simpl. intros _ _ Hl. apply elem_of_dom. apply Hg. by apply elem_of_dom.
  - match goal with |- let '(r, w') := ?m w2 in _ =>
      assert (returns false m) as Hr by auto 10 with irc; specialize (Hr w2);
      assert (does prepares m) as Hm end.
    { frames; try (apply (does_quiet _); solve [eauto with frame]). intros v Hv.
      destruct (server_remove_channel_if_empty_same ch v). split_and!; [|done..].
      by apply server_remove_channel_if_empty_wf. }
    specialize (Hm w2). match goal with |- context [?m w2] => destruct (m w2) as [res w3] end.
    simpl in *. subst res. split; [by etrans | done].
Qed.

(** Every condition of an admission. *)
Definition join_allowed (time : Z) (sp : ChannelPrivilegeSet) (key : option cstr) (C : Channel) (K : Client) : Prop :=
  (ch_key C ≠ [] → key = Some (ch_key C)) ∧
  (channel_privilege_has sp CHANNEL_PRIV_OWNER = false →
   if channel_privilege_has sp CHANNEL_PRIV_PROTECTED then channel_client_is_banned_protected C K = false
   else channel_client_is_banned C K = false) ∧
  (ch_user_limit C ≠ 0 → Z.of_nat (ch_member_count C) < ch_user_limit C)%Z ∧
  (channel_mode_has (ch_modes C) CHANNEL_MODE_REGONLY_JOIN = true → client_mode_has (cl_modes K) CLIENT_MODE_REGISTERED = true) ∧
  (channel_mode_has (ch_modes C) CHANNEL_MODE_OPER_ONLY = true →
   client_mode_has (cl_modes K) (N.lor CLIENT_MODE_OPER CLIENT_MODE_NETADMIN) = true) ∧
  (channel_mode_has (ch_modes C) CHANNEL_MODE_ADMIN_ONLY = true → client_mode_has (cl_modes K) CLIENT_MODE_NETADMIN = true) ∧
  (channel_mode_has (ch_modes C) CHANNEL_MODE_SECURE_ONLY = true → client_mode_has (cl_modes K) CLIENT_MODE_SECURE = true) ∧
  (channel_mode_has (ch_modes C) CHANNEL_MODE_INVITE_ONLY = true →
   channel_invite_has C (cl_id K) = true ∨ channel_client_is_invex C K = true) ∧
  channel_join_throttle_allows time C = true.

Lemma guard_passes a b : a = true → a && negb b = false → b = true.
Proof. by destruct a, b. Qed.

Lemma join_decision_admit time b sp key C K :
  join_decision time b sp key C K = Admit → join_allowed time sp key C K.
Proof.
  unfold join_decision, join_allowed, join_banned.
  repeat match goal with |- (if ?b then _ else _) = _ → _ => destruct b eqn:?; [repeat case_if; done|] end.
  destruct (channel_join_throttle_allows time C); [|done]. intros _. split_and!; try done.
  - intros Hk. destruct (ch_key C) as [|x k]; [done|]. cbn [empty negb andb] in *.
    destruct key; [|done]. f_equal. symmetry. apply streq_true. by bools.
  - intros Ho. rewrite Ho in *. by case_if.
  - intros Hl. match goal with H : _ && (_ <=? _)%Z = false |- _ =>
      apply andb_false_iff in H as [H|H]; bools; [done | lia] end.
  - intros Hm. by apply (guard_passes _ _ Hm).
  - intros Hm. by apply (guard_passes _ _ Hm).
  - intros Hm. by apply (guard_passes _ _ Hm).
  - intros Hm. by apply (guard_passes _ _ Hm).
  - intros Hm. destruct (channel_invite_has C (cl_id K)); [by left|]. right.
    match goal with H : _ && negb false && _ = false |- _ => rewrite andb_true_r in H; by apply (guard_passes _ _ Hm) end.
Qed.

(** Where a JOIN is decided: the channel [ch] is found or created, its stored state
    is restored, and the privileges [sp] of the client's account are read, which
    leaves the state [wj].  A redirect starts again from there, without a key. *)
Inductive judged (c : ptr) (w : World) (name : cstr) (key : option cstr) :
    World → ptr → ChannelPrivilegeSet → option cstr → Prop :=
| judged_here ch created w1 w2 wj sp :
    join_channel c name w = (Some (ch, created), w1) →
    join_restore c ch created w1 = (true, w2) →
    chanserv_client_privileges c (ch_name (the_channel w2 ch)) w2 = (sp, wj) →
    judged c w name key wj ch sp key
| judged_redirect ch created w1 w2 w3 sp target i wj ch' sp' key' :
    join_channel c name w = (Some (ch, created), w1) →
    join_restore c ch created w1 = (true, w2) →
    chanserv_client_privileges c (ch_name (the_channel w2 ch)) w2 = (sp, w3) →
    join_decision (w_now w3) true sp key (the_channel w2 ch) (the_client w c) = Redirect target →
    judged c (set_w_io i w3) target None wj ch' sp' key' →
    judged c w name key wj ch' sp' key'.

(** JOIN adds at most one membership, under the conditions of the channel it was
    judged on. *)
Definition join_outcome (c : ptr) (name : option cstr) (key : option cstr) (w w' : World) : Prop :=
  wf w' ∧ (links w' = links w ∨
    ∃ n wj ch sp key', name = Some n ∧ judged c w n key wj ch sp key' ∧
      wf wj ∧ is_Some (w_channels wj !! ch) ∧
      (ch ∉ cl_channels (the_client w c)) ∧ cl_channel_count (the_client w c) < IRC_MAX_CHANNELS_PER_CLIENT ∧
      join_allowed (w_now wj) sp key' (the_channel wj ch) (the_client w c) ∧
      links w' = alter (cons ch) c (links w)).

Lemma join_outcome_same c name key w w1 w' :
  w_clients w1 = w_clients w → wf w1 → quiet w1 w' → join_outcome c name key w w'.
Proof.
  intros E Hw1 Hq. unfold quiet in Hq. rewrite Hq. split; [by apply (wf_same_state w1)|]. left.
  unfold links. simpl. by rewrite E.
Qed.

(** What was judged does not change anything about the clients. *)
Lemma join_judge_spec c name ch created w w1 w2 w3 sp :
  wf w → join_channel c name w = (Some (ch, created), w1) → join_restore c ch created w1 = (true, w2) →
  chanserv_client_privileges c (ch_name (the_channel w2 ch)) w2 = (sp, w3) →
  wf w1 ∧ w_clients w1 = w_clients w ∧ wf w3 ∧ w_clients w3 = w_clients w ∧ w_channels w3 = w_channels w2 ∧
  is_Some (w_channels w3 !! ch).
Proof.
  intros Hw E1 E2 E3. pose proof (join_channel_spec c name w Hw) as Hc. rewrite E1 in Hc.
  destruct Hc as [Hp Hch]. destruct (Hp Hw) as (Hw1 & F1 & _). specialize (Hch ch created eq_refl).
  pose proof (join_restore_spec c ch created w1) as Hr. rewrite E2 in Hr. destruct Hr as [Hp2 Hch2].
  destruct (Hp2 Hw1) as (Hw2 & F2 & _). specialize (Hch2 Hw1 eq_refl Hch).
  destruct (run_quiet (chanserv_client_privileges c (ch_name (the_channel w2 ch))) w2) as (sp' & i & E4);
    [eauto with frame|]. rewrite E3 in E4. injection E4 as -> ->. simpl. split_and!; try done; [|congruence].
  by apply (wf_same_state w2).
Qed.

Lemma join_step_outcome c name key redirect w :
  wf w → is_Some (w_clients w !! c) →
  (∀ join target v, redirect = Some join → wf v → is_Some (w_clients v !! c) →
     join_outcome c (Some target) None v (join target v).2) →
  join_outcome c name key w (join_step c name key redirect w).2.
Proof.
  intros Hw Hlive Hredirect. unfold join_step.
  assert (Hq : ∀ m : M unit, does quiet m → join_outcome c name key w (m w).2)
    by (intros m Hm; by apply (join_outcome_same c name key w w)).
  destruct name as [name|]; [|apply Hq; frames].
  destruct (channel_name_valid name); cbn [negb]; [|apply Hq; frames].
  unfold config, client. rewrite !run_gets. case_if; [apply Hq; frames|]. bools. clear Hq.
  rewrite run_bind. pose proof (join_channel_spec c name w Hw) as Hc.
  destruct (join_channel c name w) as [r w1] eqn:Ec. destruct Hc as [Hp _]. destruct (Hp Hw) as (Hw1 & E1 & _).
  assert (Hsame : join_outcome c (Some name) key w w1) by (by apply (join_outcome_same _ _ _ w w1)).
  destruct r as [[ch created]|]; [|exact Hsame].
  unfold channel. rewrite run_gets. destruct (channel_has_client _ c) eqn:Hmem; [exact Hsame|]. clear Hsame.
  rewrite run_bind. pose proof (join_restore_spec c ch created w1) as Hr.
  destruct (join_restore c ch created w1) as [ok w2] eqn:Er. destruct Hr as [Hp2 _].
  destruct (Hp2 Hw1) as (Hw2 & E2 & _).
  destruct ok; cbn [negb]; [|apply (join_outcome_same _ _ _ w w2); [congruence | done | reflexivity]].
  rewrite run_gets, run_bind.
  destruct (chanserv_client_privileges c (ch_name (the_channel w2 ch)) w2) as [sp w3] eqn:Es.
  destruct (join_judge_spec c name ch created w w1 w2 w3 sp Hw Ec Er Es) as (_ & _ & Hw3 & E3 & F3 & Hch3).
  assert (Hlive3 : is_Some (w_clients w3 !! c)) by (by rewrite E3).
  unfold now. rewrite run_gets.
  destruct (join_decision _ _ _ _ _ _) as [num|target|] eqn:Hd.
  - match goal with |- context [?m w3] => apply (join_outcome_same _ _ _ w w3 _ E3 Hw3); generalize w3 end.
    match goal with |- ∀ w, quiet w (?m w).2 => change (does quiet m) end. frames.
  - rewrite run_bind. match goal with |- context [tell c ERR_LINKCHANNEL ?args w3] =>
      destruct (run_quiet (tell c ERR_LINKCHANNEL args) w3) as (a & j & ->); [eauto with frame|] end.
    assert (Hw4 : wf (set_w_io j w3)) by (by apply (wf_same_state w3)).
    destruct redirect as [join|];
      [|apply (join_outcome_same _ _ _ w (set_w_io j w3)); [done | done | reflexivity]].
    destruct (Hredirect join target (set_w_io j w3) eq_refl Hw4 Hlive3) as [Hwf Ho]. split; [done|].
    assert (El : links (set_w_io j w3) = links w) by (unfold links; simpl; by rewrite E3).
    assert (Et : the_client (set_w_io j w3) c = the_client w c) by (unfold the_client; simpl; by rewrite E3).
    rewrite El, Et in Ho. destruct Ho as [|(n & wj & ch' & sp' & key' & [= <-] & Hj & Hrest)]; [by left|]. right.
    exists name, wj, ch', sp', key'. split; [done|]. split; [|done]. eapply judged_redirect; eauto.
  - destruct (join_admit_spec ch c (channel_invite_has (the_channel w2 ch) (cl_id (the_client w c))) sp w3
      Hw3 Hlive3 Hch3) as [Hw4 Hl4].
    assert (El : links w3 = links w) by (unfold links; by rewrite E3). rewrite El in Hl4.
    split; [done|]. destruct Hl4 as [Hl4|Hl4]; [by left|]. right.
    exists name, w3, ch, sp, key. split_and!; try done.
    + eapply judged_here; eauto.
    + intros Hin. assert (linked_to w1 c ch) as Hl.
      { destruct Hlive as [K HK]. exists K. rewrite E1. split; [done|]. unfold the_client in Hin. by rewrite HK in Hin. }
      apply (wf_symmetric w1 Hw1) in Hl as (C & HC & Hin'). apply has_client_spec in Hin'.
      unfold the_channel in Hmem. rewrite HC in Hmem. simpl in Hmem. congruence.
    + eapply join_decision_admit. unfold the_channel. rewrite F3. exact Hd.
Qed.

Lemma join_one_outcome left c name key w :
  wf w → is_Some (w_clients w !! c) → join_outcome c name key w (join_one left c name key w).2.
Proof.
  revert name key w. induction left as [|left IH]; intros name key w Hw Hlive; cbn [join_one];
    apply join_step_outcome; try done. intros join target v [= <-]. apply IH.
Qed.

(** The channel name and the key a JOIN gives. *)
Definition join_request (params : option cstr) : option cstr * option cstr :=
  match params with
  | None => (None, None)
  | Some p => let '(name, rest) := strtok " " p in (name, (strtok " " rest).1)
  end.

(** C8: JOIN admits by policy.  From a consistent state JOIN leaves a consistent
    one, whatever redirects it follows (at most four), and it either changes no
    membership or adds the client to exactly one channel it was not on, while it was
    on fewer than 32.  That channel is the one named, or the end of the chain of
    redirects that starts there; in the state in which it was judged (found or created,
    and restored) it let the client in: its key is the one given with the name, and a
    redirect gives none; no ban counts against an account with the privileges ChanServ
    reports; it was not full; the modes +R, +O, +A, +z and +i were satisfied and the
    join throttle allowed it. *)
Theorem join_admission_policy c params w :
  wf w → is_Some (w_clients w !! c) →
  join_outcome c (join_request params).1 (join_request params).2 w (command_join c params w).2.
Proof.
  intros Hw Hlive. unfold command_join.
  assert (Hend : ∀ n k (m : M CommandResult), does quiet m → join_outcome c n k w (m w).2)
    by (intros n k m Hm; by apply (join_outcome_same c n k w w)).
  rewrite run_bind. destruct (require_registered_cases c w) as [[_ ->]|(_ & i & ->)].
  2:{ apply (join_outcome_same c _ _ w w); [done | done | apply quiet_set_io]. }
  unfold client.
  unfold config. rewrite !run_gets.
  destruct params as [params|]; [|apply Hend; frames]. case_if; [apply Hend; frames|]. unfold join_request.
  destruct (strtok " " params) as [name rest]. destruct (strtok " " rest) as [key rest'].
  rewrite run_bind. pose proof (join_one_outcome IRC_JOIN_REDIRECT_MAX c name key w Hw Hlive) as Ho.
  by destruct (join_one IRC_JOIN_REDIRECT_MAX c name key w).
Qed.


(** *** PART *)

Lemma left_channel_quiet c ch i w w' : left_channel c ch (set_w_io i w) w' → left_channel c ch w w'.
Proof. done. Qed.

(** The channel a PART names, when the client is registered and on it. *)
Definition parting (w : World) (c : ptr) (params : option cstr) (ch : ptr) : Prop :=
  cl_registered (the_client w c) = true ∧
  ∃ p name rest, params = Some p ∧ strtok " " p = (Some name, rest) ∧ channel_name_valid name = true ∧
    hash_get (w_channels_by_name w) name = Some ch ∧ member_of w c ch.

(** C36: PART leaves exactly one channel.  When a registered client names a channel it
    is on, that membership, and no other, is gone, the state is consistent, and the
    channel is freed exactly when the client was its last member; in every other case
    PART only sends lines. *)
Theorem part_leaves_one_channel c params w :
  wf w →
  let w' := (command_part c params w).2 in
  (∃ ch C, parting w c params ch ∧ w_channels w !! ch = Some C ∧ left_channel c ch w w' ∧
     (w_channels w' !! ch = None ↔ ∀ x, x ∈ member_ids C → x = c)) ∨
  (¬ (∃ ch, parting w c params ch) ∧ quiet w w').
Proof.
  intros Hw. unfold command_part. rewrite run_bind.
  destruct (require_registered_cases c w) as [[Hreg ->]|(Hreg & i & ->)];
    [|right; split; [unfold parting; not_requested | apply quiet_set_io]].
  assert (Hq : ∀ m : M CommandResult, does quiet m → quiet w (m w).2) by (intros m Hm; apply Hm).
  unfold config, client, find_channel, channel. rewrite !run_gets.
  destruct params as [p|]; [|right; split; [unfold parting; not_requested | apply Hq; frames]].
  destruct (strtok " " p) as [[name|] rest] eqn:Et;
    [|right; split; [unfold parting; not_requested | apply Hq; frames]]. cbv zeta.
  destruct (channel_name_valid name) eqn:Hv; cbn [negb];
    [|right; split; [unfold parting; not_requested | apply Hq; frames]]. rewrite run_gets.
  destruct (hash_get _ name) as [ch|] eqn:G;
    [|right; split; [unfold parting; not_requested | apply Hq; frames]]. rewrite run_gets.
  destruct (proj1 (proj2 (wf_names w Hw) name ch) G) as (C & HC & _).
  destruct (channel_has_client _ c) eqn:Hm; cbn [negb].
  2:{ right; split; [|apply Hq; frames]. unfold parting, member_of. not_requested.
      match goal with H : c ∈ member_ids _ |- _ => apply has_client_spec in H; unfold the_channel in Hm;
        rewrite HC in Hm; simpl in Hm; congruence end. }
  left.
  assert (Hin : c ∈ member_ids C).
  { apply has_client_spec. unfold the_channel in Hm. simpl in Hm. by rewrite HC in Hm. }
  exists ch, C. split; [split; [done|]; by exists p, name, rest; split_and!; [..|by exists C]|]. split; [done|].
  set (reason := if ircv3_message_wire_fits _ _ _ _ then _ else _). rewrite run_bind.
  destruct (run_quiet (channel_log_part ch c reason) w) as (a & j & ->); [eauto with frame|].
  rewrite run_bind. match goal with |- context [channel_broadcast ch None ?msg ?v] =>
    destruct (run_quiet (channel_broadcast ch None msg) v) as (b & k & ->); [eauto with frame|] end.
  set (w1 := set_w_io k _). assert (Hw2 : wf w1) by (by apply (wf_same_state w)).
  destruct (leave_spec ch c w1 Hw2) as [Hleft Hempty]. revert Hleft Hempty. rewrite !run_bind.
  destruct (channel_remove_client ch c w1) as [u w2]. rewrite !run_bind.
  destruct (server_remove_channel_if_empty ch w2) as [u' w3]. simpl. intros Hleft Hempty.
  split; [exact Hleft | by apply Hempty].
Qed.

End Join.

(** ** Every member is named *)

(** The tokens of a line: maximal runs without a space. *)
Fixpoint words (acc : cstr) (line : cstr) : list cstr :=
  match line with
  | [] => if empty acc then [] else [acc]
  | ch :: line' => if Ascii.eqb ch " " then (if empty acc then [] else [acc]) ++ words [] line'
                   else words (acc ++ [ch]) line'
  end.

Definition token_ok (t : cstr) : Prop := t ≠ [] ∧ (" "%char ∉ t).

Lemma words_app_token acc t line :
  (" "%char ∉ t) → words acc (t ++ line) = words (acc ++ t) line.
Proof.
  revert acc. induction t as [|x t IH]; intros acc Ht; simpl; [by rewrite app_nil_r|].
  apply not_elem_of_cons in Ht as [Hx Ht].
  destruct (Ascii.eqb_spec x " ") as [->|_]; [done|]. rewrite IH by done. by rewrite <-app_assoc.
Qed.

(** A line of tokens separated by single spaces. *)
Definition join_tokens (l : list cstr) : cstr :=
  match l with [] => [] | t :: l => foldl (λ s t, s ++ lit " " ++ t) t l end.

Lemma join_tokens_snoc l t : l ≠ [] → join_tokens (l ++ [t]) = join_tokens l ++ lit " " ++ t.
Proof. destruct l as [|a l]; [done|]. intros _. simpl. by rewrite foldl_app. Qed.

Lemma words_snoc l t acc :
  (" "%char ∉ t) → t ≠ [] → words acc (l ++ " "%char :: t) = words acc l ++ [t].
Proof.
  intros Ht Hne. revert acc. induction l as [|x l IH]; intros acc.
  - simpl. rewrite <-(app_nil_r t) at 1. rewrite words_app_token by done. simpl.
    by destruct t.
  - simpl. destruct (Ascii.eqb x " "); [|apply IH]. by rewrite IH, app_assoc.
Qed.

Lemma words_join l : Forall token_ok l → words [] (join_tokens l) = l.
Proof.
  induction l as [|t l IH] using rev_ind; [done|]. rewrite Forall_app, Forall_singleton. intros [Hl [Hne Ht]].
  destruct (decide (l = [])) as [->|Hl'].
  - simpl. rewrite <-(app_nil_r t) at 1. rewrite words_app_token by done. simpl. by destruct t.
  - rewrite join_tokens_snoc by done. simpl. rewrite words_snoc by done. by rewrite IH.
Qed.

Lemma join_tokens_nonempty l : Forall token_ok l → l ≠ [] → join_tokens l ≠ [].
Proof. intros Hl Hne He. apply Hne. by rewrite <-(words_join l Hl), He. Qed.

(** The loop, started with the line of the tokens [pre]. *)
Lemma names_chunks_spec fits pre tokens :
  Forall token_ok (pre ++ tokens) → Forall (λ t, fits t = true) tokens → (pre ≠ [] → fits (join_tokens pre) = true) →
  let '(sent, final) := names_chunks fits (join_tokens pre) tokens in
  concat (map (words []) (sent ++ [final])) = pre ++ tokens ∧
  Forall (λ line, fits line = true) sent ∧ (tokens ≠ [] ∨ pre ≠ [] → final ≠ [] ∧ fits final = true).
Proof.
  revert pre. induction tokens as [|t tokens IH]; intros pre Hok Hfit Hpre.
  - simpl. rewrite app_nil_r in *. rewrite app_nil_r, words_join by done. split_and!; [done..|].
    intros [|Hne]; [done|]. split; [by apply join_tokens_nonempty | auto].
  - cbn [names_chunks]. apply Forall_cons in Hfit as [Hft Hfit].
    pose proof Hok as Hok'. rewrite Forall_app, Forall_cons in Hok'. destruct Hok' as (Hp & Ht & Htoks).
    assert (Hcand : join_tokens pre ++ (if empty (join_tokens pre) then [] else lit " ") ++ t = join_tokens (pre ++ [t])).
    { destruct (decide (pre = [])) as [->|Hne]; [done|]. rewrite join_tokens_snoc by done.
      destruct (join_tokens pre) eqn:E; [by destruct (join_tokens_nonempty pre Hp Hne)|done]. }
    rewrite Hcand. destruct (_ && _) eqn:Hif.
    + bools. specialize (IH (pre ++ [t])). rewrite <-app_assoc in IH. simpl in IH.
      specialize (IH Hok Hfit (λ _, H0)). destruct (names_chunks _ _ tokens) as [sent final].
      destruct IH as (I1 & I2 & I3). split_and!; [done..|]. intros _. apply I3. right. by destruct pre.
    + clear Hif Hcand. specialize (IH [t]). specialize (IH ltac:(by constructor) Hfit (λ _, Hft)).
      change (join_tokens [t]) with t in IH. destruct (names_chunks fits t tokens) as [sent final].
      destruct IH as (I1 & I2 & I3). destruct (decide (pre = [])) as [->|Hne].
      * simpl. split_and!; [done..|]. intros _. apply I3. by right.
      * pose proof (join_tokens_nonempty pre Hp Hne). destruct (join_tokens pre) as [|x s] eqn:E; [done|].
        cbn [empty app map concat]. rewrite <-E. rewrite words_join by done. rewrite I1. split_and!; [done| |].
        -- constructor; [rewrite E; auto | done].
        -- intros _. apply I3. by right.
Qed.

Lemma payload_fits_le cfg K marker C names :
  names_payload_fits cfg K marker C names = true →
  length (format RPL_NAMREPLY [server_name cfg; cl_nick K; [marker]; ch_name C; names]) ≤ IRC_LINE_CONTENT_MAX.
Proof. apply Nat.leb_le. Qed.

(** C34: a NAMES reply is complete and every line fits.  Provided each single member
    fits a line, the lines sent for a channel, split at spaces, name exactly the
    members, each once and in order, with its prefix; and each line, with the numeric
    around it, is at most 510 bytes long. *)
Theorem names_reply_complete w c marker C :
  let fits := names_payload_fits (w_config w) (the_client w c) marker C in
  let tokens := omap (member_token w) (ch_members C) in
  Forall token_ok tokens → Forall (λ t, fits t = true) tokens → tokens ≠ [] →
  concat (map (words []) (names_lines w c marker C)) = tokens ∧
  Forall (λ names, length (format RPL_NAMREPLY
    [server_name (w_config w); cl_nick (the_client w c); [marker]; ch_name C; names]) ≤ IRC_LINE_CONTENT_MAX)
    (names_lines w c marker C).
Proof.
  intros fits tokens Hok Hfit Hne. unfold names_lines. fold fits tokens.
  pose proof (names_chunks_spec fits [] tokens Hok Hfit ltac:(done)) as H. change (join_tokens []) with (@nil ascii) in H.
  destruct (names_chunks fits [] tokens) as [sent final]. destruct H as (H1 & H2 & H3).
  destruct (H3 (or_introl Hne)) as [Hf Hff]. destruct final as [|x final]; [done|]. cbn [empty negb orb].
  split; [done|]. eapply Forall_impl; [apply Forall_app; split; [exact H2 | by apply Forall_singleton]|].
  intros names Hn. exact (payload_fits_le _ _ _ _ _ Hn).
Qed.

Lemma names_reply_complete_witness :
  let C := set_ch_member_count 2 (set_ch_members [MkMember 0 1 1 0; MkMember 1 0 0 0] (set_ch_name (lit "#c") calloc_channel)) in
  let w := set_w_clients {[ 0 := set_cl_nick (lit "ann") calloc_client; 1 := set_cl_nick (lit "bob") calloc_client ]} boot in
  concat (map (words []) (names_lines w 0 "=" C)) = [lit "+ann"; lit "bob"].
Proof.
  intros C w. destruct (names_reply_complete w 0 "=" C) as [H _].
  - repeat constructor; try discriminate; intros H; apply has_char_elem in H; vm_compute in H; discriminate.
  - repeat constructor; vm_compute; reflexivity.
  - vm_compute. discriminate.
  - etrans; [exact H|]. vm_compute. reflexivity.
Defined.
