(* ===== verification/Oper.v ===== *)
(** * Operators ([src/oper.c], [include/auth_limit.h] and the operator commands)

    Operator permissions and server-notice masks as text, the bound on password
    checks, and the commands OPER, KILL, WALLOPS, GLOBOPS, LOCOPS, SNOTICE, SETHOST,
    SETIDENT, SETNAME, DIE and RESTART ([src/commands/]). *)

From S2P Require Import Prelude CString Modes HashTable MaskMatch Output World Channel Invariant Policy Tags Numerics Ircv3 Presence Env Cloak Register Connection Services Registry JoinPart.

(** ** Permissions as text *)

Definition OPER_PERMISSION_REHASH := bit 0.
Definition OPER_PERMISSION_DIE := bit 1.
Definition OPER_PERMISSION_RESTART := bit 2.
Definition OPER_PERMISSION_WALLOPS := bit 3.
Definition OPER_PERMISSION_KILL := bit 4.
Definition OPER_PERMISSION_KLINE := bit 5.
Definition OPER_PERMISSION_UNKLINE := bit 6.
Definition OPER_PERMISSION_ZLINE := bit 7.
Definition OPER_PERMISSION_OVERRIDE := bit 8.
Definition OPER_PERMISSION_GETHOST := bit 9.
Definition OPER_PERMISSION_HELPOP := bit 10.
Definition OPER_PERMISSION_NETADMIN := bit 11.
Definition OPER_PERMISSION_GEOBAN := bit 12.
Definition OPER_PERMISSION_ELINE := bit 13.

Definition OPER_PERMISSION_ALL : N := 2 ^ 15 - 1.

Definition permission_names : list (cstr * N) :=
  [(lit "can_rehash", OPER_PERMISSION_REHASH); (lit "can_die", OPER_PERMISSION_DIE);
   (lit "can_restart", OPER_PERMISSION_RESTART); (lit "helpop", OPER_PERMISSION_HELPOP);
   (lit "can_wallops", OPER_PERMISSION_WALLOPS); (lit "can_kill", OPER_PERMISSION_KILL);
   (lit "can_kline", OPER_PERMISSION_KLINE); (lit "can_unkline", OPER_PERMISSION_UNKLINE);
   (lit "can_zline", OPER_PERMISSION_ZLINE); (lit "can_eline", OPER_PERMISSION_ELINE);
   (lit "can_geoban", OPER_PERMISSION_GEOBAN); (lit "can_stats", OPER_PERMISSION_STATS);
   (lit "get_host", OPER_PERMISSION_GETHOST);
   (lit "can_override", OPER_PERMISSION_OVERRIDE); (lit "netadmin", OPER_PERMISSION_NETADMIN)].

Definition lookup_permission (name : cstr) : option N :=
  snd <$> find (λ e, streq name e.1) permission_names.

(** The loop of [oper_permissions_parse]. *)
Fixpoint parse_tokens (l : list cstr) (result : N) : option N :=
  match l with
  | [] => Some result
  | token :: rest =>
      let token := drop_while (λ ch, Ascii.eqb ch " " || Ascii.eqb ch "009"%char) token in
      if streq token "oper" then parse_tokens rest result else
      match lookup_permission token with
      | None => None
      | Some b => parse_tokens rest (N.lor result b)
      end
  end.

(** [None]: the result -1, with [*permissions] zero. *)
Definition oper_permissions_parse (text : cstr) : option N :=
  if empty text then Some 0%N else
  if 512 <=? length text then None else parse_tokens (tokens "," text) 0.

(** The loop of [oper_permissions_format]: the text written so far.  A name that does
    not fit is cut by [snprintf], and ends the loop. *)
Fixpoint format_names (permissions : N) (buffer_size : nat) (names : list (cstr * N)) (used : cstr) : cstr :=
  match names with
  | [] => used
  | (name, b) :: rest =>
      if (N.land permissions b =? 0)%N then format_names permissions buffer_size rest used else
      let written := (if empty used then [] else lit ",") ++ name in
      let room := buffer_size - length used in
      if room <=? length written then used ++ take (room - 1) written
      else format_names permissions buffer_size rest (used ++ written)
  end.

Definition oper_permissions_format (permissions : N) (buffer_size : nat) : cstr :=
  format_names permissions buffer_size permission_names [].

(** ** Server-notice masks as text *)

Definition SNOTICE_ALL : N := 2 ^ 14 - 1.

Definition snotice_letters : list (ascii * N) :=
  [("c"%char, SNOTICE_CONNECTIONS); ("o"%char, SNOTICE_OPERATORS); ("k"%char, SNOTICE_KILLS);
   ("b"%char, SNOTICE_BANS); ("g"%char, SNOTICE_GEOBANS); ("w"%char, SNOTICE_WEBIRC);
   ("d"%char, SNOTICE_DNS); ("s"%char, SNOTICE_SECURITY); ("a"%char, SNOTICE_ADMIN);
   ("v"%char, SNOTICE_SERVICES); ("r"%char, SNOTICE_REGISTRATIONS); ("x"%char, SNOTICE_IDENTITY);
   ("m"%char, SNOTICE_MODERATION); ("f"%char, SNOTICE_FLOOD)].

Definition snotice_mask_for_letter (letter : ascii) : N :=
  default 0%N (snd <$> find (λ e, Ascii.eqb letter e.1) snotice_letters).

Definition snotice_mask_format (mask : N) (buffer_size : nat) : cstr :=
  take (buffer_size - 1) (List.filter (λ letter, negb (N.land mask (snotice_mask_for_letter letter) =? 0)%N)
    (lit "cokbgwdsavrxmf")).

(** ** Password checks ([auth_limit_consume]) *)

Definition IRCD_NICKSERV_REGISTRATION_THROTTLE_SLOTS : nat := 4096.

Definition uint_inc (n : Z) : Z := ((n + 1) mod 2 ^ 32)%Z.

(** A window that has not begun, lies in the future or is over. *)
Definition window_over (now start size : Z) : bool := (start =? 0)%Z || (now <? start)%Z || (size <=? now - start)%Z.

Definition burst_window (now : Z) (a : Argon2Limit) : Argon2Limit :=
  if window_over now (ar_burst_window_start a) 1
  then MkArgon2 (ar_throttles a) (ar_global_window_start a) (ar_global_count a) now 0 else a.
Definition global_window (now : Z) (a : Argon2Limit) : Argon2Limit :=
  if window_over now (ar_global_window_start a) 60
  then MkArgon2 (ar_throttles a) now 0 (ar_burst_window_start a) (ar_burst_count a) else a.

Definition slot_for (ip : cstr) (l : list NickServRegistrationThrottle) : option nat :=
  fst <$> list_find (λ t, negb (empty (th_ip t)) && streq (th_ip t) ip) l.
Definition free_slot (now window : Z) (l : list NickServRegistrationThrottle) : option nat :=
  match list_find (λ t, empty (th_ip t) || window_over now (th_window_start t) window) l with
  | Some (i, _) => Some i
  | None => if length l <? IRCD_NICKSERV_REGISTRATION_THROTTLE_SLOTS then Some (length l) else None
  end.

(** Finds or takes the slot of an address: the slot and the table. *)
Definition address_slot (now window : Z) (ip : cstr) (l : list NickServRegistrationThrottle)
    : option nat * list NickServRegistrationThrottle :=
  match slot_for ip l with
  | Some i => (Some i, alter (λ t, if window_over now (th_window_start t) window then MkThrottle (th_ip t) now 0 else t) i l)
  | None =>
      let fresh := MkThrottle (snprintf (IRC_IP_MAX + 1) ip) now 0 in
      match free_slot now window l with
      | Some i => (Some i, if i <? length l then <[i := fresh]> l else l ++ [fresh])
      | None => (None, l)
      end
  end.

Definition set_throttles (l : list NickServRegistrationThrottle) (a : Argon2Limit) : Argon2Limit :=
  MkArgon2 l (ar_global_window_start a) (ar_global_count a) (ar_burst_window_start a) (ar_burst_count a).

(** The three counters after a check that may proceed. *)
Definition count_check (cfg : ServerConfig) (slot : option nat) (a : Argon2Limit) : Argon2Limit :=
  MkArgon2 (match slot with
            | Some i => alter (λ t, MkThrottle (th_ip t) (th_window_start t) (uint_inc (th_count t))) i (ar_throttles a)
            | None => ar_throttles a
            end)
    (ar_global_window_start a) (if (argon2_global_ops_per_minute cfg =? 0)%Z then ar_global_count a else uint_inc (ar_global_count a))
    (ar_burst_window_start a) (if (argon2_global_burst_per_second cfg =? 0)%Z then ar_burst_count a else uint_inc (ar_burst_count a)).

Definition argon2 : M Argon2Limit := gets w_argon2.
Definition set_argon2 (a : Argon2Limit) : M unit := modify (set_w_argon2 a).

Definition auth_limit_consume (c : ptr) (operation : cstr) : M bool :=
  K ← client c;
  cfg ← config;
  let per_ip := argon2_ops_per_ip cfg in
  let global := argon2_global_ops_per_minute cfg in
  let burst := argon2_global_burst_per_second cfg in
  let window := argon2_window_seconds cfg in
  let nick := if empty (cl_nick K) then lit "*" else cl_nick K in
  let refuse (fmt : cstr) (limits : list cstr) :=
    snotice_broadcast (N.lor SNOTICE_SECURITY SNOTICE_FLOOD) fmt ([nick; cl_real_ip K; operation] ++ limits) ;; mret false in
  if empty (cl_real_ip K) then mret false else
  if (per_ip =? 0)%Z && (global =? 0)%Z && (burst =? 0)%Z then mret true else
  t ← now;
  a ← argon2;
  let a := if (burst =? 0)%Z then a else burst_window t a in
  if negb (burst =? 0)%Z && (burst <=? ar_burst_count a)%Z then
    set_argon2 a ;;
    refuse "Argon2 work burst throttled: nick=%s real_ip=%s operation=%s limit=%u/sec" [dec burst]
  else
  let a := if (global =? 0)%Z then a else global_window t a in
  if negb (global =? 0)%Z && (global <=? ar_global_count a)%Z then
    set_argon2 a ;;
    refuse "Argon2 work globally throttled: nick=%s real_ip=%s operation=%s limit=%u/min" [dec global]
  else
  if (per_ip =? 0)%Z then set_argon2 (count_check cfg None a) ;; mret true else
  let '(slot, l) := address_slot t window (cl_real_ip K) (ar_throttles a) in
  let a := set_throttles l a in
  match (i ← slot; l !! i) with
  | Some s =>
      if (per_ip <=? th_count s)%Z then
        set_argon2 a ;;
        refuse "Argon2 work throttled: nick=%s real_ip=%s operation=%s limit=%u/%us" [dec per_ip; dec window]
      else set_argon2 (count_check cfg slot a) ;; mret true
  | None =>
      set_argon2 a ;;
      refuse "Argon2 work throttled: nick=%s real_ip=%s operation=%s limit=%u/%us" [dec per_ip; dec window]
  end.

(** ** OPER *)

Section Commands.
Context `{E : Env} `{S : Services}.

Definition IRCD_OPER_NAME_MAX : nat := 63.

Definition netadmin_host_matches (K : Client) (mask : cstr) : bool :=
  if empty mask then false else
  (negb (empty (cl_real_host K)) &&
   irc_mask_match mask (snprintf IRCD_MESSAGE_BUFFER_SIZE (format "%s!%s@%s" [cl_nick K; cl_user K; cl_real_host K]))) ||
  irc_mask_match mask (snprintf IRCD_MESSAGE_BUFFER_SIZE (format "%s!%s@%s" [cl_nick K; cl_user K; cl_real_ip K])).

Definition grant_oper (name : cstr) (permissions : N) (vhost : cstr) (K : Client) : Client :=
  let add (b : bool) (mode : ClientModeSet) (K : Client) :=
    if b then set_cl_modes (client_mode_add (cl_modes K) mode) K else K in
  let K := set_cl_oper_name (snprintf (IRCD_OPER_NAME_MAX + 1) name) (set_cl_oper_permissions permissions K) in
  let K := set_cl_snotice_mask SNOTICE_ALL (add true CLIENT_MODE_OPER K) in
  let K := add (oper_permission_has permissions OPER_PERMISSION_NETADMIN) CLIENT_MODE_NETADMIN K in
  let K := add (oper_permission_has permissions OPER_PERMISSION_HELPOP) CLIENT_MODE_HELPOP K in
  if oper_permission_has permissions OPER_PERMISSION_GETHOST && negb (empty vhost) then
    let K := set_cl_account_vhost_active false (set_cl_display_host (snprintf (IRC_HOST_MAX + 1) vhost) K) in
    set_cl_modes (client_mode_add (client_mode_remove (cl_modes K) CLIENT_MODE_CLOAKED) CLIENT_MODE_VHOST) K
  else K.

Definition failed_oper (c : ptr) (name why : cstr) : M unit :=
  K ← client c;
  snotice_broadcast SNOTICE_OPERATORS "Failed OPER: %s!%s@%s [real_ip=%s] name=%s (%s)"
    [cl_nick K; cl_user K; cl_display_host K; cl_real_ip K; name; why].

(** [failed_oper(...); client_sendf(...); return COMMAND_KEEP_CLIENT;]. *)
Definition oper_refused (c : ptr) (name why numeric : cstr) : M CommandResult :=
  failed_oper c name why ;;
  cfg ← config;
  K ← client c;
  reply c numeric [server_name cfg; cl_nick K].

Definition oper_granted (c : ptr) (name : cstr) (permissions : N) (vhost title notice : cstr) : M CommandResult :=
  upd_client c (grant_oper name permissions vhost) ;;
  cfg ← config;
  K ← client c;
  tell c RPL_YOUREOPER [server_name cfg; cl_nick K; title] ;;
  snotice_broadcast SNOTICE_OPERATORS notice [cl_nick K; cl_user K; cl_display_host K; cl_real_ip K; cl_oper_name K] ;;
  keep.

Definition oper_netadmin (c : ptr) (name password : cstr) : M CommandResult :=
  cfg ← config;
  K ← client c;
  if empty (netadmin_password_hash cfg) || negb (netadmin_host_matches K (netadmin_hostmask cfg))
  then oper_refused c name "host not authorized" ERR_NOOPERHOST else
  ok ← auth_limit_consume c "OPER netadmin";
  if negb ok then oper_refused c name "authentication throttled" ERR_PASSWDMISMATCH else
  if negb (argon2id_verify (netadmin_password_hash cfg) password)
  then oper_refused c name "bad password" ERR_PASSWDMISMATCH else
  oper_granted c (netadmin_name cfg) OPER_PERMISSION_ALL (netadmin_vhost cfg) " Network Administrator"
    "OPER successful: %s!%s@%s [real_ip=%s] as Network Administrator %s".

(** [operator_db_set_last_opered] on [operators.db], if it opens again. *)
Definition operator_db_set_last_opered (name : cstr) : M unit :=
  db ← gets operator_db;
  t ← now;
  when (bool_decide (is_Some db))
    (modify (λ w, set_w_io (set_io_last_opered ((name, t) :: io_last_opered (w_io w)) (w_io w)) w)).

Definition oper_account (c : ptr) (name password : cstr) : M CommandResult :=
  db ← gets operator_db;
  match db with
  | None => oper_refused c name "operator database unavailable" ERR_NOPRIVILEGES
  | Some db =>
      match db name with
      | Some record =>
          if negb (or_enabled record) then oper_refused c name "unknown or disabled operator" ERR_NOOPERHOST else
          ok ← auth_limit_consume c "OPER";
          if negb ok then oper_refused c name "authentication throttled" ERR_PASSWDMISMATCH else
          if negb (argon2id_verify (or_password_hash record) password)
          then oper_refused c name "bad password" ERR_PASSWDMISMATCH else
          match oper_permissions_parse (or_permissions record) with
          | Some permissions =>
              if oper_permission_has permissions OPER_PERMISSION_NETADMIN
              then oper_refused c name "invalid stored permissions" ERR_NOPRIVILEGES
              else operator_db_set_last_opered (or_name record) ;;
                   oper_granted c (or_name record) permissions (or_vhost record) "n IRC operator"
                     "OPER successful: %s!%s@%s [real_ip=%s] as %s"
          | None => oper_refused c name "invalid stored permissions" ERR_NOPRIVILEGES
          end
      | None => oper_refused c name "unknown or disabled operator" ERR_NOOPERHOST
      end
  end.

(** [strtok(NULL, "")] with one colon in front dropped. *)
Definition trailing (rest : cstr) : cstr := match rest with ":"%char :: t => t | _ => rest end.

Definition command_oper (c : ptr) (params : option cstr) : M CommandResult :=
  u ← command_require_registered c;
  if u : bool then keep else
  cfg ← config;
  K ← client c;
  let need := reply c ERR_NEEDMOREPARAMS [server_name cfg; cl_nick K; lit "OPER"] in
  match params with
  | None => need
  | Some params =>
      match strtok " " params with
      | (Some name, rest) =>
          let password := trailing rest in
          if empty password then need else
          if negb (empty (netadmin_name cfg)) && strcaseeq name (netadmin_name cfg)
          then oper_netadmin c name password else oper_account c name password
      | (None, _) => need
      end
  end.

(** ** KILL *)

Definition send_missing_kill_target (c : ptr) (query : cstr) : M unit :=
  send_query_numeric c ":%s 401 %s %.*s :No such nick/channel" query.

Definition send_kill_notification (t : ptr) (reason : cstr) : M unit :=
  cfg ← config;
  T ← client t;
  let base_length := length (format ":%s KILL %s :" [server_name cfg; cl_nick T]) in
  if IRC_LINE_CONTENT_MAX <? base_length then mret tt else
  tell t ":%s KILL %s :%.*s" [server_name cfg; cl_nick T; take (IRC_LINE_CONTENT_MAX - base_length) reason].

(** The test of a permission that opens every command of this kind. *)
Definition without_permission (c : ptr) (permission : N) (k : M CommandResult) : M CommandResult :=
  u ← command_require_registered c;
  if u : bool then keep else
  K ← client c;
  if negb (oper_permission_has (cl_oper_permissions K) permission) then
    cfg ← config; reply c ERR_NOPRIVILEGES [server_name cfg; cl_nick K]
  else k.

(** KILL of [t], which is a client. *)
Definition kill_target (c t : ptr) (reason : cstr) : M CommandResult :=
  cfg ← config;
  K ← client c;
  T ← client t;
  if client_mode_has (cl_modes T) CLIENT_MODE_SERVICE ||
     (client_mode_has (cl_modes T) CLIENT_MODE_NETADMIN && negb (client_mode_has (cl_modes K) CLIENT_MODE_NETADMIN))
  then reply c ERR_KILLDENY [server_name cfg; cl_nick K; cl_nick T] else
  let quit_reason := snprintf (IRC_QUIT_REASON_MAX + 1) (format "Killed (%s (%s))" [cl_nick K; reason]) in
  snotice_broadcast SNOTICE_KILLS "KILL by %s [%s]: %s!%s@%s [real_ip=%s] (%s)"
    [cl_nick K; cl_oper_name K; cl_nick T; cl_user T; cl_display_host T; cl_real_ip T; reason] ;;
  send_kill_notification t reason ;;
  if t =? c then upd_client c (set_cl_quit_reason quit_reason) ;; mret COMMAND_DISCONNECT_CLIENT
  else server_disconnect t (Some quit_reason) ;; keep.

Definition command_kill (c : ptr) (params : option cstr) : M CommandResult :=
  without_permission c OPER_PERMISSION_KILL (
    cfg ← config;
    K ← client c;
    let need := reply c ERR_NEEDMOREPARAMS [server_name cfg; cl_nick K; lit "KILL"] in
    match params with
    | None => need
    | Some params =>
        match strtok " " params with
        | (Some nick, rest) =>
            let reason := trailing rest in
            if empty reason then need else
            found ← find_nick nick;
            match found with
            | None => send_missing_kill_target c nick ;; keep
            | Some t => kill_target c t reason
            end
        | (None, _) => need
        end
    end).

(** ** WALLOPS, GLOBOPS, LOCOPS *)

Definition command_wallops (c : ptr) (params : option cstr) : M CommandResult :=
  without_permission c OPER_PERMISSION_WALLOPS (
    cfg ← config;
    K ← client c;
    let text := default [] params in
    if empty text then reply c ERR_NEEDMOREPARAMS [server_name cfg; cl_nick K; lit "WALLOPS"] else
    let line := snprintf IRCD_MESSAGE_BUFFER_SIZE
      (format ":%s!%s@%s WALLOPS :%s" [cl_nick K; cl_user K; cl_display_host K; trailing text]) in
    l ← gets w_client_array;
    for_each l (λ x,
      T ← client x;
      when (cl_registered T && client_mode_has (cl_modes T) CLIENT_MODE_WALLOPS) (_ ← send_line x line; mret tt)) ;;
    keep).

Definition oper_message_wire_fits (K : Client) (command text : cstr) : bool :=
  length (format ":%s!%s@%s %s :%s" [cl_nick K; cl_user K; cl_display_host K; command; text]) <=? IRC_LINE_CONTENT_MAX.

Definition send_oper_message (c : ptr) (params : option cstr) (command : cstr) : M CommandResult :=
  u ← command_require_registered c;
  if u : bool then keep else
  cfg ← config;
  K ← client c;
  if negb (is_oper_client K) || negb (client_mode_has (cl_modes K) CLIENT_MODE_GLOBALS)
  then reply c ERR_NOPRIVILEGES [server_name cfg; cl_nick K] else
  let text := default [] params in
  if empty text then reply c ERR_NEEDMOREPARAMS [server_name cfg; cl_nick K; command] else
  let text := trailing text in
  if negb (oper_message_wire_fits K command text) then
    reply c ":%s 417 %s %s :Message would exceed the IRC relay line limit" [server_name cfg; cl_nick K; command]
  else oper_message_broadcast K command text ;; keep.

Definition command_globops (c : ptr) (params : option cstr) : M CommandResult := send_oper_message c params "GLOBOPS".
Definition command_locops (c : ptr) (params : option cstr) : M CommandResult := send_oper_message c params "LOCOPS".

(** ** SNOTICE *)

Fixpoint snotice_letters_loop (c : ptr) (p : cstr) (adding : bool) : M unit :=
  match p with
  | [] => mret tt
  | ch :: rest =>
      if Ascii.eqb ch " " then mret tt else
      if Ascii.eqb ch "+" then snotice_letters_loop c rest true else
      if Ascii.eqb ch "-" then snotice_letters_loop c rest false else
      let b := if Ascii.eqb ch "*" then SNOTICE_ALL else snotice_mask_for_letter ch in
      (if (b =? 0)%N then
         cfg ← config;
         K ← client c;
         tell c ":%s NOTICE %s :Unknown SNOTICE mask letter: %c" [server_name cfg; cl_nick K; [ch]]
       else upd_client c (λ K, set_cl_snotice_mask
         (if adding then N.lor (cl_snotice_mask K) b else N.ldiff (cl_snotice_mask K) b) K)) ;;
      snotice_letters_loop c rest adding
  end.

Definition command_snotice (c : ptr) (params : option cstr) : M CommandResult :=
  u ← command_require_registered c;
  if u : bool then keep else
  cfg ← config;
  K ← client c;
  if negb (is_oper_client K) then reply c ERR_NOPRIVILEGES [server_name cfg; cl_nick K] else
  let params := default [] params in
  if empty params then
    reply c ":%s NOTICE %s :SNOTICE mask: +%s" [server_name cfg; cl_nick K; snotice_mask_format (cl_snotice_mask K) 32]
  else
    snotice_letters_loop c params true ;;
    upd_client c (λ K, set_cl_modes
      (if (cl_snotice_mask K =? 0)%N then client_mode_remove (cl_modes K) CLIENT_MODE_SERVER_NOTICES
       else client_mode_add (cl_modes K) CLIENT_MODE_SERVER_NOTICES) K) ;;
    K ← client c;
    reply c ":%s NOTICE %s :SNOTICE mask now: +%s" [server_name cfg; cl_nick K; snotice_mask_format (cl_snotice_mask K) 32].

(** ** SETHOST, SETIDENT, SETNAME *)

Definition valid_display_host (host : cstr) : bool :=
  negb (empty host) && (length host <=? IRC_HOST_MAX) && forallb (λ ch, isalnum ch || has_char ch ".-_:") host.

Definition valid_ident (ident : cstr) : bool :=
  negb (empty ident) && (length ident <=? IRC_USER_MAX) && forallb (λ ch, isalnum ch || has_char ch "-_.") ident.

(** Their common end: change [field] of the client named [nick], tell both sides and
    the operators. *)
Definition set_identity (c : ptr) (nick done told notice : cstr) (f : Client → Client) (field : Client → cstr)
    (cut : cstr → cstr) (shown : Client → list cstr) : M CommandResult :=
  cfg ← config;
  K ← client c;
  found ← find_nick nick;
  match found with
  | None => reply c ERR_NOSUCHNICK [server_name cfg; cl_nick K; nick]
  | Some t =>
      old ← client t;
      upd_client t f ;;
      K ← client c;
      T ← client t;
      tell c done ([server_name cfg; cl_nick K; cl_nick T] ++ shown T) ;;
      tell t told [server_name cfg; cl_nick T; field T] ;;
      snotice_broadcast SNOTICE_IDENTITY notice [cl_nick K; cl_nick T; cut (field old); field T; cl_real_ip T] ;;
      keep
  end.

Definition command_sethost (c : ptr) (params : option cstr) : M CommandResult :=
  without_permission c OPER_PERMISSION_OVERRIDE (
    cfg ← config;
    K ← client c;
    let need := reply c ERR_NEEDMOREPARAMS [server_name cfg; cl_nick K; lit "SETHOST"] in
    let '(nick, rest) := strtok " " (default [] params) in
    match nick, (strtok " " rest).1 with
    | Some nick, Some host =>
        if negb (valid_display_host host) then need else
        set_identity c nick ":%s NOTICE %s :SETHOST %s -> %s" ":%s NOTICE %s :Your displayed hostname is now %s"
          "SETHOST by %s: %s %s -> %s [real_ip=%s]"
          (λ T, set_cl_modes (client_mode_add (cl_modes T) CLIENT_MODE_VHOST)
                  (set_cl_account_vhost_active false (set_cl_display_host (snprintf (IRC_HOST_MAX + 1) host) T)))
          cl_display_host (snprintf (IRC_HOST_MAX + 1)) (λ T, [cl_display_host T])
    | _, _ => need
    end).

Definition command_setident (c : ptr) (params : option cstr) : M CommandResult :=
  without_permission c OPER_PERMISSION_OVERRIDE (
    cfg ← config;
    K ← client c;
    let need := reply c ERR_NEEDMOREPARAMS [server_name cfg; cl_nick K; lit "SETIDENT"] in
    let '(nick, rest) := strtok " " (default [] params) in
    match nick, (strtok " " rest).1 with
    | Some nick, Some ident =>
        if negb (valid_ident ident) then need else
        set_identity c nick ":%s NOTICE %s :SETIDENT %s -> %s" ":%s NOTICE %s :Your ident is now %s"
          "SETIDENT by %s: %s %s -> %s [real_ip=%s]"
          (set_cl_user (snprintf (IRC_USER_MAX + 1) ident)) cl_user (snprintf (IRC_USER_MAX + 1)) (λ T, [cl_user T])
    | _, _ => need
    end).

Definition command_setname (c : ptr) (params : option cstr) : M CommandResult :=
  without_permission c OPER_PERMISSION_OVERRIDE (
    cfg ← config;
    K ← client c;
    let need := reply c ERR_NEEDMOREPARAMS [server_name cfg; cl_nick K; lit "SETNAME"] in
    let '(nick, rest) := strtok " " (default [] params) in
    match nick, strtok_rest rest with
    | Some nick, Some realname =>
        let realname := trailing realname in
        if empty realname || (IRC_REALNAME_MAX <? length realname) then need else
        set_identity c nick ":%s NOTICE %s :SETNAME completed for %s" ":%s NOTICE %s :Your real name is now %s"
          "SETNAME by %s: %s '%s' -> '%s' [real_ip=%s]"
          (set_cl_realname (snprintf (IRC_REALNAME_MAX + 1) realname)) cl_realname (snprintf (IRC_REALNAME_MAX + 1)) (λ T, [])
    | _, _ => need
    end).

(** ** DIE and RESTART *)

Definition command_die (c : ptr) (params : option cstr) : M CommandResult :=
  without_permission c OPER_PERMISSION_DIE (
    cfg ← config;
    K ← client c;
    snotice_broadcast SNOTICE_ADMIN "DIE requested by %s from %s" [cl_nick K; cl_real_ip K] ;;
    tell c ":%s NOTICE %s :Shutting down ScratchIRCd" [server_name cfg; cl_nick K] ;;
    modify (λ w, set_w_restart_requested true (set_w_shutdown_requested true w)) ;;
    keep).

Definition command_restart (c : ptr) (params : option cstr) : M CommandResult :=
  without_permission c OPER_PERMISSION_RESTART (
    cfg ← config;
    K ← client c;
    snotice_broadcast SNOTICE_ADMIN "RESTART requested by %s from %s" [cl_nick K; cl_real_ip K] ;;
    tell c ":%s NOTICE %s :Restarting ScratchIRCd" [server_name cfg; cl_nick K] ;;
    modify (set_w_restart_requested true) ;;
    keep).
End Commands.
