(* ===== verification/Accounts.v ===== *)
(** * The account database ([src/nickserv_db.c])

    The table [nickserv_accounts] is the list of its rows; each function runs one SQL
    statement on it, which SQLite may refuse ([sqlite_step]), leaving the table as it
    was.  Names compare without regard to case ([COLLATE NOCASE]) and are a primary
    key. *)

From S2P Require Import Prelude CString Modes HashTable MaskMatch Output World Channel Invariant Policy Tags Numerics Ircv3 Presence Env.

Definition IRCD_EMAIL_MAX : nat := 254.
Definition IRCD_TOKEN_HASH_HEX_LEN : nat := 64.
Definition IRCD_OPER_HASH_MAX : nat := 255.
Definition IRCD_NICKSERV_ACCOUNT_HARD_MAX : N := 100000.

(** ** Rows *)

Definition set_na_password_hash (v : cstr) (a : NickServAccount) : NickServAccount :=
  MkAccount (na_name a) v (na_vhost a) (na_enabled a) (na_email a) (na_email_verified a) (na_pending_email a)
    (na_email_verify_token_hash a) (na_email_verify_expires_at a) (na_reset_token_hash a) (na_reset_expires_at a)
    (na_created_at a) (na_updated_at a) (na_last_identified_at a).
Definition set_na_vhost (v : cstr) (a : NickServAccount) : NickServAccount :=
  MkAccount (na_name a) (na_password_hash a) v (na_enabled a) (na_email a) (na_email_verified a) (na_pending_email a)
    (na_email_verify_token_hash a) (na_email_verify_expires_at a) (na_reset_token_hash a) (na_reset_expires_at a)
    (na_created_at a) (na_updated_at a) (na_last_identified_at a).
Definition set_na_enabled (v : bool) (a : NickServAccount) : NickServAccount :=
  MkAccount (na_name a) (na_password_hash a) (na_vhost a) v (na_email a) (na_email_verified a) (na_pending_email a)
    (na_email_verify_token_hash a) (na_email_verify_expires_at a) (na_reset_token_hash a) (na_reset_expires_at a)
    (na_created_at a) (na_updated_at a) (na_last_identified_at a).
(** The address, whether it is verified, and the pending challenge: address, hash, expiry. *)
Definition set_na_email (email : cstr) (verified : bool) (pending token_hash : cstr) (expires_at : Z) (a : NickServAccount) : NickServAccount :=
  MkAccount (na_name a) (na_password_hash a) (na_vhost a) (na_enabled a) email verified pending token_hash expires_at
    (na_reset_token_hash a) (na_reset_expires_at a) (na_created_at a) (na_updated_at a) (na_last_identified_at a).
Definition set_na_reset (token_hash : cstr) (expires_at : Z) (a : NickServAccount) : NickServAccount :=
  MkAccount (na_name a) (na_password_hash a) (na_vhost a) (na_enabled a) (na_email a) (na_email_verified a) (na_pending_email a)
    (na_email_verify_token_hash a) (na_email_verify_expires_at a) token_hash expires_at
    (na_created_at a) (na_updated_at a) (na_last_identified_at a).
(** [updated_at=unixepoch()]. *)
Definition set_na_updated_at (v : Z) (a : NickServAccount) : NickServAccount :=
  MkAccount (na_name a) (na_password_hash a) (na_vhost a) (na_enabled a) (na_email a) (na_email_verified a) (na_pending_email a)
    (na_email_verify_token_hash a) (na_email_verify_expires_at a) (na_reset_token_hash a) (na_reset_expires_at a)
    (na_created_at a) v (na_last_identified_at a).
Definition set_na_last_identified_at (v : Z) (a : NickServAccount) : NickServAccount :=
  MkAccount (na_name a) (na_password_hash a) (na_vhost a) (na_enabled a) (na_email a) (na_email_verified a) (na_pending_email a)
    (na_email_verify_token_hash a) (na_email_verify_expires_at a) (na_reset_token_hash a) (na_reset_expires_at a)
    (na_created_at a) (na_updated_at a) v.

Definition text_fits (text : cstr) (max_length : nat) (allow_empty : bool) : bool :=
  (length text <=? max_length) && negb (has_char CR text) && negb (has_char LF text) && (allow_empty || negb (empty text)).

Definition name_valid (name : cstr) : bool := text_fits name IRC_NICK_MAX false.

(** [copy_text_column] into a buffer for [max_length] bytes succeeds. *)
Definition copy_text_column (text : cstr) (max_length : nat) : bool :=
  (length text <=? max_length) && negb (has_char NUL text) && negb (has_char CR text) && negb (has_char LF text).

Definition from_stmt (row : NickServAccount) : option NickServAccount :=
  if copy_text_column (na_name row) IRC_NICK_MAX && copy_text_column (na_password_hash row) IRCD_OPER_HASH_MAX &&
     copy_text_column (na_vhost row) IRC_HOST_MAX && copy_text_column (na_email row) IRCD_EMAIL_MAX &&
     copy_text_column (na_pending_email row) IRCD_EMAIL_MAX &&
     copy_text_column (na_email_verify_token_hash row) IRCD_TOKEN_HASH_HEX_LEN &&
     copy_text_column (na_reset_token_hash row) IRCD_TOKEN_HASH_HEX_LEN &&
     negb (empty (na_name row)) && negb (empty (na_password_hash row))
  then Some row else None.

(** [WHERE name=?1]. *)
Definition named (name : cstr) (row : NickServAccount) : bool := strcaseeq (na_name row) name.

(** ** Statements *)

Section Accounts.
Context `{E : Env}.

Definition rows : M (list NickServAccount) := gets (λ w, ns_accounts (w_nickserv w)).
Definition set_rows (l : list NickServAccount) : M unit :=
  modify (λ w, set_w_nickserv (MkNickServ l (ns_registration_throttles (w_nickserv w)) (ns_mail_throttles (w_nickserv w))
    (ns_mail_global_window_start (w_nickserv w)) (ns_mail_global_count (w_nickserv w))) w).

(** [None]: an error; [Some None]: no such row. *)
Definition nickserv_db_get (name : cstr) : M (option (option NickServAccount)) :=
  if negb (name_valid name) then mret None else
  ok ← gets (sqlite_step "get");
  if negb ok then mret None else
  l ← rows;
  mret match find (named name) l with
       | Some row => match from_stmt row with Some a => Some (Some a) | None => None end
       | None => Some None
       end.

Definition nickserv_db_add (a : NickServAccount) : M bool :=
  if negb (name_valid (na_name a) && text_fits (na_password_hash a) IRCD_OPER_HASH_MAX false &&
           text_fits (na_vhost a) IRC_HOST_MAX true && text_fits (na_email a) IRCD_EMAIL_MAX true) then mret false else
  counted ← gets (sqlite_step "count");
  l ← rows;
  if negb counted || (IRCD_NICKSERV_ACCOUNT_HARD_MAX <=? N.of_nat (length l))%N then mret false else
  ok ← gets (sqlite_step "add");
  if negb ok || existsb (named (na_name a)) l then mret false else
  t ← now;
  set_rows (l ++ [MkAccount (na_name a) (na_password_hash a) (na_vhost a) (na_enabled a) (na_email a) (na_email_verified a)
    [] [] 0 [] 0 t t (na_last_identified_at a)]) ;;
  mret true.

(** [UPDATE ... SET ... updated_at=unixepoch() WHERE ...]: the rows changed, or an error. *)
Definition update (statement : string) (p : NickServAccount → bool) (f : NickServAccount → NickServAccount) : M (option nat) :=
  ok ← gets (sqlite_step statement);
  if negb ok then mret None else
  l ← rows;
  t ← now;
  set_rows (map (λ row, if p row then set_na_updated_at t (f row) else row) l) ;;
  mret (Some (length (filter (λ row, p row = true) l))).

(** [rc == SQLITE_DONE && sqlite3_changes(...) > 0]. *)
Definition changed (r : option nat) : bool := match r with Some n => 0 <? n | None => false end.

Definition nickserv_db_delete (name : cstr) : M bool :=
  if negb (name_valid name) then mret false else
  ok ← gets (sqlite_step "delete");
  if negb ok then mret false else
  l ← rows;
  set_rows (filter (λ row, named name row = false) l) ;;
  mret (existsb (named name) l).

Definition set_text (statement : string) (f : cstr → NickServAccount → NickServAccount)
    (name value : cstr) (value_max : nat) (allow_empty : bool) : M bool :=
  if negb (name_valid name && text_fits value value_max allow_empty) then mret false else
  r ← update statement (named name) (f value); mret (changed r).

Definition nickserv_db_set_password (name password_hash : cstr) : M bool :=
  set_text "set_password" (λ v a, set_na_reset [] 0 (set_na_password_hash v a)) name password_hash IRCD_OPER_HASH_MAX false.

Definition nickserv_db_set_vhost (name vhost : cstr) : M bool := set_text "set_vhost" set_na_vhost name vhost IRC_HOST_MAX true.

Definition nickserv_db_set_enabled (name : cstr) (enabled : bool) : M bool :=
  if negb (name_valid name) then mret false else
  r ← update "set_enabled" (named name) (set_na_enabled enabled); mret (changed r).

Definition nickserv_db_set_last_identified (name : cstr) (when : Z) : M bool :=
  if negb (name_valid name) || (when <=? 0)%Z then mret false else
  r ← update "set_last_identified" (named name) (set_na_last_identified_at when); mret (changed r).

Definition nickserv_db_set_email_challenge (name pending_email token_hash : cstr) (expires_at : Z) : M bool :=
  if negb (name_valid name && text_fits pending_email IRCD_EMAIL_MAX false && text_fits token_hash IRCD_TOKEN_HASH_HEX_LEN false)
  then mret false else
  r ← update "set_email_challenge" (named name) (λ a, set_na_email (na_email a) (na_email_verified a) pending_email token_hash expires_at a);
  mret (changed r).

(** [None]: an error; otherwise whether a row was changed. *)
Definition nickserv_db_verify_email (name token_hash : cstr) (now : Z) : M (option bool) :=
  if negb (name_valid name && text_fits token_hash IRCD_TOKEN_HASH_HEX_LEN false) then mret None else
  r ← update "verify_email"
    (λ a, named name a && streq (na_email_verify_token_hash a) token_hash && (now <=? na_email_verify_expires_at a)%Z &&
          negb (empty (na_pending_email a)))
    (λ a, set_na_email (na_pending_email a) true [] [] 0 a);
  mret match r with Some n => Some (0 <? n) | None => None end.

Definition nickserv_db_admin_set_email (name email : cstr) (verified : bool) : M bool :=
  if negb (name_valid name && text_fits email IRCD_EMAIL_MAX true) then mret false else
  r ← update "admin_set_email" (named name) (set_na_email email verified [] [] 0); mret (changed r).

Definition nickserv_db_set_reset_token (name token_hash : cstr) (expires_at : Z) : M bool :=
  if negb (name_valid name && text_fits token_hash IRCD_TOKEN_HASH_HEX_LEN false) then mret false else
  r ← update "set_reset_token" (named name) (set_na_reset token_hash expires_at); mret (changed r).

Definition nickserv_db_consume_reset_token (name token_hash : cstr) (now : Z) (new_password_hash : cstr) : M (option bool) :=
  if negb (name_valid name && text_fits token_hash IRCD_TOKEN_HASH_HEX_LEN false && text_fits new_password_hash IRCD_OPER_HASH_MAX false)
  then mret None else
  r ← update "consume_reset_token"
    (λ a, named name a && streq (na_reset_token_hash a) token_hash && (now <=? na_reset_expires_at a)%Z && na_enabled a)
    (λ a, set_na_reset [] 0 (set_na_password_hash new_password_hash a));
  mret match r with Some n => Some (0 <? n) | None => None end.
End Accounts.
