(* ===== verification/NickServ.v ===== *)
(** * NickServ ([src/nickserv.c], [src/commands/nickserv.c], [src/commands/identify.c])

    Accounts and the clients identified to them: registration, IDENTIFY and LOGOUT,
    passwords and addresses, tokens sent by mail, and the recovery of a nickname.  The
    commands NICKSERV and IDENTIFY and PRIVMSG to NickServ come here. *)

From S2P Require Import Prelude CString Modes HashTable MaskMatch Output World Channel Invariant Policy Tags Numerics Ircv3 Presence Env Cloak Register Connection Services Registry JoinPart Oper Accounts.

Definition IRCD_MAIL_SUBJECT_MAX : nat := 127.
Definition IRCD_MAIL_BODY_MAX : nat := 1023.

(** ** Tokens and addresses *)

(** One at sign, and a domain whose last dot has bytes on both sides. *)
Definition valid_email (address : cstr) : bool :=
  if (length address <? 3) || (IRCD_EMAIL_MAX <? length address) then false else
  if existsb (λ ch, (byte ch <=? 32)%N || (byte ch =? 127)%N || Ascii.eqb ch CR || Ascii.eqb ch LF) address then false else
  match span (Ascii.eqb "@") address with
  | (_, []) | ([], _) => false
  | (_, _ :: domain) =>
      if has_char "@" domain || empty domain then false else
      match span (Ascii.eqb ".") (reverse domain) with
      | (_, []) | ([], _) | (_, [_]) => false
      | _ => true
      end
  end.

Definition mail_available (cfg : ServerConfig) : bool := negb (empty (sendmail_path cfg)) && negb (empty (mail_from cfg)).

(** [[nick] <password>]: the account meant and the password. *)
Definition account_and_password (nick first : cstr) (second : option cstr) : cstr * cstr :=
  match second with
  | None => (nick, first)
  | Some s => (first, skip_spaces s)
  end.

(** ** Limits ([src/commands/nickserv.c]) *)

Definition throttle_slot (now window : Z) (ip : cstr) (l : list NickServRegistrationThrottle)
    : option nat * list NickServRegistrationThrottle :=
  if empty ip || (window =? 0)%Z then (None, l) else address_slot now window ip l.

Definition slot_inc (i : nat) (l : list NickServRegistrationThrottle) : list NickServRegistrationThrottle :=
  alter (λ t, MkThrottle (th_ip t) (th_window_start t) (uint_inc (th_count t))) i l.

(** Whether the slot, if there is one, has counted fewer than [limit]. *)
Definition slot_below (limit : Z) (i : option nat) (l : list NickServRegistrationThrottle) : bool :=
  match (j ← i; l !! j) with Some t => (th_count t <? limit)%Z | None => false end.

Definition registration_allowed (cfg : ServerConfig) (ip : cstr) (now : Z) (consume : bool) (s : NickServState) : bool * NickServState :=
  let limit := nickserv_registrations_per_ip cfg in
  if empty ip then (false, s) else
  if (limit =? 0)%Z then (true, s) else
  let '(i, l) := throttle_slot now (nickserv_registration_window_seconds cfg) ip (ns_registration_throttles s) in
  let put l := MkNickServ (ns_accounts s) l (ns_mail_throttles s) (ns_mail_global_window_start s) (ns_mail_global_count s) in
  if negb (slot_below limit i l) then (false, put l) else
  (true, put (match i with Some j => if consume then slot_inc j l else l | None => l end)).

Definition mail_window (now : Z) (s : NickServState) : NickServState :=
  if window_over now (ns_mail_global_window_start s) 60
  then MkNickServ (ns_accounts s) (ns_registration_throttles s) (ns_mail_throttles s) now 0 else s.

Definition mail_allowed (cfg : ServerConfig) (ip : cstr) (now : Z) (s : NickServState) : bool * NickServState :=
  if empty ip then (false, s) else
  let s := mail_window now s in
  let put l count := MkNickServ (ns_accounts s) (ns_registration_throttles s) l (ns_mail_global_window_start s) count in
  if (nickserv_mail_global_per_minute cfg <=? ns_mail_global_count s)%Z then (false, s) else
  let per_ip := nickserv_mail_requests_per_ip cfg in
  if (per_ip =? 0)%Z then (true, put (ns_mail_throttles s) (uint_inc (ns_mail_global_count s))) else
  let '(i, l) := throttle_slot now (nickserv_mail_window_seconds cfg) ip (ns_mail_throttles s) in
  if negb (slot_below per_ip i l) then (false, put l (ns_mail_global_count s)) else
  (true, put (match i with Some j => slot_inc j l | None => l end) (uint_inc (ns_mail_global_count s))).

Definition mail_producing_request (text : cstr) : bool :=
  let '(command, rest) := strtok " " text in
  match command with
  | None => false
  | Some command =>
      let '(first, rest) := strtok " " rest in
      let '(second, _) := strtok " " rest in
      match first with
      | None => false
      | Some first =>
          if strcaseeq command "SET" then strcaseeq first "EMAIL" else
          if strcaseeq command "RESET" then bool_decide (second = None) else false
      end
  end.

Section NickServ.
Context `{E : Env} `{S : Services}.

(** ** The account of a client *)

Definition apply_account (cfg : ServerConfig) (account : NickServAccount) (K : Client) : Client :=
  let K := set_cl_account_name (snprintf (IRC_NICK_MAX + 1) (na_name account)) K in
  let K := set_cl_modes (client_mode_add (cl_modes K) CLIENT_MODE_REGISTERED) K in
  if negb (empty (na_vhost account)) then
    if negb (client_mode_has (cl_modes K) CLIENT_MODE_VHOST) || cl_account_vhost_active K then
      let K := set_cl_display_host (snprintf (IRC_HOST_MAX + 1) (na_vhost account)) K in
      set_cl_account_vhost_active true
        (set_cl_modes (client_mode_add (client_mode_remove (cl_modes K) CLIENT_MODE_CLOAKED) CLIENT_MODE_VHOST) K)
    else K
  else if cl_account_vhost_active K then
    usermode_apply_cloak cfg
      (set_cl_modes (client_mode_remove (cl_modes K) CLIENT_MODE_VHOST) (set_cl_account_vhost_active false K))
  else K.

(** What LOGOUT takes away. *)
Definition forget_account (cfg : ServerConfig) (K : Client) : Client :=
  let K := set_cl_account_name [] K in
  let K := set_cl_sasl_state CLIENT_SASL_NONE (set_cl_modes (client_mode_remove (cl_modes K) CLIENT_MODE_REGISTERED) K) in
  if cl_account_vhost_active K then
    usermode_apply_cloak cfg
      (set_cl_modes (client_mode_remove (cl_modes K) CLIENT_MODE_VHOST) (set_cl_account_vhost_active false K))
  else K.

Definition nickserv_notice (c : ptr) (text : cstr) : M unit :=
  cfg ← config;
  K ← client c;
  tell c ":NickServ!service@%s NOTICE %s :%s" [server_name cfg; cl_nick K; text].

Definition hash_password (password : cstr) : M (option cstr) :=
  salt ← gets getrandom;
  mret (salt ≫= argon2id_hash_encoded password).

(** [None]: no random bytes. *)
Definition generate_token : M (option cstr) :=
  bytes ← gets RAND_bytes;
  mret match bytes with Some _ => Some (hex_cookie bytes) | None => None end.

Definition hash_token (token : cstr) : cstr := hex_cookie (Some (SHA256 token)).

(** [true]: the message was handed to the mailer. *)
Definition send_token_mail (to account token : cstr) (verification : bool) : M bool :=
  cfg ← config;
  if negb (mail_available cfg) then mret false else
  let lifetime := dec (if verification then nickserv_verify_seconds cfg else nickserv_reset_seconds cfg) in
  let subject := format "%s NickServ %s" [network_name cfg; if verification then lit "email verification" else lit "password reset"] in
  let body :=
    if verification then
      format ("A request was made to verify this email address for NickServ account %s on %s." ++ [LF; LF] ++
        "Verification token: %s" ++ [LF; LF] ++ "On IRC, use: /NICKSERV VERIFY %s" ++ [LF; LF] ++
        "This token expires in %u seconds. If you did not request this, ignore this message.")
        [account; network_name cfg; token; token; lifetime]
    else
      format ("A password reset was requested for NickServ account %s on %s." ++ [LF; LF] ++
        "Reset token: %s" ++ [LF; LF] ++ "On IRC, use: /NICKSERV RESET %s %s <new-password>" ++ [LF; LF] ++
        "This token expires in %u seconds and can be used only once. If you did not request this, ignore this message.")
        [account; network_name cfg; token; account; token; lifetime] in
  gets (λ w, mail_send_async w (snprintf (IRCD_EMAIL_MAX + 1) to) (snprintf (IRCD_EMAIL_MAX + 1) (mail_from cfg))
    (snprintf (IRCD_MAIL_SUBJECT_MAX + 1) subject) (snprintf (IRCD_MAIL_BODY_MAX + 1) body)).

Definition record_successful_identify (account_name : cstr) : M unit :=
  if empty account_name then mret tt else
  opened ← gets nickserv_db_opens;
  when opened (t ← now; _ ← nickserv_db_set_last_identified account_name t; mret tt).

Definition nickserv_identify (c : ptr) (account_name password : cstr) : M bool :=
  K ← client c;
  if empty account_name || empty password then mret false else
  if negb (empty (cl_account_name K)) && negb (strcaseeq (cl_account_name K) account_name) then mret false else
  opened ← gets nickserv_db_opens;
  if negb opened then mret false else
  found ← nickserv_db_get account_name;
  match found with
  | Some (Some account) =>
      if negb (na_enabled account) then mret false else
      allowed ← auth_limit_consume c "NickServ IDENTIFY";
      if negb allowed then mret false else
      if negb (argon2id_verify (na_password_hash account) password) then mret false else
      record_successful_identify (na_name account) ;;
      cfg ← config;
      upd_client c (apply_account cfg account) ;;
      mret true
  | _ => mret false
  end.

(** ** Commands to NickServ ([src/nickserv.c]) *)

Definition new_account (name password_hash : cstr) (now : Z) : NickServAccount :=
  MkAccount (snprintf (IRC_NICK_MAX + 1) name) password_hash [] true [] false [] [] 0 [] 0 0 0 now.

Definition nickserv_register (c : ptr) (password : option cstr) : M unit :=
  cfg ← config;
  K ← client c;
  match password with
  | None | Some [] => nickserv_notice c "Syntax: REGISTER <password>"
  | Some password =>
      if empty (cl_nick K) then nickserv_notice c "You must have a nickname before registering." else
      if negb (empty (cl_account_name K)) then nickserv_notice c "You are already identified to an account." else
      if service_nickname_reserved (cl_nick K) ||
         (nickserv_config_reserved_nickname cfg (cl_nick K) && negb (nickserv_reserved_nickname_allowed K))
      then tell c ERR_RESERVEDNICK [server_name cfg; cl_nick K; cl_nick K] else
      opened ← gets nickserv_db_opens;
      if negb opened then nickserv_notice c "Account database is unavailable." else
      existing ← nickserv_db_get (cl_nick K);
      match existing with
      | Some (Some _) => nickserv_notice c "That nickname is already registered."
      | None => nickserv_notice c "Account lookup failed."
      | Some None =>
          allowed ← auth_limit_consume c "NickServ REGISTER";
          if negb allowed then nickserv_notice c "Password hashing rate limit reached; try again later." else
          t ← now;
          hashed ← hash_password password;
          match hashed with
          | None => nickserv_notice c "Nickname registration failed."
          | Some encoded =>
              let account := new_account (cl_nick K) encoded t in
              added ← nickserv_db_add account;
              if negb added then nickserv_notice c "Nickname registration failed." else
              upd_client c (apply_account cfg account) ;;
              nickserv_notice c "Nickname registered and identified."
          end
      end
  end.

(** The tests and the effect LOGOUT has in both forms; [true]: logged out. *)
Definition logout_with (c : ptr) (params : option cstr) : M bool :=
  cfg ← config;
  K ← client c;
  if negb (empty (default [] params)) then nickserv_notice c "Syntax: LOGOUT" ;; mret false else
  if empty (cl_account_name K) then nickserv_notice c "You are not identified to an account." ;; mret false else
  upd_client c (forget_account cfg) ;; mret true.

Definition nickserv_logout (c : ptr) (params : option cstr) : M unit :=
  out ← logout_with c params;
  when out (nickserv_notice c "You are now logged out of your account.").

Definition password_accepted : cstr := "Password accepted - you are now identified.".
Definition password_refused : cstr := "Password incorrect, account unavailable, or authentication throttled.".

Definition nickserv_command_identify (c : ptr) (params : option cstr) : M unit :=
  K ← client c;
  let '(first, rest) := strtok " " (default [] params) in
  match first with
  | None => nickserv_notice c "Syntax: IDENTIFY [nick] <password>"
  | Some first =>
      let '(account, password) := account_and_password (cl_nick K) first (strtok_rest rest) in
      ok ← nickserv_identify c account password;
      nickserv_notice c (if ok : bool then password_accepted else password_refused)
  end.

Definition nickserv_set_password (c : ptr) (password : cstr) : M unit :=
  K ← client c;
  if empty (cl_account_name K) then nickserv_notice c "You must identify before changing your password." else
  if empty password then nickserv_notice c "Syntax: SET PASSWORD <new-password>" else
  allowed ← auth_limit_consume c "NickServ SET PASSWORD";
  if negb allowed then nickserv_notice c "Password hashing rate limit reached; try again later." else
  hashed ← hash_password password;
  opened ← gets nickserv_db_opens;
  match hashed with
  | Some encoded =>
      ok ← (if opened : bool then nickserv_db_set_password (cl_account_name K) encoded else mret false);
      nickserv_notice c (if ok : bool then lit "Password changed." else lit "Password change failed.")
  | None => nickserv_notice c "Password change failed."
  end.

Definition nickserv_set_email (c : ptr) (address : cstr) : M unit :=
  cfg ← config;
  K ← client c;
  if empty (cl_account_name K) then nickserv_notice c "You must identify before setting an email address." else
  if negb (valid_email address) then nickserv_notice c "Syntax: SET EMAIL <address>" else
  if negb (mail_available cfg) then nickserv_notice c "Email services are not configured on this server." else
  token ← generate_token;
  match token with
  | None => nickserv_notice c "Unable to create verification token."
  | Some token =>
      t ← now;
      opened ← gets nickserv_db_opens;
      saved ← (if opened : bool
               then nickserv_db_set_email_challenge (cl_account_name K) address (hash_token token) (t + nickserv_verify_seconds cfg)%Z
               else mret false);
      if negb saved then nickserv_notice c "Unable to save email verification request." else
      sent ← send_token_mail address (cl_account_name K) token true;
      nickserv_notice c (if sent : bool
        then lit "Verification email queued. Use NICKSERV VERIFY <token> when it arrives."
        else lit "Unable to queue verification email.")
  end.

Definition nickserv_verify (c : ptr) (token : option cstr) : M unit :=
  K ← client c;
  if empty (cl_account_name K) then nickserv_notice c "You must identify before verifying an email address." else
  match token with
  | None | Some [] => nickserv_notice c "Syntax: VERIFY <token>"
  | Some token =>
      opened ← gets nickserv_db_opens;
      if negb opened then nickserv_notice c "Account database is unavailable." else
      t ← now;
      rc ← nickserv_db_verify_email (cl_account_name K) (hash_token token) t;
      nickserv_notice c (match rc with Some true => lit "Email address verified."
                         | _ => lit "Verification token is invalid or expired." end)
  end.

Definition guest_nick (id : N) : cstr := snprintf (IRC_NICK_MAX + 1) (format "Guest%llu" [client_id_key id]).

(** The nickname in the record and in the table; the result of [hash_set]. *)
Definition put_nick (t : ptr) (nick : cstr) : M Z :=
  upd_client t (set_cl_nick nick) ;;
  ok ← alloc;
  table ← gets w_clients_by_nick;
  let '(rc, table') := hash_set ok table nick t in
  modify (set_w_clients_by_nick table') ;; mret rc.

(** Every channel of the renamed client is told, and the client itself. *)
Definition announce_recovery (t : ptr) (old_nick : cstr) : M unit :=
  cfg ← config;
  T ← client t;
  let message := snprintf IRCD_MESSAGE_BUFFER_SIZE
    (format ":%s!%s@%s NICK :%s" [old_nick; cl_user T; cl_display_host T; cl_nick T] ++ [CR; LF]) in
  for_each (cl_channels T) (λ ch, channel_broadcast ch None message) ;;
  tell t ":NickServ!service@%s NOTICE %s :Your nickname was recovered by its registered owner; you are now %s."
    [server_name cfg; cl_nick T; cl_nick T].

(** [false]: the result -1. *)
Definition recover_rename (t : ptr) : M bool :=
  T ← client t;
  let old_nick := snprintf (IRC_NICK_MAX + 1) (cl_nick T) in
  taken ← find_nick (guest_nick (cl_id T));
  if bool_decide (is_Some taken) then mret false else
  modify (λ w, set_w_clients_by_nick (hash_remove (w_clients_by_nick w) old_nick).2 w) ;;
  rc ← put_nick t (guest_nick (cl_id T));
  if negb (rc =? 0)%Z then _ ← put_nick t old_nick; mret false else
  announce_recovery t old_nick ;; mret true.

Definition recover_authorized (c : ptr) (nick : cstr) : M bool :=
  K ← client c;
  if empty (cl_account_name K) || negb (strcaseeq (cl_account_name K) nick) then mret false else
  opened ← gets nickserv_db_opens;
  if negb opened then mret false else
  found ← nickserv_db_get nick;
  mret match found with Some (Some account) => na_enabled account | _ => false end.

(** What GHOST and RECOVER do to the client they found. *)
Definition recover_target (c : ptr) (kill ghost : bool) (t : ptr) : M unit :=
  K ← client c;
  if kill then
    server_disconnect t (Some (snprintf (IRC_QUIT_REASON_MAX + 1)
      (format "NickServ %s by %s" [if ghost then lit "GHOST" else lit "RECOVER"; cl_account_name K]))) ;;
    nickserv_notice c "Nickname session disconnected."
  else
    ok ← recover_rename t;
    nickserv_notice c (if ok : bool then lit "Nickname recovered; the previous user was safely renamed."
                       else lit "Unable to recover that nickname.").

Definition nickserv_recover (c : ptr) (params : option cstr) (ghost_alias : bool) : M unit :=
  let '(nick, rest) := strtok " " (default [] params) in
  let '(action, _) := strtok " " rest in
  let kill_target := ghost_alias || match action with Some a => strcaseeq a "KILL" | None => false end in
  let syntax := nickserv_notice c (if ghost_alias then lit "Syntax: GHOST <nick>" else lit "Syntax: RECOVER <nick> [KILL]") in
  match nick with
  | None => syntax
  | Some nick =>
      if negb ghost_alias && bool_decide (is_Some action) && negb kill_target then syntax else
      authorized ← recover_authorized c nick;
      if negb authorized then nickserv_notice c "You must be identified to that registered account." else
      found ← find_nick nick;
      match found with
      | None => nickserv_notice c "That nickname is not currently in use."
      | Some t =>
          if t =? c then nickserv_notice c "You are already using that nickname." else
          recover_target c kill_target ghost_alias t
      end
  end.

(** RESET with a name only. *)
Definition reset_request (account_name : cstr) : M unit :=
  cfg ← config;
  if negb (mail_available cfg) then mret tt else
  opened ← gets nickserv_db_opens;
  if negb opened then mret tt else
  found ← nickserv_db_get account_name;
  match found with
  | Some (Some account) =>
      if negb (na_enabled account && na_email_verified account) || empty (na_email account) then mret tt else
      token ← generate_token;
      match token with
      | None => mret tt
      | Some token =>
          t ← now;
          saved ← nickserv_db_set_reset_token (na_name account) (hash_token token) (t + nickserv_reset_seconds cfg)%Z;
          when saved (_ ← send_token_mail (na_email account) (na_name account) token false; mret tt)
      end
  | _ => mret tt
  end.

Definition nickserv_reset (c : ptr) (params : option cstr) : M unit :=
  let '(account_name, rest) := strtok " " (default [] params) in
  match account_name with
  | None => nickserv_notice c "Syntax: RESET <nick>  OR  RESET <nick> <token> <new-password>"
  | Some account_name =>
      let '(token, rest) := strtok " " rest in
      match token with
      | None =>
          reset_request account_name ;;
          nickserv_notice c "If that account exists and has a verified email address, a password reset message has been queued."
      | Some token =>
          match strtok_rest rest with
          | None => nickserv_notice c "Syntax: RESET <nick> <token> <new-password>"
          | Some new_password =>
              let new_password := skip_spaces new_password in
              allowed ← auth_limit_consume c "NickServ RESET password";
              if negb allowed then nickserv_notice c "Password hashing rate limit reached; try again later." else
              hashed ← hash_password new_password;
              rc ← match hashed with
                   | None => mret None
                   | Some password_hash =>
                       opened ← gets nickserv_db_opens;
                       if negb opened then mret None else
                       t ← now;
                       nickserv_db_consume_reset_token account_name (hash_token token) t password_hash
                   end;
              nickserv_notice c (match rc with
                | Some true => lit "Password reset complete. You may now IDENTIFY with the new password."
                | _ => lit "Reset token is invalid or expired."
                end)
          end
      end
  end.

Definition nickserv_set (c : ptr) (rest : option cstr) : M unit :=
  let '(field, rest) := strtok " " (default [] rest) in
  match field, skip_spaces <$> strtok_rest rest with
  | Some field, Some value =>
      if strcaseeq field "PASSWORD" then nickserv_set_password c value else
      if strcaseeq field "EMAIL" then nickserv_set_email c value else
      nickserv_notice c "Syntax: SET PASSWORD <new-password>  OR  SET EMAIL <address>"
  | _, _ => nickserv_notice c "Syntax: SET PASSWORD <new-password>  OR  SET EMAIL <address>"
  end.

Definition nickserv_handle_message (c : ptr) (text : cstr) : M unit :=
  let '(command, rest) := strtok " " text in
  match command with
  | None => mret tt
  | Some command =>
      let rest := skip_spaces <$> strtok_rest rest in
      if strcaseeq command "REGISTER" then nickserv_register c rest else
      if strcaseeq command "IDENTIFY" then nickserv_command_identify c rest else
      if strcaseeq command "LOGOUT" then nickserv_logout c rest else
      if strcaseeq command "RECOVER" then nickserv_recover c rest false else
      if strcaseeq command "GHOST" then nickserv_recover c rest true else
      if strcaseeq command "RESET" then nickserv_reset c rest else
      if strcaseeq command "VERIFY" then nickserv_verify c rest else
      if strcaseeq command "SET" then nickserv_set c rest else
      if strcaseeq command "HELP" then
        nickserv_notice c "Commands: REGISTER, IDENTIFY, LOGOUT, RECOVER, GHOST, SET PASSWORD, SET EMAIL, VERIFY, RESET"
      else nickserv_notice c "Unknown command. Use HELP."
  end.

(** ** NICKSERV and messages to NickServ ([src/commands/nickserv.c]) *)

Definition chanserv_sync_client_privileges (c : ptr) : M unit :=
  K ← client c;
  for_each (cl_channels K) (λ ch, sync_member_privileges ch c).

(** The client RECOVER is about to rename, and its nickname. *)
Definition recover_target_before (params : cstr) : M (option (ptr * cstr)) :=
  let '(command, rest) := strtok " " (snprintf IRCD_MESSAGE_BUFFER_SIZE params) in
  let '(nick, rest) := strtok " " rest in
  let '(action, _) := strtok " " rest in
  match command, nick, action with
  | Some command, Some nick, None =>
      if negb (strcaseeq command "RECOVER") then mret None else
      found ← find_nick nick;
      match found with
      | None => mret None
      | Some t => T ← client t; mret (Some (t, snprintf (IRC_NICK_MAX + 1) (cl_nick T)))
      end
  | _, _, _ => mret None
  end.

Definition recover_presence_after (target : option (ptr * cstr)) : M unit :=
  match target with
  | None => mret tt
  | Some (t, old_nick) =>
      T ← client t;
      found ← server_find_client_by_id (cl_id T);
      if empty old_nick || negb (bool_decide (found = Some t)) || streq (cl_nick T) old_nick then mret tt else
      presence_whowas_record T (Some old_nick) ;;
      presence_watch_offline T (Some old_nick) ;;
      presence_watch_online t
  end.

(** What a change of account is followed by. *)
Definition account_entered (c : ptr) : M unit :=
  ircv3_account_notify c ;; chanserv_sync_client_privileges c ;; memoserv_notify_unread c.
Definition account_left (c : ptr) : M unit := ircv3_account_notify c ;; chanserv_sync_client_privileges c.

Definition handle_identify_alias (c : ptr) (params : option cstr) : M unit :=
  K ← client c;
  let '(first, rest) := strtok " " (default [] params) in
  match first with
  | None => mret tt
  | Some first =>
      let '(account, secret) := account_and_password (cl_nick K) first (strtok_rest rest) in
      ok ← nickserv_identify c account secret;
      if ok : bool then
        when (empty (cl_account_name K)) (account_entered c) ;; nickserv_notice c password_accepted
      else nickserv_notice c password_refused
  end.

Definition handle_logout_alias (c : ptr) (params : option cstr) : M unit :=
  out ← logout_with c params;
  when out (account_left c ;; nickserv_notice c "You are now logged out of your account.").

Definition server_nickserv_registration_allowed (ip : cstr) (now : Z) (consume : bool) : M bool :=
  cfg ← config;
  s ← gets w_nickserv;
  let '(allowed, s) := registration_allowed cfg ip now consume s in
  modify (set_w_nickserv s) ;; mret allowed.

Definition nickserv_mail_request_allowed (ip : cstr) (now : Z) : M bool :=
  cfg ← config;
  s ← gets w_nickserv;
  let '(allowed, s) := mail_allowed cfg ip now s in
  modify (set_w_nickserv s) ;; mret allowed.

(** Whether the registration, or the request for a mail, may proceed; tells why not. *)
Definition registration_admitted (c : ptr) (registering : bool) (now : Z) : M bool :=
  cfg ← config;
  K ← client c;
  if negb (registering && empty (cl_account_name K) && negb (client_mode_has (cl_modes K) CLIENT_MODE_NETADMIN)) then mret true else
  allowed ← server_nickserv_registration_allowed (cl_real_ip K) now false;
  if allowed : bool then mret true else
  tell c ":NickServ!service@%s NOTICE %s :Registration rate limit reached for your IP address; try again later."
    [server_name cfg; cl_nick K] ;;
  snotice_broadcast (N.lor SNOTICE_REGISTRATIONS SNOTICE_FLOOD) "NickServ registration throttled: nick=%s real_ip=%s limit=%u/%us"
    [cl_nick K; cl_real_ip K; dec (nickserv_registrations_per_ip cfg); dec (nickserv_registration_window_seconds cfg)] ;;
  mret false.

Definition mail_admitted (c : ptr) (mail_request : bool) (now : Z) : M bool :=
  cfg ← config;
  K ← client c;
  if negb (mail_request && mail_available cfg && negb (client_mode_has (cl_modes K) CLIENT_MODE_NETADMIN)) then mret true else
  allowed ← nickserv_mail_request_allowed (cl_real_ip K) now;
  if allowed : bool then mret true else
  tell c ":NickServ!service@%s NOTICE %s :Email request rate limit reached; try again later." [server_name cfg; cl_nick K] ;;
  snotice_broadcast (N.lor SNOTICE_REGISTRATIONS SNOTICE_FLOOD)
    "NickServ email request throttled: nick=%s real_ip=%s per_ip=%u/%us global=%u/min"
    [cl_nick K; cl_real_ip K; dec (nickserv_mail_requests_per_ip cfg); dec (nickserv_mail_window_seconds cfg);
     dec (nickserv_mail_global_per_minute cfg)] ;;
  mret false.

(** The message itself, with what follows a change of account. *)
Definition nickserv_message (c : ptr) (text : cstr) (registering : bool) (now : Z) : M unit :=
  K ← client c;
  recover_target ← recover_target_before text;
  nickserv_handle_message c text ;;
  recover_presence_after recover_target ;;
  K' ← client c;
  if empty (cl_account_name K) && negb (empty (cl_account_name K')) then
    account_entered c ;;
    K' ← client c;
    when registering
      (when (negb (client_mode_has (cl_modes K') CLIENT_MODE_NETADMIN))
         (_ ← server_nickserv_registration_allowed (cl_real_ip K') now true; mret tt) ;;
       snotice_broadcast SNOTICE_REGISTRATIONS "NickServ registration: account=%s nick=%s real_ip=%s"
         [cl_account_name K'; cl_nick K'; cl_real_ip K'])
  else when (negb (empty (cl_account_name K)) && empty (cl_account_name K')) (account_left c).

Definition command_nickserv_message (c : ptr) (text : cstr) : M unit :=
  let copy := snprintf IRCD_MESSAGE_BUFFER_SIZE text in
  let '(service_command, rest) := strtok " " copy in
  let alias_params := skip_spaces <$> strtok_rest rest in
  let asks name := match service_command with Some s => strcaseeq s name | None => false end in
  if asks "IDENTIFY" then handle_identify_alias c alias_params else
  if asks "LOGOUT" then handle_logout_alias c alias_params else
  let registering := asks "REGISTER" in
  t ← now;
  registers ← registration_admitted c registering t;
  if negb registers then mret tt else
  mails ← mail_admitted c (mail_producing_request copy) t;
  if negb mails then mret tt else
  nickserv_message c text registering t.

Definition command_nickserv (c : ptr) (params : option cstr) : M CommandResult :=
  u ← command_require_registered c;
  if u : bool then keep else
  cfg ← config;
  K ← client c;
  match params with
  | None | Some [] => reply c ERR_NEEDMOREPARAMS [server_name cfg; cl_nick K; lit "NICKSERV"]
  | Some params => command_nickserv_message c params ;; keep
  end.

(** ** IDENTIFY ([src/commands/identify.c]) *)

Definition command_identify (c : ptr) (params : option cstr) : M CommandResult :=
  u ← command_require_registered c;
  if u : bool then keep else
  cfg ← config;
  K ← client c;
  let '(first, rest) := strtok " " (default [] params) in
  match first with
  | None => reply c ERR_NEEDMOREPARAMS [server_name cfg; cl_nick K; lit "IDENTIFY"]
  | Some first =>
      let '(account, password) := account_and_password (cl_nick K) first (strtok_rest rest) in
      ok ← nickserv_identify c account password;
      if ok : bool then
        when (empty (cl_account_name K)) (account_entered c) ;;
        K ← client c;
        reply c ":NickServ!service@%s NOTICE %s :Password accepted - you are now identified." [server_name cfg; cl_nick K]
      else reply c ":NickServ!service@%s NOTICE %s :Password incorrect or account unavailable." [server_name cfg; cl_nick K]
  end.
End NickServ.
