(* ===== verification/ChanDb.v ===== *)
(** * ChanServ's database ([src/chanserv_db.c], [src/chanserv_persist.c])

    The tables of [chanserv.db] are lists of rows in the order of their insertion; they
    lie outside the process, in [io_chanserv].  Each function runs its SQL on them, which
    SQLite may refuse ([sqlite_step], also for opening the file), leaving them as they
    were.  Channel names compare by IRC case folding, account names without regard to
    case; rows about a channel need a row in [channels] and go with it. *)

From S2P Require Import Prelude CString Modes HashTable MaskMatch Output World Channel Invariant Policy Tags Numerics Ircv3 Presence Env Cloak Register Accounts.

Definition IRCD_CHANSERV_REGISTRATION_HARD_MAX : N := 50000.
Definition IRCD_CHANSERV_ACCESS_HARD_MAX : N := 256.
Definition IRCD_CHANSERV_DESCRIPTION_MAX : nat := 255.

(** ** Names in the database *)

(** -1, 0 or 1, of the folded bytes. *)
Fixpoint irc_collation (left right : cstr) : Z :=
  match left, right with
  | [], [] => 0
  | [], _ :: _ => -1
  | _ :: _, [] => 1
  | a :: left', b :: right' =>
      if (byte (irc_fold a) <? byte (irc_fold b))%N then -1
      else if (byte (irc_fold b) <? byte (irc_fold a))%N then 1
      else irc_collation left' right'
  end%Z.
Definition same_channel (a b : cstr) : bool := (irc_collation a b =? 0)%Z.

(** [COLLATE NOCASE]: the order of the bytes in lower case. *)
Fixpoint nocase_below (left right : cstr) : bool :=
  match left, right with
  | _, [] => false
  | [], _ :: _ => true
  | a :: left', b :: right' =>
      if (byte (tolower a) <? byte (tolower b))%N then true
      else if (byte (tolower b) <? byte (tolower a))%N then false
      else nocase_below left' right'
  end.

Definition text_arg_fits (text : cstr) (maximum : nat) (allow_empty : bool) : bool :=
  negb (negb allow_empty && empty text || (maximum <? length text) || has_char CR text || has_char LF text).
Definition channel_arg_fits (name : cstr) : bool := text_arg_fits name IRC_CHANNEL_NAME_MAX false.
Definition account_arg_fits (account : cstr) : bool := text_arg_fits account IRC_NICK_MAX false.

(** The row as a record; [None]: a text that does not fit its field. *)
Definition registration_from_row (row : ChanServChannel) : option ChanServChannel :=
  if copy_text_column (cs_name row) IRC_CHANNEL_NAME_MAX && copy_text_column (cs_founder row) IRC_NICK_MAX &&
     copy_text_column (cs_description row) IRCD_CHANSERV_DESCRIPTION_MAX && copy_text_column (cs_topic row) IRC_CHANNEL_TOPIC_MAX &&
     copy_text_column (cs_topic_setter row) IRC_CHANNEL_TOPIC_SETTER_MAX && copy_text_column (cs_successor row) IRC_NICK_MAX &&
     copy_text_column (cs_greeting row) IRC_CHANNEL_TOPIC_MAX
  then Some row else None.
Definition access_from_row (row : ChanServAccess) : option ChanServAccess :=
  if copy_text_column (ca_channel row) IRC_CHANNEL_NAME_MAX && copy_text_column (ca_account row) IRC_NICK_MAX then Some row else None.

Definition registered_as (name : cstr) (row : ChanServChannel) : bool := same_channel (cs_name row) name.
Definition grants_to (channel account : cstr) (row : ChanServAccess) : bool :=
  same_channel (ca_channel row) channel && strcaseeq (ca_account row) account.

Definition level_number (l : ChanServAccessLevel) : Z :=
  match l with
  | CHANSERV_ACCESS_NONE => 0 | CHANSERV_ACCESS_VOICE => 1 | CHANSERV_ACCESS_HALFOP => 2
  | CHANSERV_ACCESS_OP => 3 | CHANSERV_ACCESS_PROTECTED => 4 | CHANSERV_ACCESS_OWNER => 5
  end.

(** [ORDER BY level DESC,account COLLATE NOCASE]. *)
Definition access_before (a b : ChanServAccess) : bool :=
  (level_number (ca_level b) <? level_number (ca_level a))%Z ||
  (level_number (ca_level a) =? level_number (ca_level b))%Z && negb (nocase_below (ca_account b) (ca_account a)).
Fixpoint insert_access (a : ChanServAccess) (l : list ChanServAccess) : list ChanServAccess :=
  match l with [] => [a] | b :: l' => if access_before a b then a :: l else b :: insert_access a l' end.
Definition order_access (l : list ChanServAccess) : list ChanServAccess := foldr insert_access [] l.

(** ** Registrations and access lists ([src/chanserv_db.c]) *)

Section ChanDb.
Context `{E : Env}.

Definition tables : M ChanServTables := gets (λ w, io_chanserv (w_io w)).
Definition set_tables (t : ChanServTables) : M unit := modify (λ w, set_w_io (set_io_chanserv t (w_io w)) w).

Definition chanserv_db_open : M bool := gets (sqlite_step "chanserv_db_open").

(** [None]: an error; [Some None]: no such row. *)
Definition chanserv_db_get (name : cstr) : M (option (option ChanServChannel)) :=
  if negb (channel_arg_fits name) then mret None else
  ok ← gets (sqlite_step "chanserv_db_get");
  if negb ok then mret None else
  t ← tables;
  mret match find (registered_as name) (ct_channels t) with
       | Some row => match registration_from_row row with Some r => Some (Some r) | None => None end
       | None => Some None
       end.

Definition chanserv_db_create (name founder description : cstr) : M bool :=
  if negb (channel_arg_fits name && account_arg_fits founder && text_arg_fits description IRCD_CHANSERV_DESCRIPTION_MAX true)
  then mret false else
  ok ← gets (sqlite_step "chanserv_db_create");
  t ← tables;
  if negb ok || (IRCD_CHANSERV_REGISTRATION_HARD_MAX <=? N.of_nat (length (ct_channels t)))%N || existsb (registered_as name) (ct_channels t)
  then mret false else
  time ← now;
  set_tables (set_ct_channels (ct_channels t ++ [MkRegistration name founder description true 0 [] [] 0 false [] [] time time]) t) ;;
  mret true.

(** [UPDATE channels SET ... WHERE name=?]; [true]: rows were changed. *)
Definition update_channel (statement : string) (name : cstr) (f : ChanServChannel → ChanServChannel) : M bool :=
  ok ← gets (sqlite_step statement);
  if negb (channel_arg_fits name) || negb ok then mret false else
  t ← tables;
  time ← now;
  set_tables (set_ct_channels
    (map (λ row, if registered_as name row then set_cs_updated_at time (f row) else row) (ct_channels t)) t) ;;
  mret (existsb (registered_as name) (ct_channels t)).

Definition chanserv_db_set_description (name description : cstr) : M bool :=
  if negb (text_arg_fits description IRCD_CHANSERV_DESCRIPTION_MAX true) then mret false else
  update_channel "chanserv_db_set_description" name (set_cs_description description).
Definition chanserv_db_set_founder (name founder : cstr) : M bool :=
  if negb (account_arg_fits founder) then mret false else
  update_channel "chanserv_db_set_founder" name (set_cs_founder founder).
Definition chanserv_db_set_enabled (name : cstr) (enabled : bool) : M bool :=
  update_channel "chanserv_db_set_enabled" name (set_cs_enabled enabled).
Definition chanserv_db_set_mode_lock (name : cstr) (mode_lock : N) : M bool :=
  update_channel "chanserv_db_set_mode_lock" name (set_cs_mode_lock mode_lock).
Definition chanserv_db_set_topic (name topic setter : cstr) (topic_time : Z) : M bool :=
  if negb (text_arg_fits topic IRC_CHANNEL_TOPIC_MAX true && text_arg_fits setter IRC_CHANNEL_TOPIC_SETTER_MAX true) then mret false else
  update_channel "chanserv_db_set_topic" name (λ r, set_cs_topic_time topic_time (set_cs_topic_setter setter (set_cs_topic topic r))).
Definition chanserv_db_set_secure_ops (name : cstr) (enabled : bool) : M bool :=
  update_channel "chanserv_db_set_secure_ops" name (set_cs_secure_ops enabled).
Definition chanserv_db_set_successor (name successor : cstr) : M bool :=
  if negb (empty successor) && negb (account_arg_fits successor) then mret false else
  update_channel "chanserv_db_set_successor" name (set_cs_successor successor).
Definition chanserv_db_set_greeting (name greeting : cstr) : M bool :=
  if negb (text_arg_fits greeting IRC_CHANNEL_TOPIC_MAX true) then mret false else
  update_channel "chanserv_db_set_greeting" name (set_cs_greeting greeting).

(** [ON DELETE CASCADE]: all rows about the channel go. *)
Definition without_channel (name : cstr) (t : ChanServTables) : ChanServTables :=
  MkTables (filter (λ r, registered_as name r = false) (ct_channels t))
    (filter (λ r, same_channel (ca_channel r) name = false) (ct_access t))
    (filter (λ r, same_channel (rt_channel r) name = false) (ct_runtime t))
    (filter (λ r, same_channel (mr_channel r) name = false) (ct_masks t)).

Definition chanserv_db_delete (name : cstr) : M bool :=
  if negb (channel_arg_fits name) then mret false else
  ok ← gets (sqlite_step "chanserv_db_delete");
  if negb ok then mret false else
  t ← tables;
  if negb (existsb (registered_as name) (ct_channels t)) then mret false else
  set_tables (without_channel name t) ;; mret true.

Definition chanserv_db_access_set (channel account : cstr) (level : ChanServAccessLevel) : M bool :=
  if negb (channel_arg_fits channel && account_arg_fits account) || (level_number level <? 1)%Z then mret false else
  ok ← gets (sqlite_step "chanserv_db_access_set");
  t ← tables;
  if negb ok || negb (existsb (registered_as channel) (ct_channels t)) then mret false else
  let put l := set_tables (set_ct_access l t) ;; mret true in
  if existsb (grants_to channel account) (ct_access t) then
    put (map (λ r, if grants_to channel account r then MkAccess (ca_channel r) (ca_account r) level else r) (ct_access t))
  else if (N.of_nat (length (filter (λ r, same_channel (ca_channel r) channel = true) (ct_access t))) <? IRCD_CHANSERV_ACCESS_HARD_MAX)%N then
    put (ct_access t ++ [MkAccess channel account level])
  else mret false.

Definition chanserv_db_access_delete (channel account : cstr) : M bool :=
  if negb (channel_arg_fits channel && account_arg_fits account) then mret false else
  ok ← gets (sqlite_step "chanserv_db_access_delete");
  if negb ok then mret false else
  t ← tables;
  set_tables (set_ct_access (filter (λ r, grants_to channel account r = false) (ct_access t)) t) ;;
  mret (existsb (grants_to channel account) (ct_access t)).

Definition chanserv_db_access_get (channel account : cstr) : M (option (option ChanServAccess)) :=
  if negb (channel_arg_fits channel && account_arg_fits account) then mret None else
  ok ← gets (sqlite_step "chanserv_db_access_get");
  if negb ok then mret None else
  t ← tables;
  mret match find (grants_to channel account) (ct_access t) with
       | Some row => match access_from_row row with Some r => Some (Some r) | None => None end
       | None => Some None
       end.

(** The callback on each row, until it does not answer 0. *)
Fixpoint access_rows (callback : ChanServAccess → M Z) (l : list ChanServAccess) : M Z :=
  match l with
  | [] => mret 0%Z
  | row :: l' =>
      match access_from_row row with
      | None => mret (-1)%Z
      | Some r => rc ← callback r; if (rc =? 0)%Z then access_rows callback l' else mret rc
      end
  end.
Definition chanserv_db_access_foreach (channel : cstr) (callback : ChanServAccess → M Z) : M Z :=
  if negb (channel_arg_fits channel) then mret (-1)%Z else
  ok ← gets (sqlite_step "chanserv_db_access_foreach");
  if negb ok then mret (-1)%Z else
  t ← tables;
  access_rows callback (order_access (filter (λ r, same_channel (ca_channel r) channel = true) (ct_access t))).

(** ** Parameter modes and mask lists ([src/chanserv_persist.c]) *)

Definition CHANSERV_MASK_BAN : Z := 1.
Definition CHANSERV_MASK_EXCEPTION : Z := 2.
Definition CHANSERV_MASK_INVEX : Z := 3.

Definition persist_text_fits (text : cstr) (maximum : nat) : bool :=
  let length_ := Nat.min (length text) (maximum + 1) in
  (length_ <=? maximum) && negb (has_char CR (take length_ text)) && negb (has_char LF (take length_ text)).

(** The primary key: the type and the bytes of the mask, of one channel. *)
Definition same_mask_row (a b : ChannelMaskRow) : bool :=
  same_channel (mr_channel a) (mr_channel b) && (mr_type a =? mr_type b)%Z && streq (mr_mask a) (mr_mask b).

(** The rows with those of the list appended; [None]: one could not be inserted. *)
Fixpoint save_masks (channel : cstr) (l : list ChannelMaskEntry) (type : Z) (rows : list ChannelMaskRow)
    : option (list ChannelMaskRow) :=
  match l with
  | [] => Some rows
  | entry :: l' =>
      if negb (persist_text_fits (mask entry) IRC_CHANNEL_MASK_MAX) then None else
      let row := MkMaskRow channel type (mask entry) (if protected_authorized entry then 1 else 0) in
      if existsb (same_mask_row row) rows then None else save_masks channel l' type (rows ++ [row])
  end.

Definition runtime_row (C : Channel) : ChannelRuntime :=
  MkRuntime (ch_name C) (ch_key C) (ch_user_limit C) (ch_join_throttle_count C) (ch_join_throttle_seconds C)
    (ch_limit_redirect C) (ch_ban_redirect C).

(** [INSERT ... ON CONFLICT(channel) DO UPDATE]: an existing row keeps its spelling of the name. *)
Definition upsert_runtime (row : ChannelRuntime) (l : list ChannelRuntime) : list ChannelRuntime :=
  if existsb (λ r, same_channel (rt_channel r) (rt_channel row)) l then
    map (λ r, if same_channel (rt_channel r) (rt_channel row) then set_rt_channel (rt_channel r) row else r) l
  else l ++ [row].

(** The transaction; [None]: rolled back. *)
Definition save_transaction (C : Channel) (t : ChanServTables) : option ChanServTables :=
  if negb (existsb (registered_as (ch_name C)) (ct_channels t)) then None else
  let t := set_ct_runtime (upsert_runtime (runtime_row C) (ct_runtime t)) t in
  let kept := filter (λ r, same_channel (mr_channel r) (ch_name C) = false) (ct_masks t) in
  rows ← save_masks (ch_name C) (ch_ban_list C) CHANSERV_MASK_BAN kept;
  rows ← save_masks (ch_name C) (ch_exception_list C) CHANSERV_MASK_EXCEPTION rows;
  rows ← save_masks (ch_name C) (ch_invite_exception_list C) CHANSERV_MASK_INVEX rows;
  Some (set_ct_masks rows t).

(** [true]: the result 0. *)
Definition chanserv_persist_save (C : Channel) : M bool :=
  if negb (persist_text_fits (ch_name C) IRC_CHANNEL_NAME_MAX && persist_text_fits (ch_key C) IRC_CHANNEL_KEY_MAX &&
           persist_text_fits (ch_limit_redirect C) IRC_CHANNEL_NAME_MAX && persist_text_fits (ch_ban_redirect C) IRC_CHANNEL_NAME_MAX) ||
     (INT64_MAX <? ch_user_limit C)%Z then mret false else
  ready ← gets (sqlite_step "chanserv_persist_init");
  ok ← gets (sqlite_step "chanserv_persist_save");
  if negb (ready && ok) then mret false else
  t ← tables;
  match save_transaction C t with
  | Some t' => set_tables t' ;; mret true
  | None => mret false
  end.

(** What [MODE] may change of a channel, as a new channel has it. *)
Definition clear_parameters (C : Channel) : Channel :=
  let C := set_ch_join_throttle_count 0 (set_ch_user_limit 0 (set_ch_key [] C)) in
  let C := set_ch_ban_redirect [] (set_ch_limit_redirect [] (set_ch_join_throttle_seconds 0 C)) in
  set_ch_invite_exception_list (channel_mask_clear (ch_invite_exception_list C))
    (set_ch_exception_list (channel_mask_clear (ch_exception_list C))
      (set_ch_ban_list (channel_mask_clear (ch_ban_list C)) C)).

Definition copy_stmt_text (text : cstr) (maximum : nat) : bool := copy_text_column text maximum.

(** The row of [channel_runtime] into the channel; [None]: a value out of range. *)
Definition restore_runtime (row : ChannelRuntime) (C : Channel) : option Channel :=
  if negb (copy_stmt_text (rt_key row) IRC_CHANNEL_KEY_MAX && copy_stmt_text (rt_limit_redirect row) IRC_CHANNEL_NAME_MAX &&
           copy_stmt_text (rt_ban_redirect row) IRC_CHANNEL_NAME_MAX) ||
     (rt_user_limit row <? 0)%Z || (SIZE_MOD - 1 <? rt_user_limit row)%Z ||
     (rt_join_count row <? 0)%Z || (UINT_MAX <? rt_join_count row)%Z ||
     (rt_join_seconds row <? 0)%Z || (UINT_MAX <? rt_join_seconds row)%Z
  then None else
  let C := set_ch_ban_redirect (rt_ban_redirect row) (set_ch_limit_redirect (rt_limit_redirect row) (set_ch_key (rt_key row) C)) in
  Some (set_ch_join_throttle_seconds (rt_join_seconds row)
    (set_ch_join_throttle_count (rt_join_count row) (set_ch_user_limit (rt_user_limit row) C))).

(** The list of the channel a row belongs to. *)
Definition list_of_type (type : Z) (C : Channel) : option (list ChannelMaskEntry * (list ChannelMaskEntry → Channel → Channel)) :=
  if (type =? CHANSERV_MASK_BAN)%Z then Some (ch_ban_list C, set_ch_ban_list)
  else if (type =? CHANSERV_MASK_EXCEPTION)%Z then Some (ch_exception_list C, set_ch_exception_list)
  else if (type =? CHANSERV_MASK_INVEX)%Z then Some (ch_invite_exception_list C, set_ch_invite_exception_list)
  else None.

Definition mask_row_fits (row : ChannelMaskRow) : bool :=
  copy_stmt_text (mr_mask row) IRC_CHANNEL_MASK_MAX && negb (empty (mr_mask row)) &&
  ((mr_authorized row =? 0)%Z || (mr_authorized row =? 1)%Z).

Definition restore_mask (ok : bool) (row : ChannelMaskRow) (C : Channel) : option Channel :=
  if negb (mask_row_fits row) then None else
  match list_of_type (mr_type row) C with
  | None => None
  | Some (l, set) =>
      let '(rc, l') := channel_mask_add_authorized ok l (mr_mask row) (mr_authorized row =? 1)%Z in
      if (rc =? 0)%Z then Some (set l' C) else None
  end.

(** [true]: the result 0. *)
Fixpoint restore_masks (ch : ptr) (rows : list ChannelMaskRow) : M bool :=
  match rows with
  | [] => mret true
  | row :: rest =>
      C ← channel ch;
      let grows := match list_of_type (mr_type row) C with Some (l, _) => mask_row_fits row && mask_needs_entry l (mr_mask row) | None => false end in
      ok ← (if grows then alloc else mret true);
      match restore_mask ok row C with
      | None => mret false
      | Some C' => upd_channel ch (λ _, C') ;; restore_masks ch rest
      end
  end.

(** The reading part, on a channel whose parameters are clear. *)
Definition restore_rows (ch : ptr) : M bool :=
  ok ← gets (sqlite_step "chanserv_persist_restore");
  if negb ok then mret false else
  t ← tables;
  C ← channel ch;
  let restored := match find (λ r, same_channel (rt_channel r) (ch_name C)) (ct_runtime t) with
                  | Some row => restore_runtime row C
                  | None => Some C
                  end in
  match restored with
  | None => mret false
  | Some C' =>
      upd_channel ch (λ _, C') ;;
      restore_masks ch (filter (λ r, same_channel (mr_channel r) (ch_name C) = true) (ct_masks t))
  end.

Definition persist_restore (ch : ptr) : M Z :=
  C ← channel ch;
  if negb (persist_text_fits (ch_name C) IRC_CHANNEL_NAME_MAX) then mret (-1)%Z else
  ready ← gets (sqlite_step "chanserv_persist_init");
  if negb ready then mret (-1)%Z else
  upd_channel ch clear_parameters ;;
  restored ← restore_rows ch;
  if restored : bool then mret 0%Z else
  upd_channel ch clear_parameters ;; mret (-1)%Z.
End ChanDb.
