(* ===== verification/ChanServ.v ===== *)
(** * ChanServ ([src/chanserv.c], [src/commands/chanserv.c], [src/commands/chanserv_admin.c])

    Channel registrations on live channels: the cached policy, the privileges of the
    members' accounts, the commands to ChanServ, and CHANSERV, CSINFO, CSSET and CSDROP.
    What other components ask of ChanServ is the interface [Services]; the functions here
    that answer it are [load_channel_policy], [persist_restore], [client_privileges],
    [sync_channel], [persist_channel] and [sync_member]. *)

From S2P Require Import Prelude CString Modes HashTable MaskMatch Output World Channel Invariant Policy Tags Numerics Ircv3 Presence Env Cloak Register Connection Services Registry JoinPart Oper Accounts ChanDb.

Definition lookup_bit (l : list (ascii * ChannelModeSet)) (letter : ascii) : ChannelModeSet :=
  default 0%N (snd <$> find (λ e, Ascii.eqb letter e.1) l).

Definition persistent_mode_bit : ascii → ChannelModeSet := lookup_bit
  [("A"%char, CHANNEL_MODE_ADMIN_ONLY); ("c"%char, CHANNEL_MODE_NO_COLOR); ("i"%char, CHANNEL_MODE_INVITE_ONLY);
   ("K"%char, CHANNEL_MODE_NO_KNOCK); ("M"%char, CHANNEL_MODE_REGONLY_SPEAK); ("m"%char, CHANNEL_MODE_MODERATED);
   ("n"%char, CHANNEL_MODE_NO_EXTERNAL); ("O"%char, CHANNEL_MODE_OPER_ONLY); ("p"%char, CHANNEL_MODE_PRIVATE);
   ("R"%char, CHANNEL_MODE_REGONLY_JOIN); ("S"%char, CHANNEL_MODE_STRIP_COLOR); ("s"%char, CHANNEL_MODE_SECRET);
   ("t"%char, CHANNEL_MODE_TOPIC_LOCK); ("T"%char, CHANNEL_MODE_NO_NOTICE); ("V"%char, CHANNEL_MODE_NO_INVITE);
   ("z"%char, CHANNEL_MODE_SECURE_ONLY)].

Definition persistent_letters : cstr := "AciKMmnOpRStTVz".
Definition persistent_mode_mask : ChannelModeSet := foldl (λ mask l, N.lor mask (persistent_mode_bit l)) 0%N persistent_letters.

(** [None]: a letter that is no persistent mode. *)
Fixpoint parse_mode_lock_from (sign : ascii) (result : ChannelModeSet) (text : cstr) : option ChannelModeSet :=
  match text with
  | [] => Some result
  | letter :: text' =>
      if Ascii.eqb letter "+" || Ascii.eqb letter "-" then parse_mode_lock_from letter result text' else
      let bit := persistent_mode_bit letter in
      if (bit =? 0)%N then None else
      parse_mode_lock_from sign (if Ascii.eqb sign "+" then N.lor result bit else N.ldiff result bit) text'
  end.
Definition parse_mode_lock (text : cstr) : option ChannelModeSet := parse_mode_lock_from "+" 0 text.

Definition access_name (level : ChanServAccessLevel) : cstr :=
  match level with
  | CHANSERV_ACCESS_OWNER => "OWNER" | CHANSERV_ACCESS_PROTECTED => "PROTECTED" | CHANSERV_ACCESS_OP => "OP"
  | CHANSERV_ACCESS_HALFOP => "HALFOP" | CHANSERV_ACCESS_VOICE => "VOICE" | CHANSERV_ACCESS_NONE => "NONE"
  end.
Definition parse_access (text : option cstr) : ChanServAccessLevel :=
  match text with
  | None => CHANSERV_ACCESS_NONE
  | Some text =>
      if strcaseeq text "OWNER" then CHANSERV_ACCESS_OWNER else
      if strcaseeq text "PROTECTED" then CHANSERV_ACCESS_PROTECTED else
      if strcaseeq text "OP" then CHANSERV_ACCESS_OP else
      if strcaseeq text "HALFOP" then CHANSERV_ACCESS_HALFOP else
      if strcaseeq text "VOICE" then CHANSERV_ACCESS_VOICE else CHANSERV_ACCESS_NONE
  end.

Definition valid_channel_name (name : cstr) : bool :=
  strchr IRC_CHANNEL_PREFIXES (char0 name) && (length name <=? IRC_CHANNEL_NAME_MAX) && negb (has_char " " name).

Definition founder_matches (record : ChanServChannel) (K : Client) : bool :=
  negb (empty (cl_account_name K)) && strcaseeq (cs_founder record) (cl_account_name K).
Definition cached_founder_matches (C : Channel) (K : Client) : bool :=
  ch_chanserv_policy_valid C && negb (empty (cl_account_name K)) && strcaseeq (ch_chanserv_founder C) (cl_account_name K).

(** The signs and letters of the changed modes, with the sign of the last one. *)
Fixpoint service_mode_letters (before after : ChannelModeSet) (sign : ascii) (letters : cstr) : cstr :=
  match letters with
  | [] => []
  | l :: rest =>
      let bit := persistent_mode_bit l in
      let set_before := negb (N.land before bit =? 0)%N in
      let set_after := negb (N.land after bit =? 0)%N in
      if Bool.eqb set_before set_after then service_mode_letters before after sign rest else
      let desired := (if set_after then "+" else "-")%char in
      (if Ascii.eqb desired sign then [l] else [desired; l]) ++ service_mode_letters before after desired rest
  end.

(** ** The cached policy of a channel *)

Definition forget_registration (C : Channel) : Channel :=
  let C := set_ch_chanserv_founder [] (set_ch_chanserv_policy_valid false (set_ch_chanserv_policy_loaded true C)) in
  let C := set_ch_chanserv_secure_ops false (set_ch_chanserv_mode_lock 0%N C) in
  let C := set_ch_chanserv_greeting [] (set_ch_chanserv_successor [] C) in
  set_ch_modes (channel_mode_remove (ch_modes C) CHANNEL_MODE_REGISTERED) C.

Definition clear_cached_policy (ch : ptr) : M unit :=
  channel_forget_service_privileges ch ;; upd_channel ch forget_registration.

Definition cache_registration (record : ChanServChannel) (C : Channel) : Channel :=
  let C := set_ch_chanserv_policy_valid true (set_ch_chanserv_policy_loaded true C) in
  let C := set_ch_chanserv_mode_lock (cs_mode_lock record) (set_ch_chanserv_founder (snprintf (IRC_NICK_MAX + 1) (cs_founder record)) C) in
  let C := set_ch_chanserv_secure_ops (cs_secure_ops record) C in
  set_ch_chanserv_greeting (snprintf (IRC_CHANNEL_TOPIC_MAX + 1) (cs_greeting record))
    (set_ch_chanserv_successor (snprintf (IRC_NICK_MAX + 1) (cs_successor record)) C).

Definition cache_policy (ch : ptr) (record : ChanServChannel) : M unit :=
  if negb (cs_enabled record) then clear_cached_policy ch else upd_channel ch (cache_registration record).

(** The modes and the topic of an enabled registration. *)
Definition apply_registration (topic_limit : nat) (record : ChanServChannel) (C : Channel) : Channel :=
  let C := set_ch_modes (channel_mode_add (cs_mode_lock record) CHANNEL_MODE_REGISTERED) C in
  if length (cs_topic record) <=? topic_limit then
    set_ch_topic_time (cs_topic_time record)
      (set_ch_topic_setter (snprintf (IRC_CHANNEL_TOPIC_SETTER_MAX + 1) (cs_topic_setter record))
        (set_ch_topic (snprintf (IRC_CHANNEL_TOPIC_MAX + 1) (cs_topic record)) C))
  else set_ch_topic_time 0 (set_ch_topic_setter [] (set_ch_topic [] C)).

Section ChanServ.
Context `{E : Env} `{S : Services}.

(** The chunks while the queue does not overflow. *)
Fixpoint tell_chunks (c : ptr) (fmt : cstr) (args : list cstr) (l : list cstr) : M unit :=
  match l with
  | [] => mret tt
  | chunk :: l' =>
      stop ← overflowed c;
      if stop : bool then mret tt else tell c fmt (args ++ [chunk]) ;; tell_chunks c fmt args l'
  end.

(** [cs_notice] and [notice] of [chanserv_admin.c]: the same up to the source. *)
Definition notice_from (c : ptr) (prefix_format : cstr) (text : cstr) : M unit :=
  cfg ← config;
  K ← client c;
  let args := [server_name cfg; cl_nick K] in
  let prefix_length := length (format prefix_format args) in
  if IRC_LINE_CONTENT_MAX <=? prefix_length then mret tt else
  if empty text then tell c prefix_format args else
  tell_chunks c (prefix_format ++ lit "%.*s") args (chunks (length text) (IRC_LINE_CONTENT_MAX - prefix_length) text).
Definition cs_notice (c : ptr) (text : cstr) : M unit := notice_from c ":ChanServ!service@%s NOTICE %s :" text.
Definition admin_notice (c : ptr) (text : cstr) : M unit := notice_from c ":%s NOTICE %s :" text.

Definition load_channel_policy (ch : ptr) (force : bool) : M unit :=
  cfg ← config;
  C ← channel ch;
  if negb force && ch_chanserv_policy_loaded C then mret tt else
  opened ← chanserv_db_open;
  if negb opened then mret tt else
  found ← chanserv_db_get (ch_name C);
  match found with
  | Some (Some record) =>
      if cs_enabled record then
        cache_policy ch record ;;
        upd_channel ch (apply_registration (irc_topic_limit cfg) record) ;;
        _ ← persist_restore ch; mret tt
      else clear_cached_policy ch
  | Some None => clear_cached_policy ch
  | None => mret tt
  end.

Definition persist_channel (ch : ptr) : M unit :=
  C ← channel ch;
  when (channel_mode_has (ch_modes C) CHANNEL_MODE_REGISTERED) (_ ← chanserv_persist_save C; mret tt).

(** ** Privileges from the access list *)

Definition founder_privileges : ChannelPrivilegeSet := N.lor CHANNEL_PRIV_OWNER CHANNEL_PRIV_OPERATOR.
Definition level_privileges (level : ChanServAccessLevel) : ChannelPrivilegeSet :=
  match level with
  | CHANSERV_ACCESS_OWNER => N.lor CHANNEL_PRIV_OWNER CHANNEL_PRIV_OPERATOR
  | CHANSERV_ACCESS_PROTECTED => N.lor CHANNEL_PRIV_PROTECTED CHANNEL_PRIV_OPERATOR
  | CHANSERV_ACCESS_OP => CHANNEL_PRIV_OPERATOR
  | CHANSERV_ACCESS_HALFOP => CHANNEL_PRIV_HALFOP
  | CHANSERV_ACCESS_VOICE => CHANNEL_PRIV_VOICE
  | CHANSERV_ACCESS_NONE => 0%N
  end.

(** The access entry of the client's account. *)
Definition access_privileges (channel_name account : cstr) : M ChannelPrivilegeSet :=
  entry ← chanserv_db_access_get channel_name account;
  mret match entry with Some (Some access) => level_privileges (ca_level access) | _ => 0%N end.

(** Without a cached policy: what the database says. *)
Definition stored_privileges (K : Client) (channel_name : cstr) : M ChannelPrivilegeSet :=
  found ← chanserv_db_get channel_name;
  match found with
  | Some (Some record) =>
      if negb (cs_enabled record) then mret 0%N else
      if founder_matches record K then mret founder_privileges else access_privileges channel_name (cl_account_name K)
  | _ => mret 0%N
  end.

Definition client_privileges (c : ptr) (channel_name : cstr) : M ChannelPrivilegeSet :=
  K ← client c;
  if empty (cl_account_name K) then mret 0%N else
  live ← find_channel channel_name;
  cached ← match live with
           | Some ch => C ← channel ch; mret (if ch_chanserv_policy_loaded C then Some C else None)
           | None => mret None
           end;
  match cached with
  | Some C =>
      if negb (ch_chanserv_policy_valid C) then mret 0%N else
      if cached_founder_matches C K then mret founder_privileges else
      opened ← chanserv_db_open;
      if negb opened then mret 0%N else access_privileges channel_name (cl_account_name K)
  | None =>
      opened ← chanserv_db_open;
      if negb opened then mret 0%N else stored_privileges K channel_name
  end.

(** [chanserv_client_is_founder]. *)
Definition client_is_founder (c : ptr) (channel_name : cstr) : M bool :=
  K ← client c;
  if empty (cl_account_name K) then mret false else
  live ← find_channel channel_name;
  cached ← match live with
           | Some ch => C ← channel ch; mret (if ch_chanserv_policy_loaded C then Some C else None)
           | None => mret None
           end;
  match cached with
  | Some C => mret (cached_founder_matches C K)
  | None =>
      opened ← chanserv_db_open;
      if negb opened then mret false else
      found ← chanserv_db_get channel_name;
      mret match found with Some (Some record) => cs_enabled record && founder_matches record K | _ => false end
  end.

Definition broadcast_privilege_change (ch subject : ptr) (privileges : ChannelPrivilegeSet) (sign : ascii) : M unit :=
  if (privileges =? 0)%N then mret tt else
  cfg ← config;
  C ← channel ch;
  K ← client subject;
  let letters := channel_privilege_format privileges 6 in
  let parameters := concat (map (λ _, " "%char :: cl_nick K) letters) in
  for_each (ch_members C) (λ m, tell (m_client m) ":%s MODE %s %c%s%s" [server_name cfg; ch_name C; [sign]; letters; parameters]).

(** The privileges a member of this rank may hold under SECUREOPS. *)
Definition protected_bits : ChannelPrivilegeSet :=
  N.lor CHANNEL_PRIV_OWNER (N.lor CHANNEL_PRIV_PROTECTED (N.lor CHANNEL_PRIV_OPERATOR CHANNEL_PRIV_HALFOP)).
Definition eligible_privileges (desired : ChannelPrivilegeSet) : ChannelPrivilegeSet :=
  let rank := channel_privilege_rank desired in
  if 5 <=? rank then protected_bits
  else if 4 <=? rank then N.lor CHANNEL_PRIV_PROTECTED (N.lor CHANNEL_PRIV_OPERATOR CHANNEL_PRIV_HALFOP)
  else if 3 <=? rank then N.lor CHANNEL_PRIV_OPERATOR CHANNEL_PRIV_HALFOP
  else if 2 <=? rank then CHANNEL_PRIV_HALFOP else 0%N.

Definition desired_privileges (ch c : ptr) : M ChannelPrivilegeSet :=
  C ← channel ch;
  if channel_mode_has (ch_modes C) CHANNEL_MODE_REGISTERED then client_privileges c (ch_name C) else mret 0%N.

Definition revoke_unauthorized (ch c : ptr) (m : ChannelMember) (desired : ChannelPrivilegeSet) : M unit :=
  C ← channel ch;
  let unauthorized := N.ldiff (N.land (m_manual m) protected_bits) (eligible_privileges desired) in
  when (ch_chanserv_secure_ops C && negb (unauthorized =? 0)%N)
    (_ ← channel_remove_manual_privileges ch c unauthorized; mret tt).

Definition sync_member (ch c : ptr) : M unit :=
  C ← channel ch;
  match channel_find_member C c with
  | None => mret tt
  | Some m =>
      let before := m_privileges m in
      desired ← desired_privileges ch c;
      revoke_unauthorized ch c m desired ;;
      rc ← channel_set_service_privileges ch c desired;
      if negb (rc =? 0)%Z then mret tt else
      C ← channel ch;
      let after := match channel_find_member C c with Some m => m_privileges m | None => before end in
      broadcast_privilege_change ch c (N.ldiff before after) "-" ;;
      broadcast_privilege_change ch c (N.ldiff after before) "+"
  end.

Definition sync_account (ch : ptr) (account_name : cstr) : M unit :=
  C ← channel ch;
  for_each (ch_members C) (λ m,
    K ← client (m_client m);
    when (negb (empty (cl_account_name K)) && strcaseeq (cl_account_name K) account_name) (sync_member ch (m_client m))).

Definition sync_channel (ch : ptr) : M unit :=
  C ← channel ch;
  for_each (ch_members C) (λ m, sync_member ch (m_client m)).

Definition broadcast_service_mode_change (ch : ptr) (before after : ChannelModeSet) : M unit :=
  cfg ← config;
  C ← channel ch;
  let letters := service_mode_letters (N.land before persistent_mode_mask) (N.land after persistent_mode_mask) NUL persistent_letters in
  if empty letters then mret tt else
  channel_broadcast ch None (snprintf IRCD_MESSAGE_BUFFER_SIZE
    (format ":ChanServ!service@%s MODE %s %s" [server_name cfg; ch_name C; letters] ++ [CR; LF])).

Definition broadcast_service_topic_change (ch : ptr) : M unit :=
  cfg ← config;
  C ← channel ch;
  channel_broadcast ch None (snprintf IRCD_MESSAGE_BUFFER_SIZE
    (format ":ChanServ!service@%s TOPIC %s :%s" [server_name cfg; ch_name C; ch_topic C] ++ [CR; LF])).

(** ** Commands to ChanServ ([src/chanserv.c]) *)

(** The registration a founder may change; [None] when the client was told why not. *)
Definition load_founder_channel (c : ptr) (name : option cstr) : M (option ChanServChannel) :=
  K ← client c;
  let unregistered := cs_notice c "Channel is not registered." ;; mret None in
  match name with
  | None => unregistered
  | Some name =>
      if negb (valid_channel_name name) then unregistered else
      opened ← chanserv_db_open;
      if negb opened then unregistered else
      found ← chanserv_db_get name;
      match found with
      | Some (Some record) =>
          if negb (cs_enabled record) then unregistered else
          if negb (founder_matches record K) then
            cs_notice c "Only the channel founder may change this setting." ;; mret None
          else mret (Some record)
      | _ => unregistered
      end
  end.

(** The registration as REGISTER caches it. *)
Definition cache_new_registration (founder : cstr) (C : Channel) : Channel :=
  let C := set_ch_chanserv_policy_valid true (set_ch_chanserv_policy_loaded true C) in
  let C := set_ch_chanserv_mode_lock 0%N (set_ch_chanserv_founder (snprintf (IRC_NICK_MAX + 1) founder) C) in
  set_ch_modes (channel_mode_add (ch_modes C) CHANNEL_MODE_REGISTERED) C.

Definition drop_colon (s : cstr) : cstr := if Ascii.eqb (char0 s) ":" then tail s else s.

(** The channel the client may register, if it may. *)
Definition registrable (c : ptr) (name : cstr) : M (option ptr) :=
  found ← find_channel name;
  match found with
  | None => mret None
  | Some ch =>
      C ← channel ch;
      mret match channel_find_member C c with
           | Some m => if channel_privilege_has (m_privileges m) (N.lor CHANNEL_PRIV_OWNER CHANNEL_PRIV_OPERATOR) then Some ch else None
           | None => None
           end
  end.

Definition chanserv_register (c : ptr) (params : option cstr) : M unit :=
  K ← client c;
  if empty (cl_account_name K) then cs_notice c "You must identify to NickServ before registering a channel." else
  let '(name, rest) := strtok " " (default [] params) in
  let description := (λ d, drop_colon (skip_spaces d)) <$> strtok_rest rest in
  let syntax := cs_notice c "Syntax: REGISTER <#channel> [:description]" in
  match name with
  | None => syntax
  | Some name =>
      if negb (valid_channel_name name) then syntax else
      if IRCD_CHANSERV_DESCRIPTION_MAX <? length (default [] description) then cs_notice c "Channel description is too long." else
      found ← registrable c name;
      match found with
      | None => cs_notice c "You must be a channel owner or operator to register it."
      | Some ch =>
          C ← channel ch;
          opened ← chanserv_db_open;
          created ← (if opened : bool then chanserv_db_create (ch_name C) (cl_account_name K) (default [] description) else mret false);
          if negb created then cs_notice c "Channel registration failed or the channel is already registered." else
          upd_channel ch (cache_new_registration (cl_account_name K)) ;;
          _ ← channel_set_service_privileges ch c founder_privileges;
          persist_channel ch ;;
          cs_notice c "Channel registered successfully."
      end
  end.

Definition or_dash (s : cstr) : cstr := if empty s then lit "-" else s.
Definition or_none (s : cstr) : cstr := if empty s then lit "NONE" else s.
Definition on_off (b : bool) : cstr := if b then lit "ON" else lit "OFF".
Definition topic_locked (lock : ChannelModeSet) : bool := negb (N.land lock CHANNEL_MODE_TOPIC_LOCK =? 0)%N.

Definition chanserv_info (c : ptr) (params : option cstr) : M unit :=
  let '(name, _) := strtok " " (default [] params) in
  let syntax := cs_notice c "Syntax: INFO <#channel>" in
  let unregistered := cs_notice c "Channel is not registered." in
  match name with
  | None => syntax
  | Some name =>
      if negb (valid_channel_name name) then syntax else
      opened ← chanserv_db_open;
      if negb opened then unregistered else
      found ← chanserv_db_get name;
      match found with
      | Some (Some r) =>
          if negb (cs_enabled r) then unregistered else
          cs_notice c (snprintf IRCD_OUTPUT_BUFFER_SIZE (format
            "Channel %s founder=%s description=%s mlock=0x%llx topiclock=%s secureops=%s successor=%s greeting=%s created=%lld"
            [cs_name r; cs_founder r; or_dash (cs_description r); hex (cs_mode_lock r); on_off (topic_locked (cs_mode_lock r));
             on_off (cs_secure_ops r); or_none (cs_successor r); or_none (cs_greeting r); dec (cs_created_at r)]))
      | _ => unregistered
      end
  end.

Definition chanserv_drop (c : ptr) (params : option cstr) : M unit :=
  let '(name, _) := strtok " " (default [] params) in
  found ← load_founder_channel c name;
  match found with
  | None => mret tt
  | Some record =>
      deleted ← chanserv_db_delete (cs_name record);
      if negb deleted then cs_notice c "Channel drop failed." else
      live ← find_channel (cs_name record);
      match live with Some ch => clear_cached_policy ch | None => mret tt end ;;
      cs_notice c "Channel registration dropped."
  end.

(** One line of ACCESS LIST; -1: it does not fit the buffer of 160 bytes. *)
Definition access_list_notice (c : ptr) (channel : cstr) (record : ChanServAccess) : M Z :=
  match fits 160 (format "Access %s: %s:%d" [channel; ca_account record; dec (level_number (ca_level record))]) with
  | None => mret (-1)%Z
  | Some line => cs_notice c line ;; mret 0%Z
  end.

Definition access_list (c : ptr) (name : cstr) : M unit :=
  count ← gets (λ w, length (filter (λ r, same_channel (ca_channel r) name = true) (ct_access (io_chanserv (w_io w)))));
  rc ← chanserv_db_access_foreach name (access_list_notice c name);
  if (rc =? 0)%Z then
    when (count =? 0) (cs_notice c (snprintf 128 (format "Access %s: (empty)" [name]))) ;;
    cs_notice c (snprintf 128 (format "End of access list for %s." [name]))
  else cs_notice c "Failed to list access entries.".

Definition access_delete (c : ptr) (name account_name : cstr) : M unit :=
  deleted ← chanserv_db_access_delete name account_name;
  live ← find_channel name;
  (if deleted : bool then match live with Some ch => sync_account ch account_name | None => mret tt end else mret tt) ;;
  cs_notice c (if deleted : bool then lit "Access entry removed." else lit "No matching access entry.").

(** The account, if it exists and is enabled. *)
Definition enabled_account (name : cstr) : M (option NickServAccount) :=
  opened ← gets nickserv_db_opens;
  if negb opened then mret None else
  found ← nickserv_db_get name;
  mret match found with Some (Some a) => if na_enabled a then Some a else None | _ => None end.

Definition access_add (c : ptr) (name account_name : cstr) (level : ChanServAccessLevel) : M unit :=
  found ← enabled_account account_name;
  match found with
  | None => cs_notice c "NickServ account does not exist or is disabled."
  | Some account =>
      set ← chanserv_db_access_set name (na_name account) level;
      if negb set then cs_notice c "Failed to update access list." else
      live ← find_channel name;
      match live with Some ch => sync_account ch (na_name account) | None => mret tt end ;;
      cs_notice c (snprintf 160 (format "Access set: %s %s" [na_name account; access_name level]))
  end.

Definition access_syntax_add : cstr := "Syntax: ACCESS <#channel> ADD <account> <OWNER|PROTECTED|OP|HALFOP|VOICE>".

Definition chanserv_access (c : ptr) (params : option cstr) : M unit :=
  let '(name, rest) := strtok " " (default [] params) in
  let '(action, rest) := strtok " " rest in
  let '(account_name, rest) := strtok " " rest in
  let '(level_text, _) := strtok " " rest in
  found ← load_founder_channel c name;
  match found, name with
  | Some record, Some name =>
      match action with
      | None => cs_notice c "Syntax: ACCESS <#channel> ADD|DEL|LIST ..."
      | Some action =>
          if strcaseeq action "LIST" then access_list c name else
          match account_name with
          | None => cs_notice c (access_syntax_add ++ lit " or DEL <account>")
          | Some account_name =>
              if strcaseeq account_name (cs_founder record) then
                cs_notice c "The founder is implicitly OWNER and cannot be added to the access list."
              else if strcaseeq action "DEL" then access_delete c name account_name
              else if negb (strcaseeq action "ADD") || (level_number (parse_access level_text) =? 0)%Z then cs_notice c access_syntax_add
              else access_add c name account_name (parse_access level_text)
          end
      end
  | _, _ => mret tt
  end.

(** ** SET *)

(** What a setting does to the channel, if it is live. *)
Definition on_live (name : cstr) (f : ptr → M unit) : M unit :=
  live ← find_channel name;
  match live with Some ch => f ch | None => mret tt end.

Definition lock_modes (lock : ChannelModeSet) (C : Channel) : Channel :=
  let C := set_ch_chanserv_mode_lock lock (set_ch_chanserv_policy_valid true (set_ch_chanserv_policy_loaded true C)) in
  set_ch_modes (channel_mode_add (N.lor (N.ldiff (ch_modes C) persistent_mode_mask) lock) CHANNEL_MODE_REGISTERED) C.

Definition set_mlock (c : ptr) (name value : cstr) : M unit :=
  stored ← match parse_mode_lock value with
           | None => mret None
           | Some lock => ok ← chanserv_db_set_mode_lock name lock; mret (if ok : bool then Some lock else None)
           end;
  match stored with
  | None => cs_notice c "Invalid persistent mode lock. Only boolean channel modes are supported."
  | Some lock =>
      on_live name (λ ch,
        C ← channel ch;
        let before := ch_modes C in
        upd_channel ch (lock_modes lock) ;;
        C ← channel ch;
        broadcast_service_mode_change ch before (ch_modes C)) ;;
      cs_notice c "Persistent mode lock updated."
  end.

Definition lock_topic (lock : ChannelModeSet) (C : Channel) : Channel :=
  let C := set_ch_chanserv_mode_lock lock C in
  set_ch_modes (if topic_locked lock then channel_mode_add (ch_modes C) CHANNEL_MODE_TOPIC_LOCK
                else channel_mode_remove (ch_modes C) CHANNEL_MODE_TOPIC_LOCK) C.

(** ON, OFF or neither. *)
Definition parse_on_off (value : cstr) : option bool :=
  if strcaseeq value "ON" then Some true else if strcaseeq value "OFF" then Some false else None.

Definition set_topiclock (c : ptr) (name value : cstr) (record : ChanServChannel) : M unit :=
  match parse_on_off value with
  | None => cs_notice c "TOPICLOCK must be ON or OFF."
  | Some on =>
      let lock := if on then N.lor (cs_mode_lock record) CHANNEL_MODE_TOPIC_LOCK else N.ldiff (cs_mode_lock record) CHANNEL_MODE_TOPIC_LOCK in
      ok ← chanserv_db_set_mode_lock name lock;
      if negb ok then cs_notice c "Failed to update topic locking." else
      on_live name (λ ch,
        C ← channel ch;
        let before := ch_modes C in
        upd_channel ch (lock_topic lock) ;;
        C ← channel ch;
        broadcast_service_mode_change ch before (ch_modes C)) ;;
      cs_notice c "Topic locking updated."
  end.

Definition set_secureops (c : ptr) (name value : cstr) : M unit :=
  match parse_on_off value with
  | None => cs_notice c "SECUREOPS must be ON or OFF."
  | Some on =>
      ok ← chanserv_db_set_secure_ops name on;
      if negb ok then cs_notice c "Failed to update SecureOps." else
      on_live name (λ ch, upd_channel ch (set_ch_chanserv_secure_ops on) ;; sync_channel ch) ;;
      cs_notice c (if on then lit "SecureOps enabled." else lit "SecureOps disabled.")
  end.

Definition set_successor (c : ptr) (name value : cstr) (record : ChanServChannel) : M unit :=
  successor ← (if strcaseeq value "NONE" then mret (Some []) else
    account ← enabled_account value;
    mret match account with Some a => if strcaseeq (na_name a) (cs_founder record) then None else Some value | None => None end);
  match successor with
  | None => cs_notice c "SUCCESSOR must name an existing account other than the founder, or NONE."
  | Some successor =>
      ok ← chanserv_db_set_successor name successor;
      if negb ok then cs_notice c "Failed to update successor." else
      on_live name (λ ch, upd_channel ch (set_ch_chanserv_successor (snprintf (IRC_NICK_MAX + 1) successor))) ;;
      cs_notice c "Successor updated."
  end.

Definition set_greeting (c : ptr) (name value : cstr) : M unit :=
  cfg ← config;
  let value := drop_colon value in
  let value := if strcaseeq value "NONE" then [] else value in
  ok ← (if irc_topic_limit cfg <? length value then mret false else chanserv_db_set_greeting name value);
  if negb ok then cs_notice c "Greeting is too long or invalid." else
  on_live name (λ ch, upd_channel ch (set_ch_chanserv_greeting (snprintf (IRC_CHANNEL_TOPIC_MAX + 1) value))) ;;
  cs_notice c "Greeting updated.".

Definition set_persistent_topic (c : ptr) (name value : cstr) : M unit :=
  cfg ← config;
  K ← client c;
  t ← now;
  let value := drop_colon value in
  if irc_topic_limit cfg <? length value then cs_notice c "Topic is too long for this server's advertised TOPICLEN." else
  let setter := snprintf (IRC_CHANNEL_TOPIC_SETTER_MAX + 1) (format "%s!%s@%s" [cl_nick K; cl_user K; cl_display_host K]) in
  ok ← chanserv_db_set_topic name value setter t;
  if negb ok then cs_notice c "Failed to store persistent topic." else
  on_live name (λ ch,
    upd_channel ch (λ C, set_ch_topic_time t (set_ch_topic_setter (snprintf (IRC_CHANNEL_TOPIC_SETTER_MAX + 1) setter)
      (set_ch_topic (snprintf (IRC_CHANNEL_TOPIC_MAX + 1) value) C))) ;;
    broadcast_service_topic_change ch) ;;
  cs_notice c "Persistent topic updated.".

Definition chanserv_set (c : ptr) (params : option cstr) : M unit :=
  let '(name, rest) := strtok " " (default [] params) in
  let '(field, rest) := strtok " " rest in
  found ← load_founder_channel c name;
  match found, name with
  | Some record, Some name =>
      match field, skip_spaces <$> strtok_rest rest with
      | Some field, Some value =>
          if strcaseeq field "MLOCK" then set_mlock c name value else
          if strcaseeq field "TOPICLOCK" then set_topiclock c name value record else
          if strcaseeq field "SECUREOPS" then set_secureops c name value else
          if strcaseeq field "SUCCESSOR" then set_successor c name value record else
          if strcaseeq field "GREETING" then set_greeting c name value else
          if strcaseeq field "TOPIC" then set_persistent_topic c name value else
          cs_notice c "Unknown SET field. Use MLOCK, TOPIC, TOPICLOCK, SECUREOPS, SUCCESSOR, or GREETING."
      | _, _ => cs_notice c "Syntax: SET <#channel> MLOCK <modes> | TOPIC :<text> | TOPICLOCK ON|OFF | SECUREOPS ON|OFF | SUCCESSOR <account|NONE> | GREETING :<text|NONE>"
      end
  | _, _ => mret tt
  end.

Definition chanserv_handle_message (c : ptr) (text : cstr) : M unit :=
  let '(command, rest) := strtok " " text in
  let params := strtok_rest rest in
  match command with
  | None => mret tt
  | Some command =>
      if strcaseeq command "REGISTER" then chanserv_register c params else
      if strcaseeq command "INFO" then chanserv_info c params else
      if strcaseeq command "DROP" then chanserv_drop c params else
      if strcaseeq command "ACCESS" then chanserv_access c params else
      if strcaseeq command "SET" then chanserv_set c params else
      if strcaseeq command "HELP" then
        cs_notice c "Commands: REGISTER, INFO, DROP, ACCESS, SET, HELP; SET fields: MLOCK, TOPIC, TOPICLOCK, SECUREOPS, SUCCESSOR, GREETING"
      else cs_notice c "Unknown ChanServ command. Use CHANSERV HELP."
  end.

(** ** Administration ([src/commands/chanserv_admin.c]) *)

(** [true]: refused. *)
Definition require_netadmin (c : ptr) : M bool :=
  cfg ← config;
  K ← client c;
  if client_mode_has (cl_modes K) CLIENT_MODE_NETADMIN then mret false else
  tell c ERR_NOPRIVILEGES [server_name cfg; cl_nick K] ;; mret true.

(** Registered, and a network administrator; [true]: refused. *)
Definition admin_only (c : ptr) : M bool :=
  u ← command_require_registered c;
  if u : bool then mret true else require_netadmin c.

Definition registration_mode_line (ch : ptr) (adding : bool) : M unit :=
  cfg ← config;
  C ← channel ch;
  channel_broadcast ch None (snprintf IRCD_MESSAGE_BUFFER_SIZE
    (format ":ChanServ!service@%s MODE %s %cr" [server_name cfg; ch_name C; if adding then lit "+" else lit "-"] ++ [CR; LF])).

Definition refresh_and_broadcast_registration (name : cstr) : M unit :=
  live ← find_channel name;
  match live with
  | None => mret tt
  | Some ch =>
      C ← channel ch;
      let had_registered := channel_mode_has (ch_modes C) CHANNEL_MODE_REGISTERED in
      load_channel_policy ch true ;;
      C ← channel ch;
      let has_registered := channel_mode_has (ch_modes C) CHANNEL_MODE_REGISTERED in
      when (negb (Bool.eqb had_registered has_registered)) (registration_mode_line ch has_registered) ;;
      when has_registered (sync_channel ch)
  end.

Definition command_csinfo (c : ptr) (params : option cstr) : M CommandResult :=
  refused ← admin_only c;
  if refused : bool then keep else
  cfg ← config;
  K ← client c;
  let '(name, _) := strtok " " (default [] params) in
  match name with
  | None => reply c ERR_NEEDMOREPARAMS [server_name cfg; cl_nick K; lit "CSINFO"]
  | Some name =>
      opened ← chanserv_db_open;
      found ← (if opened : bool then chanserv_db_get name else mret None);
      match found with
      | Some (Some r) =>
          admin_notice c (snprintf IRCD_OUTPUT_BUFFER_SIZE (format
            "CHANSERV %s founder=%s enabled=%d description=%s mlock=0x%llx topiclock=%s secureops=%s successor=%s greeting=%s created=%lld updated=%lld"
            [cs_name r; cs_founder r; if cs_enabled r then lit "1" else lit "0"; or_dash (cs_description r); hex (cs_mode_lock r);
             on_off (topic_locked (cs_mode_lock r)); on_off (cs_secure_ops r); or_none (cs_successor r); or_none (cs_greeting r);
             dec (cs_created_at r); dec (cs_updated_at r)])) ;; keep
      | _ => admin_notice c "No such ChanServ channel." ;; keep
      end
  end.

(** The result of one field of CSSET, with what failed in particular. *)
Definition csset_enabled (name value : cstr) : M (bool * option cstr) :=
  if streq value "0" then ok ← chanserv_db_set_enabled name false; mret (ok, None)
  else if negb (streq value "1") then mret (false, None) else
  found ← chanserv_db_get name;
  match found with
  | Some (Some record) =>
      opened ← gets nickserv_db_opens;
      if negb opened then mret (false, None) else
      founder ← nickserv_db_get (cs_founder record);
      if match founder with Some (Some a) => na_enabled a | _ => false end then
        ok ← chanserv_db_set_enabled (cs_name record) true; mret (ok, None)
      else mret (false, Some (lit "Cannot enable registration until its founder account exists and is enabled."))
  | _ => mret (false, None)
  end.

Definition csset_founder (name value : cstr) : M (bool * option cstr) :=
  found ← enabled_account value;
  match found with
  | None => mret (false, None)
  | Some account =>
      record ← chanserv_db_get name;
      match record with
      | Some (Some record) =>
          set ← chanserv_db_set_founder name (na_name account);
          if negb set then mret (false, None) else
          if negb (empty (cs_successor record)) && strcaseeq (cs_successor record) (na_name account)
          then ok ← chanserv_db_set_successor name []; mret (ok, None)
          else mret (true, None)
      | _ => mret (false, None)
      end
  end.

Definition csset_field (name field value : cstr) : M (bool * option cstr) :=
  if strcaseeq field "DESCRIPTION" then
    let value := drop_colon value in
    if length value <=? IRCD_CHANSERV_DESCRIPTION_MAX then ok ← chanserv_db_set_description name value; mret (ok, None)
    else mret (false, None)
  else if strcaseeq field "ENABLED" then csset_enabled name value
  else if strcaseeq field "FOUNDER" then csset_founder name value
  else mret (false, None).

Definition command_csset (c : ptr) (params : option cstr) : M CommandResult :=
  refused ← admin_only c;
  if refused : bool then keep else
  cfg ← config;
  K ← client c;
  let '(name, rest) := strtok " " (default [] params) in
  let '(field, rest) := strtok " " rest in
  match name, field, skip_spaces <$> strtok_rest rest with
  | Some name, Some field, Some (x :: v) =>
      let value := x :: v in
      opened ← chanserv_db_open;
      if negb opened then admin_notice c "CSSET failed." ;; keep else
      r ← csset_field name field value;
      let '(ok, detail) := r in
      (if ok : bool then
         refresh_and_broadcast_registration name ;;
         snotice_broadcast SNOTICE_SERVICES "CSSET by %s: channel=%s field=%s value=%s"
           [cl_nick K; name; field; if strcaseeq field "DESCRIPTION" then drop_colon value else value]
       else mret tt) ;;
      admin_notice c (if ok : bool then lit "ChanServ channel updated." else default (lit "CSSET failed.") detail) ;; keep
  | _, _, _ => reply c ERR_NEEDMOREPARAMS [server_name cfg; cl_nick K; lit "CSSET"]
  end.

Definition command_csdrop (c : ptr) (params : option cstr) : M CommandResult :=
  refused ← admin_only c;
  if refused : bool then keep else
  cfg ← config;
  K ← client c;
  let '(name, _) := strtok " " (default [] params) in
  match name with
  | None => reply c ERR_NEEDMOREPARAMS [server_name cfg; cl_nick K; lit "CSDROP"]
  | Some name =>
      opened ← chanserv_db_open;
      if negb opened then admin_notice c "CSDROP failed." ;; keep else
      deleted ← chanserv_db_delete name;
      (if deleted : bool then
         refresh_and_broadcast_registration name ;;
         snotice_broadcast SNOTICE_SERVICES "CSDROP by %s: channel=%s" [cl_nick K; name]
       else mret tt) ;;
      admin_notice c (if deleted : bool then lit "ChanServ channel deleted." else lit "CSDROP failed.") ;; keep
  end.

(** ** CHANSERV ([src/commands/chanserv.c]) *)

Definition chanserv_registration_exists (name : cstr) : M bool :=
  if empty name then mret false else
  opened ← chanserv_db_open;
  if negb opened then mret false else
  found ← chanserv_db_get name;
  mret match found with Some (Some _) => true | _ => false end.

Definition broadcast_registration_mode (channel_name : cstr) (adding : bool) : M unit :=
  live ← find_channel channel_name;
  match live with
  | None => mret tt
  | Some ch =>
      C ← channel ch;
      when (Bool.eqb adding (channel_mode_has (ch_modes C) CHANNEL_MODE_REGISTERED)) (registration_mode_line ch adding)
  end.

(** What is announced when a registration appeared or disappeared. *)
Definition announce_registration (c : ptr) (channel_name : cstr) (is_register is_drop existed_before existed_after : bool) : M unit :=
  K ← client c;
  let who := if empty (cl_account_name K) then cl_nick K else cl_account_name K in
  if negb existed_before && existed_after && is_register then
    broadcast_registration_mode channel_name true ;;
    snotice_broadcast SNOTICE_REGISTRATIONS "ChanServ registration: channel=%s founder=%s" [channel_name; who]
  else when (existed_before && negb existed_after && is_drop)
    (snotice_broadcast SNOTICE_REGISTRATIONS "ChanServ registration dropped: channel=%s by=%s" [channel_name; who]).

(** The command itself: DROP is CSDROP, SET LOGGING is the channel log's. *)
Definition chanserv_dispatch (c : ptr) (is_drop : bool) (params : cstr) : M unit :=
  if is_drop then
    _ ← command_csdrop c (match span (Ascii.eqb " ") params with (_, []) => None | (_, rest) => Some (skip_spaces rest) end);
    mret tt
  else
    handled ← channel_log_handle_chanserv c params;
    if handled : bool then mret tt else chanserv_handle_message c params.

Definition command_chanserv (c : ptr) (params : option cstr) : M CommandResult :=
  u ← command_require_registered c;
  if u : bool then keep else
  cfg ← config;
  K ← client c;
  match params with
  | None | Some [] => reply c ERR_NEEDMOREPARAMS [server_name cfg; cl_nick K; lit "CHANSERV"]
  | Some params =>
      let '(service_command, rest) := strtok " " (snprintf IRCD_MESSAGE_BUFFER_SIZE params) in
      let '(channel_name, _) := strtok " " rest in
      let asks name := match service_command with Some s => strcaseeq s name | None => false end in
      let is_register := asks "REGISTER" in
      let is_drop := asks "DROP" in
      if (is_register || is_drop) && negb (client_mode_has (cl_modes K) CLIENT_MODE_NETADMIN)
      then reply c ERR_NOPRIVILEGES [server_name cfg; cl_nick K] else
      match (if is_register || is_drop then channel_name else None) with
      | Some name =>
          existed_before ← chanserv_registration_exists name;
          chanserv_dispatch c is_drop params ;;
          existed_after ← chanserv_registration_exists name;
          announce_registration c name is_register is_drop existed_before existed_after ;; keep
      | None => chanserv_dispatch c is_drop params ;; keep
      end
  end.
End ChanServ.
