(* ===== verification/Cap.v ===== *)
(** * CAP, AUTHENTICATE and WEBIRC ([src/commands/]: [cap.c], [authenticate.c], [webirc.c])

    What a connection may do before it is registered, besides NICK, USER and PASS:
    negotiate capabilities, prove an account with SASL PLAIN, and, for a trusted gateway,
    name the address it forwards. *)

From S2P Require Import Prelude CString Modes HashTable MaskMatch Output World Channel Invariant Policy Tags Numerics Ircv3 Presence Env Cloak Register Connection Services Registry JoinPart Oper Accounts NickServ.

(** ** Capabilities *)

Definition CAP_ADVERTISED_LEGACY : cstr :=
  "account-notify away-notify batch draft/chathistory extended-join labeled-response message-tags sasl server-time".
Definition CAP_ADVERTISED_302 : cstr :=
  "account-notify away-notify batch draft/chathistory extended-join labeled-response message-tags sasl=PLAIN server-time".

Definition capabilities : list (cstr * N) :=
  [(lit "account-notify", CLIENT_CAP_ACCOUNT_NOTIFY); (lit "away-notify", CLIENT_CAP_AWAY_NOTIFY);
   (lit "batch", CLIENT_CAP_BATCH); (lit "draft/chathistory", CLIENT_CAP_CHATHISTORY);
   (lit "extended-join", CLIENT_CAP_EXTENDED_JOIN); (lit "labeled-response", CLIENT_CAP_LABELED_RESPONSE);
   (lit "message-tags", CLIENT_CAP_MESSAGE_TAGS); (lit "sasl", CLIENT_CAP_SASL);
   (lit "server-time", CLIENT_CAP_SERVER_TIME)].

(** 0: no such capability. *)
Definition capability_bit (name : cstr) : N := default 0%N (snd <$> find (λ e, streq name e.1) capabilities).

(** The loop of [enabled_capabilities]: the text written so far. *)
Fixpoint enabled_loop (enabled : N) (out_size : nat) (l : list (cstr * N)) (used : cstr) : cstr :=
  match l with
  | [] => used
  | (name, b) :: rest =>
      if (N.land enabled b =? 0)%N then enabled_loop enabled out_size rest used else
      let written := (if empty used then [] else lit " ") ++ name in
      let room := out_size - length used in
      if room <=? length written then used ++ take (room - 1) written
      else enabled_loop enabled out_size rest (used ++ written)
  end.

Definition enabled_capabilities (enabled : N) : cstr := enabled_loop enabled IRCD_MESSAGE_BUFFER_SIZE capabilities [].

(** One word of a request on the set proposed so far. *)
Definition request_word (proposed : N) (token : cstr) : option N :=
  let disable := Ascii.eqb (char0 token) "-" in
  let name := if disable then tail token else token in
  let b := capability_bit name in
  if empty name || (b =? 0)%N then None else Some (if disable then N.ldiff proposed b else N.lor proposed b).

Fixpoint request_words (proposed : N) (words : list cstr) : option N :=
  match words with
  | [] => Some proposed
  | token :: rest => match request_word proposed token with Some p => request_words p rest | None => None end
  end.

(** [None]: the request is refused as a whole. *)
Definition requested_capabilities (enabled : N) (request : option cstr) : option N :=
  match request with
  | None | Some [] => None
  | Some request =>
      match request_words enabled (tokens " " (snprintf IRCD_MESSAGE_BUFFER_SIZE request)) with
      | Some proposed =>
          if has_cap proposed CLIENT_CAP_LABELED_RESPONSE && negb (has_cap proposed CLIENT_CAP_BATCH) then None else Some proposed
      | None => None
      end
  end.

(** ** SASL payloads *)

Definition IRCD_SASL_FRAME_MAX : nat := 400.
Definition IRCD_SASL_ENCODED_MAX : nat := 800.
Definition IRCD_SASL_DECODED_MAX : nat := IRCD_SASL_ENCODED_MAX / 4 * 3.
Definition IRCD_WEBIRC_GATEWAY_NAME_MAX : nat := 127.

(** authzid, authcid and password. *)
Definition plain_fields (decoded : cstr) : option (cstr * cstr * cstr) :=
  match span (Ascii.eqb NUL) decoded with
  | (_, []) => None
  | (authzid, _ :: rest) =>
      match span (Ascii.eqb NUL) rest with
      | (_, []) | ([], _) => None
      | (authcid, _ :: password) =>
          if empty password || has_char NUL password then None else Some (authzid, authcid, password)
      end
  end.

Definition sasl_padding (payload : cstr) : nat := length (span (λ ch, negb (Ascii.eqb "=" ch)) (reverse payload)).1.

Section Cap.
Context `{E : Env} `{S : Services}.

Definition send_cap (c : ptr) (subcommand caps : cstr) : M unit :=
  cfg ← config;
  K ← client c;
  tell c ":%s CAP %s %s :%s" [server_name cfg; command_reply_nick K; subcommand; caps].

Definition command_cap (c : ptr) (params : option cstr) : M CommandResult :=
  match params with
  | None => keep
  | Some params =>
      let '(subcommand, rest) := strtok " " params in
      match subcommand with
      | None => keep
      | Some subcommand =>
          let rest := drop_while (λ ch, Ascii.eqb ch " " || Ascii.eqb ch ":") <$> strtok_rest rest in
          K ← client c;
          if strcaseeq subcommand "LS" then
            let '(version, _, no_digits, end_) := match rest with Some r => strtoul r | None => (0%Z, false, true, []) end in
            when (negb no_digits && empty end_ && (Z.of_N (cl_cap_version K) <? version)%Z)
              (upd_client c (set_cl_cap_version (if (302 <? version)%Z then 302%N else Z.to_N version))) ;;
            upd_client c (set_cl_cap_negotiating true) ;;
            send_cap c "LS" (if (302 <=? version)%Z then CAP_ADVERTISED_302 else CAP_ADVERTISED_LEGACY) ;;
            keep
          else if strcaseeq subcommand "LIST" then
            send_cap c "LIST" (enabled_capabilities (cl_capabilities K)) ;;
            keep
          else if strcaseeq subcommand "REQ" then
            upd_client c (set_cl_cap_negotiating true) ;;
            match requested_capabilities (cl_capabilities K) rest with
            | Some proposed => send_cap c "ACK" (default [] rest) ;; upd_client c (set_cl_capabilities proposed) ;; keep
            | None => send_cap c "NAK" (default [] rest) ;; keep
            end
          else if strcaseeq subcommand "END" then
            upd_client c (set_cl_cap_negotiating false) ;;
            command_maybe_register c ;;
            keep
          else keep
      end
  end.

(** ** AUTHENTICATE *)

(** The buffer is freed; [NULL] and an empty buffer are the empty text. *)
Definition sasl_reset_payload (c : ptr) : M unit := upd_client c (set_cl_sasl_buffer []).

(** The end of an exchange: the payload is dropped, and the numeric says why. *)
Definition sasl_end (c : ptr) (numeric : cstr) : M unit :=
  sasl_reset_payload c ;;
  upd_client c (set_cl_sasl_state CLIENT_SASL_FAILED) ;;
  cfg ← config;
  K ← client c;
  tell c numeric [server_name cfg; command_reply_nick K].

Definition sasl_fail (c : ptr) : M unit := sasl_end c ERR_SASLFAIL.
Definition sasl_too_long (c : ptr) : M unit := sasl_end c ERR_SASLTOOLONG.

(** 1: appended; 0: the limit; -1: no memory.  Between frames the capacity is the length
    and one, so only an empty frame on a buffer that exists needs no memory. *)
Definition sasl_append_frame (c : ptr) (frame : cstr) : M Z :=
  K ← client c;
  let buffer := cl_sasl_buffer K in
  if (IRCD_SASL_ENCODED_MAX <? length buffer) || (IRCD_SASL_ENCODED_MAX - length buffer <? length frame) then mret 0%Z else
  ok ← (if empty frame && negb (empty buffer) then mret true else alloc);
  if negb ok then mret (-1)%Z else
  upd_client c (set_cl_sasl_buffer (buffer ++ frame)) ;;
  mret 1%Z.

(** The credentials a payload carries. *)
Definition sasl_credentials (payload : cstr) : option (cstr * cstr * cstr) :=
  let padding := sasl_padding payload in
  if empty payload || negb (length payload mod 4 =? 0) then None else
  if (2 <? padding) || has_char "=" (take (length payload - padding) payload) then None else
  match EVP_DecodeBlock payload with
  | None => None
  | Some decoded =>
      if empty decoded || (length decoded <? padding) then None else
      let decoded := take (length decoded - padding) decoded in
      if (IRCD_SASL_DECODED_MAX + 1 <=? length decoded) || empty decoded then None else plain_fields decoded
  end.

Definition sasl_finish_plain (c : ptr) : M unit :=
  cfg ← config;
  K ← client c;
  match sasl_credentials (cl_sasl_buffer K) with
  | None => sasl_fail c
  | Some (authzid, authcid, password) =>
      if negb (empty authzid) && negb (strcaseeq authzid authcid) then sasl_fail c else
      ok ← nickserv_identify c authcid password;
      if negb ok then sasl_fail c else
      sasl_reset_payload c ;;
      when (empty (cl_account_name K) && cl_registered K)
        (ircv3_account_notify c ;; chanserv_sync_client_privileges c) ;;
      memoserv_notify_unread c ;;
      upd_client c (set_cl_sasl_state CLIENT_SASL_COMPLETE) ;;
      K ← client c;
      let or_star (s : cstr) := if empty s then lit "*" else s in
      tell c RPL_LOGGEDIN [server_name cfg; command_reply_nick K; or_star (cl_nick K); or_star (cl_user K);
        cl_display_host K; cl_account_name K; cl_account_name K] ;;
      tell c RPL_SASLSUCCESS [server_name cfg; command_reply_nick K]
  end.

Definition command_authenticate (c : ptr) (params : option cstr) : M CommandResult :=
  cfg ← config;
  K ← client c;
  match params with
  | None | Some [] => keep
  | Some params =>
      let params := (span (Ascii.eqb " ") params).1 in
      match cl_sasl_state K with
      | CLIENT_SASL_COMPLETE => reply c ERR_SASLALREADY [server_name cfg; command_reply_nick K]
      | state =>
          if negb (has_cap (cl_capabilities K) CLIENT_CAP_SASL) then sasl_fail c ;; keep else
          if streq params "*" then sasl_end c ERR_SASLABORTED ;; keep else
          match state with
          | CLIENT_SASL_PLAIN_WAIT_DATA =>
              if IRCD_SASL_FRAME_MAX <? length params then sasl_too_long c ;; keep else
              if streq params "+" then sasl_finish_plain c ;; keep else
              append_result ← sasl_append_frame c params;
              if (append_result =? 0)%Z then sasl_too_long c ;; keep else
              if (append_result <? 0)%Z then sasl_fail c ;; keep else
              when (length params <? IRCD_SASL_FRAME_MAX) (sasl_finish_plain c) ;; keep
          | _ =>
              if negb (strcaseeq params "PLAIN") then sasl_fail c ;; keep else
              sasl_reset_payload c ;;
              upd_client c (set_cl_sasl_state CLIENT_SASL_PLAIN_WAIT_DATA) ;;
              reply c "AUTHENTICATE +" []
          end
      end
  end.

(** ** WEBIRC *)

(** [numeric_ip_equal] of [webirc.c]: both addresses of one family. *)
Definition webirc_ip_equal (left right : cstr) : bool :=
  match inet_pton_v4 left, inet_pton_v4 right with
  | Some l, Some r => streq l r
  | _, _ =>
      match inet_pton_v6 left, inet_pton_v6 right with
      | Some l, Some r => streq l r
      | _, _ => false
      end
  end.

Definition password_equal (left right : cstr) : bool := streq left right.

Definition authorized_gateway (cfg : ServerConfig) (peer_ip password : cstr) : option WebIrcGatewayConfig :=
  find (λ g, webirc_ip_equal (gw_ip g) peer_ip && password_equal (gw_password g) password) (webirc_gateways cfg).

(** [true] for 0. *)
Definition server_reassign_client_id (c : ptr) : M bool :=
  K ← client c;
  last_id ← gets w_next_client_id;
  if (last_id =? 18446744073709551615)%N then mret false else
  let new_id := (last_id + 1)%N in
  ok ← alloc;
  t ← gets w_clients_by_id;
  let '(rc, t') := hash_set ok t (client_id_key new_id) c in
  if negb (rc =? 0)%Z then mret false else
  modify (set_w_clients_by_id (hash_remove t' (client_id_key (cl_id K))).2) ;;
  modify (set_w_next_client_id new_id) ;;
  upd_client c (set_cl_id new_id) ;;
  mret true.

(** The supplied address in the notation of [inet_ntop], with a buffer for [IRC_IP_MAX]
    bytes; [None]: not an address, [Some None]: the conversion failed. *)
Definition canonical_supplied (ip : cstr) : option (option cstr) :=
  let fit (text : option cstr) := t ← text; if length t <=? IRC_IP_MAX then Some t else None in
  match inet_pton_v4 ip with
  | Some a => Some (fit (inet_ntop_v4 a))
  | None => match inet_pton_v6 ip with Some a => Some (fit (inet_ntop_v6 a)) | None => None end
  end.

(** The four parameters of WEBIRC. *)
Definition webirc_params (params : cstr) : option (cstr * cstr * cstr * cstr) :=
  let '(password, rest) := strtok " " params in
  let '(gateway_name, rest) := strtok " " rest in
  let '(supplied_host, rest) := strtok " " rest in
  let '(supplied_ip, rest) := strtok " " rest in
  let '(extra, _) := strtok " " rest in
  match password, gateway_name, supplied_host, supplied_ip, extra with
  | Some password, Some gateway_name, Some supplied_host, Some supplied_ip, None =>
      if (IRCD_WEBIRC_GATEWAY_NAME_MAX <? length gateway_name) || (IRC_HOST_MAX <? length supplied_host) then None
      else Some (password, gateway_name, supplied_host, supplied_ip)
  | _, _, _, _, _ => None
  end.

(** The record of a client that speaks through a gateway. *)
Definition gateway_client (cfg : ServerConfig) (now : Z) (peer_ip gateway_name supplied_host canonical_ip : cstr) (K : Client) : Client :=
  let K := set_cl_webirc_gateway_ip (snprintf (IRC_IP_MAX + 1) peer_ip) K in
  let K := set_cl_webirc_gateway_name (snprintf (IRCD_WEBIRC_GATEWAY_NAME_MAX + 1) gateway_name) K in
  let K := set_cl_webirc_supplied_host (snprintf (IRC_HOST_MAX + 1) supplied_host) K in
  let K := set_cl_real_ip (snprintf (IRC_IP_MAX + 1) canonical_ip) (set_cl_webirc_active true K) in
  let K := set_cl_display_host (snprintf (IRC_HOST_MAX + 1) canonical_ip) (set_cl_real_host [] K) in
  let K := set_cl_modes (client_mode_add (cl_modes K) CLIENT_MODE_WEBIRC) K in
  let K := set_cl_geoip_complete false (set_cl_geoip no_geoip K) in
  let K := set_cl_dnsbl_deadline 0 (set_cl_dnsbl_state CLIENT_DNSBL_NONE K) in
  set_cl_dns_deadline (now + dns_timeout_seconds cfg)%Z (set_cl_dns_state CLIENT_DNS_PENDING K).

Definition webirc_refuse (c : ptr) (fmt : cstr) : M CommandResult :=
  cfg ← config;
  tell c fmt [server_name cfg] ;; mret COMMAND_DISCONNECT_CLIENT.
Definition webirc_setup_failed : cstr := ":%s ERROR :WEBIRC connection setup failed".

(** What starts for the new address. *)
Definition webirc_welcome (c : ptr) (peer_ip gateway_name : cstr) : M CommandResult :=
  K ← client c;
  when (negb (dns_resolver_submit (cl_id K) (cl_real_ip K))) (upd_client c (set_cl_dns_state CLIENT_DNS_FAILED)) ;;
  snotice_broadcast SNOTICE_WEBIRC "WEBIRC authenticated: end-user=%s gateway=%s gateway-name=%s"
    [cl_real_ip K; peer_ip; gateway_name] ;;
  nospoof_request_website c ;;
  keep.

(** The rest of WEBIRC for an authorized gateway and a valid address. *)
Definition webirc_accept (c : ptr) (peer_ip gateway_name supplied_host canonical_ip : cstr) : M CommandResult :=
  cfg ← config;
  K ← client c;
  let both := N.lor SNOTICE_SECURITY SNOTICE_WEBIRC in
  limited ← gets (λ w, server_connection_limit_reached w canonical_ip (Some K));
  if limited : bool then
    snotice_broadcast both "WEBIRC end-user connection limit exceeded: end-user=%s gateway=%s" [canonical_ip; peer_ip] ;;
    webirc_refuse c ":%s ERROR :Too many concurrent connections from your IP address"
  else
  reassigned ← server_reassign_client_id c;
  if negb reassigned then
    snotice_broadcast both "Rejected WEBIRC from gateway %s: unable to reindex end-user connection" [peer_ip] ;;
    webirc_refuse c webirc_setup_failed
  else
  moved ← server_connection_count_move (cl_real_ip K) canonical_ip;
  if negb moved then
    snotice_broadcast both "Rejected WEBIRC from gateway %s: unable to reindex end-user connection count" [peer_ip] ;;
    webirc_refuse c webirc_setup_failed
  else
  t ← now;
  upd_client c (gateway_client cfg t peer_ip gateway_name supplied_host canonical_ip) ;;
  webirc_welcome c peer_ip gateway_name.

Definition command_webirc (c : ptr) (params : option cstr) : M CommandResult :=
  cfg ← config;
  K ← client c;
  match params with
  | Some params =>
      if cl_registered K || cl_webirc_active K then
        snotice_broadcast SNOTICE_WEBIRC "Rejected WEBIRC use from %s: command must be used once before registration" [cl_real_ip K] ;;
        webirc_refuse c ":%s ERROR :WEBIRC must be used once before registration"
      else
      match webirc_params params with
      | None =>
          snotice_broadcast SNOTICE_WEBIRC "Rejected WEBIRC from %s: invalid or overlong parameters" [cl_real_ip K] ;;
          webirc_refuse c ":%s ERROR :Invalid WEBIRC parameters"
      | Some (password, gateway_name, supplied_host, supplied_ip) =>
          let peer_ip := snprintf (IRC_IP_MAX + 1) (cl_real_ip K) in
          if bool_decide (authorized_gateway cfg peer_ip password = None) then
            snotice_broadcast SNOTICE_WEBIRC "Rejected WEBIRC authentication from gateway %s" [peer_ip] ;;
            webirc_refuse c ":%s ERROR :Unauthorized WEBIRC gateway"
          else
          match canonical_supplied supplied_ip with
          | None =>
              snotice_broadcast SNOTICE_WEBIRC "Rejected WEBIRC from gateway %s: invalid end-user IP %s" [peer_ip; supplied_ip] ;;
              webirc_refuse c ":%s ERROR :WEBIRC supplied invalid client IP"
          | Some None => webirc_refuse c webirc_setup_failed
          | Some (Some canonical_ip) => webirc_accept c peer_ip gateway_name supplied_host canonical_ip
          end
      end
  | None =>
      snotice_broadcast SNOTICE_WEBIRC "Rejected WEBIRC use from %s: command must be used once before registration" [cl_real_ip K] ;;
      webirc_refuse c ":%s ERROR :WEBIRC must be used once before registration"
  end.
End Cap.
