(* ===== verification/Message.v ===== *)
(** * PRIVMSG, NOTICE and TAGMSG ([src/commands/]: [privmsg.c], [notice.c], [tagmsg.c],
    [moderation_policy.c])

    The build compiles the handlers of [privmsg.c] and [notice.c] as
    [command_privmsg_core] and [command_notice_core]; the commands are the ones of
    [moderation_policy.c], which consult the user modes +D and +M first. *)

From S2P Require Import Prelude CString Modes HashTable MaskMatch Output World Channel Invariant Policy Tags Numerics Ircv3 Presence Env Cloak Register Connection Services Registry RegistryProps Sound Flood JoinPart Oper Accounts NickServ ChanDb ChanServ.

Definition IRCD_HISTORY_COMMAND_MAX : nat := 15.
Definition IRCD_HISTORY_TEXT_MAX : nat := 510.

(** One row of the history database. *)
Record HistoryRecord := MkHistory {
  h_target : cstr;
  h_command : cstr;
  h_nick : cstr;
  h_user : cstr;
  h_host : cstr;
  h_account : cstr;
  h_text : cstr;
  h_created_at_ms : Z }.

(** The history database ([src/history_db.c]) and the bot MemoServ, as messages reach
    them.  Of the bot only [stable] is promised: the server stays sound and the sender
    connected. *)
Class Recipients `{E : Env} `{S : Services} := {
  (** [clock_gettime(CLOCK_REALTIME)] in milliseconds; [None] when it fails. *)
  clock_realtime_ms : World → option Z;
  (** [history_db_shared(path) != NULL]. *)
  history_db_shared : M bool;
  (** [history_db_add(...) == 0]. *)
  history_db_add : HistoryRecord → M bool;
  history_db_shared_maintain : Z → M unit;
  command_memoserv_message : ptr → cstr → M unit;

  history_shared_silent : does silent_step history_db_shared;
  history_add_silent r : does silent_step (history_db_add r);
  history_maintain_silent t : does silent_step (history_db_shared_maintain t);
  memoserv_message_stable c t : does (stable c) (command_memoserv_message c t) }.

(** No database and no bots. *)
#[refine] Definition no_recipients `{E : Env} `{S : Services} : Recipients := {|
  clock_realtime_ms _ := None;
  history_db_shared := mret false;
  history_db_add _ := mret false;
  history_db_shared_maintain _ := mret tt;
  command_memoserv_message _ _ := mret tt |}.
Proof. all: intros; first [apply does_ret, _ | intros w; by split]. Defined.

Section Message.
Context `{E : Env} `{S : Services} {R : Recipients}.

Definition store_channel_history (c : ptr) (target command text : cstr) : M unit :=
  K ← client c;
  if IRCD_HISTORY_TEXT_MAX <? length text then mret tt else
  t ← now;
  ms ← gets (λ w, match clock_realtime_ms w with Some ms => ms | None => (t * 1000)%Z end);
  let record := MkHistory (snprintf (IRC_CHANNEL_NAME_MAX + 1) target) (snprintf (IRCD_HISTORY_COMMAND_MAX + 1) command)
    (snprintf (IRC_NICK_MAX + 1) (cl_nick K)) (snprintf (IRC_USER_MAX + 1) (cl_user K))
    (snprintf (IRC_HOST_MAX + 1) (cl_display_host K)) (snprintf (IRC_NICK_MAX + 1) (cl_account_name K)) text ms in
  db ← history_db_shared;
  if negb db then mret tt else
  added ← history_db_add record;
  when added (history_db_shared_maintain ms).

(** ** Channel policy *)

(** The member record of the sender, if it has one. *)
Definition speak_banned (C : Channel) (K : Client) (member : option ChannelMember) : bool :=
  match member with
  | Some m =>
      if channel_privilege_has (m_privileges m) CHANNEL_PRIV_OWNER then false else
      if channel_privilege_has (m_privileges m) CHANNEL_PRIV_PROTECTED then channel_client_is_banned_protected C K else
      channel_client_is_banned C K
  | None => channel_client_is_banned C K
  end.

Definition any_privilege : ChannelPrivilegeSet :=
  N.lor CHANNEL_PRIV_VOICE (N.lor CHANNEL_PRIV_HALFOP (N.lor CHANNEL_PRIV_OPERATOR
    (N.lor CHANNEL_PRIV_PROTECTED CHANNEL_PRIV_OWNER))).
Definition may_speak_moderated (member : option ChannelMember) : bool :=
  match member with None => false | Some m => channel_privilege_has (m_privileges m) any_privilege end.

Definition blocked_external (C : Channel) (member : option ChannelMember) : bool :=
  channel_mode_has (ch_modes C) CHANNEL_MODE_NO_EXTERNAL && bool_decide (member = None).
Definition blocked_unregistered (C : Channel) (K : Client) : bool :=
  channel_mode_has (ch_modes C) CHANNEL_MODE_REGONLY_SPEAK && negb (client_mode_has (cl_modes K) CLIENT_MODE_REGISTERED).
Definition blocked_moderated (C : Channel) (member : option ChannelMember) : bool :=
  channel_mode_has (ch_modes C) CHANNEL_MODE_MODERATED && negb (may_speak_moderated member).
Definition blocked_color (C : Channel) (text : cstr) : bool :=
  channel_mode_has (ch_modes C) CHANNEL_MODE_NO_COLOR && message_contains_color text.
(** The text as the channel delivers it. *)
Definition delivered_text (C : Channel) (text : cstr) : cstr :=
  if channel_mode_has (ch_modes C) CHANNEL_MODE_STRIP_COLOR then message_strip_color text IRCD_MESSAGE_BUFFER_SIZE else text.

Definition regonly_blocks (D K : Client) : bool :=
  client_mode_has (cl_modes D) CLIENT_MODE_REGONLY_MSG && negb (client_mode_has (cl_modes K) CLIENT_MODE_REGISTERED).
Definition is_ctcp (text : cstr) : bool := Ascii.eqb (char0 text) CTCP.
Definition ctcp_blocks (D : Client) (text : cstr) : bool :=
  client_mode_has (cl_modes D) CLIENT_MODE_NO_CTCP && is_ctcp text.

(** ** PRIVMSG ([privmsg.c]) *)

Definition privmsg_wire_fits (c : ptr) (target text : cstr) : M bool :=
  K ← client c;
  if ircv3_message_wire_fits K "PRIVMSG" target text then mret true else
  cfg ← config;
  tell c ":%s 417 %s PRIVMSG :Message would exceed the IRC relay line limit" [server_name cfg; cl_nick K] ;;
  mret false.

Definition touch (c : ptr) : M unit := t ← now; upd_client c (set_cl_last_activity t).

Definition privmsg_channel (c : ptr) (target text : cstr) : M CommandResult :=
  cfg ← config;
  K ← client c;
  found ← find_channel target;
  match found with
  | None => reply c ERR_NOSUCHCHANNEL [server_name cfg; cl_nick K; target]
  | Some ch =>
      C ← channel ch;
      let member := channel_find_member C c in
      let refuse why := reply c ERR_CANNOTSENDTOCHAN [server_name cfg; cl_nick K; ch_name C; why] in
      if speak_banned C K member then refuse (lit "banned from channel (+b)") else
      if blocked_external C member then refuse (lit "no external messages (+n)") else
      if blocked_unregistered C K then refuse (lit "registered nickname required (+M)") else
      if blocked_moderated C member then refuse (lit "moderated channel (+m)") else
      if blocked_color C text then refuse (lit "colors are not permitted (+c)") else
      let delivered := delivered_text C text in
      fits ← privmsg_wire_fits c (ch_name C) delivered;
      if negb fits then keep else
      store_channel_history c (ch_name C) "PRIVMSG" delivered ;;
      channel_log_message ch c delivered false ;;
      ircv3_broadcast_message ch (Some c) c "PRIVMSG" (ch_name C) delivered ;;
      touch c ;;
      keep
  end.

Definition privmsg_user (c : ptr) (target text : cstr) : M CommandResult :=
  cfg ← config;
  K ← client c;
  found ← find_nick target;
  match found with
  | None => reply c ERR_NOSUCHNICK [server_name cfg; cl_nick K; target]
  | Some d =>
      D ← client d;
      if presence_silence_matches D K then keep else
      if regonly_blocks D K then reply c ERR_NONONREG [server_name cfg; cl_nick K; cl_nick D] else
      if ctcp_blocks D text then reply c ERR_NOCTCP [server_name cfg; cl_nick K; cl_nick D] else
      fits ← privmsg_wire_fits c (cl_nick D) text;
      if negb fits then keep else
      ircv3_send_message d c "PRIVMSG" (cl_nick D) text ;;
      server_pmstats_private_message (cl_nick K) (cl_nick D) ;;
      touch c ;;
      when (negb (empty (cl_away D))) (tell c RPL_AWAY [server_name cfg; cl_nick K; cl_nick D; cl_away D]) ;;
      keep
  end.

Definition command_privmsg_core (c : ptr) (params : option cstr) : M CommandResult :=
  u ← command_require_registered c;
  if u : bool then keep else
  cfg ← config;
  K ← client c;
  let no_recipient := reply c ERR_NORECIPIENT [server_name cfg; cl_nick K; lit "PRIVMSG"] in
  match params with
  | None => no_recipient
  | Some params =>
      let '(target, rest) := strtok " " params in
      match target with
      | None => no_recipient
      | Some target =>
          if has_char "," target then reply c ERR_TOOMANYTARGETS [server_name cfg; cl_nick K; target] else
          match strtok_rest rest with
          | None => reply c ERR_NOTEXTTOSEND [server_name cfg; cl_nick K]
          | Some text =>
              if empty text || streq text ":" then reply c ERR_NOTEXTTOSEND [server_name cfg; cl_nick K] else
              let text := skip_colon text in
              if strcaseeq target "NickServ" then
                ok ← command_expensive_allow c "NICKSERV" 2;
                when ok (command_nickserv_message c text) ;; keep
              else if strcaseeq target "ChanServ" then
                ok ← command_expensive_allow c "CHANSERV" 2;
                when ok (_ ← command_chanserv c (Some text); mret tt) ;; keep
              else if strcaseeq target "MemoServ" then
                ok ← command_expensive_allow c "MEMOSERV" 2;
                when ok (command_memoserv_message c text) ;; keep
              else if strchr IRC_CHANNEL_PREFIXES (char0 target) then privmsg_channel c target text
              else privmsg_user c target text
          end
      end
  end.

(** ** NOTICE ([notice.c]) *)

Definition notice_channel (c : ptr) (target text : cstr) : M CommandResult :=
  K ← client c;
  found ← find_channel target;
  match found with
  | None => keep
  | Some ch =>
      C ← channel ch;
      if channel_mode_has (ch_modes C) CHANNEL_MODE_NO_NOTICE then keep else
      let member := channel_find_member C c in
      if speak_banned C K member || blocked_external C member || blocked_unregistered C K ||
         blocked_moderated C member || blocked_color C text then keep else
      let delivered := delivered_text C text in
      if negb (ircv3_message_wire_fits K "NOTICE" (ch_name C) delivered) then keep else
      store_channel_history c (ch_name C) "NOTICE" delivered ;;
      channel_log_message ch c delivered true ;;
      ircv3_broadcast_message ch (Some c) c "NOTICE" (ch_name C) delivered ;;
      keep
  end.

Definition notice_user (c : ptr) (target text : cstr) : M CommandResult :=
  K ← client c;
  found ← find_nick target;
  match found with
  | None => keep
  | Some d =>
      D ← client d;
      if presence_silence_matches D K || regonly_blocks D K || ctcp_blocks D text ||
         negb (ircv3_message_wire_fits K "NOTICE" (cl_nick D) text) then keep else
      ircv3_send_message d c "NOTICE" (cl_nick D) text ;; keep
  end.

Definition command_notice_core (c : ptr) (params : option cstr) : M CommandResult :=
  K ← client c;
  if negb (cl_registered K) then keep else
  match params with
  | None => keep
  | Some params =>
      handled ← nospoof_handle_notice c (Some params);
      if handled : bool then keep else
      let '(target, rest) := strtok " " params in
      match target, strtok_rest rest with
      | Some target, Some text =>
          if has_char "," target then keep else
          let text := skip_colon text in
          if empty text then keep else
          if strchr IRC_CHANNEL_PREFIXES (char0 target) then notice_channel c target text
          else notice_user c target text
      | _, _ => keep
      end
  end.

(** ** The wrapper ([moderation_policy.c]) *)

Definition is_oper_or_above (K : Client) : bool :=
  client_mode_has (cl_modes K) (N.lor CLIENT_MODE_OPER CLIENT_MODE_NETADMIN).

Definition version_warning : cstr :=
  ":%s NOTICE %s :You must respond to the CTCP VERSION request before joining channels or messaging anyone except an IRC operator or network administrator.".

Definition version_blocks_privmsg (c : ptr) (target : option cstr) : M bool :=
  allowed ← nospoof_version_target_allowed c (default [] target);
  if allowed : bool then mret false else
  cfg ← config;
  K ← client c;
  tell c version_warning [server_name cfg; cl_nick K] ;; mret true.

(** A channel target. *)
Definition to_channel (target : option cstr) : option cstr :=
  t ← target; if strchr IRC_CHANNEL_PREFIXES (char0 t) then Some t else None.
Definition to_user (target : option cstr) : option cstr :=
  t ← target; if strchr IRC_CHANNEL_PREFIXES (char0 t) then None else Some t.

Definition muted_channel_send (c : ptr) (target : option cstr) : M bool :=
  match to_channel target with
  | None => mret false
  | Some target =>
      K ← client c;
      if negb (client_mode_has (cl_modes K) CLIENT_MODE_CHANNEL_MUTE) || is_oper_or_above K then mret false else
      found ← find_channel target;
      privileged ← gets (λ w, match found with
        | None => false
        | Some ch => match channel_find_member (the_channel w ch) c with
                     | None => false | Some m => negb (m_privileges m =? 0)%N end
        end);
      if privileged : bool then mret false else
      cfg ← config;
      tell c ERR_CANNOTSENDTOCHAN [server_name cfg; cl_nick K; target; lit "channel messaging disabled by user mode +M"] ;;
      mret true
  end.

Definition banned_channel_send (c : ptr) (target : option cstr) (notice : bool) : M bool :=
  match to_channel target with
  | None => mret false
  | Some target =>
      found ← find_channel target;
      match found with
      | None => mret false
      | Some ch =>
          K ← client c;
          C ← channel ch;
          if negb (speak_banned C K (channel_find_member C c)) then mret false else
          cfg ← config;
          when (negb notice)
            (tell c ERR_CANNOTSENDTOCHAN [server_name cfg; cl_nick K; ch_name C; lit "banned from channel (+b)"]) ;;
          mret true
      end
  end.

Definition private_deaf_blocks_privmsg (c : ptr) (target : option cstr) : M bool :=
  match to_user target with
  | None => mret false
  | Some target =>
      found ← find_nick target;
      match found with
      | None => mret false
      | Some d =>
          K ← client c;
          D ← client d;
          if client_mode_has (cl_modes D) CLIENT_MODE_PRIVATE_DEAF && negb (is_oper_or_above K) then
            tell c ":%s!%s@%s NOTICE %s :I cannot send or receive private messages."
              [cl_nick D; cl_user D; cl_display_host D; cl_nick K] ;;
            mret true
          else mret (client_mode_has (cl_modes K) CLIENT_MODE_PRIVATE_DEAF && negb (is_oper_or_above D))
      end
  end.

Definition private_deaf_blocks_notice (c : ptr) (target : option cstr) : M bool :=
  match to_user target with
  | None => mret false
  | Some target =>
      found ← find_nick target;
      match found with
      | None => mret false
      | Some d =>
          K ← client c;
          D ← client d;
          mret (client_mode_has (cl_modes D) CLIENT_MODE_PRIVATE_DEAF && negb (is_oper_or_above K) ||
                client_mode_has (cl_modes K) CLIENT_MODE_PRIVATE_DEAF && negb (is_oper_or_above D))
      end
  end.

Definition message_target (params : cstr) : option cstr := (strtok " " (snprintf IRCD_MESSAGE_BUFFER_SIZE params)).1.

Definition command_privmsg (c : ptr) (params : option cstr) : M CommandResult :=
  match params with
  | None => command_privmsg_core c None
  | Some p =>
      let target := message_target p in
      blocked ← version_blocks_privmsg c target;
      if blocked : bool then keep else
      banned ← banned_channel_send c target false;
      if banned : bool then keep else
      muted ← muted_channel_send c target;
      if muted : bool then keep else
      deaf ← private_deaf_blocks_privmsg c target;
      if deaf : bool then keep else
      command_privmsg_core c params
  end.

Definition command_notice (c : ptr) (params : option cstr) : M CommandResult :=
  match params with
  | None => command_notice_core c None
  | Some p =>
      handled ← nospoof_handle_notice c params;
      if handled : bool then keep else
      let target := message_target p in
      allowed ← nospoof_version_target_allowed c (default [] target);
      if negb allowed then keep else
      banned ← banned_channel_send c target true;
      if banned : bool then keep else
      muted ← muted_channel_send c target;
      if muted : bool then keep else
      deaf ← private_deaf_blocks_notice c target;
      if deaf : bool then keep else
      command_notice_core c params
  end.

(** ** TAGMSG ([tagmsg.c]) *)

Definition tagmsg_channel (c : ptr) (target : cstr) : M CommandResult :=
  cfg ← config;
  K ← client c;
  found ← find_channel target;
  match found with
  | None => reply c ERR_NOSUCHCHANNEL [server_name cfg; cl_nick K; target]
  | Some ch =>
      C ← channel ch;
      let member := channel_find_member C c in
      let refuse why := reply c ERR_CANNOTSENDTOCHAN [server_name cfg; cl_nick K; ch_name C; why] in
      if speak_banned C K member || blocked_external C member || blocked_unregistered C K || blocked_moderated C member
      then refuse (lit "channel policy blocks TAGMSG") else
      if client_mode_has (cl_modes K) CLIENT_MODE_CHANNEL_MUTE && negb (is_oper_or_above K) &&
         match member with None => true | Some m => (m_privileges m =? 0)%N end
      then refuse (lit "channel messaging disabled by user mode +M") else
      ircv3_broadcast_tagmsg ch (Some c) c (ch_name C) ;; keep
  end.

Definition tagmsg_user (c : ptr) (target : cstr) : M CommandResult :=
  cfg ← config;
  K ← client c;
  found ← find_nick target;
  match found with
  | None => reply c ERR_NOSUCHNICK [server_name cfg; cl_nick K; target]
  | Some d =>
      D ← client d;
      if presence_silence_matches D K then keep else
      if regonly_blocks D K then reply c ERR_NONONREG [server_name cfg; cl_nick K; cl_nick D] else
      if client_mode_has (cl_modes D) CLIENT_MODE_PRIVATE_DEAF && negb (is_oper_or_above K) ||
         client_mode_has (cl_modes K) CLIENT_MODE_PRIVATE_DEAF && negb (is_oper_or_above D) then keep else
      ircv3_send_tagmsg d c (cl_nick D) ;; keep
  end.

Definition command_tagmsg (c : ptr) (params : option cstr) : M CommandResult :=
  u ← command_require_registered c;
  if u : bool then keep else
  cfg ← config;
  K ← client c;
  if negb (has_cap (cl_capabilities K) CLIENT_CAP_MESSAGE_TAGS)
  then reply c ERR_UNKNOWNCOMMAND [server_name cfg; cl_nick K; lit "TAGMSG"] else
  let '(target, rest) := strtok " " (default [] params) in
  match target with
  | None => reply c ERR_NORECIPIENT [server_name cfg; cl_nick K; lit "TAGMSG"]
  | Some target =>
      if bool_decide (is_Some (strtok " " rest).1) || has_char "," target
      then reply c ERR_TOOMANYTARGETS [server_name cfg; cl_nick K; target] else
      allowed ← nospoof_version_target_allowed c target;
      if negb allowed then reply c version_warning [server_name cfg; cl_nick K] else
      if empty (cl_ircv3_client_tags K) then keep else
      if strchr IRC_CHANNEL_PREFIXES (char0 target) then tagmsg_channel c target else tagmsg_user c target
  end.

End Message.
