(* ===== verification/MessageProps.v ===== *)
(** * Who hears a message

    The frame of PRIVMSG, NOTICE and TAGMSG, and the theorems on their delivery. *)

From S2P Require Import Prelude CString Modes HashTable MaskMatch Output World Channel Invariant Policy Tags Numerics Ircv3 Presence Env Cloak Register Connection Services Registry RegistryProps Sound Flood JoinPart Oper Accounts NickServ Message.

Section Frames.
Context `{E : Env} `{S : Services} {R : Recipients}.

Lemma store_channel_history_silent c t cmd text : does silent_step (store_channel_history c t cmd text).
Proof.
  assert (PreOrder silent_step) as HP.
  { split; [by split|]. intros a b d [H1 H2] [H3 H4]. split; [by etrans|congruence]. }
  pose proof history_shared_silent. pose proof history_add_silent. pose proof history_maintain_silent.
  unfold store_channel_history. frames. 
Qed.
Lemma store_channel_history_quiet c t cmd text : does quiet (store_channel_history c t cmd text).
Proof. apply silent_quiet_step, store_channel_history_silent. Qed.
Hint Resolve store_channel_history_quiet log_message_quiet : frame.

Lemma privmsg_wire_fits_quiet c t x : does quiet (privmsg_wire_fits c t x).
Proof. unfold privmsg_wire_fits. frames. Qed.
Hint Resolve privmsg_wire_fits_quiet : frame.
Lemma privmsg_channel_keeps c t x : does keeps (privmsg_channel c t x).
Proof. unfold privmsg_channel, touch. frames. Qed.
Lemma privmsg_user_keeps c t x : does keeps (privmsg_user c t x).
Proof. unfold privmsg_user, touch. frames. Qed.
Lemma command_notice_core_keeps c p : does keeps (command_notice_core c p).
Proof. unfold command_notice_core, notice_channel, notice_user. frames. Qed.
Lemma version_blocks_privmsg_quiet c t : does quiet (version_blocks_privmsg c t).
Proof. unfold version_blocks_privmsg. frames. Qed.
Lemma muted_channel_send_quiet c t : does quiet (muted_channel_send c t).
Proof. unfold muted_channel_send. frames. Qed.
Lemma banned_channel_send_quiet c t n : does quiet (banned_channel_send c t n).
Proof. unfold banned_channel_send. frames. Qed.
Lemma private_deaf_blocks_privmsg_quiet c t : does quiet (private_deaf_blocks_privmsg c t).
Proof. unfold private_deaf_blocks_privmsg. frames. Qed.
Lemma private_deaf_blocks_notice_quiet c t : does quiet (private_deaf_blocks_notice c t).
Proof. unfold private_deaf_blocks_notice. frames. Qed.
Hint Resolve command_notice_core_keeps version_blocks_privmsg_quiet muted_channel_send_quiet
  banned_channel_send_quiet private_deaf_blocks_privmsg_quiet private_deaf_blocks_notice_quiet : frame.
Lemma command_notice_keeps c p : does keeps (command_notice c p).
Proof. unfold command_notice. frames. Qed.
Lemma command_tagmsg_keeps c p : does keeps (command_tagmsg c p).
Proof. unfold command_tagmsg, tagmsg_channel, tagmsg_user. frames. Qed.

(** ** The line a recipient gets *)

Definition message_line (w : World) (r c : ptr) (command target text : cstr) : cstr :=
  let K := the_client w c in
  if has_cap (cl_capabilities (the_client w r)) CLIENT_CAP_MESSAGE_TAGS && negb (empty (cl_ircv3_client_tags K)) then
    format "@%s :%s!%s@%s %s %s :%s"
      [cl_ircv3_client_tags K; cl_nick K; cl_user K; cl_display_host K; command; target; text]
  else format ":%s!%s@%s %s %s :%s" [cl_nick K; cl_user K; cl_display_host K; command; target; text].

(** The tag array of [struct Client] bounds its content. *)
Definition tags_fit (w : World) (c : ptr) : Prop :=
  (Z.of_nat (length (cl_ircv3_client_tags (the_client w c))) ≤ IRCV3_CLIENT_TAG_DATA_MAX)%Z.

Lemma plain_length a b d e f g :
  length (format ":%s!%s@%s %s %s :%s" [a; b; d; e; f; g]) =
  1 + length a + 1 + length b + 1 + length d + 1 + length e + 1 + length f + 2 + length g.
Proof. unfold format. simpl. repeat (rewrite !length_app; simpl). lia. Qed.
Lemma tagged_length t a b d e f g :
  length (format "@%s :%s!%s@%s %s %s :%s" [t; a; b; d; e; f; g]) =
  2 + length t + (1 + length a + 1 + length b + 1 + length d + 1 + length e + 1 + length f + 2 + length g).
Proof. unfold format. simpl. repeat (rewrite !length_app; simpl). lia. Qed.

Lemma message_line_fits w r c command target text :
  tags_fit w c → ircv3_message_wire_fits (the_client w c) command target text = true →
  (Z.of_nat (length (message_line w r c command target text)) < CLIENT_FORMAT_BUFFER_SIZE)%Z.
Proof.
  intros Ht Hw. unfold ircv3_message_wire_fits, message_wire_length in Hw. apply Nat.leb_le in Hw.
  unfold message_line. assert (CLIENT_FORMAT_BUFFER_SIZE = 8704%Z) as -> by reflexivity.
  unfold tags_fit, IRCV3_CLIENT_TAG_DATA_MAX in Ht. change IRC_LINE_CONTENT_MAX with 510 in Hw.
  case_if; rewrite ?tagged_length, ?plain_length; lia.
Qed.

(** ** What is sent, and to whom *)

Abbreviation log w := (io_log (w_io w)).

(** [m] sends exactly [l]. *)
Definition sends {A} (l : list (ptr * cstr)) (m : M A) : Prop := ∀ w, log (m w).2 = log w ++ l.

Lemma sends_ret {A} (a : A) : sends [] (mret a : M A).
Proof. intros w. by rewrite app_nil_r. Qed.
Lemma sends_bind {A B} l1 l2 (m : M A) (k : A → M B) : sends l1 m → (∀ a, sends l2 (k a)) → sends (l1 ++ l2) (m ≫= k).
Proof.
  intros Hm Hk w. rewrite run_bind. specialize (Hm w). destruct (m w) as [a w']. simpl in Hm.
  by rewrite Hk, Hm, app_assoc.
Qed.
Lemma sends_silent {A} (m : M A) : does silent_step m → sends [] m.
Proof. intros Hm w. destruct (Hm w) as [_ ->]. by rewrite app_nil_r. Qed.
Lemma sends_tell r fmt args :
  (Z.of_nat (length (format fmt args)) < CLIENT_FORMAT_BUFFER_SIZE)%Z → sends [(r, format fmt args)] (tell r fmt args).
Proof.
  intros Hf w. unfold tell. rewrite run_bind. unfold sendf, fits. rewrite (proj2 (Z.ltb_lt _ _) Hf).
  pose proof (send_line_log r (format fmt args) w) as Hl. by destruct (send_line _ _ w).
Qed.
Lemma sends_outside r c l m : sends l m → sends l (outside_response r c m).
Proof.
  intros Hm. unfold outside_response. assert (∀ b u, sends [] (when b (response_suppress r u))) as Hs.
  { intros [] u w; cbn; by rewrite app_nil_r. }
  rewrite <-(app_nil_l l). apply sends_bind; [done|]. intros _. rewrite <-(app_nil_r l). by apply sends_bind.
Qed.

Lemma send_message_log r c command target text w :
  tags_fit w c → ircv3_message_wire_fits (the_client w c) command target text = true →
  log (ircv3_send_message r c command target text w).2 = log w ++ [(r, message_line w r c command target text)].
Proof.
  intros Ht Hf. pose proof (message_line_fits w r c command target text Ht Hf) as Hl.
  unfold ircv3_send_message, client. rewrite !run_gets, Hf. cbn [negb]. revert Hl. unfold message_line.
  case_if; intros Hl; by apply sends_outside, sends_tell.
Qed.

(** A loop in which every round sends what the state before the loop says. *)
Lemma for_each_log {A} (l : list A) (f : A → M unit) (g : A → list (ptr * cstr)) w :
  (∀ x, does quiet (f x)) → (∀ x w', quiet w w' → log (f x w').2 = log w' ++ g x) →
  log (for_each l f w).2 = log w ++ concat (map g l).
Proof.
  intros Hq Hf. assert (∀ w', quiet w w' → log (for_each l f w').2 = log w' ++ concat (map g l)) as H; [|by apply H].
  induction l as [|x l IH]; intros w' Hw; cbn [for_each map concat]; [by rewrite app_nil_r|].
  rewrite run_bind. pose proof (Hf x w' Hw) as Hx. pose proof (Hq x w') as Hx'.
  destruct (f x w') as [[] w1]. cbn [snd] in *. rewrite IH by (by etrans). by rewrite Hx, app_assoc.
Qed.

(** The members that hear a message of [c] on a channel, in list order. *)
Definition hears (w : World) (c : ptr) (command text : cstr) (r : ptr) : bool :=
  negb (r =? c) && negb (streq command "PRIVMSG" && negb (usermode_deaf_allows_text (the_client w r) text)).
Definition audience (w : World) (c : ptr) (C : Channel) (command text : cstr) : list ptr :=
  filter (λ r, hears w c command text r = true) (member_ids C).

Lemma same_audience w w2 c C command text :
  (∀ d, the_client w2 d = the_client w d) → audience w2 c C command text = audience w c C command text.
Proof. intros Hc. unfold audience. apply list_filter_iff. intros r. unfold hears. by rewrite Hc. Qed.

Lemma broadcast_log ch c command target text w :
  tags_fit w c → ircv3_message_wire_fits (the_client w c) command target text = true →
  log (ircv3_broadcast_message ch (Some c) c command target text w).2 =
    log w ++ map (λ r, (r, message_line w r c command target text)) (audience w c (the_channel w ch) command text).
Proof.
  intros Ht Hf. unfold ircv3_broadcast_message, client, channel. rewrite run_gets, Hf. cbn [negb]. rewrite run_gets.
  rewrite (for_each_log _ _ (λ m, if hears w c command text (m_client m) then
    [(m_client m, message_line w (m_client m) c command target text)] else [])).
  - f_equal. unfold audience, member_ids. induction (ch_members (the_channel w ch)) as [|m l IH]; [done|].
    cbn [map concat]. rewrite filter_cons, IH. case_if; [by rewrite decide_True | by rewrite decide_False].
  - intros m. frames.
  - intros m w' Hq. unfold hears.
    assert (∀ d, the_client w' d = the_client w d) as Hc by (intros; unfold the_client; by rewrite Hq).
    destruct (Nat.eqb_spec (m_client m) c) as [->|Hne]; cbn [negb andb].
    { rewrite bool_decide_true by done. by rewrite app_nil_r. }
    rewrite bool_decide_false by congruence. rewrite run_gets, Hc.
    destruct (streq command "PRIVMSG" && _); cbn [negb]; [by rewrite app_nil_r|].
    rewrite send_message_log; [|unfold tags_fit; by rewrite Hc|by rewrite Hc]. unfold message_line. by rewrite !Hc.
Qed.

(** Only [c] is sent anything. *)
Definition only_to (c : ptr) (w w' : World) : Prop := ∃ l, log w' = log w ++ l ∧ Forall (λ e, e.1 = c) l.
#[local] Instance only_to_preorder c : PreOrder (only_to c).
Proof.
  split.
  - intros w. exists []. by rewrite app_nil_r.
  - intros w1 w2 w3 (l1 & H1 & F1) (l2 & H2 & F2). exists (l1 ++ l2). rewrite H2, H1, app_assoc. by rewrite Forall_app.
Qed.
Lemma tell_only_to c fmt args : does (only_to c) (tell c fmt args).
Proof.
  intros w. unfold tell. rewrite run_bind. unfold sendf. destruct (fits _ _) as [line|].
  - pose proof (send_line_log c line w) as Hl. destruct (send_line c line w). exists [(c, line)]. split; [done|by constructor].
  - exists []. by rewrite app_nil_r.
Qed.
Lemma reply_only_to c fmt args : does (only_to c) (reply c fmt args).
Proof. unfold reply. pose proof tell_only_to. frames. Qed.
Hint Resolve tell_only_to reply_only_to : frame.

(** ** Speaking on a channel *)

Definition rank_of (C : Channel) (c : ptr) : nat :=
  match channel_find_member C c with Some m => channel_privilege_rank (m_privileges m) | None => 0 end.

(** Who may be heard on channel [C] with [text]. *)
Record may_speak (w : World) (c : ptr) (C : Channel) (command text : cstr) : Prop := {
  speak_version : nospoof_version_restricted (w_config w) (the_client w c) = false;
  speak_ban : rank_of C c = 5 ∨
    rank_of C c = 4 ∧ channel_client_is_banned_protected C (the_client w c) = false ∨
    rank_of C c < 4 ∧ channel_client_is_banned C (the_client w c) = false;
  speak_mute : client_mode_has (cl_modes (the_client w c)) CLIENT_MODE_CHANNEL_MUTE = true →
    is_oper_or_above (the_client w c) = true ∨ ∃ m, channel_find_member C c = Some m ∧ m_privileges m ≠ 0%N;
  speak_external : channel_mode_has (ch_modes C) CHANNEL_MODE_NO_EXTERNAL = true → c ∈ member_ids C;
  speak_registered : channel_mode_has (ch_modes C) CHANNEL_MODE_REGONLY_SPEAK = true →
    client_mode_has (cl_modes (the_client w c)) CLIENT_MODE_REGISTERED = true;
  speak_moderated : channel_mode_has (ch_modes C) CHANNEL_MODE_MODERATED = true → 1 ≤ rank_of C c;
  speak_color : channel_mode_has (ch_modes C) CHANNEL_MODE_NO_COLOR = true → message_contains_color text = false;
  speak_fits : message_wire_length (the_client w c) command (ch_name C) (delivered_text C text) ≤ IRC_LINE_CONTENT_MAX }.

Lemma moderated_rank C c : may_speak_moderated (channel_find_member C c) = true ↔ 1 ≤ rank_of C c.
Proof.
  unfold may_speak_moderated, rank_of. destruct (channel_find_member C c) as [m|]; [|split; [done|lia]].
  unfold any_privilege, channel_privilege_rank. rewrite !privilege_has_lor.
  repeat case_if; rewrite ?orb_true_r, ?orb_false_r; simpl; split; (done || lia).
Qed.

Lemma banned_rank C c K :
  speak_banned C K (channel_find_member C c) = false ↔
  rank_of C c = 5 ∨ rank_of C c = 4 ∧ channel_client_is_banned_protected C K = false ∨
  rank_of C c < 4 ∧ channel_client_is_banned C K = false.
Proof.
  unfold speak_banned, rank_of. destruct (channel_find_member C c) as [m|]; [|intuition lia].
  unfold channel_privilege_rank. destruct (channel_privilege_has _ CHANNEL_PRIV_OWNER); [intuition lia|].
  destruct (channel_privilege_has _ CHANNEL_PRIV_PROTECTED); [intuition lia|]. repeat case_if; intuition lia.
Qed.

Lemma find_member_ids C c : channel_find_member C c = None ↔ c ∉ member_ids C.
Proof.
  rewrite <-channel_has_client_spec. unfold channel_has_client. destruct (channel_find_member C c); naive_solver.
Qed.

(** A message addressed to channel [ch]: the text behind the target. *)
Definition channel_request (w : World) (c : ptr) (p : cstr) (ch : ptr) (text : cstr) : Prop :=
  cl_registered (the_client w c) = true ∧ length p < IRCD_MESSAGE_BUFFER_SIZE ∧
  ∃ target rest raw, strtok " " p = (Some target, rest) ∧ strtok_rest rest = Some raw ∧ raw ≠ lit ":" ∧
    text = skip_colon raw ∧ (","%char ∉ target) ∧ char0 target ∈ IRC_CHANNEL_PREFIXES ∧
    hash_get (w_channels_by_name w) target = Some ch.

(** The result, and the recipients, of a run without branches. *)
Ltac runs_to := match goal with |- (?m ?w).1 = ?r => assert (returns r m) as Hr by auto 8 with irc; apply Hr end.
Ltac runs_only := match goal with |- only_to ?c ?w (?m ?w).2 => assert (does (only_to c) m) as Hm by frames; apply Hm end.

Section Channels.
Context (c ch : ptr) (target : cstr) (w : World).
Context (Hprefix : char0 target ∈ IRC_CHANNEL_PREFIXES).
Context (Hfound : hash_get (w_channels_by_name w) target = Some ch).
Let K := the_client w c.
Let C := the_channel w ch.

Lemma prefix_found : strchr IRC_CHANNEL_PREFIXES (char0 target) = true.
Proof using Hprefix. unfold strchr. apply orb_true_intro. right. by apply has_char_elem. Qed.

Lemma version_channel :
  nospoof_version_target_allowed c target w = (negb (nospoof_version_restricted (w_config w) K), w).
Proof using Hprefix.
  unfold nospoof_version_target_allowed, config, client. rewrite !run_gets. fold K.
  destruct (nospoof_version_restricted _ _); cbn [negb]; [|done]. by rewrite prefix_found, orb_true_r.
Qed.

Lemma version_blocks_channel :
  (version_blocks_privmsg c (Some target) w).1 = nospoof_version_restricted (w_config w) K ∧
  only_to c w (version_blocks_privmsg c (Some target) w).2 ∧
  (nospoof_version_restricted (w_config w) K = false → (version_blocks_privmsg c (Some target) w).2 = w).
Proof using Hprefix.
  unfold version_blocks_privmsg. cbn [default from_option id]. rewrite run_bind, version_channel.
  destruct (nospoof_version_restricted _ _); cbn [negb]; [|by split_and!]. split_and!; [|..|done].
  - runs_to.
  - runs_only.
Qed.

Lemma banned_channel :
  (banned_channel_send c (Some target) false w).1 = speak_banned C K (channel_find_member C c) ∧
  only_to c w (banned_channel_send c (Some target) false w).2 ∧
  (speak_banned C K (channel_find_member C c) = false → (banned_channel_send c (Some target) false w).2 = w).
Proof using Hprefix Hfound.
  unfold banned_channel_send, to_channel. cbn [mbind option_bind]. rewrite prefix_found. unfold find_channel.
  rewrite run_gets, Hfound. unfold client, channel. rewrite !run_gets. fold K C.
  destruct (speak_banned _ _ _); cbn [negb]; [|by split_and!]. split_and!; [|..|done].
  - runs_to.
  - runs_only.
Qed.

Definition mute_blocks : bool :=
  client_mode_has (cl_modes K) CLIENT_MODE_CHANNEL_MUTE && negb (is_oper_or_above K) &&
  match channel_find_member C c with None => true | Some m => (m_privileges m =? 0)%N end.

Lemma muted_channel :
  (muted_channel_send c (Some target) w).1 = mute_blocks ∧
  only_to c w (muted_channel_send c (Some target) w).2 ∧
  (mute_blocks = false → (muted_channel_send c (Some target) w).2 = w).
Proof using Hprefix Hfound.
  unfold muted_channel_send, to_channel, mute_blocks. cbn [mbind option_bind]. rewrite prefix_found. unfold client. rewrite run_gets. fold K.
  destruct (client_mode_has (cl_modes K) CLIENT_MODE_CHANNEL_MUTE); cbn [negb orb andb]; [|by split_and!].
  destruct (is_oper_or_above K); cbn [negb andb]; [by split_and!|]. unfold find_channel. rewrite run_gets, Hfound, run_gets. fold C.
  destruct (channel_find_member C c) as [m|]; [destruct (m_privileges m =? 0)%N; cbn [negb]; [|by split_and!]|].
  all: split_and!; [runs_to|runs_only|done].
Qed.

Lemma not_a_service :
  strcaseeq target "NickServ" = false ∧ strcaseeq target "ChanServ" = false ∧ strcaseeq target "MemoServ" = false.
Proof using Hprefix.
  pose proof Hprefix as Hp. revert Hp. generalize target. intros [|x t]; [done|]. cbn [char0 hd].
  intros [->|[->|Hx%elem_of_nil]%elem_of_cons]%elem_of_cons; [..|done]; split_and!; reflexivity.
Qed.

(** The handler of a channel message, when the wrapper let it pass. *)
Lemma privmsg_channel_delivers text :
  tags_fit w c → speak_banned C K (channel_find_member C c) = false →
  let sent := delivered_text C text in let w' := (privmsg_channel c target text w).2 in
  let heard := blocked_external C (channel_find_member C c) = false ∧ blocked_unregistered C K = false ∧
     blocked_moderated C (channel_find_member C c) = false ∧ blocked_color C text = false ∧
     ircv3_message_wire_fits K "PRIVMSG" (ch_name C) sent = true in
  (heard ∧ log w' = log w ++ map (λ r, (r, message_line w r c "PRIVMSG" (ch_name C) sent)) (audience w c C "PRIVMSG" sent)) ∨
  (¬ heard ∧ only_to c w w').
Proof using Hfound.
  intros Ht Hb sent w' heard. subst w'. unfold privmsg_channel, config, client, find_channel, channel.
  rewrite !run_gets, Hfound, run_gets. fold K C. rewrite Hb.
  destruct (blocked_external _ _) eqn:H1; [right; split; [unfold heard; naive_solver|runs_only]|].
  destruct (blocked_unregistered _ _) eqn:H2; [right; split; [unfold heard; naive_solver|runs_only]|].
  destruct (blocked_moderated _ _) eqn:H3; [right; split; [unfold heard; naive_solver|runs_only]|].
  destruct (blocked_color _ _) eqn:H4; [right; split; [unfold heard; naive_solver|runs_only]|].
  fold sent. rewrite run_bind. unfold privmsg_wire_fits, client. rewrite run_gets. fold K.
  destruct (ircv3_message_wire_fits K "PRIVMSG" (ch_name C) sent) eqn:H5; cycle 1.
  { right. split; [unfold heard; naive_solver|]. unfold config. rewrite run_gets, run_bind.
    pose proof (tell_only_to c ":%s 417 %s PRIVMSG :Message would exceed the IRC relay line limit" [server_name (w_config w); cl_nick K] w) as Ho.
    by destruct (tell _ _ _ w). }
  left. split; [unfold heard; naive_solver|]. cbn [mret ST_ret negb].
  rewrite run_bind. destruct (store_channel_history_silent c (ch_name C) "PRIVMSG" sent w) as [Q1 L1].
  destruct (store_channel_history _ _ _ _ w) as [[] w1]. cbn [snd] in *.
  rewrite run_bind. destruct (log_message_silent ch c sent false w1) as [Q2 L2].
  destruct (channel_log_message _ _ _ _ w1) as [[] w2]. cbn [snd] in *.
  assert (quiet w w2) as Q by (by etrans).
  assert (Hc : ∀ d, the_client w2 d = the_client w d) by (intros; unfold the_client; by rewrite Q).
  assert (HC : the_channel w2 ch = C) by (unfold the_channel; by rewrite Q).
  rewrite run_bind. pose proof (broadcast_log ch c "PRIVMSG" (ch_name C) sent w2) as Hlog.
  destruct (ircv3_broadcast_message _ _ _ _ _ _ w2) as [[] w3]. cbn [snd] in *.
  change (log w3 = log w ++ map (λ r, (r, message_line w r c "PRIVMSG" (ch_name C) sent)) (audience w c C "PRIVMSG" sent)).
  rewrite Hlog; [|unfold tags_fit; by rewrite Hc|by rewrite Hc]. rewrite L2, L1, HC, (same_audience w w2) by done. f_equal. apply map_ext. intros r.
  unfold message_line. by rewrite !Hc.
Qed.
End Channels.

Lemma mute_blocks_false c ch w :
  mute_blocks c ch w = false ↔
  (client_mode_has (cl_modes (the_client w c)) CLIENT_MODE_CHANNEL_MUTE = true →
   is_oper_or_above (the_client w c) = true ∨
   ∃ m, channel_find_member (the_channel w ch) c = Some m ∧ m_privileges m ≠ 0%N).
Proof.
  unfold mute_blocks. destruct (client_mode_has _ _), (is_oper_or_above _); cbn [negb andb]; try naive_solver.
  destruct (channel_find_member _ _) as [m|]; [|naive_solver]. rewrite N.eqb_neq. naive_solver.
Qed.

(** The tests of the handler, read off the declarative condition. *)
Lemma may_speak_tests c ch w text :
  let K := the_client w c in let C := the_channel w ch in
  nospoof_version_restricted (w_config w) K = false → speak_banned C K (channel_find_member C c) = false →
  mute_blocks c ch w = false →
  may_speak w c C "PRIVMSG" text ↔
  blocked_external C (channel_find_member C c) = false ∧ blocked_unregistered C K = false ∧
  blocked_moderated C (channel_find_member C c) = false ∧ blocked_color C text = false ∧
  ircv3_message_wire_fits K "PRIVMSG" (ch_name C) (delivered_text C text) = true.
Proof.
  intros K C Hv Hb Hm. pose proof (proj1 (mute_blocks_false c ch w) Hm) as Hm'. apply banned_rank in Hb.
  unfold blocked_external, blocked_unregistered, blocked_moderated, blocked_color, ircv3_message_wire_fits.
  rewrite !andb_false_iff, bool_decide_eq_false, !negb_false_iff, moderated_rank, find_member_ids, Nat.leb_le.
  split.
  - intros []. split_and!; try done.
    all: match goal with |- ?b = false ∨ _ => destruct b eqn:?; [right; eauto | by left] end.
  - intros (H1 & H2 & H3 & H4 & H5). split; try done.
    + destruct H1 as [H1|H1]; [congruence|]. intros _. destruct (decide (c ∈ member_ids C)); [done|tauto].
    + intros ?. destruct H2; [congruence|done].
    + intros ?. destruct H3; [congruence|done].
    + intros ?. destruct H4; [congruence|done].
Qed.


(** ** NOTICE is not answered *)

Definition not_to (c : ptr) (w w' : World) : Prop := ∃ l, log w' = log w ++ l ∧ Forall (λ e, e.1 ≠ c) l.
#[local] Instance not_to_preorder c : PreOrder (not_to c).
Proof.
  split.
  - intros w. exists []. by rewrite app_nil_r.
  - intros w1 w2 w3 (l1 & H1 & F1) (l2 & H2 & F2). exists (l1 ++ l2). rewrite H2, H1, app_assoc. by rewrite Forall_app.
Qed.
Lemma tell_not_to c r fmt args : r ≠ c → does (not_to c) (tell r fmt args).
Proof.
  intros Hr w. destruct (tell_only_to r fmt args w) as (l & Hl & Hf). exists l. split; [done|].
  eapply Forall_impl; [done|]. by intros e ->.
Qed.
Lemma silent_not_to c {A} (m : M A) : does silent_step m → does (not_to c) m.
Proof. intros Hm w. destruct (Hm w) as [_ H]. exists []. by rewrite app_nil_r. Qed.
Lemma upd_client_not_to c d f : does (not_to c) (upd_client d f).
Proof. intros w. exists []. by rewrite app_nil_r. Qed.
Lemma send_message_not_to c r k cmd t x : r ≠ c → does (not_to c) (ircv3_send_message r k cmd t x).
Proof.
  intros Hr. unfold ircv3_send_message, outside_response, response_suppress.
  pose proof (λ f a, tell_not_to c r f a Hr). assert (∀ f, does (not_to c) (on_conn r f)).
  { intros f w. exists []. by rewrite app_nil_r. }
  frames.
Qed.
Lemma broadcast_not_to c ch k cmd t x : does (not_to c) (ircv3_broadcast_message ch (Some c) k cmd t x).
Proof.
  unfold ircv3_broadcast_message. frames. apply send_message_not_to. bools. congruence.
Qed.
Hint Resolve upd_client_not_to broadcast_not_to : frame.
Hint Extern 4 (does (not_to _) (store_channel_history _ _ _ _)) => apply silent_not_to, store_channel_history_silent : frame.
Hint Extern 4 (does (not_to _) (channel_log_message _ _ _ _)) => apply silent_not_to, log_message_silent : frame.

Lemma handle_notice_cases c p w :
  (∃ w', nospoof_handle_notice c p w = (true, w') ∧ not_to c w w') ∨ nospoof_handle_notice c p w = (false, w).
Proof.
  assert (does (not_to c) (nospoof_handle_notice c p)) as Hn by (unfold nospoof_handle_notice; frames).
  specialize (Hn w). destruct (nospoof_handle_notice c p w) as [[] w'] eqn:Er; [left; eauto|]. right. f_equal.
  revert Er. unfold nospoof_handle_notice, config, client. rewrite !run_gets.
  destruct p as [p|]; [|by intros [=]]. case_if; [by intros [=]|].
  destruct (strtok _ _) as [[target|] rest]; [|by intros [=]]. destruct (strtok_rest rest); [|by intros [=]].
  case_if; [by intros [=]|]. repeat case_match; by intros [=].
Qed.


(** ** Private messages *)

Definition user_request (w : World) (c : ptr) (p : cstr) (d : ptr) (text : cstr) : Prop :=
  cl_registered (the_client w c) = true ∧ length p < IRCD_MESSAGE_BUFFER_SIZE ∧
  ∃ target rest raw, strtok " " p = (Some target, rest) ∧ strtok_rest rest = Some raw ∧ raw ≠ lit ":" ∧
    text = skip_colon raw ∧ (","%char ∉ target) ∧ strchr IRC_CHANNEL_PREFIXES (char0 target) = false ∧
    strcaseeq target "NickServ" = false ∧ strcaseeq target "ChanServ" = false ∧ strcaseeq target "MemoServ" = false ∧
    hash_get (w_clients_by_nick w) target = Some d.

Record may_message (w : World) (c d : ptr) (text : cstr) : Prop := {
  message_version : nospoof_version_restricted (w_config w) (the_client w c) = true → is_oper_or_above (the_client w d) = true;
  message_deaf : client_mode_has (cl_modes (the_client w d)) CLIENT_MODE_PRIVATE_DEAF = true → is_oper_or_above (the_client w c) = true;
  message_gagged : client_mode_has (cl_modes (the_client w c)) CLIENT_MODE_PRIVATE_DEAF = true → is_oper_or_above (the_client w d) = true;
  message_silence : presence_silence_matches (the_client w d) (the_client w c) = false;
  message_registered : client_mode_has (cl_modes (the_client w d)) CLIENT_MODE_REGONLY_MSG = true →
    client_mode_has (cl_modes (the_client w c)) CLIENT_MODE_REGISTERED = true;
  message_ctcp : client_mode_has (cl_modes (the_client w d)) CLIENT_MODE_NO_CTCP = true → is_ctcp text = false;
  message_fits : message_wire_length (the_client w c) "PRIVMSG" (cl_nick (the_client w d)) text ≤ IRC_LINE_CONTENT_MAX }.

(** Lines of the PMSTATS feed and answers to the sender. *)
Definition aside (w : World) (c : ptr) (e : ptr * cstr) : Prop := e.1 = c ∨ cl_pmstats_enabled (the_client w e.1) = true.
Definition asides (c : ptr) (w w' : World) : Prop := ∃ l, log w' = log w ++ l ∧ Forall (aside w c) l.

Lemma pmstats_asides c a b w : asides c w (server_pmstats_private_message a b w).2.
Proof.
  unfold server_pmstats_private_message, pmstats_feed, config. rewrite !run_gets.
  assert (H : ∀ l w', quiet w w' → ∃ k, log (for_each l (λ t, T ← client t; when (cl_pmstats_enabled T)
    (tell t ":%s 801 %s :%s %s" (server_name (w_config w) :: cl_nick T :: [a; b]))) w').2 = log w' ++ k ∧ Forall (aside w c) k);
    [|by apply H].
  intros l. induction l as [|t l IH]; intros w' Hq; [exists []; by rewrite app_nil_r|].
  cbn [for_each]. rewrite run_bind. unfold client at 1. rewrite run_gets.
  assert (the_client w' t = the_client w t) as -> by (unfold the_client; by rewrite Hq).
  destruct (cl_pmstats_enabled (the_client w t)) eqn:He; cbn [when]; [|by apply IH].
  destruct (tell_only_to t ":%s 801 %s :%s %s" (server_name (w_config w) :: cl_nick (the_client w t) :: [a; b]) w') as (k & Hk & Fk).
  pose proof (tell_quiet t ":%s 801 %s :%s %s" (server_name (w_config w) :: cl_nick (the_client w t) :: [a; b]) w') as Hq'.
  destruct (tell _ _ _ w') as [[] w1]. cbn [snd] in *. destruct (IH w1) as (k' & Hk' & Fk'); [by etrans|].
  exists (k ++ k'). rewrite Hk', Hk, app_assoc. split; [done|]. apply Forall_app. split; [|done].
  eapply Forall_impl; [exact Fk|]. intros e He1. right. by rewrite He1.
Qed.

Section Users.
Context (c d : ptr) (target : cstr) (w : World).
Context (Hprefix : strchr IRC_CHANNEL_PREFIXES (char0 target) = false).
Context (Hfound : hash_get (w_clients_by_nick w) target = Some d).
Let K := the_client w c.
Let D := the_client w d.

Definition version_gate : bool := nospoof_version_restricted (w_config w) K && negb (is_oper_or_above D).
Definition deaf_gate : bool :=
  client_mode_has (cl_modes D) CLIENT_MODE_PRIVATE_DEAF && negb (is_oper_or_above K) ||
  client_mode_has (cl_modes K) CLIENT_MODE_PRIVATE_DEAF && negb (is_oper_or_above D).

Lemma version_blocks_user :
  (version_blocks_privmsg c (Some target) w).1 = version_gate ∧
  only_to c w (version_blocks_privmsg c (Some target) w).2 ∧
  (version_gate = false → (version_blocks_privmsg c (Some target) w).2 = w).
Proof using Hprefix Hfound.
  unfold version_blocks_privmsg, version_gate. cbn [default from_option id]. rewrite run_bind.
  assert (nospoof_version_target_allowed c target w =
    (negb (nospoof_version_restricted (w_config w) K) || is_oper_or_above D, w)) as ->.
  { unfold nospoof_version_target_allowed, config, client, find_nick. rewrite !run_gets. fold K.
    destruct (nospoof_version_restricted _ _); cbn [negb orb]; [|done].
    assert (empty target = false) as -> by (by destruct target). rewrite Hprefix. cbn [orb]. rewrite run_gets, Hfound. by rewrite run_gets. }
  destruct (nospoof_version_restricted _ _), (is_oper_or_above D); cbn [negb orb andb]; try by split_and!.
  split_and!; [runs_to|runs_only|done].
Qed.

Lemma deaf_blocks_user :
  (private_deaf_blocks_privmsg c (Some target) w).1 = deaf_gate ∧
  only_to c w (private_deaf_blocks_privmsg c (Some target) w).2 ∧
  (deaf_gate = false → (private_deaf_blocks_privmsg c (Some target) w).2 = w).
Proof using Hprefix Hfound.
  unfold private_deaf_blocks_privmsg, to_user, deaf_gate. cbn [mbind option_bind]. rewrite Hprefix.
  unfold find_nick, client. rewrite run_gets, Hfound, !run_gets. fold K D.
  destruct (client_mode_has (cl_modes D) CLIENT_MODE_PRIVATE_DEAF && negb (is_oper_or_above K)); cbn [orb]; [|by split_and!].
  split_and!; [runs_to|runs_only|done].
Qed.

Lemma privmsg_user_delivers text :
  tags_fit w c →
  let w' := (privmsg_user c target text w).2 in
  let heard := presence_silence_matches D K = false ∧ regonly_blocks D K = false ∧ ctcp_blocks D text = false ∧
     ircv3_message_wire_fits K "PRIVMSG" (cl_nick D) text = true in
  (heard ∧ ∃ l, log w' = log w ++ (d, message_line w d c "PRIVMSG" (cl_nick D) text) :: l ∧ Forall (aside w c) l) ∨
  (¬ heard ∧ only_to c w w').
Proof using Hfound.
  intros Ht w' heard. subst w'. unfold privmsg_user, config, client, find_nick. rewrite !run_gets, Hfound, run_gets. fold K D.
  destruct (presence_silence_matches D K) eqn:H1; [right; split; [unfold heard; naive_solver|by apply (does_ret (only_to c))]|].
  destruct (regonly_blocks D K) eqn:H2; [right; split; [unfold heard; naive_solver|runs_only]|].
  destruct (ctcp_blocks D text) eqn:H3; [right; split; [unfold heard; naive_solver|runs_only]|].
  rewrite run_bind. unfold privmsg_wire_fits, client. rewrite run_gets. fold K.
  destruct (ircv3_message_wire_fits K "PRIVMSG" (cl_nick D) text) eqn:H4; cycle 1.
  { right. split; [unfold heard; naive_solver|]. unfold config. rewrite run_gets, run_bind.
    pose proof (tell_only_to c ":%s 417 %s PRIVMSG :Message would exceed the IRC relay line limit" [server_name (w_config w); cl_nick K] w) as Ho.
    by destruct (tell _ _ _ w). }
  left. split; [unfold heard; naive_solver|]. cbn [mret ST_ret negb].
  rewrite run_bind. pose proof (send_message_log d c "PRIVMSG" (cl_nick D) text w Ht H4) as L1.
  pose proof (ircv3_send_message_quiet d c "PRIVMSG" (cl_nick D) text w) as Q1.
  destruct (ircv3_send_message _ _ _ _ _ w) as [[] w1]. cbn [snd] in *.
  rewrite run_bind. destruct (pmstats_asides c (cl_nick K) (cl_nick D) w1) as (l & L2 & F2).
  destruct (server_pmstats_private_message _ _ w1) as [[] w2]. cbn [snd] in *.
  match goal with |- ∃ _, log (?m w2).2 = _ ∧ _ => assert (only_to c w2 (m w2).2) as (k & L3 & F3) end.
  { match goal with |- only_to c w2 (?m w2).2 => assert (does (only_to c) m) as Hm; [|apply Hm] end.
    assert (∀ f, does (only_to c) (upd_client c f)) by (intros f v; exists []; by rewrite app_nil_r). unfold touch. frames. }
  exists (l ++ k). rewrite L3, L2, L1. split; [by rewrite <-!app_assoc|]. apply Forall_app. split.
  - eapply Forall_impl; [exact F2|]. intros e. unfold aside, the_client. by rewrite Q1.
  - eapply Forall_impl; [exact F3|]. intros e He. by left.
Qed.
End Users.

(** C13: who gets a private message.  A PRIVMSG to a nickname reaches its holder, as the
    first line sent and once, exactly when the recipient's SILENCE list, +R, +T, +D, the
    sender's own +D, the version request and the line limit allow it; beyond it there is
    only the away reply and the feed of the PMSTATS subscribers.  Otherwise nobody but the
    sender is sent anything. *)
Theorem private_message_delivery c p w d text :
  tags_fit w c → user_request w c p d text →
  let w' := (command_privmsg c (Some p) w).2 in
  (may_message w c d text ∧
   ∃ l, log w' = log w ++ (d, message_line w d c "PRIVMSG" (cl_nick (the_client w d)) text) :: l ∧ Forall (aside w c) l) ∨
  (¬ may_message w c d text ∧ only_to c w w').
Proof.
  intros Ht (Hreg & Hlen & target & rest & raw & Htok & Hraw & Hne & -> & Hcomma & Hp & N1 & N2 & N3 & Hf) w'. subst w'.
  unfold command_privmsg, message_target. rewrite snprintf_id, Htok by done. cbn [fst].
  destruct (version_blocks_user c d target w Hp Hf) as (V1 & V2 & V3).
  rewrite run_bind. destruct (version_blocks_privmsg _ _ w) as [v wv]. cbn [fst snd] in *. subst v.
  assert (Hmsg : may_message w c d (skip_colon raw) ↔ version_gate c d w = false ∧ deaf_gate c d w = false ∧
    presence_silence_matches (the_client w d) (the_client w c) = false ∧ regonly_blocks (the_client w d) (the_client w c) = false ∧
    ctcp_blocks (the_client w d) (skip_colon raw) = false ∧
    ircv3_message_wire_fits (the_client w c) "PRIVMSG" (cl_nick (the_client w d)) (skip_colon raw) = true).
  { unfold version_gate, deaf_gate, regonly_blocks, ctcp_blocks, ircv3_message_wire_fits.
    rewrite orb_false_iff, !andb_false_iff, !negb_false_iff, Nat.leb_le. split.
    - intros []. split_and!; try done.
      all: match goal with |- ?b = false ∨ _ => destruct b eqn:?; [right; eauto | by left] end.
    - intros (H1 & (H2 & H3) & H4 & H5 & H6 & H7). split; naive_solver congruence. }
  destruct (version_gate c d w) eqn:Hv; [right; split; [naive_solver|done]|]. rewrite (V3 eq_refl) in *.
  rewrite run_bind. assert (banned_channel_send c (Some target) false w = (false, w)) as ->
    by (unfold banned_channel_send, to_channel; cbn [mbind option_bind]; by rewrite Hp).
  rewrite run_bind. assert (muted_channel_send c (Some target) w = (false, w)) as ->
    by (unfold muted_channel_send, to_channel; cbn [mbind option_bind]; by rewrite Hp).
  destruct (deaf_blocks_user c d target w Hp Hf) as (B1 & B2 & B3).
  rewrite run_bind. destruct (private_deaf_blocks_privmsg _ _ w) as [b wb]. cbn [fst snd] in *. subst b.
  destruct (deaf_gate c d w) eqn:Hb; [right; split; [naive_solver|done]|]. rewrite (B3 eq_refl) in *.
  unfold command_privmsg_core. rewrite run_bind.
  destruct (require_registered_cases c w) as [[_ ->]|[Hn _]]; [|congruence].
  unfold config, client. rewrite !run_gets, Htok, Hraw. apply has_char_false in Hcomma. rewrite Hcomma.
  assert (empty raw || streq raw ":" = false) as ->.
  { destruct raw; [by destruct rest|]. unfold streq. by rewrite bool_decide_false. }
  rewrite N1, N2, N3, Hp.
  destruct (privmsg_user_delivers c d target w Hf (skip_colon raw) Ht) as [[Hh Hl]|[Hno Ho]].
  - left. split; [|exact Hl]. naive_solver.
  - right. split; [|exact Ho]. naive_solver.
Qed.
End Frames.

#[export] Hint Resolve store_channel_history_quiet privmsg_wire_fits_quiet privmsg_channel_keeps privmsg_user_keeps version_blocks_privmsg_quiet
  muted_channel_send_quiet banned_channel_send_quiet private_deaf_blocks_privmsg_quiet private_deaf_blocks_notice_quiet command_notice_keeps command_tagmsg_keeps : frame.
