(* ===== verification/Query.v ===== *)
(** * Queries: ISON, USERHOST, USERIP, LUSERS, LIST, WHO, WHOIS, WHOWAS,
    SILENCE and WATCH

    The commands of [src/commands/ison.c], [userhost.c], [userip.c],
    [lusers.c], [list.c], [who.c], [whois.c], [whowas.c], [silence.c] and [watch.c]. *)

From S2P Require Import Prelude CString Modes HashTable MaskMatch Output World Channel Invariant Policy Tags Numerics Ircv3 Presence Env Cloak Register JoinPart.

(** ** Lists of words cut into lines

    [stale]: what the loop goes on with after a word that fits no line; ISON and WATCH
    keep the line they have just sent, WHOIS starts an empty one. *)
Fixpoint pack_words (fits : cstr → bool) (keep_stale : bool) (line : cstr) (l : list cstr) : list cstr * cstr :=
  match l with
  | [] => ([], line)
  | word :: rest =>
      let candidate := line ++ (if empty line then [] else lit " ") ++ word in
      if (length candidate <? IRC_LINE_CONTENT_MAX + 1) && fits candidate then pack_words fits keep_stale candidate rest else
      let '(sent, final) := pack_words fits keep_stale
        (if fits word then word else if keep_stale then line else []) rest in
      ((if empty line then sent else line :: sent), final)
  end.

(** ** ISON *)

Definition ison_payload_fits (cfg : ServerConfig) (K : Client) (payload : cstr) : bool :=
  length (format RPL_ISON [server_name cfg; cl_nick K; payload]) <=? IRC_LINE_CONTENT_MAX.

Definition send_ison_payload (c : ptr) (payload : cstr) : M unit :=
  cfg ← config;
  K ← client c;
  when (ison_payload_fits cfg K payload) (tell c RPL_ISON [server_name cfg; cl_nick K; payload]).

(** The nicknames, as their holders write them, of the registered clients named. *)
Definition online_nicks (w : World) (nicks : list cstr) : list cstr :=
  omap (λ nick, c ← hash_get (w_clients_by_nick w) nick;
    if cl_registered (the_client w c) then Some (cl_nick (the_client w c)) else None) nicks.

Definition command_ison (c : ptr) (params : option cstr) : M CommandResult :=
  u ← command_require_registered c;
  if u : bool then keep else
  match params with
  | None => send_ison_payload c [] ;; keep
  | Some params =>
      cfg ← config;
      K ← client c;
      online ← gets (λ w, online_nicks w (tokens " " params));
      let '(sent, final) := pack_words (ison_payload_fits cfg K) true [] online in
      for_each sent (send_ison_payload c) ;; send_ison_payload c final ;; keep
  end.

(** ** USERHOST and USERIP *)

Definition command_userhost (c : ptr) (params : option cstr) : M CommandResult :=
  u ← command_require_registered c;
  if u : bool then keep else
  cfg ← config;
  K ← client c;
  match params with
  | None => reply c ERR_NEEDMOREPARAMS [server_name cfg; cl_nick K; lit "USERHOST"]
  | Some params =>
      for_each (take 5 (tokens " " params)) (λ nick,
        t ← find_nick nick;
        match t with
        | None => mret tt
        | Some t =>
            T ← client t;
            when (cl_registered T)
              (tell c RPL_USERHOST [server_name cfg; cl_nick K; cl_nick T; cl_user T; cl_display_host T])
        end) ;;
      keep
  end.

Definition command_userip (c : ptr) (params : option cstr) : M CommandResult :=
  u ← command_require_registered c;
  if u : bool then keep else
  cfg ← config;
  K ← client c;
  if negb (client_mode_has (cl_modes K) (N.lor CLIENT_MODE_OPER CLIENT_MODE_NETADMIN))
  then reply c ERR_NOPRIVILEGES [server_name cfg; cl_nick K] else
  match params with
  | None => reply c ERR_NEEDMOREPARAMS [server_name cfg; cl_nick K; lit "USERIP"]
  | Some params =>
      for_each (tokens " " params) (λ nick,
        t ← find_nick nick;
        match t with
        | None => mret tt
        | Some t =>
            T ← client t;
            when (cl_registered T)
              (tell c RPL_USERIP [server_name cfg; cl_nick K; cl_nick T; cl_user T; cl_real_ip T])
        end) ;;
      keep
  end.

(** ** LUSERS *)

Definition count_if {A} (p : A → bool) (l : list A) : nat := length (List.filter p l).

(** The modes of the registered clients. *)
Definition users_online (w : World) : list ClientModeSet :=
  omap (λ x, let T := the_client w x in if cl_registered T then Some (cl_modes T) else None) (w_client_array w).

Definition visible_channels (w : World) (c : ptr) : nat :=
  count_if (λ ch, visibility_names_channel (the_client w c) c (the_channel w ch))
    (concat (map (map snd) (buckets (w_channels_by_name w)))).

(** The static counters are reset when the server was started again. *)
Definition raise_high_water (users : nat) (w : World) : World :=
  let '(epoch, high) := w_high_water w in
  let high := if (epoch =? w_started_at w)%Z then high else 0 in
  set_w_high_water (w_started_at w, if high <? users then users else high) w.

Definition int_text (n : nat) : cstr := dec (to_int (Z.of_nat n)).

Definition command_lusers (c : ptr) (params : option cstr) : M CommandResult :=
  u ← command_require_registered c;
  if u : bool then keep else
  cfg ← config;
  K ← client c;
  online ← gets users_online;
  clients ← gets (λ w, length (w_client_array w));
  let users := length online in
  let unknown := clients - users in
  let invisible := count_if (λ modes, client_mode_has modes CLIENT_MODE_INVISIBLE) online in
  let opers := count_if (λ modes, client_mode_has modes (N.lor CLIENT_MODE_OPER CLIENT_MODE_NETADMIN)) online in
  modify (raise_high_water users) ;;
  channels ← gets (λ w, visible_channels w c);
  high ← gets (λ w, snd (w_high_water w));
  tell c RPL_LUSERCLIENT [server_name cfg; cl_nick K; int_text (users - invisible); int_text invisible; dec 1] ;;
  when (negb (opers =? 0)) (tell c RPL_LUSEROP [server_name cfg; cl_nick K; int_text opers]) ;;
  when (negb (unknown =? 0)) (tell c RPL_LUSERUNKNOWN [server_name cfg; cl_nick K; int_text unknown]) ;;
  tell c RPL_LUSERCHANNELS [server_name cfg; cl_nick K; int_text channels] ;;
  tell c RPL_LUSERME [server_name cfg; cl_nick K; int_text users; dec 0] ;;
  tell c RPL_LOCALUSERS [server_name cfg; cl_nick K; int_text users; int_text high] ;;
  tell c RPL_GLOBALUSERS [server_name cfg; cl_nick K; int_text users; int_text high] ;;
  keep.

(** ** LIST *)

Fixpoint list_chain (c : ptr) (entries : list ptr) : M unit :=
  match entries with
  | [] => mret tt
  | ch :: rest =>
      C ← channel ch;
      K ← client c;
      if visibility_list_channel K c C then
        cfg ← config;
        tell c RPL_LIST [server_name cfg; cl_nick K; ch_name C; int_text (ch_member_count C); ch_topic C] ;;
        full ← overflowed c;
        if full : bool then mret tt else list_chain c rest
      else list_chain c rest
  end.

Fixpoint list_buckets (c : ptr) (chains : list (list ptr)) : M unit :=
  match chains with
  | [] => mret tt
  | chain :: rest =>
      full ← overflowed c;
      if full : bool then mret tt else list_chain c chain ;; list_buckets c rest
  end.

Definition command_list (c : ptr) (params : option cstr) : M CommandResult :=
  u ← command_require_registered c;
  if u : bool then keep else
  cfg ← config;
  K ← client c;
  tell c RPL_LISTSTART [server_name cfg; cl_nick K] ;;
  chains ← gets (λ w, map (map snd) (buckets (w_channels_by_name w)));
  list_buckets c chains ;;
  full ← overflowed c;
  when (negb full) (tell c RPL_LISTEND [server_name cfg; cl_nick K]) ;;
  keep.

(** ** WHO *)

Definition who_status (requester subject : Client) (member : option ChannelMember) : cstr :=
  [if empty (cl_away subject) then "H"%char else "G"%char] ++
  (if client_mode_has (cl_modes subject) (N.lor CLIENT_MODE_OPER CLIENT_MODE_NETADMIN) &&
      (negb (client_mode_has (cl_modes subject) CLIENT_MODE_HIDE_OPER) || visibility_is_oper requester)
   then lit "*" else []) ++
  match member with
  | Some m => let prefix := channel_privilege_prefix (m_privileges m) in
              if Ascii.eqb prefix NUL then [] else [prefix]
  | None => []
  end.

Definition send_who_reply (requester subject : ptr) (ch : option Channel) : M unit :=
  cfg ← config;
  K ← client requester;
  T ← client subject;
  let member := C ← ch; channel_find_member C subject in
  tell requester RPL_WHOREPLY
    [server_name cfg; cl_nick K; match ch with Some C => ch_name C | None => lit "*" end;
     cl_user T; cl_display_host T; server_name cfg; cl_nick T; who_status K T member; dec 0; cl_realname T].

Definition send_end_of_who_query (c : ptr) (query : cstr) : M unit :=
  send_query_numeric c ":%s 315 %s %.*s :End of /WHO list." query.

(** The members or clients in turn, until the requester's queue overflows. *)
Fixpoint who_loop (c : ptr) (ch : option Channel) (l : list ptr) : M unit :=
  match l with
  | [] => mret tt
  | x :: rest =>
      seen ← gets (λ w, visibility_who_user w c x);
      when seen (send_who_reply c x ch) ;;
      full ← overflowed c;
      if full : bool then mret tt else who_loop c ch rest
  end.

Definition end_of_who (c : ptr) (query : cstr) : M CommandResult :=
  full ← overflowed c;
  when (negb full) (send_end_of_who_query c query) ;; keep.

Definition command_who (c : ptr) (params : option cstr) : M CommandResult :=
  let mask := params ← params; (strtok " " params).1 in
  u ← command_require_registered c;
  if u : bool then keep else
  match mask with
  | Some m =>
      if strchr IRC_CHANNEL_PREFIXES (char0 m) then
        found ← find_channel m;
        match found with
        | Some ch =>
            C ← channel ch;
            K ← client c;
            when (visibility_names_channel K c C) (who_loop c (Some C) (map m_client (ch_members C)))
        | None => mret tt
        end ;;
        end_of_who c m
      else if negb (streq m "0") && negb (streq m "*") then
        found ← find_nick m;
        match found with
        | Some x => seen ← gets (λ w, visibility_who_user w c x); when seen (send_who_reply c x None)
        | None => mret tt
        end ;;
        end_of_who c m
      else
        l ← gets w_client_array;
        who_loop c None l ;; end_of_who c m
  | None =>
      l ← gets w_client_array;
      who_loop c None l ;; end_of_who c "*"
  end.

(** ** WHOIS *)

Definition send_whois_user (c : ptr) (T : Client) : M unit :=
  cfg ← config;
  K ← client c;
  let overhead := length (format RPL_WHOISUSER [server_name cfg; cl_nick K; cl_nick T; cl_user T; cl_display_host T; []]) in
  if IRC_LINE_CONTENT_MAX <? overhead then mret tt else
  tell c RPL_WHOISUSER [server_name cfg; cl_nick K; cl_nick T; cl_user T; cl_display_host T;
    take (Nat.min (IRC_LINE_CONTENT_MAX - overhead) IRC_REALNAME_MAX) (cl_realname T)].

Definition whois_channels_payload_fits (cfg : ServerConfig) (K T : Client) (channels : cstr) : bool :=
  length (format RPL_WHOISCHANNELS [server_name cfg; cl_nick K; cl_nick T; channels]) <=? IRC_LINE_CONTENT_MAX.

(** The channels of [t] that [c] may see, each with the prefix of [t] there. *)
Definition whois_channel_tokens (w : World) (c t : ptr) : list cstr :=
  omap (λ ch,
    if visibility_whois_channel w c t ch then
      let C := the_channel w ch in
      let prefix := match channel_find_member C t with
                    | Some m => channel_privilege_prefix (m_privileges m)
                    | None => NUL
                    end in
      let token := if Ascii.eqb prefix NUL then ch_name C else prefix :: ch_name C in
      if length token <? IRC_CHANNEL_NAME_MAX + 2 then Some token else None
    else None) (cl_channels (the_client w t)).

Definition send_whois_channels (c t : ptr) : M unit :=
  cfg ← config;
  K ← client c;
  T ← client t;
  words ← gets (λ w, whois_channel_tokens w c t);
  let '(sent, final) := pack_words (whois_channels_payload_fits cfg K T) false [] words in
  for_each (sent ++ (if empty final then [] else [final]))
    (λ channels, tell c RPL_WHOISCHANNELS [server_name cfg; cl_nick K; cl_nick T; channels]).

Definition IRCD_GEOIP_ORG_MAX : nat := 255.

(** "name (code)", or whichever of the two there is. *)
Definition name_and_code (label name code : cstr) : cstr :=
  if negb (empty name) && negb (empty code) then format "GeoIP %s: %s (%s)" [label; name; code]
  else if negb (empty name) then format "GeoIP %s: %s" [label; name]
  else if negb (empty code) then format "GeoIP %s: %s" [label; code]
  else [].

Definition geoip_texts (g : ClientGeoIP) : list cstr :=
  let field (label value : cstr) := if empty value then [] else format "GeoIP %s: %s" [label; value] in
  List.filter (λ s, negb (empty s)) (map (snprintf (IRCD_GEOIP_ORG_MAX + 64))
    [name_and_code "Country" (gi_country_name g) (gi_country_code g);
     name_and_code "Region" (gi_region_name g) (gi_region_code g);
     field "City" (gi_city g); field "Continent" (gi_continent_code g); field "Network" (gi_network g);
     if (gi_asn g =? 0)%N then [] else format "GeoIP ASN: AS%u" [dec (Z.of_N (gi_asn g))];
     field "Organization" (gi_organization g)]).

Definition send_whois_geoip (c : ptr) (T : Client) : M unit :=
  if negb (cl_geoip_complete T) then mret tt else
  cfg ← config;
  K ← client c;
  for_each (geoip_texts (cl_geoip T)) (λ text, tell c RPL_WHOISSPECIAL [server_name cfg; cl_nick K; cl_nick T; text]).

Definition send_missing_whois (c : ptr) (query : cstr) : M unit :=
  cfg ← config;
  K ← client c;
  let missing_base := length (format ":%s 401 %s  :No such nick/channel" [server_name cfg; cl_nick K]) in
  let end_base := length (format ":%s 318 %s  :End of /WHOIS list." [server_name cfg; cl_nick K]) in
  let base := Nat.max missing_base end_base in
  if IRC_LINE_CONTENT_MAX <? base then mret tt else
  let query := take (IRC_LINE_CONTENT_MAX - base) query in
  tell c ":%s 401 %s %.*s :No such nick/channel" [server_name cfg; cl_nick K; query] ;;
  tell c ":%s 318 %s %.*s :End of /WHOIS list." [server_name cfg; cl_nick K; query].

(** Account, bot, help, operator and TLS lines. *)
Definition whois_flags (c : ptr) (T : Client) : M unit :=
  cfg ← config;
  K ← client c;
  let has := client_mode_has (cl_modes T) in
  let say (fmt : cstr) := tell c fmt [server_name cfg; cl_nick K; cl_nick T] in
  when (has CLIENT_MODE_REGISTERED)
    (if negb (empty (cl_account_name T)) && negb (strcaseeq (cl_nick T) (cl_account_name T))
     then tell c RPL_WHOISSPECIAL [server_name cfg; cl_nick K; cl_nick T;
            snprintf (IRC_NICK_MAX + 32) (format "is logged in as %s" [cl_account_name T])]
     else say RPL_WHOISREGNICK) ;;
  when (has CLIENT_MODE_BOT) (say RPL_WHOISBOT) ;;
  when (has CLIENT_MODE_HELPOP) (say RPL_WHOISHELPOP) ;;
  (let shown := negb (has CLIENT_MODE_HIDE_OPER) || visibility_is_oper K in
   if has CLIENT_MODE_NETADMIN && shown then say RPL_WHOISADMIN
   else when (has CLIENT_MODE_OPER && shown) (say RPL_WHOISOPERATOR)) ;;
  when (has CLIENT_MODE_SECURE)
    (tell c RPL_WHOISSECURE [server_name cfg; cl_nick K; cl_nick T; lit "is using a secure connection"]).

(** What only the client itself and operators are told. *)
Definition whois_private (c : ptr) (T : Client) : M unit :=
  cfg ← config;
  K ← client c;
  tell c RPL_WHOISHOST [server_name cfg; cl_nick K; cl_nick T;
    if empty (cl_real_host T) then cl_real_ip T else cl_real_host T; cl_real_ip T] ;;
  send_whois_geoip c T ;;
  when (cl_version_received T) (tell c RPL_WHOISVERSION [server_name cfg; cl_nick K; cl_nick T; cl_client_version T]) ;;
  when (cl_webirc_active T && cl_website_received T)
    (tell c RPL_WHOISWEBSITE [server_name cfg; cl_nick K; cl_nick T; cl_client_website T]).

Definition command_whois (c : ptr) (params : option cstr) : M CommandResult :=
  u ← command_require_registered c;
  if u : bool then keep else
  cfg ← config;
  K ← client c;
  match (params ← params; (strtok " ," params).1) with
  | None => reply c ERR_NONICKNAMEGIVEN [server_name cfg; cl_nick K]
  | Some name =>
      found ← find_nick name;
      match found with
      | None => send_missing_whois c name ;; keep
      | Some t =>
          T ← client t;
          when (negb (t =? c) && client_mode_has (cl_modes T) CLIENT_MODE_WHOIS_NOTICE &&
                client_mode_has (cl_modes T) (N.lor CLIENT_MODE_OPER CLIENT_MODE_NETADMIN))
            (tell t ":%s NOTICE %s :*** %s!%s@%s did a /WHOIS on you"
               [server_name cfg; cl_nick T; cl_nick K; cl_user K; cl_display_host K]) ;;
          send_whois_user c T ;;
          tell c RPL_WHOISSERVER [server_name cfg; cl_nick K; cl_nick T; server_name cfg; network_name cfg] ;;
          when (negb (empty (cl_away T))) (tell c RPL_AWAY [server_name cfg; cl_nick K; cl_nick T; cl_away T]) ;;
          whois_flags c T ;;
          send_whois_channels c t ;;
          (let trusted := (c =? t) || visibility_is_oper K in
           when (negb (client_mode_has (cl_modes T) CLIENT_MODE_HIDE_IDLE) || trusted)
             (t_now ← now;
              tell c RPL_WHOISIDLE [server_name cfg; cl_nick K; cl_nick T;
                dec (if (cl_last_activity T <=? t_now)%Z then (t_now - cl_last_activity T)%Z else 0%Z);
                dec (cl_signon_time T)]) ;;
           when trusted (whois_private c T)) ;;
          reply c RPL_ENDOFWHOIS [server_name cfg; cl_nick K; cl_nick T]
      end
  end.

(** ** WHOWAS *)

Section Whowas.
Context `{E : Env}.

Definition send_whowas_user (c : ptr) (r : WhowasRecord) : M unit :=
  cfg ← config;
  K ← client c;
  let overhead := length (format RPL_WHOWASUSER [server_name cfg; cl_nick K; wh_nick r; wh_user r; wh_host r; []]) in
  if IRC_LINE_CONTENT_MAX <? overhead then mret tt else
  tell c RPL_WHOWASUSER [server_name cfg; cl_nick K; wh_nick r; wh_user r; wh_host r;
    take (Nat.min (IRC_LINE_CONTENT_MAX - overhead) IRC_REALNAME_MAX) (wh_realname r)].

Definition whowas_query_length (cfg : ServerConfig) (K : Client) (query : cstr) (include_missing : bool) : nat :=
  let end_base := length (format ":%s 369 %s  :End of WHOWAS" [server_name cfg; cl_nick K]) in
  let missing_base := if include_missing
    then length (format ":%s 406 %s  :There was no such nickname" [server_name cfg; cl_nick K]) else 0 in
  let base := if include_missing && (end_base <? missing_base) then missing_base else end_base in
  if IRC_LINE_CONTENT_MAX <? base then 0 else Nat.min (length query) (IRC_LINE_CONTENT_MAX - base).

(** The count argument; anything that is no positive number means 1. *)
Definition whowas_wanted (count_text : option cstr) : nat :=
  match count_text with
  | None => 1
  | Some text =>
      let '(parsed, range, no_digits, rest) := strtoul text in
      if negb range && negb no_digits && empty rest && (0 <? parsed)%Z
      then if (Z.of_nat IRCD_WHOWAS_MAX <? parsed)%Z then IRCD_WHOWAS_MAX else Z.to_nat parsed
      else 1
  end.

(** The newest [wanted] records of the nickname. *)
Definition whowas_matches (w : World) (nick : cstr) (wanted : nat) : list WhowasRecord :=
  take wanted (List.filter (λ r, strcaseeq (wh_nick r) nick) (recent w)).

Definition whowas_when (r : WhowasRecord) : cstr :=
  let text := strftime_local "%Y-%m-%d %H:%M:%S %Z" (wh_when r) in
  if empty text || (63 <? length text) then lit "historical connection" else text.

Definition command_whowas (c : ptr) (params : option cstr) : M CommandResult :=
  u ← command_require_registered c;
  if u : bool then keep else
  cfg ← config;
  K ← client c;
  match params with
  | None => reply c ERR_NONICKNAMEGIVEN [server_name cfg; cl_nick K]
  | Some params =>
      let '(nick, rest) := strtok " " params in
      let '(count_text, _) := strtok " " rest in
      match nick with
      | None => reply c ERR_NONICKNAMEGIVEN [server_name cfg; cl_nick K]
      | Some nick =>
          records ← gets (λ w, whowas_matches w nick (whowas_wanted count_text));
          for_each records (λ r,
            send_whowas_user c r ;;
            tell c RPL_WHOISSERVER [server_name cfg; cl_nick K; wh_nick r; wh_server_name r; whowas_when r]) ;;
          (let missing := length records =? 0 in
           let query := take (whowas_query_length cfg K nick missing) nick in
           when missing (tell c ":%s 406 %s %.*s :There was no such nickname" [server_name cfg; cl_nick K; query]) ;;
           reply c ":%s 369 %s %.*s :End of WHOWAS" [server_name cfg; cl_nick K; query])
      end
  end.
End Whowas.

(** ** SILENCE ([src/commands/silence.c]) *)

Definition valid_silence_mask (mask : cstr) : bool :=
  negb (empty mask) && (length mask <=? IRC_CHANNEL_MASK_MAX) &&
  forallb (λ ch, negb ((byte ch <? 32)%N || (byte ch =? 127)%N)) mask.

Definition list_masks (c : ptr) : M unit :=
  cfg ← config;
  K ← client c;
  for_each (cl_silence_list K) (λ e, tell c RPL_SILELIST [server_name cfg; cl_nick K; cl_nick K; e]) ;;
  tell c RPL_ENDOFSILELIST [server_name cfg; cl_nick K].

(** Adding to a list of [c]: memory is allocated when there is an entry to add. *)
Definition on_presence (c : ptr) (f : bool → Client → Z * Client) : M Z :=
  K ← client c;
  ok ← (if ((f true K).1 =? 1)%Z then alloc else mret true);
  let '(rc, K') := f ok K in
  upd_client c (λ _, K') ;; mret rc.

Fixpoint silence_tokens (c : ptr) (l : list cstr) : M unit :=
  match l with
  | [] => mret tt
  | [] :: rest => silence_tokens c rest
  | (sign :: mask) :: rest =>
      if negb (Ascii.eqb sign "+" || Ascii.eqb sign "-") || empty mask || negb (valid_silence_mask mask)
      then silence_tokens c rest else
      if Ascii.eqb sign "+" then
        rc ← on_presence c (λ ok K, presence_silence_add ok K mask);
        if (rc <? 0)%Z then
          cfg ← config;
          K ← client c;
          tell c ERR_SILELISTFULL [server_name cfg; cl_nick K; mask]
        else silence_tokens c rest
      else
        upd_client c (λ K, (presence_silence_remove K mask).2) ;; silence_tokens c rest
  end.

Definition command_silence (c : ptr) (params : option cstr) : M CommandResult :=
  u ← command_require_registered c;
  if u : bool then keep else
  let text := default [] params in
  if empty text then list_masks c ;; keep else silence_tokens c (tokens " " text) ;; keep.

(** ** WATCH ([src/commands/watch.c]) *)

Definition valid_watch_nick_char (ch : ascii) : bool := isalnum ch || has_char ch "-_[]\`^{}|".

Definition valid_watch_nick (nick : cstr) : bool :=
  negb (empty nick) && (length nick <=? IRC_NICK_MAX) &&
  (isalpha (char0 nick) || strchr "[]\`_^{|}" (char0 nick)) &&
  forallb valid_watch_nick_char (tail nick).

Definition registered_holder (w : World) (nick : cstr) : option ptr :=
  c ← hash_get (w_clients_by_nick w) nick; if cl_registered (the_client w c) then Some c else None.

Definition tell_now_on (c : ptr) (S : Client) : M unit :=
  cfg ← config;
  K ← client c;
  tell c RPL_NOWON [server_name cfg; cl_nick K; cl_nick S; cl_user S; cl_display_host S; dec (cl_signon_time S)].

Definition report_current (c : ptr) (nick : cstr) : M unit :=
  cfg ← config;
  K ← client c;
  subject ← gets (λ w, registered_holder w nick);
  match subject with
  | Some s => S ← client s; tell_now_on c S
  | None => tell c RPL_NOWOFF [server_name cfg; cl_nick K; nick; lit "*"; lit "*"; dec 0]
  end.

Definition watch_list_payload_fits (cfg : ServerConfig) (K : Client) (payload : cstr) : bool :=
  length (format RPL_WATCHLIST [server_name cfg; cl_nick K; payload]) <=? IRC_LINE_CONTENT_MAX.

Definition send_watch_list_payload (c : ptr) (payload : cstr) : M unit :=
  cfg ← config;
  K ← client c;
  when (watch_list_payload_fits cfg K payload) (tell c RPL_WATCHLIST [server_name cfg; cl_nick K; payload]).

Definition end_of_watch (c : ptr) (letter : cstr) : M unit :=
  cfg ← config;
  K ← client c;
  tell c RPL_ENDOFWATCHLIST [server_name cfg; cl_nick K; letter].

Definition list_watch (c : ptr) : M unit :=
  cfg ← config;
  K ← client c;
  let '(sent, final) := pack_words (watch_list_payload_fits cfg K) true [] (cl_watch_list K) in
  for_each sent (send_watch_list_payload c) ;;
  send_watch_list_payload c final ;;
  end_of_watch c "L".

Definition count_watchers (w : World) (c : ptr) : nat :=
  let nick := cl_nick (the_client w c) in
  if empty nick then 0 else
  count_if (λ x, let W := the_client w x in cl_registered W && presence_watch_contains W nick) (w_client_array w).

Definition status_watch (c : ptr) : M unit :=
  list_watch c ;;
  cfg ← config;
  K ← client c;
  watchers ← gets (λ w, count_watchers w c);
  tell c RPL_WATCHSTAT [server_name cfg; cl_nick K; int_text (cl_watch_count K); int_text watchers].

Definition list_online_watch (c : ptr) : M unit :=
  K ← client c;
  for_each (cl_watch_list K) (λ nick,
    subject ← gets (λ w, registered_holder w nick);
    match subject with
    | Some s => S ← client s; tell_now_on c S
    | None => mret tt
    end) ;;
  end_of_watch c "L".

Definition clear_watch (K : Client) : Client := set_cl_watch_count 0 (set_cl_watch_list [] K).

Definition watch_letter (c : ptr) (letter : ascii) : M unit :=
  if Ascii.eqb letter "s" then status_watch c
  else if Ascii.eqb letter "l" then list_online_watch c
  else if Ascii.eqb letter "c" then upd_client c clear_watch ;; end_of_watch c "C"
  else mret tt.

Definition watch_off (c : ptr) (nick : cstr) : M unit :=
  K ← client c;
  let '(rc, K') := presence_watch_remove K nick in
  upd_client c (λ _, K') ;;
  if (rc <? 0)%Z then mret tt else
  cfg ← config;
  t ← now;
  subject ← gets (λ w, s ← registered_holder w nick;
    let T := the_client w s in Some (cl_user T, cl_display_host T));
  let '(user, host) := default (lit "*", lit "*") subject in
  tell c RPL_WATCHOFF [server_name cfg; cl_nick K; nick; user; host; dec (to_int t)].

Fixpoint watch_tokens (c : ptr) (l : list cstr) : M unit :=
  match l with
  | [] => mret tt
  | [] :: rest => watch_tokens c rest
  | [letter] :: rest => watch_letter c (tolower letter) ;; watch_tokens c rest
  | (sign :: nick) :: rest =>
      if negb (Ascii.eqb sign "+" || Ascii.eqb sign "-") || negb (valid_watch_nick nick) then watch_tokens c rest else
      if Ascii.eqb sign "+" then
        rc ← on_presence c (λ ok K, presence_watch_add ok K nick);
        if (rc <? 0)%Z then
          cfg ← config;
          K ← client c;
          tell c ERR_TOOMANYWATCH [server_name cfg; cl_nick K; nick]
        else report_current c nick ;; watch_tokens c rest
      else watch_off c nick ;; watch_tokens c rest
  end.

Definition command_watch (c : ptr) (params : option cstr) : M CommandResult :=
  u ← command_require_registered c;
  if u : bool then keep else
  let text := default [] params in
  if empty text then list_watch c ;; keep else watch_tokens c (tokens " " text) ;; keep.
