(* ===== verification/QueryProps.v ===== *)
(** * What the query commands keep to themselves

    Queries by ordinary clients are blind to the private fields of the others: running
    the command in two states that differ only there gives the same bytes. *)

From S2P Require Import Prelude CString Modes HashTable MaskMatch Output World Channel Invariant Policy Tags Numerics Ircv3 Presence Env Cloak Register JoinPart Query.

(** [K] with the private fields of [P]: address, host name, GeoIP data and what the
    client reported about itself. *)
Definition swap_private (P K : Client) : Client :=
  set_cl_real_ip (cl_real_ip P) (set_cl_real_host (cl_real_host P)
  (set_cl_geoip (cl_geoip P) (set_cl_geoip_complete (cl_geoip_complete P)
  (set_cl_version_received (cl_version_received P) (set_cl_client_version (cl_client_version P)
  (set_cl_website_received (cl_website_received P) (set_cl_client_website (cl_client_website P) K))))))).

(** The same server, but every client other than [c] has the private fields of [P]. *)
Definition with_private (c : ptr) (P : ptr → Client) (w : World) : World :=
  set_w_clients (map_imap (λ x K, Some (if decide (x = c) then K else swap_private (P x) K)) (w_clients w)) w.

(** The run of [m] for an ordinary client [c] does not depend on the private fields of
    the others, and leaves them as they are. *)
Definition blind {A} (c : ptr) (m : M A) : Prop :=
  ∀ P w, is_oper_client (the_client w c) = false →
    m (with_private c P w) = ((m w).1, with_private c P (m w).2) ∧ is_oper_client (the_client (m w).2 c) = false.

Section Blind.
Context (c : ptr).

Lemma the_client_private P w x :
  the_client (with_private c P w) x = the_client w x ∨
  x ≠ c ∧ the_client (with_private c P w) x = swap_private (P x) (the_client w x).
Proof.
  unfold the_client, with_private. simpl. rewrite map_lookup_imap.
  destruct (w_clients w !! x) as [K|]; simpl; [|by left]. destruct (decide (x = c)); [by left | by right].
Qed.
Lemma the_client_self P w : the_client (with_private c P w) c = the_client w c.
Proof. by destruct (the_client_private P w c) as [?|[? _]]. Qed.

(** A public field is the same in both states. *)
Lemma public_field {A} (f : Client → A) P w x :
  (∀ Q K, f (swap_private Q K) = f K) → f (the_client (with_private c P w) x) = f (the_client w x).
Proof. intros Hf. destruct (the_client_private P w x) as [->|[_ ->]]; [done | apply Hf]. Qed.

Lemma blind_ret {A} (a : A) : blind c (mret a).
Proof. by intros P w H. Qed.

Lemma blind_bind {A B} (m : M A) (k : A → M B) : blind c m → (∀ a, blind c (k a)) → blind c (m ≫= k).
Proof.
  intros Hm Hk P w H. destruct (Hm P w H) as [E H']. rewrite !run_bind, E.
  destruct (m w) as [a w']. apply Hk, H'.
Qed.

Lemma blind_gets {A} (f : World → A) : (∀ P w, f (with_private c P w) = f w) → blind c (gets f).
Proof. intros Hf P w H. unfold gets. simpl. by rewrite Hf. Qed.

Lemma blind_client {A} x (k : Client → M A) :
  (∀ Q K, k (swap_private Q K) = k K) → (∀ K, blind c (k K)) → blind c (client x ≫= k).
Proof.
  intros Hk Hb P w H. unfold client. rewrite !run_gets.
  assert (k (the_client (with_private c P w) x) = k (the_client w x)) as -> by (by apply (public_field k)).
  by apply Hb.
Qed.

Lemma blind_self {A} (k : Client → M A) : (∀ K, is_oper_client K = false → blind c (k K)) → blind c (client c ≫= k).
Proof. intros Hk P w H. unfold client. rewrite !run_gets, the_client_self. by apply Hk. Qed.

Lemma blind_for_each {A} (l : list A) (f : A → M unit) : (∀ a, blind c (f a)) → blind c (for_each l f).
Proof. intros Hf. induction l as [|x l IH]; simpl; [apply blind_ret | by apply blind_bind]. Qed.

Lemma blind_when b m : blind c m → blind c (when b m).
Proof. destruct b; simpl; [done | intros _; apply blind_ret]. Qed.

Lemma blind_sendf x fmt args : blind c (sendf x fmt args).
Proof.
  intros P w H. unfold sendf. destruct (fits _ _) as [line|]; [|done]. unfold send_line.
  rewrite (public_field cl_capabilities) by done. change (w_io (with_private c P w)) with (w_io w).
  change (the_conn (with_private c P w) x) with (the_conn w x).
  by destruct (client_send_line _ _ _ _ _) as [[rc serial] conn].
Qed.

Lemma blind_tell x fmt args : blind c (tell x fmt args).
Proof. unfold tell. apply blind_bind; [apply blind_sendf | intros; apply blind_ret]. Qed.

Lemma blind_upd_self f :
  (∀ K, is_oper_client K = false → is_oper_client (f K) = false) → blind c (upd_client c f).
Proof.
  intros Hf P w H. unfold upd_client, modify. cbn [fst snd]. split.
  - f_equal. unfold put_client, with_private. change (w_clients (set_w_clients ?m w)) with m.
    change (set_w_clients ?a (set_w_clients ?b w)) with (set_w_clients a w). f_equal. apply map_eq. intros i.
    destruct (decide (i = c)) as [->|Hi].
    + rewrite lookup_alter_eq, !map_lookup_imap, lookup_alter_eq.
      destruct (w_clients w !! c); cbn; [by rewrite !decide_True | done].
    + by rewrite lookup_alter_ne, !map_lookup_imap, lookup_alter_ne by done.
  - rewrite the_client_put. case_decide; [|done].
    unfold the_client in H. destruct (w_clients w !! c); [by apply Hf | done].
Qed.

(** Steps on the rest of the server. *)
Lemma blind_modify g :
  (∀ P w, g (with_private c P w) = with_private c P (g w)) → (∀ w, w_clients (g w) = w_clients w) → blind c (modify g).
Proof. intros Hg Hc P w H. unfold modify. simpl. rewrite Hg. split; [done|]. unfold the_client in *. by rewrite Hc. Qed.
Lemma blind_alloc : blind c alloc.
Proof. by intros P w H. Qed.
End Blind.

(** Follows the syntax of a handler; public fields are compared by computation. *)
Ltac blind_step :=
  match goal with
  | |- blind _ (mret _) => apply blind_ret
  | |- blind _ keep => apply blind_ret
  | |- blind _ config => by apply blind_gets
  | |- blind _ now => by apply blind_gets
  | |- blind _ alloc => apply blind_alloc
  | |- blind _ (find_nick _) => by apply blind_gets
  | |- blind _ (find_channel _) => by apply blind_gets
  | |- blind _ (channel _) => by apply blind_gets
  | |- blind _ (overflowed _) => by apply blind_gets
  | |- blind _ (tell _ _ _) => apply blind_tell
  | |- blind _ (reply _ _ _) => unfold reply
  | |- blind _ (when _ _) => apply blind_when
  | |- blind _ (for_each _ _) => apply blind_for_each; intros
  | |- blind ?c (client ?c ≫= _) => apply blind_self; intros
  | |- blind _ (client _ ≫= _) => apply blind_client; [reflexivity | intros]
  | |- blind _ (_ ≫= _) => apply blind_bind; [|intros]
  | |- blind _ (if ?b then _ else _) => destruct b eqn:?
  | |- blind _ (match ?x with _ => _ end) => destruct x eqn:?
  | |- blind _ (let _ := _ in _) => cbv zeta
  | |- _ => solve [eauto with frame]
  end.
Ltac blinds := repeat blind_step.

Section Commands.
Context `{E : Env} (c : ptr).

Lemma require_registered_blind : blind c (command_require_registered c).
Proof. unfold command_require_registered. blinds. Qed.
Lemma send_query_blind fmt q : blind c (send_query_numeric c fmt q).
Proof. unfold send_query_numeric. blinds. Qed.
#[local] Hint Resolve require_registered_blind send_query_blind : frame.

Lemma ison_payload_blind p : blind c (send_ison_payload c p).
Proof. unfold send_ison_payload. blinds. Qed.
#[local] Hint Resolve ison_payload_blind : frame.

(** What depends on public fields of several clients. *)
Lemma omap_same {A B} (f g : A → option B) (l : list A) : (∀ x, f x = g x) → omap f l = omap g l.
Proof. intros Hfg. induction l as [|x l IH]; [done|]. cbn. by rewrite Hfg, IH. Qed.

Lemma online_nicks_public P w l : online_nicks (with_private c P w) l = online_nicks w l.
Proof.
  apply omap_same. intros n. change (w_clients_by_nick (with_private c P w)) with (w_clients_by_nick w).
  destruct (hash_get _ n) as [x|]; cbn; [|done]. by rewrite (public_field c cl_registered), (public_field c cl_nick).
Qed.
Lemma users_online_public P w : users_online (with_private c P w) = users_online w.
Proof. apply omap_same. intros x. cbn. by rewrite (public_field c cl_registered), (public_field c cl_modes). Qed.
Lemma visible_channels_public P w : visible_channels (with_private c P w) c = visible_channels w c.
Proof. unfold visible_channels. by rewrite the_client_self. Qed.
Lemma registered_holder_public P w nick : registered_holder (with_private c P w) nick = registered_holder w nick.
Proof.
  unfold registered_holder. change (w_clients_by_nick (with_private c P w)) with (w_clients_by_nick w).
  destruct (hash_get _ nick) as [x|]; cbn; [|done]. by rewrite (public_field c cl_registered).
Qed.
Lemma count_watchers_public P w : count_watchers (with_private c P w) c = count_watchers w c.
Proof.
  unfold count_watchers, count_if. rewrite the_client_self. case_if; [done|].
  change (w_client_array (with_private c P w)) with (w_client_array w). f_equal.
  apply filter_ext. intros x. rewrite (public_field c cl_registered) by done. f_equal.
  by apply (public_field c (λ W, presence_watch_contains W (cl_nick (the_client w c)))).
Qed.
Lemma who_user_public P w x : visibility_who_user (with_private c P w) c x = visibility_who_user w c x.
Proof.
  unfold visibility_who_user, visibility_share_channel. rewrite the_client_self.
  by rewrite !(public_field c cl_registered), !(public_field c cl_modes) by done.
Qed.
Lemma whois_channel_public P w x ch :
  visibility_whois_channel (with_private c P w) c x ch = visibility_whois_channel w c x ch.
Proof. unfold visibility_whois_channel. by rewrite the_client_self, !(public_field c cl_modes) by done. Qed.
Lemma whois_tokens_public P w x : whois_channel_tokens (with_private c P w) c x = whois_channel_tokens w c x.
Proof.
  unfold whois_channel_tokens. rewrite (public_field c cl_channels) by done. apply omap_same. intros ch.
  by rewrite whois_channel_public.
Qed.

Lemma command_ison_blind p : blind c (command_ison c p).
Proof. unfold command_ison. blinds. apply blind_gets. intros. apply online_nicks_public. Qed.

Lemma command_userhost_blind p : blind c (command_userhost c p).
Proof. unfold command_userhost. blinds. Qed.

(** USERIP is for operators. *)
Lemma command_userip_blind p : blind c (command_userip c p).
Proof.
  unfold command_userip. apply blind_bind; [blinds | intros u]. destruct u; [blinds|].
  apply blind_bind; [blinds | intros cfg]. apply blind_self. intros K HK. unfold is_oper_client in HK.
  rewrite HK. cbv iota beta delta [negb]. blinds.
Qed.

#[local] Hint Extern 1 (blind c (gets _)) => apply blind_gets; intros; (apply users_online_public || apply visible_channels_public
  || apply count_watchers_public || apply registered_holder_public || apply who_user_public || apply whois_tokens_public || reflexivity) : frame.

Lemma command_lusers_blind p : blind c (command_lusers c p).
Proof.
  unfold command_lusers. blinds.
  apply blind_modify; intros; unfold raise_high_water; by destruct (w_high_water _).
Qed.

Lemma list_chain_blind l : blind c (list_chain c l).
Proof. induction l as [|ch l IH]; cbn [list_chain]; blinds; apply IH. Qed.
#[local] Hint Resolve list_chain_blind : frame.
Lemma list_buckets_blind l : blind c (list_buckets c l).
Proof. induction l as [|ch l IH]; cbn [list_buckets]; blinds; apply IH. Qed.
#[local] Hint Resolve list_buckets_blind : frame.
Lemma command_list_blind p : blind c (command_list c p).
Proof. unfold command_list. blinds. Qed.

Lemma send_who_reply_blind x ch : blind c (send_who_reply c x ch).
Proof. unfold send_who_reply. blinds. Qed.
Lemma end_of_who_blind q : blind c (end_of_who c q).
Proof. unfold end_of_who, send_end_of_who_query. blinds. Qed.
#[local] Hint Resolve send_who_reply_blind end_of_who_blind : frame.
Lemma who_loop_blind ch l : blind c (who_loop c ch l).
Proof. induction l as [|x l IH]; cbn [who_loop]; blinds; apply IH. Qed.
#[local] Hint Resolve who_loop_blind : frame.
Lemma command_who_blind p : blind c (command_who c p).
Proof. unfold command_who. blinds. Qed.

(** WHOIS.  Of another client, an ordinary one is told public fields only. *)
Lemma send_whois_user_blind T : blind c (send_whois_user c T).
Proof. unfold send_whois_user. blinds. Qed.
Lemma send_missing_whois_blind q : blind c (send_missing_whois c q).
Proof. unfold send_missing_whois. blinds. Qed.
Lemma send_whois_geoip_blind T : blind c (send_whois_geoip c T).
Proof. unfold send_whois_geoip. blinds. Qed.
#[local] Hint Resolve send_whois_user_blind send_missing_whois_blind send_whois_geoip_blind : frame.
Lemma whois_private_blind T : blind c (whois_private c T).
Proof. unfold whois_private. blinds. Qed.
Lemma whois_flags_blind T : blind c (whois_flags c T).
Proof. unfold whois_flags. blinds. Qed.
Lemma send_whois_channels_blind t : blind c (send_whois_channels c t).
Proof. unfold send_whois_channels. blinds. Qed.
#[local] Hint Resolve whois_private_blind whois_flags_blind send_whois_channels_blind : frame.

(** What WHOIS reads of its target before it comes to the private part. *)
Lemma send_whois_user_public Q K : send_whois_user c (swap_private Q K) = send_whois_user c K.
Proof. unfold send_whois_user. by cbn [swap_private cl_nick cl_user cl_display_host cl_realname]. Qed.
Lemma whois_flags_public Q K : whois_flags c (swap_private Q K) = whois_flags c K.
Proof.
  unfold whois_flags. change (cl_modes (swap_private Q K)) with (cl_modes K).
  change (cl_nick (swap_private Q K)) with (cl_nick K).
  by change (cl_account_name (swap_private Q K)) with (cl_account_name K).
Qed.

Lemma command_whois_blind p : blind c (command_whois c p).
Proof.
  unfold command_whois. apply blind_bind; [blinds | intros u]. destruct u; [blinds|].
  apply blind_bind; [blinds | intros cfg]. apply blind_self. intros K HK.
  destruct (params ← p; (strtok " ," params).1) as [name|]; [|blinds].
  apply blind_bind; [blinds | intros found]. destruct found as [t|]; [|blinds].
  destruct (decide (t = c)) as [->|Ht]; [apply blind_self; intros; blinds|].
  unfold visibility_is_oper. rewrite HK. apply not_eq_sym, Nat.eqb_neq in Ht. rewrite Ht.
  rewrite (Nat.eqb_sym t c), Ht. cbn [orb negb andb when].
  apply blind_client; [|intros; blinds]. intros Q T. rewrite send_whois_user_public, whois_flags_public. reflexivity.
Qed.

(** WHOWAS reads no client but its own. *)
Lemma send_whowas_user_blind r : blind c (send_whowas_user c r).
Proof. unfold send_whowas_user. blinds. Qed.
#[local] Hint Resolve send_whowas_user_blind : frame.
Lemma command_whowas_blind p : blind c (command_whowas c p).
Proof. unfold command_whowas. blinds. Qed.

(** SILENCE and WATCH change lists of [c] itself. *)
Definition keeps_modes (f : bool → Client → Z * Client) : Prop := ∀ ok K, cl_modes (f ok K).2 = cl_modes K.

Lemma on_presence_blind f : keeps_modes f → blind c (on_presence c f).
Proof.
  intros Hf. unfold on_presence. apply blind_self. intros K HK.
  apply blind_bind; [destruct (_ =? 1)%Z; blinds | intros ok].
  specialize (Hf ok K). destruct (f ok K) as [rc K']. apply blind_bind; [|intros; blinds].
  apply blind_upd_self. intros _ _. unfold is_oper_client in *. simpl in Hf. by rewrite Hf.
Qed.
Lemma upd_modes_blind f : (∀ K, cl_modes (f K) = cl_modes K) → blind c (upd_client c f).
Proof. intros Hf. apply blind_upd_self. intros K. unfold is_oper_client. by rewrite Hf. Qed.

Lemma silence_add_modes m : keeps_modes (λ ok K, presence_silence_add ok K m).
Proof. intros ok K. unfold presence_silence_add. by repeat case_if. Qed.
Lemma silence_remove_modes m K : cl_modes (presence_silence_remove K m).2 = cl_modes K.
Proof. unfold presence_silence_remove. case_if; [done|]. by destruct (remove_first _ _) as [[] l]. Qed.
Lemma watch_add_modes n : keeps_modes (λ ok K, presence_watch_add ok K n).
Proof. intros ok K. unfold presence_watch_add. by repeat case_if. Qed.
Lemma watch_remove_modes K n : cl_modes (presence_watch_remove K n).2 = cl_modes K.
Proof. unfold presence_watch_remove. case_if; [done|]. by destruct (remove_first _ _) as [[] l]. Qed.
#[local] Hint Resolve on_presence_blind upd_modes_blind silence_add_modes silence_remove_modes watch_add_modes : frame.

Lemma list_masks_blind : blind c (list_masks c).
Proof. unfold list_masks. blinds. Qed.
#[local] Hint Resolve list_masks_blind : frame.
Lemma silence_tokens_blind l : blind c (silence_tokens c l).
Proof.
  induction l as [|[|sign m] l IH]; cbn [silence_tokens]; [blinds | apply IH |].
  case_if; [apply IH|]. destruct (Ascii.eqb sign "+").
  - apply blind_bind; [eauto with frame | intros rc]. destruct (rc <? 0)%Z; [blinds | apply IH].
  - apply blind_bind; [eauto with frame | intros; apply IH].
Qed.
#[local] Hint Resolve silence_tokens_blind : frame.
Lemma command_silence_blind p : blind c (command_silence c p).
Proof. unfold command_silence. blinds. Qed.

Lemma tell_now_on_blind s : blind c (client s ≫= tell_now_on c).
Proof. apply blind_client; [intros Q K; unfold tell_now_on; reflexivity | intros K; unfold tell_now_on; blinds]. Qed.
Lemma end_of_watch_blind l : blind c (end_of_watch c l).
Proof. unfold end_of_watch. blinds. Qed.
#[local] Hint Resolve tell_now_on_blind end_of_watch_blind : frame.
Lemma report_current_blind n : blind c (report_current c n).
Proof.
  unfold report_current. apply blind_bind; [blinds | intros]. apply blind_self. intros.
  apply blind_bind; [blinds | intros []; [apply tell_now_on_blind | blinds]].
Qed.
Lemma watch_payload_blind p : blind c (send_watch_list_payload c p).
Proof. unfold send_watch_list_payload. blinds. Qed.
#[local] Hint Resolve report_current_blind watch_payload_blind : frame.
Lemma list_watch_blind : blind c (list_watch c).
Proof. unfold list_watch. blinds. Qed.
#[local] Hint Resolve list_watch_blind : frame.
Lemma watch_letter_blind l : blind c (watch_letter c l).
Proof.
  unfold watch_letter, status_watch, list_online_watch. repeat case_if; [blinds | | | blinds].
  - apply blind_self. intros. apply blind_bind; [apply blind_for_each; intros|blinds].
    apply blind_bind; [blinds | intros []; [apply tell_now_on_blind | blinds]].
  - apply blind_bind; [by apply upd_modes_blind | blinds].
Qed.
Lemma registered_identity_public nick :
  blind c (gets (λ w, s ← registered_holder w nick; let T := the_client w s in Some (cl_user T, cl_display_host T))).
Proof.
  apply blind_gets. intros. rewrite registered_holder_public. destruct (registered_holder w nick); cbn; [|done].
  by rewrite (public_field c cl_user), (public_field c cl_display_host).
Qed.
Lemma watch_off_blind n : blind c (watch_off c n).
Proof.
  unfold watch_off. apply blind_self. intros K HK. pose proof (watch_remove_modes K n) as Hm.
  destruct (presence_watch_remove K n) as [rc K']. apply blind_bind.
  - apply blind_upd_self. intros _ _. unfold is_oper_client in *. simpl in Hm. by rewrite Hm.
  - intros _. pose proof registered_identity_public. blinds.
Qed.
#[local] Hint Resolve watch_letter_blind watch_off_blind : frame.
Lemma watch_tokens_blind l : blind c (watch_tokens c l).
Proof.
  induction l as [|[|sign [|x nick]] l IH]; cbn [watch_tokens]; [blinds | apply IH | |].
  - apply blind_bind; [blinds | intros; apply IH].
  - case_if; [apply IH|]. destruct (Ascii.eqb sign "+"); [|apply blind_bind; [blinds | intros; apply IH]].
    apply blind_bind; [eauto with frame | intros rc]. destruct (rc <? 0)%Z; [blinds|].
    apply blind_bind; [blinds | intros; apply IH].
Qed.
#[local] Hint Resolve watch_tokens_blind : frame.
Lemma command_watch_blind p : blind c (command_watch c p).
Proof. unfold command_watch. blinds. Qed.

(** The queries of this component. *)
Definition queries (params : option cstr) : list (M CommandResult) :=
  [command_ison c params; command_userhost c params; command_userip c params; command_lusers c params;
   command_list c params; command_who c params; command_whois c params; command_whowas c params;
   command_silence c params; command_watch c params].

(** C21: no query leaks what is private.  The address, the host name behind the cloak,
    the GeoIP data and what a client reported about its software and web site can be
    anything: the answers an ordinary client gets to ISON, USERHOST, USERIP, LUSERS,
    LIST, WHO, WHOIS, WHOWAS, SILENCE and WATCH, every byte queued and sent to anybody,
    are the same, and so is the rest of the server afterwards. *)
Theorem queries_keep_private params w P m :
  is_oper_client (the_client w c) = false → m ∈ queries params →
  (m (with_private c P w)).1 = (m w).1 ∧
  w_io (m (with_private c P w)).2 = w_io (m w).2 ∧
  (m (with_private c P w)).2 = with_private c P (m w).2.
Proof.
  intros Ho Hm. assert (blind c m) as Hb; [|by destruct (Hb P w Ho) as [-> _]].
  unfold queries in Hm. rewrite !elem_of_cons, elem_of_nil in Hm. destruct_or!; try done; subst m.
  - apply command_ison_blind.
  - apply command_userhost_blind.
  - apply command_userip_blind.
  - apply command_lusers_blind.
  - apply command_list_blind.
  - apply command_who_blind.
  - apply command_whois_blind.
  - apply command_whowas_blind.
  - apply command_silence_blind.
  - apply command_watch_blind.
Qed.
End Commands.
