(* ===== verification/OperProps.v ===== *)
(** * What operator status means

    Permissions and masks survive being written and read back; OPER grants what the
    stored account says to whoever knows its password; and without the permission an
    operator command does nothing. *)

From S2P Require Import Prelude CString Modes HashTable MaskMatch Output World Channel Invariant Policy Tags Numerics Ircv3 Presence Env Cloak Register Connection Services Registry JoinPart Query Oper.

(** ** Lists separated by commas *)

Definition commas (l : list cstr) : cstr :=
  match l with [] => [] | t :: l => t ++ concat (map (cons ","%char) l) end.

Definition comma_free (t : cstr) : Prop := t ≠ [] ∧ (","%char ∉ t).

Lemma commas_snoc l t : Forall comma_free l → commas (l ++ [t]) = commas l ++ ((if empty (commas l) then [] else lit ",") ++ t).
Proof.
  destruct l as [|a l]; [simpl; intros; by rewrite app_nil_r|]. intros [[Ha _] _]%Forall_cons. simpl.
  destruct a as [|x a]; [done|]. rewrite map_app, concat_app. simpl. by rewrite app_nil_r, <-app_assoc.
Qed.

Lemma tokens_fuel_commas fuel l : Forall comma_free l → length (commas l) < fuel → tokens_fuel fuel "," (commas l) = l.
Proof.
  revert fuel. induction l as [|t l IH]; intros fuel Hl Hf; [by destruct fuel|].
  apply Forall_cons in Hl as [[Hne Ht] Hl]. destruct fuel as [|fuel]; [lia|]. cbn [tokens_fuel].
  assert (strtok "," (commas (t :: l)) = (Some t, commas l)) as ->.
  { unfold commas at 1. rewrite strtok_start; [|done|set_solver|by destruct l; intros ?? [= <- _]; set_solver].
    destruct l as [|u l]; simpl; [done|]. done. }
  rewrite IH; [done..|]. destruct t as [|x t]; [done|].
  destruct l as [|u l]; simpl in *; rewrite ?length_app in *; simpl in *; rewrite ?length_app in *; lia.
Qed.

Lemma tokens_commas l : Forall comma_free l → tokens "," (commas l) = l.
Proof. intros Hl. apply tokens_fuel_commas; [done | lia]. Qed.

(** ** Permissions *)

Definition holds (permissions : N) (e : cstr * N) : bool := negb (N.land permissions e.2 =? 0)%N.
Definition names_of (permissions : N) (l : list (cstr * N)) : list cstr := map fst (List.filter (holds permissions) l).
Definition union_of (l : list (cstr * N)) : N := foldr (λ e r, N.lor e.2 r) 0%N l.

Lemma format_names_fits p size l pre :
  Forall comma_free pre → Forall comma_free (map fst l) → length (commas (pre ++ names_of p l)) < size →
  format_names p size l (commas pre) = commas (pre ++ names_of p l).
Proof.
  revert pre. induction l as [|[name b] l IH]; intros pre Hpre Hl Hlen; [by rewrite app_nil_r|].
  apply Forall_cons in Hl as [Hn Hl]. cbn [format_names]. unfold names_of, holds in *. cbn [List.filter snd] in *.
  destruct (N.land p b =? 0)%N; cbn [negb] in *; [by apply IH|]. cbn [map fst] in *.
  assert (pre ++ name :: map fst (List.filter (λ e, negb (N.land p e.2 =? 0)%N) l) = (pre ++ [name]) ++
    map fst (List.filter (λ e, negb (N.land p e.2 =? 0)%N) l)) as Hsplit by (by rewrite <-app_assoc).
  rewrite Hsplit in *. clear Hsplit.
  assert (Hmono : ∀ l1 l2, length (commas l1) ≤ length (commas (l1 ++ l2))).
  { intros [|a l1] l2; [simpl; lia|]. simpl. rewrite map_app, concat_app, !length_app. lia. }
  pose proof (Hmono (pre ++ [name]) (map fst (List.filter (λ e, negb (N.land p e.2 =? 0)%N) l))) as Hm.
  rewrite commas_snoc, !length_app in Hm by done.
  rewrite <-commas_snoc by done. destruct (_ <=? _) eqn:Hroom; bools; [rewrite !length_app in Hroom; lia|].
  apply IH; [apply Forall_app; by split; [|constructor] | done..].
Qed.

(** Reading a list of known names yields their bits. *)
Lemma parse_known l acc :
  Forall (λ e, lookup_permission e.1 = Some e.2 ∧ streq e.1 "oper" = false ∧
    drop_while (λ ch, Ascii.eqb ch " " || Ascii.eqb ch "009"%char) e.1 = e.1) l →
  parse_tokens (map fst l) acc = Some (N.lor acc (union_of l)).
Proof.
  revert acc. induction l as [|e l IH]; intros acc Hl; cbn [map parse_tokens union_of foldr]; [by rewrite N.lor_0_r|].
  apply Forall_cons in Hl as [(H1 & H2 & H3) Hl]. cbv zeta. by rewrite H3, H2, H1, IH, <-N.lor_assoc by done.
Qed.

(** The bits of the table, by number. *)
Definition permission_bits : list N := [0; 1; 2; 10; 3; 4; 5; 6; 7; 13; 12; 14; 9; 8; 11]%N.

Lemma union_spec p l ks i :
  map snd l = map bit ks →
  N.testbit (union_of (List.filter (holds p) l)) i = N.testbit p i && existsb (N.eqb i) ks.
Proof.
  revert l. induction ks as [|k ks IH]; intros [|[n b] l] Hl; try done; [by rewrite andb_false_r|].
  injection Hl as -> Hl.
  specialize (IH l Hl). cbn [List.filter]. unfold holds at 1. cbn [snd]. rewrite mode_has_bit. cbn [existsb].
  destruct (N.testbit p k) eqn:Hk; cbn [union_of foldr snd]; fold (union_of (List.filter (holds p) l)).
  - rewrite N.lor_spec, IH, testbit_bit. destruct (N.eqb_spec i k) as [->|Hne].
    + by rewrite bool_decide_true, Hk.
    + by rewrite bool_decide_false.
  - rewrite IH. destruct (N.eqb_spec i k) as [->|Hne]; [by rewrite Hk | done].
Qed.

Lemma bits_upto l n i : Forall (λ k, (k < n)%N) l → (∀ k, (k < n)%N → k ∈ l) → existsb (N.eqb i) l = (i <? n)%N.
Proof.
  intros Hl Hall. apply eq_true_iff_eq. rewrite existsb_exists, N.ltb_lt. split.
  - intros (k & Hk & ->%N.eqb_eq). rewrite Forall_forall in Hl. apply Hl. by apply list_elem_of_In.
  - intros Hi. exists i. split; [by apply list_elem_of_In, Hall | apply N.eqb_refl].
Qed.

(** The bits below [n] are all of [2 ^ n - 1]. *)
Lemma land_ones p n : N.land p (2 ^ n - 1) = p ↔ (∀ i, N.testbit p i = N.testbit p i && (i <? n)%N).
Proof.
  rewrite N.sub_1_r, <-N.ones_equiv. split.
  - intros H i. rewrite <-H at 1. rewrite N.land_spec. destruct (N.ltb_spec i n); [by rewrite N.ones_spec_low, ?andb_true_r by done | by rewrite N.ones_spec_high, ?andb_false_r by done].
  - intros H. apply N.bits_inj. intros i. rewrite N.land_spec, H.
    destruct (N.ltb_spec i n); [by rewrite N.ones_spec_low, ?andb_true_r by done | by rewrite N.ones_spec_high, ?andb_false_r by done].
Qed.

Lemma union_all p : union_of (List.filter (holds p) permission_names) = N.land p OPER_PERMISSION_ALL.
Proof.
  apply N.bits_inj. intros i. rewrite (union_spec p _ permission_bits) by reflexivity.
  rewrite (bits_upto _ 15); [|by repeat constructor|].
  - unfold OPER_PERMISSION_ALL. rewrite N.land_spec. f_equal. change (2 ^ 15 - 1)%N with (N.ones 15).
    destruct (N.ltb_spec i 15); [by rewrite N.ones_spec_low, ?andb_true_r by done | by rewrite N.ones_spec_high, ?andb_false_r by done].
  - intros k Hk. unfold permission_bits. rewrite !elem_of_cons. lia.
Qed.

Lemma commas_length l : length (commas l) ≤ pred (list_sum (map (λ t, S (length t)) l)).
Proof.
  destruct l as [|t l]; [done|]. simpl. rewrite length_app. enough (length (concat (map (cons ","%char) l)) = list_sum (map (λ t, S (length t)) l)) by lia.
  induction l as [|u l IH]; [done|]. simpl. rewrite length_app. lia.
Qed.
Lemma names_length p l : list_sum (map (λ t, S (length t)) (names_of p l)) ≤ list_sum (map (λ t, S (length t)) (map fst l)).
Proof.
  unfold names_of, list_sum. induction l as [|e l IH]; [done|]. cbn [List.filter map foldr].
  destruct (holds p e); cbn [map foldr]; lia.
Qed.

(** The names of the table, with their commas, take 152 bytes. *)
Lemma format_permissions p size :
  153 ≤ size → oper_permissions_format p size = commas (names_of p permission_names).
Proof.
  intros Hs. apply (format_names_fits p size permission_names []); [constructor| |].
  - repeat constructor; simpl; set_solver.
  - pose proof (commas_length (names_of p permission_names)) as H1. pose proof (names_length p permission_names) as H2.
    assert (list_sum (map (λ t, S (length t)) (map fst permission_names)) = 153) as H3 by reflexivity. simpl app. lia.
Qed.

Lemma names_comma_free p : Forall comma_free (names_of p permission_names).
Proof.
  unfold names_of. assert (Forall (λ e : cstr * N, comma_free e.1) permission_names) as H by (repeat constructor; simpl; set_solver).
  apply Forall_map. rewrite Forall_forall in H |- *. intros e [He _]%list_elem_of_In%filter_In. apply H, list_elem_of_In, He.
Qed.

Lemma parse_format p size :
  N.land p OPER_PERMISSION_ALL = p → 153 ≤ size → oper_permissions_parse (oper_permissions_format p size) = Some p.
Proof.
  intros Hp Hs. rewrite format_permissions by done. set (l := names_of p permission_names).
  assert (Hlen : length (commas l) ≤ 152).
  { pose proof (commas_length l). pose proof (names_length p permission_names).
    assert (list_sum (map (λ t, S (length t)) (map fst permission_names)) = 153) as H3 by reflexivity. unfold l in *. lia. }
  unfold oper_permissions_parse. assert ((512 <=? length (commas l)) = false) as -> by (apply Nat.leb_gt; lia).
  assert (Hread : parse_tokens l 0 = Some p).
  { unfold l, names_of. rewrite parse_known, N.lor_0_l, union_all, Hp; [done|].
    assert (Forall (λ e, lookup_permission e.1 = Some e.2 ∧ streq e.1 "oper" = false ∧
      drop_while (λ ch, Ascii.eqb ch " " || Ascii.eqb ch "009"%char) e.1 = e.1) permission_names) as H
      by (repeat (apply Forall_cons; split; [split_and!; reflexivity|]); constructor).
    rewrite Forall_forall in H |- *. intros e [He _]%list_elem_of_In%filter_In. apply H, list_elem_of_In, He. }
  rewrite tokens_commas by apply names_comma_free. destruct (commas l) eqn:E; [|exact Hread].
  pose proof (names_comma_free p) as H. fold l in H. destruct l as [|t l']; [by rewrite <-Hread|].
  apply Forall_cons in H as [[Ht _] _]. by destruct t.
Qed.

Lemma lookup_permission_all name b : lookup_permission name = Some b → N.land b OPER_PERMISSION_ALL = b.
Proof.
  unfold lookup_permission. destruct (find _ _) as [e|] eqn:Hf; simpl; [|done]. intros [= <-]. apply find_some in Hf as [He _].
  assert (Forall (λ e : cstr * N, N.land e.2 OPER_PERMISSION_ALL = e.2) permission_names) as H by (by repeat constructor).
  rewrite Forall_forall in H. apply H, list_elem_of_In, He.
Qed.
Lemma parse_tokens_all l acc p :
  N.land acc OPER_PERMISSION_ALL = acc → parse_tokens l acc = Some p → N.land p OPER_PERMISSION_ALL = p.
Proof.
  revert acc. induction l as [|t l IH]; cbn [parse_tokens]; intros acc Ha; [by intros [= <-]|]. cbv zeta.
  destruct (streq _ _); [by apply IH|]. destruct (lookup_permission _) as [b|] eqn:Hb; [|done].
  apply IH. rewrite N.land_lor_distr_l, Ha. by rewrite (lookup_permission_all _ _ Hb).
Qed.

(** ** Server-notice masks *)

Definition letters_union (l : cstr) : N := foldr (λ ch r, N.lor (snotice_mask_for_letter ch) r) 0%N l.

Definition snotice_bits : list N := [0; 1; 2; 3; 4; 5; 6; 7; 8; 9; 10; 11; 12; 13]%N.

Lemma letters_union_spec m l ks i :
  map snotice_mask_for_letter l = map bit ks →
  N.testbit (letters_union (List.filter (λ ch, negb (N.land m (snotice_mask_for_letter ch) =? 0)%N) l)) i =
  N.testbit m i && existsb (N.eqb i) ks.
Proof.
  intros Hl. rewrite <-(union_spec m (map (λ ch, ([ch], snotice_mask_for_letter ch)) l) ks i).
  - f_equal. induction l as [|ch l IH] in ks, Hl |- *; [done|]. destruct ks as [|k ks]; [done|]. injection Hl as Hk Hl.
    specialize (IH ks Hl). cbn [map List.filter]. unfold holds at 1. cbn [snd].
    destruct (negb _); [|exact IH]. cbn [letters_union union_of foldr snd]. unfold letters_union, union_of in IH. by rewrite IH.
  - by rewrite map_map.
Qed.

Lemma snotice_format_union m size :
  N.land m SNOTICE_ALL = m → 15 ≤ size → letters_union (snotice_mask_format m size) = m.
Proof.
  intros Hm Hs. unfold snotice_mask_format. rewrite take_ge.
  - apply N.bits_inj. intros i. rewrite (letters_union_spec m _ snotice_bits) by reflexivity.
    rewrite (bits_upto _ 14); [|by repeat constructor|].
    + symmetry. by apply land_ones.
    + intros k Hk. unfold snotice_bits. rewrite !elem_of_cons. lia.
  - pose proof (filter_length_le (λ ch, negb (N.land m (snotice_mask_for_letter ch) =? 0)%N) (lit "cokbgwdsavrxmf")) as H.
    change (length (lit "cokbgwdsavrxmf")) with 14 in H. lia.
Qed.

(** Reading known letters adds their bits to the mask of the client. *)
Definition known_letter (ch : ascii) : Prop :=
  (ch ∉ lit " +-*") ∧ snotice_mask_for_letter ch ≠ 0%N.

Lemma snotice_loop_known c p w K :
  w_clients w !! c = Some K → Forall known_letter p →
  cl_snotice_mask (the_client (snotice_letters_loop c p true w).2 c) = N.lor (cl_snotice_mask K) (letters_union p).
Proof.
  revert w K. induction p as [|ch p IH]; intros w K HK Hp; cbn [snotice_letters_loop letters_union foldr].
  - simpl. unfold the_client. by rewrite HK, N.lor_0_r.
  - apply Forall_cons in Hp as [[Hch Hb] Hp]. simpl in Hch. rewrite !not_elem_of_cons in Hch. destruct Hch as (H1 & H2 & H3 & H4 & _).
    apply Ascii.eqb_neq in H1, H2, H3, H4. rewrite H1, H2, H3, H4. cbv zeta. apply N.eqb_neq in Hb. rewrite Hb.
    rewrite run_upd_client, (IH _ (set_cl_snotice_mask (N.lor (cl_snotice_mask K) (snotice_mask_for_letter ch)) K)); [|by simpl; rewrite lookup_alter_eq, HK|done].
    simpl. by rewrite <-N.lor_assoc.
Qed.

Lemma format_known m size : Forall known_letter (snotice_mask_format m size).
Proof.
  assert (Forall known_letter (lit "cokbgwdsavrxmf")) as H.
  { simpl. repeat (apply Forall_cons; split; [split; [simpl; set_solver | discriminate]|]). constructor. }
  unfold snotice_mask_format. apply Forall_take. rewrite Forall_forall in H |- *.
  intros ch [Hc _]%list_elem_of_In%filter_In. apply H, list_elem_of_In, Hc.
Qed.

(** A set of permissions that exist. *)
Definition known_permissions (permissions : N) : Prop := N.land permissions OPER_PERMISSION_ALL = permissions.

(** C39: permissions and masks survive being written and read back.  A set of operator
    permissions that is formatted into a buffer of 153 bytes or more and parsed again
    is the same set, whatever a stored text parses to is made of the permissions that exist,
    and the letters SNOTICE shows for a mask, typed after "-*+", set that mask. *)
Theorem oper_text_round_trip :
  (∀ permissions size, known_permissions permissions → 153 ≤ size →
     oper_permissions_parse (oper_permissions_format permissions size) = Some permissions) ∧
  (∀ text permissions, oper_permissions_parse text = Some permissions → known_permissions permissions) ∧
  (∀ mask c w, N.land mask SNOTICE_ALL = mask → is_Some (w_clients w !! c) →
     cl_snotice_mask (the_client (snotice_letters_loop c (lit "-*+" ++ snotice_mask_format mask 32) true w).2 c) =
       N.lor (N.ldiff (cl_snotice_mask (the_client w c)) SNOTICE_ALL) mask).
Proof.
  split_and!.
  - intros. by apply parse_format.
  - intros text p. unfold oper_permissions_parse, known_permissions. case_if; [by intros [= <-]|]. case_if; [done|].
    by apply parse_tokens_all.
  - intros m c w Hm [K HK].
    change (snotice_letters_loop c (lit "-*+" ++ snotice_mask_format m 32) true w) with
      (snotice_letters_loop c (snotice_mask_format m 32) true (put_client c (λ K, set_cl_snotice_mask (N.ldiff (cl_snotice_mask K) SNOTICE_ALL) K) w)).
    rewrite (snotice_loop_known c _ _ (set_cl_snotice_mask (N.ldiff (cl_snotice_mask K) SNOTICE_ALL) K));
      [|by simpl; rewrite lookup_alter_eq, HK | apply format_known].
    rewrite snotice_format_union by (done || lia). unfold the_client. by rewrite HK.
Qed.

Lemma oper_text_round_trip_witness :
  oper_permissions_parse (oper_permissions_format (N.lor OPER_PERMISSION_KILL OPER_PERMISSION_HELPOP) 256) =
    Some (N.lor OPER_PERMISSION_KILL OPER_PERMISSION_HELPOP) ∧
  oper_permissions_format (N.lor OPER_PERMISSION_KILL OPER_PERMISSION_HELPOP) 256 = lit "helpop,can_kill".
Proof.
  destruct oper_text_round_trip as [H _].
  split; [apply H; [reflexivity | lia] | vm_compute; reflexivity].
Defined.

(** ** OPER *)

(** Only the output side and the counters of password checks differ. *)
Definition clerical (w w' : World) : Prop := w' = set_w_argon2 (w_argon2 w') (set_w_io (w_io w') w).

#[export] Instance clerical_silent : Silent clerical.
Proof.
  split; [split|].
  - by intros [].
  - intros w1 w2 w3 H1 H2. unfold clerical in *. rewrite H2, H1 at 1. reflexivity.
  - intros w w' H. unfold quiet in H. unfold clerical. rewrite H. by destruct w.
Qed.

Lemma clerical_put c g w w' : clerical w w' → clerical (put_client c g w) (put_client c g w').
Proof. intros H. unfold clerical in *. rewrite H. reflexivity. Qed.

Section Oper.
Context `{E : Env} (c : ptr).

#[local] Hint Extern 4 (does clerical (set_argon2 _)) => intros ?; reflexivity : frame.
#[local] Hint Extern 5 (does clerical _) => apply (does_quiet _); solve [eauto with frame] : frame.

Lemma auth_limit_clerical operation : does clerical (auth_limit_consume c operation).
Proof. unfold auth_limit_consume, argon2. frames. Qed.
#[local] Hint Resolve auth_limit_clerical : frame.

Lemma oper_refused_clerical name why numeric : does clerical (oper_refused c name why numeric).
Proof. unfold oper_refused, failed_oper. frames. Qed.
#[local] Hint Resolve oper_refused_clerical : frame.

Lemma oper_granted_spec name permissions vhost title notice w :
  clerical (put_client c (grant_oper name permissions vhost) w) (oper_granted c name permissions vhost title notice w).2.
Proof.
  unfold oper_granted. rewrite run_upd_client. set (v := put_client _ _ _).
  match goal with |- clerical v (?m v).2 => assert (does clerical m) as H by frames; apply H end.
Qed.

Lemma reply_clerical fmt args : does clerical (reply c fmt args).
Proof. frames. Qed.

(** What the grant does to the modes. *)
Lemma grant_modes name permissions vhost K :
  let modes := cl_modes (grant_oper name permissions vhost K) in
  client_mode_has modes CLIENT_MODE_OPER = true ∧
  client_mode_has modes CLIENT_MODE_NETADMIN =
    oper_permission_has permissions OPER_PERMISSION_NETADMIN || client_mode_has (cl_modes K) CLIENT_MODE_NETADMIN.
Proof.
  unfold grant_oper, client_mode_has, client_mode_add, client_mode_remove. cbv zeta.
  unfold CLIENT_MODE_OPER, CLIENT_MODE_NETADMIN. rewrite !mode_has_bit.
  destruct (oper_permission_has _ OPER_PERMISSION_NETADMIN), (oper_permission_has _ OPER_PERMISSION_HELPOP), (_ && _);
    cbn -[N.testbit N.lor N.land cnot bit]; split; rewrite ?N.lor_spec, ?N.land_spec, ?testbit_cnot, ?N.lor_spec, ?testbit_bit; eval_decide; 
    by destruct (N.testbit (cl_modes K) _).
Qed.

(** Whom OPER recognises: the name, permissions and vhost of the operator. *)
Definition oper_verdict (w : World) (params : cstr) : option (cstr * N * cstr) :=
  let cfg := w_config w in
  let K := the_client w c in
  match strtok " " params with
  | (Some name, rest) =>
      let password := trailing rest in
      if empty password then None else
      if negb (empty (netadmin_name cfg)) && strcaseeq name (netadmin_name cfg) then
        if negb (empty (netadmin_password_hash cfg)) && netadmin_host_matches K (netadmin_hostmask cfg) &&
           (auth_limit_consume c "OPER netadmin" w).1 && argon2id_verify (netadmin_password_hash cfg) password
        then Some (netadmin_name cfg, OPER_PERMISSION_ALL, netadmin_vhost cfg) else None
      else
        db ← operator_db w;
        record ← db name;
        if or_enabled record && (auth_limit_consume c "OPER" w).1 && argon2id_verify (or_password_hash record) password then
          permissions ← oper_permissions_parse (or_permissions record);
          if oper_permission_has permissions OPER_PERMISSION_NETADMIN then None
          else Some (or_name record, permissions, or_vhost record)
        else None
  | (None, _) => None
  end.

Definition oper_effect (w : World) (verdict : option (cstr * N * cstr)) : World :=
  match verdict with Some (name, permissions, vhost) => put_client c (grant_oper name permissions vhost) w | None => w end.

(** A password check, then a decision. *)
Lemma checked_step operation (k : bool → M CommandResult) w verdict :
  (∀ w1, clerical w w1 → clerical (oper_effect w1 (if (auth_limit_consume c operation w).1 then verdict else None))
     (k (auth_limit_consume c operation w).1 w1).2) →
  clerical (oper_effect w (if (auth_limit_consume c operation w).1 then verdict else None))
    ((auth_limit_consume c operation ≫= k) w).2.
Proof.
  intros Hk. rewrite run_bind. pose proof (auth_limit_clerical operation w) as H.
  destruct (auth_limit_consume c operation w) as [ok w1]. cbn [fst snd] in *. etrans; [|by apply Hk].
  destruct ok; [|exact H]. destruct verdict as [[[n p] v]|]; [by apply clerical_put | exact H].
Qed.

Lemma oper_netadmin_spec name password w :
  let cfg := w_config w in
  clerical (oper_effect w (if negb (empty (netadmin_password_hash cfg)) && netadmin_host_matches (the_client w c) (netadmin_hostmask cfg) &&
      (auth_limit_consume c "OPER netadmin" w).1 && argon2id_verify (netadmin_password_hash cfg) password
    then Some (netadmin_name cfg, OPER_PERMISSION_ALL, netadmin_vhost cfg) else None)) (oper_netadmin c name password w).2.
Proof.
  intros cfg. unfold oper_netadmin, config, client. rewrite !run_gets. fold cfg.
  destruct (empty _); cbn [negb orb andb]; [apply oper_refused_clerical|].
  destruct (netadmin_host_matches _ _); cbn [negb orb andb]; [|apply oper_refused_clerical].
  set (verdict := Some (netadmin_name cfg, OPER_PERMISSION_ALL, netadmin_vhost cfg)).
  assert (∀ b b' : bool, (if b && b' then verdict else None) = (if b then (if b' then verdict else None) else None)) as ->
    by (by intros [] []).
  apply checked_step. intros w1 _. destruct (auth_limit_consume _ _ _).1; [|apply oper_refused_clerical]. cbn [negb].
  destruct (argon2id_verify _ _); [apply oper_granted_spec | apply oper_refused_clerical].
Qed.

Lemma set_last_opered_quiet name : does quiet (operator_db_set_last_opered name).
Proof. intros w. unfold operator_db_set_last_opered, now. rewrite !run_gets. by case_bool_decide. Qed.
Lemma oper_account_spec name password w :
  clerical (oper_effect w (db ← operator_db w; record ← db name;
    if or_enabled record && (auth_limit_consume c "OPER" w).1 && argon2id_verify (or_password_hash record) password then
      permissions ← oper_permissions_parse (or_permissions record);
      if oper_permission_has permissions OPER_PERMISSION_NETADMIN then None
      else Some (or_name record, permissions, or_vhost record)
    else None)) (oper_account c name password w).2.
Proof.
  unfold oper_account. rewrite run_gets. destruct (operator_db w) as [db|]; cbn [mbind option_bind]; [|apply oper_refused_clerical].
  destruct (db name) as [record|]; cbn [mbind option_bind]; [|apply oper_refused_clerical].
  destruct (or_enabled record); cbn [negb andb]; [|apply oper_refused_clerical].
  match goal with |- context [if _ && ?b' then ?v else None] =>
    assert (∀ b : bool, (if b && b' then v else None) = (if b then (if b' then v else None) else None)) as -> by (by intros []; destruct b') end.
  apply checked_step. intros w1 _. destruct (auth_limit_consume _ _ _).1; [|apply oper_refused_clerical]. cbn [negb].
  destruct (argon2id_verify _ _); cbn [negb]; [|apply oper_refused_clerical].
  destruct (oper_permissions_parse _) as [p|]; [|apply oper_refused_clerical]. cbn.
  destruct (oper_permission_has p _); [apply oper_refused_clerical|]. rewrite run_bind.
  destruct (run_quiet (operator_db_set_last_opered (or_name record)) w1) as (u & i & ->); [apply set_last_opered_quiet|].
  etrans; [|apply oper_granted_spec]. apply clerical_put, (silent_quiet (R := clerical)), quiet_set_io.
Qed.

Lemma require_registered_registered w :
  cl_registered (the_client w c) = true → command_require_registered c w = (false, w).
Proof. intros H. unfold command_require_registered, client. rewrite run_gets. by rewrite H. Qed.

(** C20: OPER makes exactly the people the configuration and the operator database
    vouch for operators.  Whatever a registered client sends, the command changes
    nothing but that client's record (and the counters of password checks and the time
    of the last OPER in the operator database), and that only when the verdict is positive: the password is verified against the stored
    Argon2 hash, the check was within its rate limits, and the host mask matches
    (network administrator) or the account is enabled and its permissions are well
    formed and do not include netadmin (ordinary operators).  Then the client holds
    exactly the permissions on record, is an operator, and is a network administrator exactly
    when the permissions say so or it was one before. *)
Theorem oper_grants_what_is_on_record params w :
  cl_registered (the_client w c) = true → is_Some (w_clients w !! c) →
  let w' := (command_oper c (Some params) w).2 in
  let T := the_client w' c in
  clerical (oper_effect w (oper_verdict w params)) w' ∧
  match oper_verdict w params with
  | None => w_clients w' = w_clients w
  | Some (name, permissions, vhost) =>
      cl_oper_permissions T = permissions ∧ is_oper_client T = true ∧
      client_mode_has (cl_modes T) CLIENT_MODE_NETADMIN =
        oper_permission_has permissions OPER_PERMISSION_NETADMIN || client_mode_has (cl_modes (the_client w c)) CLIENT_MODE_NETADMIN ∧
      cl_oper_name T = take IRCD_OPER_NAME_MAX name
  end.
Proof.
  intros Hreg [K HK] w' T.
  assert (Hcl : clerical (oper_effect w (oper_verdict w params)) w').
  { unfold w', command_oper. rewrite run_bind, require_registered_registered by done. unfold config, client. rewrite !run_gets.
    unfold oper_verdict. cbv zeta. destruct (strtok " " params) as [[name|] rest]; [|apply reply_clerical].
    destruct (empty (trailing rest)); [apply reply_clerical|].
    destruct (negb _ && _); [apply oper_netadmin_spec | apply oper_account_spec]. }
  split; [done|]. assert (Hw : w_clients w' = w_clients (oper_effect w (oper_verdict w params))) by (by rewrite Hcl).
  destruct (oper_verdict w params) as [[[name p] vhost]|]; [|done].
  assert (T = grant_oper name p vhost K) as ->.
  { unfold T, the_client. rewrite Hw. simpl. by rewrite lookup_alter_eq, HK. }
  assert (the_client w c = K) as -> by (unfold the_client; by rewrite HK).
  destruct (grant_modes name p vhost K) as [Ho Hn]. split_and!; [| |exact Hn|].
  - unfold grant_oper. by repeat case_if.
  - unfold is_oper_client, client_mode_has in *. rewrite N.land_lor_distr_r. 
    apply negb_true_iff, N.eqb_neq. apply negb_true_iff, N.eqb_neq in Ho. intros H. apply Ho. by apply N.lor_eq_0_l in H.
  - unfold grant_oper. by repeat case_if.
Qed.
End Oper.
