(* ===== verification/ChanCmds.v ===== *)
(** * KICK, TOPIC, INVITE and KNOCK ([src/commands/kick.c], [topic.c], [invite.c],
    [knock.c]) *)

From S2P Require Import Prelude CString Modes HashTable MaskMatch Output World Channel Invariant Policy Numerics Ircv3 Presence Env Cloak Register Services JoinPart.

Definition IRC_DEFAULT_KICK_REASON : cstr := "Kicked".

(** HALFOP and everything above. *)
Definition staff_privileges : ChannelPrivilegeSet :=
  N.lor (N.lor CHANNEL_PRIV_HALFOP CHANNEL_PRIV_OPERATOR) (N.lor CHANNEL_PRIV_PROTECTED CHANNEL_PRIV_OWNER).

(** ** KICK *)

Definition kick_wire_fits (source : Client) (channel target reason : cstr) : bool :=
  1 + length (cl_nick source) + 1 + length (cl_user source) + 1 + length (cl_display_host source) +
  length (lit " KICK ") + length channel + 1 + length target + length (lit " :") + length reason
  <=? IRC_LINE_CONTENT_MAX.

Definition send_kick_query_error (c : ptr) (numeric : nat) (query : cstr) : M unit :=
  send_query_numeric c (if numeric =? 403 then ":%s 403 %s %.*s :No such channel"
                        else ":%s 401 %s %.*s :No such nick/channel") query.

(** Whether the rank rules let the actor remove the target. *)
Definition kick_denied (self : bool) (actor target : ChannelPrivilegeSet) : bool :=
  if negb self && channel_privilege_has target CHANNEL_PRIV_PROTECTED && negb (channel_privilege_has target CHANNEL_PRIV_OWNER)
  then negb (channel_privilege_has actor (N.lor CHANNEL_PRIV_PROTECTED CHANNEL_PRIV_OWNER))
  else negb self && (channel_privilege_rank actor <=? channel_privilege_rank target).

Definition kick_member (c ch t : ptr) (reason : cstr) : M CommandResult :=
  K ← client c;
  C ← channel ch;
  T ← client t;
  let delivered := if kick_wire_fits K (ch_name C) (cl_nick T) reason then reason else IRC_DEFAULT_KICK_REASON in
  channel_broadcast ch None (snprintf IRCD_MESSAGE_BUFFER_SIZE
    (format ":%s!%s@%s KICK %s %s :%s"
       [cl_nick K; cl_user K; cl_display_host K; ch_name C; cl_nick T; delivered] ++ [CR; LF])) ;;
  channel_remove_client ch t ;;
  server_remove_channel_if_empty ch ;;
  keep.

Definition command_kick (c : ptr) (params : option cstr) : M CommandResult :=
  u ← command_require_registered c;
  if u : bool then keep else
  cfg ← config;
  K ← client c;
  let need := reply c ERR_NEEDMOREPARAMS [server_name cfg; cl_nick K; lit "KICK"] in
  match params with
  | None => need
  | Some params =>
      let '(channel_name, rest) := strtok " " params in
      let '(nick, rest) := strtok " " rest in
      match channel_name, nick with
      | Some channel_name, Some nick =>
          if negb (channel_name_valid channel_name) then send_kick_query_error c 403 channel_name ;; keep else
          let reason := default [] (skip_colon <$> strtok_rest rest) in
          let reason := if empty reason then IRC_DEFAULT_KICK_REASON else reason in
          found ← find_channel channel_name;
          match found with
          | None => reply c ERR_NOSUCHCHANNEL [server_name cfg; cl_nick K; channel_name]
          | Some ch =>
              C ← channel ch;
              match channel_find_member C c with
              | None => reply c ERR_NOTONCHANNEL [server_name cfg; cl_nick K; ch_name C]
              | Some actor =>
                  if channel_privilege_rank (m_privileges actor) <? 2
                  then reply c ERR_CHANOPRIVSNEEDED [server_name cfg; cl_nick K; ch_name C] else
                  target ← find_nick nick;
                  match target with
                  | None => send_kick_query_error c 401 nick ;; keep
                  | Some t =>
                      T ← client t;
                      match channel_find_member C t with
                      | None => reply c ERR_USERNOTINCHANNEL [server_name cfg; cl_nick K; cl_nick T; ch_name C]
                      | Some member =>
                          if kick_denied (t =? c) (m_privileges actor) (m_privileges member)
                          then reply c ERR_ATTACKDENY [server_name cfg; cl_nick K; ch_name C; cl_nick T]
                          else kick_member c ch t reason
                      end
                  end
              end
          end
      | _, _ => need
      end
  end.

(** ** TOPIC *)

Definition topic_setter (K : Client) : cstr :=
  snprintf (IRC_CHANNEL_TOPIC_SETTER_MAX + 1) (format "%s!%s@%s" [cl_nick K; cl_user K; cl_display_host K]).

Definition set_topic (c ch : ptr) (topic : cstr) : M CommandResult :=
  K ← client c;
  t ← now;
  upd_channel ch (λ C, set_ch_topic_time t (set_ch_topic_setter (topic_setter K)
                         (set_ch_topic (snprintf (IRC_CHANNEL_TOPIC_MAX + 1) topic) C))) ;;
  C ← channel ch;
  channel_broadcast ch None (snprintf IRCD_MESSAGE_BUFFER_SIZE
    (format ":%s!%s@%s TOPIC %s :%s" [cl_nick K; cl_user K; cl_display_host K; ch_name C; ch_topic C] ++ [CR; LF])) ;;
  keep.

Definition command_topic (c : ptr) (params : option cstr) : M CommandResult :=
  u ← command_require_registered c;
  if u : bool then keep else
  cfg ← config;
  K ← client c;
  let need := reply c ERR_NEEDMOREPARAMS [server_name cfg; cl_nick K; lit "TOPIC"] in
  match params with
  | None => need
  | Some params =>
      let '(channel_name, rest) := strtok " " params in
      match channel_name with
      | None => need
      | Some channel_name =>
          found ← find_channel channel_name;
          match found with
          | None => send_no_such_channel_query c (Some channel_name) ;; keep
          | Some ch =>
              C ← channel ch;
              match strtok_rest rest with
              | None =>
                  if negb (visibility_names_channel K c C)
                  then reply c ERR_NOSUCHCHANNEL [server_name cfg; cl_nick K; ch_name C] else
                  if empty (ch_topic C) then reply c RPL_NOTOPIC [server_name cfg; cl_nick K; ch_name C] else
                  tell c RPL_TOPIC [server_name cfg; cl_nick K; ch_name C; ch_topic C] ;;
                  reply c RPL_TOPICWHOTIME [server_name cfg; cl_nick K; ch_name C; ch_topic_setter C;
                                            dec (ch_topic_time C mod 2 ^ 64)]
              | Some topic =>
                  match channel_find_member C c with
                  | None => reply c ERR_NOTONCHANNEL [server_name cfg; cl_nick K; ch_name C]
                  | Some member =>
                      if channel_mode_has (ch_modes C) CHANNEL_MODE_TOPIC_LOCK &&
                         (channel_privilege_rank (m_privileges member) <? 2)
                      then reply c ERR_CHANOPRIVSNEEDED [server_name cfg; cl_nick K; ch_name C] else
                      let topic := skip_colon topic in
                      if (irc_topic_limit cfg <? length topic) ||
                         negb (ircv3_message_wire_fits K "TOPIC" (ch_name C) topic)
                      then reply c ":%s 417 %s TOPIC :Topic would exceed the IRC line limit" [server_name cfg; cl_nick K]
                      else set_topic c ch topic
                  end
              end
          end
      end
  end.

(** ** INVITE *)

Definition command_invite (c : ptr) (params : option cstr) : M CommandResult :=
  u ← command_require_registered c;
  if u : bool then keep else
  cfg ← config;
  K ← client c;
  let need := reply c ERR_NEEDMOREPARAMS [server_name cfg; cl_nick K; lit "INVITE"] in
  match params with
  | None => need
  | Some params =>
      let '(nick, rest) := strtok " " params in
      let '(channel_name, rest) := strtok " " rest in
      match nick, channel_name with
      | Some nick, Some channel_name =>
          if negb (channel_name_valid channel_name) then send_kick_query_error c 403 channel_name ;; keep else
          target ← find_nick nick;
          match target with
          | None => send_kick_query_error c 401 nick ;; keep
          | Some t =>
              T ← client t;
              if negb (cl_registered T) then send_kick_query_error c 401 nick ;; keep else
              found ← find_channel channel_name;
              match found with
              | None => reply c ERR_NOSUCHCHANNEL [server_name cfg; cl_nick K; channel_name]
              | Some ch =>
                  C ← channel ch;
                  match channel_find_member C c with
                  | None => reply c ERR_NOTONCHANNEL [server_name cfg; cl_nick K; ch_name C]
                  | Some member =>
                      if negb (channel_privilege_has (m_privileges member) staff_privileges)
                      then reply c ERR_CHANOPRIVSNEEDED [server_name cfg; cl_nick K; ch_name C] else
                      if channel_mode_has (ch_modes C) CHANNEL_MODE_NO_INVITE
                      then reply c ERR_518 [server_name cfg; cl_nick K; ch_name C] else
                      if channel_has_client C t
                      then reply c ERR_USERONCHANNEL [server_name cfg; cl_nick K; cl_nick T; ch_name C] else
                      rc ← channel_invite_add ch (cl_id T);
                      if (rc =? -2)%Z then
                        reply c ":%s NOTICE %s :Channel %s pending invite list is full (maximum %u)"
                          [server_name cfg; cl_nick K; ch_name C; dec_nat IRC_CHANNEL_INVITE_MAX]
                      else if negb (rc =? 0)%Z then keep else
                      tell c RPL_INVITING [server_name cfg; cl_nick K; cl_nick T; ch_name C] ;;
                      _ ← send_line t (snprintf IRCD_MESSAGE_BUFFER_SIZE (format ":%s!%s@%s INVITE %s :%s"
                            [cl_nick K; cl_user K; cl_display_host K; cl_nick T; ch_name C]));
                      keep
                  end
              end
          end
      | _, _ => need
      end
  end.

(** ** KNOCK *)

Definition send_knock_to_staff (staff : ptr) (requester : Client) (C : Channel) (reason : cstr) : M Z :=
  let base_length := length (format ":%s!%s@%s KNOCK %s :"
    [cl_nick requester; cl_user requester; cl_display_host requester; ch_name C]) in
  if IRC_LINE_CONTENT_MAX <? base_length then mret (-1)%Z else
  sendf staff ":%s!%s@%s KNOCK %s :%.*s"
    [cl_nick requester; cl_user requester; cl_display_host requester; ch_name C;
     take (IRC_LINE_CONTENT_MAX - base_length) reason].

(** Over the members; the flag says whether a line was accepted for somebody. *)
Fixpoint knock_staff (K : Client) (C : Channel) (reason : cstr) (members : list ChannelMember) (delivered : bool) : M bool :=
  match members with
  | [] => mret delivered
  | m :: rest =>
      if negb (channel_privilege_has (m_privileges m) staff_privileges) then knock_staff K C reason rest delivered else
      rc ← send_knock_to_staff (m_client m) K C reason;
      knock_staff K C reason rest (delivered || (0 <=? rc)%Z)
  end.

(** Why a KNOCK is refused. *)
Definition knock_refusal (c : ptr) (K : Client) (C : Channel) : option cstr :=
  if channel_has_client C c then Some (lit "you are already on the channel") else
  if channel_mode_has (ch_modes C) CHANNEL_MODE_NO_KNOCK then Some (lit "channel mode +K") else
  if channel_client_is_banned C K then Some (lit "you are banned") else
  let is_full := negb (ch_user_limit C =? 0)%Z && (ch_user_limit C <=? Z.of_nat (ch_member_count C))%Z in
  if negb (channel_mode_has (ch_modes C) CHANNEL_MODE_INVITE_ONLY) && empty (ch_key C) && negb is_full
  then Some (lit "channel is open") else None.

Definition command_knock (c : ptr) (params : option cstr) : M CommandResult :=
  u ← command_require_registered c;
  if u : bool then keep else
  cfg ← config;
  K ← client c;
  let need := reply c ERR_NEEDMOREPARAMS [server_name cfg; cl_nick K; lit "KNOCK"] in
  match params with
  | None => need
  | Some params =>
      let '(channel_name, rest) := strtok " " params in
      match channel_name with
      | None => need
      | Some channel_name =>
          found ← find_channel channel_name;
          match found with
          | None => send_no_such_channel_query c (Some channel_name) ;; keep
          | Some ch =>
              C ← channel ch;
              match knock_refusal c K C with
              | Some why => reply c ERR_CANNOTKNOCK [server_name cfg; cl_nick K; ch_name C; why]
              | None =>
                  let reason := default [] (skip_colon <$> strtok_rest rest) in
                  let reason := if empty reason then lit "Knock" else reason in
                  delivered ← knock_staff K C reason (ch_members C) false;
                  if delivered : bool
                  then reply c ":%s NOTICE %s :KNOCK delivered to %s channel staff" [server_name cfg; cl_nick K; ch_name C]
                  else reply c ERR_CANNOTKNOCK [server_name cfg; cl_nick K; ch_name C; lit "no channel staff are available"]
              end
          end
      end
  end.

(** ** Frame *)

Lemma send_kick_query_error_quiet c n q : does quiet (send_kick_query_error c n q).
Proof. unfold send_kick_query_error, send_query_numeric. frames. Qed.
#[export] Hint Resolve send_kick_query_error_quiet send_no_such_channel_query_quiet command_names_quiet
  command_send_names_quiet : frame.

Lemma command_invite_keeps c p : does keeps (command_invite c p).
Proof. unfold command_invite. frames. Qed.

Lemma knock_staff_quiet K C r l d : does quiet (knock_staff K C r l d).
Proof. revert d. induction l; intros d; simpl; unfold send_knock_to_staff; frames. Qed.
#[local] Hint Resolve knock_staff_quiet : frame.

Lemma command_knock_quiet c p : does quiet (command_knock c p).
Proof. unfold command_knock. frames. Qed.

Lemma set_topic_keeps c ch t : does keeps (set_topic c ch t).
Proof. unfold set_topic. frames. Qed.
#[local] Hint Resolve set_topic_keeps : frame.
Lemma command_topic_keeps c p : does keeps (command_topic c p).
Proof. unfold command_topic. frames. Qed.
#[export] Hint Resolve command_invite_keeps command_knock_quiet command_topic_keeps : frame.

(** ** KICK respects rank *)

Lemma find_member_in C c m : channel_find_member C c = Some m → m ∈ ch_members C ∧ m_client m = c.
Proof.
  unfold channel_find_member. intros H. apply find_some in H as [H1 H2]. bools. split; [by apply list_elem_of_In | done].
Qed.

(** [c] may remove [t] from a channel in state [C]. *)
Definition kick_allowed (c t : ptr) (C : Channel) : Prop :=
  ∃ actor member, channel_find_member C c = Some actor ∧ channel_find_member C t = Some member ∧
    let a := m_privileges actor in let b := m_privileges member in
    2 ≤ channel_privilege_rank a ∧
    (t ≠ c → channel_privilege_has b CHANNEL_PRIV_PROTECTED = true → channel_privilege_has b CHANNEL_PRIV_OWNER = false →
       channel_privilege_has a (N.lor CHANNEL_PRIV_PROTECTED CHANNEL_PRIV_OWNER) = true) ∧
    (t ≠ c → channel_privilege_has b CHANNEL_PRIV_PROTECTED = false ∨ channel_privilege_has b CHANNEL_PRIV_OWNER = true →
       channel_privilege_rank b < channel_privilege_rank a).

Lemma kick_denied_spec c t C actor member :
  channel_find_member C c = Some actor → channel_find_member C t = Some member →
  (channel_privilege_rank (m_privileges actor) <? 2) = false →
  kick_denied (t =? c) (m_privileges actor) (m_privileges member) = false ↔ kick_allowed c t C.
Proof.
  intros Ha Hb Hr. bools. split.
  - intros Hd. exists actor, member. split_and!; [done | done | cbv zeta; split_and!; [done|..]].
    + intros Hne H1 H2. unfold kick_denied in Hd. apply Nat.eqb_neq in Hne.
      rewrite Hne, H1, H2 in Hd. cbn [negb andb] in Hd. by bools.
    + intros Hne H. unfold kick_denied in Hd. apply Nat.eqb_neq in Hne. rewrite Hne in Hd. cbn [negb andb] in Hd.
      destruct H as [H|H]; rewrite H in Hd; cbn [negb] in Hd; rewrite ?andb_false_r in Hd; cbn [andb] in Hd; by bools.
  - intros (actor' & member' & Ha' & Hb' & _ & H1 & H2). rewrite Ha in Ha'. rewrite Hb in Hb'.
    injection Ha' as <-. injection Hb' as <-. unfold kick_denied.
    destruct (Nat.eqb_spec t c) as [->|Hne]; [done|]. cbn [negb andb].
    destruct (channel_privilege_has (m_privileges member) CHANNEL_PRIV_PROTECTED) eqn:Hp,
      (channel_privilege_has (m_privileges member) CHANNEL_PRIV_OWNER) eqn:Ho; cbn [negb andb].
    1, 3, 4: apply Nat.leb_gt, H2; auto. by rewrite (H1 Hne eq_refl eq_refl).
Qed.

(** What a KICK asks for, when a registered client may have it. *)
Definition kicking (w : World) (c : ptr) (params : option cstr) (ch t : ptr) (C : Channel) : Prop :=
  cl_registered (the_client w c) = true ∧
  ∃ p name rest nick rest', params = Some p ∧ strtok " " p = (Some name, rest) ∧ strtok " " rest = (Some nick, rest') ∧
    channel_name_valid name = true ∧ hash_get (w_channels_by_name w) name = Some ch ∧
    hash_get (w_clients_by_nick w) nick = Some t ∧ w_channels w !! ch = Some C ∧ kick_allowed c t C.

Lemma kick_member_left c ch t reason w : wf w → left_channel t ch w (kick_member c ch t reason w).2.
Proof.
  intros Hw. unfold kick_member, client, channel. rewrite !run_gets. cbv zeta. rewrite run_bind.
  match goal with |- context [channel_broadcast ch None ?msg w] =>
    destruct (run_quiet (channel_broadcast ch None msg) w) as (b & k & ->); [eauto with frame|] end.
  assert (Hw1 : wf (set_w_io k w)) by (by apply (wf_same_state w)).
  destruct (leave_spec ch t (set_w_io k w) Hw1) as [Hleft _]. revert Hleft. rewrite !run_bind.
  destruct (channel_remove_client ch t _) as [u w2]. rewrite !run_bind.
  by destruct (server_remove_channel_if_empty ch w2) as [u' w3].
Qed.

Ltac refuse Hq := right; split; [unfold kicking, kick_allowed; not_requested | apply Hq; frames].

(** C11: KICK respects rank.  When a registered client names a channel and a member of
    it that its rank there lets it remove (at least halfop; a protected member, not an
    owner, only by a protected member or an owner; anybody else only by a strictly
    higher rank; oneself always), exactly that membership is gone and the state is
    consistent; in every other case KICK only sends lines. *)
Theorem kick_respects_rank c params w :
  wf w →
  let w' := (command_kick c params w).2 in
  (∃ ch t C, kicking w c params ch t C ∧ left_channel t ch w w') ∨
  (¬ (∃ ch t C, kicking w c params ch t C) ∧ quiet w w').
Proof.
  intros Hw. unfold command_kick. rewrite run_bind.
  destruct (require_registered_cases c w) as [[Hreg ->]|(Hreg & i & ->)];
    [|right; split; [unfold kicking; not_requested | apply quiet_set_io]].
  assert (Hq : ∀ m : M CommandResult, does quiet m → quiet w (m w).2) by (intros m Hm; apply Hm).
  unfold config, client, find_channel, find_nick, channel. rewrite !run_gets.
  destruct params as [p|]; [|refuse Hq]. destruct (strtok " " p) as [name rest] eqn:E1.
  destruct (strtok " " rest) as [nick rest'] eqn:E2. destruct name as [name|]; [|refuse Hq].
  destruct nick as [nick|]; [|refuse Hq].
  destruct (channel_name_valid name) eqn:Hv; cbn [negb]; [|refuse Hq]. cbv zeta. rewrite run_gets.
  destruct (hash_get (w_channels_by_name w) name) as [ch|] eqn:G; [|refuse Hq]. rewrite run_gets.
  destruct (proj1 (proj2 (wf_names w Hw) name ch) G) as (C & HC & _).
  unfold the_channel. rewrite HC. cbn [default id].
  destruct (channel_find_member C c) as [actor|] eqn:Ha; [|refuse Hq].
  destruct (_ <? 2) eqn:Hr; [refuse Hq; bools; lia|]. rewrite run_gets.
  destruct (hash_get _ nick) as [t|] eqn:Gt; [|refuse Hq]. rewrite run_gets.
  destruct (channel_find_member C t) as [member|] eqn:Hm; [|refuse Hq].
  pose proof (kick_denied_spec c t C actor member Ha Hm Hr) as Hspec.
  destruct (kick_denied _ _ _) eqn:Hd.
  { right; split; [|apply Hq; frames]. unfold kicking. not_requested.
    match goal with H : kick_allowed c t C |- _ => apply Hspec in H; congruence end. }
  left. exists ch, t, C. split; [|by apply kick_member_left].
  split; [done|]. exists p, name, rest, nick, rest'. split_and!; try done. by apply Hspec.
Qed.

(** ** An accepted topic fits every line it will be sent in *)

(** Lengths of the two lines, by computation on the format. *)
Lemma topic_reply_length server nick channel topic :
  length (format RPL_TOPIC [server; nick; channel; topic]) =
  length server + length nick + length channel + length topic + 9.
Proof. unfold format. simpl. repeat (rewrite !length_app; simpl). lia. Qed.

Lemma topic_relay_length nick user host channel topic :
  length (format ":%s!%s@%s TOPIC %s :%s" [nick; user; host; channel; topic]) =
  length nick + length user + length host + length channel + length topic + 12.
Proof. unfold format. simpl. repeat (rewrite !length_app; simpl). lia. Qed.

Lemma topic_overhead_length nick user host channel :
  length (format ":%s!%s@%s TOPIC %s :" [nick; user; host; channel]) =
  length nick + length user + length host + length channel + 12.
Proof. unfold format. simpl. repeat (rewrite !length_app; simpl). lia. Qed.

(** Within the limit, the reply and the relay fit whatever the names are. *)
Lemma topic_limit_fits cfg topic nick user host channel :
  length topic ≤ irc_topic_limit cfg → topic ≠ [] →
  length nick ≤ IRC_NICK_MAX → length user ≤ IRC_USER_MAX → length host ≤ IRC_HOST_MAX →
  length channel ≤ IRC_CHANNEL_NAME_MAX →
  length (format RPL_TOPIC [server_name cfg; nick; channel; topic]) ≤ IRC_LINE_CONTENT_MAX ∧
  length (format ":%s!%s@%s TOPIC %s :%s" [nick; user; host; channel; topic]) ≤ IRC_LINE_CONTENT_MAX.
Proof.
  intros Hl Hne Hn Hu Hh Hc. rewrite topic_reply_length, topic_relay_length. revert Hl. unfold irc_topic_limit.
  rewrite topic_reply_length, topic_overhead_length. cbn [length]. rewrite !length_replicate.
  assert (0 < length topic) by (destruct topic; simpl; [done | lia]).
  unfold IRC_NICK_MAX, IRC_USER_MAX, IRC_HOST_MAX, IRC_CHANNEL_NAME_MAX, IRC_CHANNEL_TOPIC_MAX, IRC_LINE_CONTENT_MAX,
    IRC_WIRE_LINE_MAX in *.
  destruct (_ || _) eqn:E; [lia|]. bools.
  match goal with |- context [?a <? 390] => destruct (a <? 390) eqn:? end; case_if; bools; lia.
Qed.

Lemma topic_limit_max cfg : irc_topic_limit cfg ≤ IRC_CHANNEL_TOPIC_MAX.
Proof.
  unfold irc_topic_limit. case_if; [lia|].
  match goal with |- context [?a <? IRC_CHANNEL_TOPIC_MAX] => destruct (a <? IRC_CHANNEL_TOPIC_MAX) eqn:? end;
    case_if; bools; lia.
Qed.

Lemma set_topic_run c ch topic w :
  length topic ≤ IRC_CHANNEL_TOPIC_MAX →
  w_channels (set_topic c ch topic w).2 =
    alter (λ C, set_ch_topic_time (w_now w) (set_ch_topic_setter (topic_setter (the_client w c)) (set_ch_topic topic C)))
      ch (w_channels w).
Proof.
  intros Hl. unfold set_topic, client, now. rewrite !run_gets, run_bind. cbn [upd_channel modify].
  unfold channel. rewrite run_gets, run_bind.
  match goal with |- context [channel_broadcast ch None ?msg ?v] =>
    destruct (run_quiet (channel_broadcast ch None msg) v) as (b & k & ->); [eauto with frame|] end.
  simpl. by rewrite snprintf_id by (unfold IRC_CHANNEL_TOPIC_MAX in *; lia).
Qed.

(** The topic a registered client may set on a channel [ch] in state [C]. *)
Definition retitling (w : World) (c : ptr) (params : option cstr) (ch : ptr) (C : Channel) (topic : cstr) : Prop :=
  cl_registered (the_client w c) = true ∧
  ∃ p name rest text member, params = Some p ∧ strtok " " p = (Some name, rest) ∧ strtok_rest rest = Some text ∧
    topic = skip_colon text ∧ hash_get (w_channels_by_name w) name = Some ch ∧ w_channels w !! ch = Some C ∧
    channel_find_member C c = Some member ∧
    (channel_mode_has (ch_modes C) CHANNEL_MODE_TOPIC_LOCK = true → 2 ≤ channel_privilege_rank (m_privileges member)) ∧
    length topic ≤ irc_topic_limit (w_config w) ∧
    ircv3_message_wire_fits (the_client w c) "TOPIC" (ch_name C) topic = true.

Ltac untouched Hq := right; split; [unfold retitling; not_requested | apply Hq; frames].

(** C35: an accepted topic is stored whole and always fits.  When a member (of halfop
    rank or more under +t) gives a topic within TOPICLEN whose relay fits, exactly the
    topic, its setter and its time change on that channel, and the topic is not cut by
    its buffer; both the 332 reply to any client and a relay from any source with legal
    name lengths then stay within 510 bytes.  In every other case no channel changes. *)
Theorem topic_change_safe c params w :
  wf w →
  let w' := (command_topic c params w).2 in
  (∃ ch C topic, retitling w c params ch C topic ∧
    w_channels w' = alter (λ C, set_ch_topic_time (w_now w)
      (set_ch_topic_setter (topic_setter (the_client w c)) (set_ch_topic topic C))) ch (w_channels w) ∧
    ∀ nick user host channel, topic ≠ [] →
      length nick ≤ IRC_NICK_MAX → length user ≤ IRC_USER_MAX → length host ≤ IRC_HOST_MAX →
      length channel ≤ IRC_CHANNEL_NAME_MAX →
      length (format RPL_TOPIC [server_name (w_config w); nick; channel; topic]) ≤ IRC_LINE_CONTENT_MAX ∧
      length (format ":%s!%s@%s TOPIC %s :%s" [nick; user; host; channel; topic]) ≤ IRC_LINE_CONTENT_MAX) ∨
  (¬ (∃ ch C topic, retitling w c params ch C topic) ∧ w_channels w' = w_channels w).
Proof.
  intros Hw. unfold command_topic. rewrite run_bind.
  destruct (require_registered_cases c w) as [[Hreg ->]|(Hreg & i & ->)];
    [|right; split; [unfold retitling; not_requested | done]].
  assert (Hq : ∀ m : M CommandResult, does quiet m → w_channels (m w).2 = w_channels w).
  { intros m Hm. destruct (run_quiet m w Hm) as (a & j & ->). done. }
  unfold config, client, find_channel, channel. rewrite !run_gets.
  destruct params as [p|]; [|untouched Hq]. destruct (strtok " " p) as [name rest] eqn:E1.
  destruct name as [name|]; [|untouched Hq]. rewrite run_gets.
  destruct (hash_get _ name) as [ch|] eqn:G; [|untouched Hq]. rewrite run_gets.
  destruct (proj1 (proj2 (wf_names w Hw) name ch) G) as (C & HC & _).
  unfold the_channel. rewrite HC. cbn [default id].
  destruct (strtok_rest rest) as [topic|] eqn:E2; [|untouched Hq].
  destruct (channel_find_member C c) as [member|] eqn:Hm; [|untouched Hq].
  destruct (_ && _) eqn:Hlock.
  { untouched Hq. bools. match goal with H : ?b = true → _, H' : ?b = true |- _ => specialize (H H') end. lia. }
  cbv zeta. destruct (_ || _) eqn:Hfit.
  { untouched Hq. apply orb_true_iff in Hfit as [Hfit|Hfit]; bools; [lia | congruence]. }
  bools. left. exists ch, C, (skip_colon topic). split_and!.
  - split; [done|]. exists p, name, rest, topic, member. split_and!; try done.
    intros Ht. rewrite Ht in Hlock. cbn [andb] in Hlock. by bools.
  - rewrite set_topic_run; [done|]. pose proof (topic_limit_max (w_config w)). simpl in *. lia.
  - intros. by apply topic_limit_fits.
Qed.

(** ** Invitations *)

(** Pending invitations of a channel: at most 128 connection ids, each once. *)
Record invites_ok (C : Channel) : Prop := {
  invites_nodup : NoDup (ch_invites C);
  invites_max : length (ch_invites C) ≤ IRC_CHANNEL_INVITE_MAX;
  invites_id : (0%N ∉ ch_invites C) }.

Lemma existsb_N id l : existsb (N.eqb id) l = true ↔ id ∈ l.
Proof.
  rewrite existsb_exists. setoid_rewrite <-list_elem_of_In. setoid_rewrite N.eqb_eq. naive_solver.
Qed.

Lemma remove_first_N id l :
  NoDup l → let '(found, l') := remove_first (N.eqb id) l in
  found = existsb (N.eqb id) l ∧ NoDup l' ∧ (∀ x, x ∈ l' ↔ x ∈ l ∧ x ≠ id) ∧ length l' ≤ length l.
Proof.
  induction l as [|y l IH]; simpl; [intros; split_and!; set_solver|]. rewrite NoDup_cons. intros [Hy Hnd].
  destruct (N.eqb_spec id y) as [->|Hne]; [split_and!; try done; [set_solver | lia]|].
  specialize (IH Hnd). destruct (remove_first _ l) as [found l']. destruct IH as (H1 & H2 & H3 & H4).
  split_and!; [done | apply NoDup_cons; set_solver | set_solver | simpl; lia].
Qed.

(** An invitation is bounded and good for one use.  Adding the id of a live
    connection makes exactly that id invited, or reports a full list (128 entries) or
    failed allocation and changes nothing; consuming it reports whether it was there
    and makes exactly that id uninvited; the list never has duplicates nor more than
    128 entries, and id 0 is never invited. *)
Theorem invitation_one_use ch id w C :
  w_channels w !! ch = Some C → invites_ok C →
  (let '(rc, w') := channel_invite_add ch id w in
   ∃ C', w_channels w' !! ch = Some C' ∧ invites_ok C' ∧
     ((rc = 0%Z ∧ id ≠ 0%N ∧ ∀ x, channel_invite_has C' x = channel_invite_has C x || (x =? id)%N) ∨ (rc < 0)%Z ∧ C' = C)) ∧
  (let '(found, w') := channel_invite_consume ch id w in
   ∃ C', w_channels w' !! ch = Some C' ∧ invites_ok C' ∧ found = channel_invite_has C id ∧
     ∀ x, channel_invite_has C' x = channel_invite_has C x && negb (x =? id)%N).
Proof.
  intros HC Hok. pose proof Hok as [Hnd Hmax H0]. assert (Hthe : the_channel w ch = C) by (unfold the_channel; by rewrite HC). split.
  - unfold channel_invite_add, channel. rewrite run_gets, Hthe.
    destruct (N.eqb_spec id 0) as [->|Hid]; [exists C; split; [done|]; split; [done | by right]|].
    destruct (existsb (N.eqb id) (ch_invites C)) eqn:Hin.
    { exists C. split_and!; [done | done |]. left. split_and!; [done..|]. intros x. unfold channel_invite_has.
      destruct (N.eqb_spec x id) as [->|]; [|by rewrite orb_false_r]. apply N.eqb_neq in Hid. by rewrite Hid, Hin. }
    destruct (_ <=? _) eqn:Hfull; [exists C; split; [done|]; split; [done | by right]|]. bools. rewrite run_bind. cbn [alloc].
    destruct (hd true (w_alloc w)); cbn [negb]; [|exists C; split; [done|]; split; [done | by right]].
    simpl. rewrite lookup_alter_eq, HC. eexists. split; [reflexivity|]. split.
    + split; simpl; [apply NoDup_cons; split; [|done]|lia|set_solver]. rewrite <-existsb_N. congruence.
    + left. split_and!; [done..|]. intros x. unfold channel_invite_has. simpl.
      destruct (N.eqb_spec x 0) as [->|]; [by apply N.eqb_neq in Hid; rewrite N.eqb_sym, Hid|]. apply orb_comm.
  - unfold channel_invite_consume, channel. destruct (N.eqb_spec id 0) as [->|Hid].
    { exists C. split_and!; [done..|]. intros x. unfold channel_invite_has. destruct (N.eqb_spec x 0); [done|].
      by rewrite andb_true_r. }
    rewrite run_gets, Hthe. pose proof (remove_first_N id (ch_invites C) Hnd) as Hr.
    destruct (remove_first _ _) as [found l']. destruct Hr as (Hf & Hnd' & Hl' & Hlen).
    simpl. rewrite lookup_alter_eq, HC. eexists. split; [reflexivity|]. split_and!.
    + split; simpl; [done | lia | set_solver].
    + unfold channel_invite_has. apply N.eqb_neq in Hid. by rewrite Hid.
    + intros x. unfold channel_invite_has. simpl. destruct (x =? 0)%N; [done|]. apply eq_true_iff_eq.
      rewrite andb_true_iff, negb_true_iff, N.eqb_neq, !existsb_N. apply Hl'.
Qed.

Lemma invitation_one_use_witness :
  let C := set_ch_invites [7%N] calloc_channel in
  let w := set_w_channels {[ 0 := C ]} boot in
  let '(found, w') := channel_invite_consume 0 7 w in
  found = true ∧ channel_invite_has (the_channel w' 0) 7 = false.
Proof.
  intros C w. destruct (invitation_one_use 0 7 w C) as [_ H]; [reflexivity | |].
  { split; [repeat constructor; set_solver | vm_compute; lia | set_solver]. }
  destruct (channel_invite_consume 0 7 w) as [found w']. destruct H as (C' & H1 & _ & H2 & H3).
  split; [rewrite H2; vm_compute; reflexivity|]. unfold the_channel. rewrite H1. simpl. rewrite H3. reflexivity.
Defined.
