(* ===== verification/Mode.v ===== *)
(** * MODE ([src/commands/mode.c], [mode_persist.c], [mode_control.c], [deafmute.c])

    The build compiles [mode.c]'s [command_mode] as [command_mode_core] and
    [mode_persist.c]'s as [command_mode_policy_core]; the command itself is the one of
    [mode_control.c].  The three layers are kept apart here. *)

From S2P Require Import Prelude CString Modes HashTable MaskMatch Output World Channel Invariant Policy Tags Numerics Ircv3 Presence Env Cloak Register Connection Services JoinPart ChanCmds.


(** ** The letters *)

Definition letter_bit (table : list (ascii * N)) (letter : ascii) : N :=
  match find (λ p, Ascii.eqb p.1 letter) table with Some p => p.2 | None => 0%N end.

Definition client_mode_bit : ascii → ClientModeSet := letter_bit
  [("B"%char, CLIENT_MODE_BOT); ("d"%char, CLIENT_MODE_DEAF); ("g"%char, CLIENT_MODE_GLOBALS);
   ("H"%char, CLIENT_MODE_HIDE_OPER); ("h"%char, CLIENT_MODE_HELPOP); ("I"%char, CLIENT_MODE_HIDE_IDLE);
   ("i"%char, CLIENT_MODE_INVISIBLE); ("N"%char, CLIENT_MODE_NETADMIN); ("o"%char, CLIENT_MODE_OPER);
   ("p"%char, CLIENT_MODE_PRIVATE); ("R"%char, CLIENT_MODE_REGONLY_MSG); ("r"%char, CLIENT_MODE_REGISTERED);
   ("S"%char, CLIENT_MODE_SERVICE); ("s"%char, CLIENT_MODE_SERVER_NOTICES); ("T"%char, CLIENT_MODE_NO_CTCP);
   ("t"%char, CLIENT_MODE_VHOST); ("V"%char, CLIENT_MODE_WEBIRC); ("W"%char, CLIENT_MODE_WHOIS_NOTICE);
   ("w"%char, CLIENT_MODE_WALLOPS); ("x"%char, CLIENT_MODE_CLOAKED); ("z"%char, CLIENT_MODE_SECURE)].

Definition client_mode_self_settable (letter : ascii) : bool := has_char letter "BdgipRsTw".

Definition format_client_modes (K : Client) : cstr :=
  snprintf 64 ("+"%char :: filter (λ l, client_mode_has (cl_modes K) (client_mode_bit l) = true) (lit "BdghHiNopRrSsTtVWwxz")).

Definition channel_boolean_mode_bit : ascii → ChannelModeSet := letter_bit
  [("A"%char, CHANNEL_MODE_ADMIN_ONLY); ("c"%char, CHANNEL_MODE_NO_COLOR); ("i"%char, CHANNEL_MODE_INVITE_ONLY);
   ("K"%char, CHANNEL_MODE_NO_KNOCK); ("M"%char, CHANNEL_MODE_REGONLY_SPEAK); ("m"%char, CHANNEL_MODE_MODERATED);
   ("n"%char, CHANNEL_MODE_NO_EXTERNAL); ("O"%char, CHANNEL_MODE_OPER_ONLY); ("p"%char, CHANNEL_MODE_PRIVATE);
   ("r"%char, CHANNEL_MODE_REGISTERED); ("R"%char, CHANNEL_MODE_REGONLY_JOIN); ("S"%char, CHANNEL_MODE_STRIP_COLOR);
   ("s"%char, CHANNEL_MODE_SECRET); ("t"%char, CHANNEL_MODE_TOPIC_LOCK); ("T"%char, CHANNEL_MODE_NO_NOTICE);
   ("V"%char, CHANNEL_MODE_NO_INVITE); ("z"%char, CHANNEL_MODE_SECURE_ONLY)].

Definition channel_privilege_bit : ascii → ChannelPrivilegeSet := letter_bit
  [("q"%char, CHANNEL_PRIV_OWNER); ("a"%char, CHANNEL_PRIV_PROTECTED); ("o"%char, CHANNEL_PRIV_OPERATOR);
   ("h"%char, CHANNEL_PRIV_HALFOP); ("v"%char, CHANNEL_PRIV_VOICE)].

(** [boolean_bit] of [mode_persist.c]: the same letters without [r]. *)
Definition boolean_bit (letter : ascii) : ChannelModeSet :=
  if Ascii.eqb letter "r" then 0%N else channel_boolean_mode_bit letter.

Definition bit_for_letter (letter : ascii) : ClientModeSet :=
  if Ascii.eqb letter "D" then CLIENT_MODE_PRIVATE_DEAF else
  if Ascii.eqb letter "M" then CLIENT_MODE_CHANNEL_MUTE else client_mode_bit letter.

(** [letter == '+' || letter == '-']. *)
Definition is_sign (letter : ascii) : bool := Ascii.eqb letter "+" || Ascii.eqb letter "-".
Definition is_list_letter (letter : ascii) : bool := has_char letter "beI".

(** ** Buffers *)

(** [append_mode]: the text so far and the sign last written. *)
Definition append_mode (size : nat) (acc : cstr * ascii) (sign letter : ascii) : cstr * ascii :=
  let '(buffer, last) := acc in
  let '(buffer, last) := if negb (Ascii.eqb last sign) && (length buffer + 1 <? size)
                         then (buffer ++ [sign], sign) else (buffer, last) in
  (if length buffer + 1 <? size then buffer ++ [letter] else buffer, last).

Definition append_param (size : nat) (buffer param : cstr) : cstr :=
  snprintf size (buffer ++ (if empty buffer then [] else lit " ") ++ param).

(** [parse_uint]: [None] for -1. *)
Definition parse_uint (text : cstr) : option Z :=
  if empty text then None else
  let '(value, erange, none, rest) := strtoul text in
  if erange || none || negb (empty rest) then None else Some value.

(** ** Replies *)

Definition send_mask_list (c ch : ptr) (type : ascii) : M unit :=
  cfg ← config;
  K ← client c;
  C ← channel ch;
  let show fmt l := for_each l (λ e, tell c fmt [server_name cfg; cl_nick K; ch_name C; mask e; lit "*"; dec 0]) in
  let done fmt := tell c fmt [server_name cfg; cl_nick K; ch_name C] in
  if Ascii.eqb type "b" then show RPL_BANLIST (ch_ban_list C) ;; done RPL_ENDOFBANLIST else
  if Ascii.eqb type "e" then show RPL_EXLIST (ch_exception_list C) ;; done RPL_ENDOFEXLIST else
  if Ascii.eqb type "I" then show RPL_INVEXLIST (ch_invite_exception_list C) ;; done RPL_ENDOFINVEXLIST else
  mret tt.

(** One parameter mode of a channel's mode line. *)
Definition mode_param (size : nat) (shown : bool) (letter : ascii) (param : cstr) (acc : cstr * cstr) : cstr * cstr :=
  let '(modes, params) := acc in
  if shown && (length modes + 1 <? 128) then (modes ++ [letter], append_param size params param) else (modes, params).

(** Letters and parameters of a channel; [size] is the parameter buffer. *)
Definition channel_mode_line (size : nat) (C : Channel) : cstr * cstr :=
  mode_param size (negb (empty (ch_ban_redirect C))) "B" (ch_ban_redirect C)
  (mode_param size (negb (empty (ch_limit_redirect C))) "L" (ch_limit_redirect C)
  (mode_param size (negb (ch_join_throttle_count C =? 0)%Z) "j"
     (format "%u:%u" [dec (ch_join_throttle_count C); dec (ch_join_throttle_seconds C)])
  (mode_param size (negb (ch_user_limit C =? 0)%Z) "l" (dec (ch_user_limit C))
  (mode_param size (negb (empty (ch_key C))) "k" (ch_key C)
  (snprintf 128 ("+"%char :: filter (λ l, channel_mode_has (ch_modes C) (channel_boolean_mode_bit l) = true)
     (lit "AciKMmnOprRSstTVz")), []))))).

(** [send_channel_modes] of [mode.c]: the numeric has no place for the parameters. *)
Definition core_send_channel_modes (c ch : ptr) : M unit :=
  cfg ← config;
  K ← client c;
  C ← channel ch;
  let '(modes, params) := channel_mode_line IRCD_MESSAGE_BUFFER_SIZE C in
  tell c RPL_CHANNELMODEIS [server_name cfg; cl_nick K; ch_name C; modes; params].

(** [send_channel_modes] of [mode_persist.c]. *)
Definition send_channel_modes (c ch : ptr) : M unit :=
  cfg ← config;
  K ← client c;
  C ← channel ch;
  let '(modes, params) := channel_mode_line 256 C in
  let combined := snprintf 512 (if empty params then modes else modes ++ lit " " ++ params) in
  tell c RPL_CHANNELMODEIS [server_name cfg; cl_nick K; ch_name C; combined].

Definition send_full_user_modes (c : ptr) : M unit :=
  cfg ← config;
  K ← client c;
  tell c RPL_UMODEIS [server_name cfg; cl_nick K;
    snprintf 64 ("+"%char :: filter (λ l, client_mode_has (cl_modes K) (bit_for_letter l) = true)
      (lit "BDMdghHiINopRrSsTtVWwxz"))].

(** ** User modes ([mode.c]) *)

Definition flip (plus : bool) (modes bit : ClientModeSet) : ClientModeSet :=
  if plus then client_mode_add modes bit else client_mode_remove modes bit.

Fixpoint user_letters (c : ptr) (sign : ascii) (letters : cstr) : M unit :=
  match letters with
  | [] => mret tt
  | letter :: rest =>
      if is_sign letter then user_letters c letter rest else
      cfg ← config;
      K ← client c;
      let bit := client_mode_bit letter in
      (if (bit =? 0)%N then tell c ERR_UMODEUNKNOWNFLAG [server_name cfg; cl_nick K] else
       if negb (client_mode_self_settable letter) then tell c ERR_NOPRIVILEGES [server_name cfg; cl_nick K] else
       upd_client c (λ K, set_cl_modes (flip (Ascii.eqb sign "+") (cl_modes K) bit) K)) ;;
      user_letters c sign rest
  end.

Definition mode_user (c : ptr) (target : cstr) (mode_string : option cstr) : M CommandResult :=
  cfg ← config;
  K ← client c;
  found ← find_nick target;
  match found with
  | None => reply c ERR_NOSUCHNICK [server_name cfg; cl_nick K; target]
  | Some t =>
      if negb (t =? c) then reply c ERR_USERSDONTMATCH [server_name cfg; cl_nick K] else
      user_letters c "+" (default [] mode_string) ;;
      K' ← client c;
      reply c RPL_UMODEIS [server_name cfg; cl_nick K; format_client_modes K']
  end.

(** ** Channel modes ([mode.c]) *)

Definition may_change_channel (C : Channel) (actor : ptr) : bool :=
  match channel_find_member C actor with
  | None => false
  | Some m => channel_privilege_has (m_privileges m)
                (N.lor CHANNEL_PRIV_OWNER (N.lor CHANNEL_PRIV_PROTECTED CHANNEL_PRIV_OPERATOR))
  end.

Definition may_manage_protected (C : Channel) (actor : ptr) : bool :=
  match channel_find_member C actor with
  | None => false
  | Some m => channel_privilege_has (m_privileges m) (N.lor CHANNEL_PRIV_OWNER CHANNEL_PRIV_PROTECTED)
  end.

Definition ban_mask_targets_protected (w : World) (C : Channel) (text : cstr) : bool :=
  existsb (λ m,
    channel_privilege_has (m_privileges m) CHANNEL_PRIV_PROTECTED &&
    negb (channel_privilege_has (m_privileges m) CHANNEL_PRIV_OWNER) &&
    irc_mask_match text (identity (the_client w (m_client m)))) (ch_members C).

(** What a MODE command has worked through: the sign in force, the last sign written
    and the letters of the broadcast, its parameters, and the arguments left. *)
Record ModeRun := MkRun {
  r_sign : ascii;
  r_last : ascii;
  r_changed : cstr;
  r_params : cstr;
  r_argv : list cstr }.

Definition set_sign (sign : ascii) (r : ModeRun) : ModeRun :=
  MkRun sign (r_last r) (r_changed r) (r_params r) (r_argv r).
(** [++argi]. *)
Definition consume (r : ModeRun) : ModeRun :=
  MkRun (r_sign r) (r_last r) (r_changed r) (r_params r) (tail (r_argv r)).
Definition note_mode (letter : ascii) (r : ModeRun) : ModeRun :=
  let '(changed, last) := append_mode 128 (r_changed r, r_last r) (r_sign r) letter in
  MkRun (r_sign r) last changed (r_params r) (r_argv r).
Definition note_param (param : cstr) (r : ModeRun) : ModeRun :=
  MkRun (r_sign r) (r_last r) (r_changed r) (append_param IRCD_MESSAGE_BUFFER_SIZE (r_params r) param) (r_argv r).

Definition plus (r : ModeRun) : bool := Ascii.eqb (r_sign r) "+".

Definition need_more_params (c : ptr) : M unit :=
  cfg ← config;
  K ← client c;
  tell c ERR_NEEDMOREPARAMS [server_name cfg; cl_nick K; lit "MODE"].

Section Mode.
Context `{S : Services} `{E : Env}.

Definition secureops_allows (ch subject : ptr) (privilege : ChannelPrivilegeSet) : M bool :=
  C ← channel ch;
  if negb (ch_chanserv_secure_ops C) then mret true else
  eligible ← chanserv_client_privileges subject (ch_name C);
  let rank := channel_privilege_rank eligible in
  mret (if (privilege =? CHANNEL_PRIV_OWNER)%N then 5 <=? rank else
        if (privilege =? CHANNEL_PRIV_PROTECTED)%N then 4 <=? rank else
        if (privilege =? CHANNEL_PRIV_OPERATOR)%N then 3 <=? rank else
        if (privilege =? CHANNEL_PRIV_HALFOP)%N then 2 <=? rank else true).

(** +q, +a, +o, +h and +v. *)
Definition mode_privilege (c ch : ptr) (letter : ascii) (bit : ChannelPrivilegeSet) (r : ModeRun) : M ModeRun :=
  cfg ← config;
  K ← client c;
  match r_argv r with
  | [] => need_more_params c ;; mret r
  | param :: _ =>
      let r := consume r in
      found ← find_nick param;
      match found with
      | None => tell c ERR_NOSUCHNICK [server_name cfg; cl_nick K; param] ;; mret r
      | Some subject =>
          C ← channel ch;
          T ← client subject;
          if negb (channel_has_client C subject)
          then tell c ERR_USERNOTINCHANNEL [server_name cfg; cl_nick K; cl_nick T; ch_name C] ;; mret r else
          allowed ← (if plus r then secureops_allows ch subject bit else mret true);
          if negb allowed then
            tell c ":%s 482 %s %s :SecureOps prevented granting protected status to an ineligible account"
              [server_name cfg; cl_nick K; ch_name C] ;; mret r
          else if Ascii.eqb letter "a" && negb (may_manage_protected C c) then
            tell c ERR_CHANOPRIVSNEEDED [server_name cfg; cl_nick K; ch_name C] ;; mret r
          else
            _ ← (if plus r then channel_add_privileges ch subject bit
                 else channel_remove_manual_privileges ch subject bit);
            mret (note_param (cl_nick T) (note_mode letter r))
      end
  end.

(** +k, +L and +B: a text field of the channel. *)
Definition mode_text (c ch : ptr) (letter : ascii) (set : cstr → Channel → Channel) (size : nat)
    (r : ModeRun) : M ModeRun :=
  if plus r then
    match r_argv r with
    | [] => need_more_params c ;; mret r
    | param :: _ =>
        upd_channel ch (set (snprintf size param)) ;;
        mret (note_mode letter (note_param param (consume r)))
    end
  else
    upd_channel ch (set []) ;;
    mret (note_mode letter
      (if Ascii.eqb letter "k" then match r_argv r with [] => r | param :: _ => note_param param (consume r) end else r)).

Definition mode_limit (c ch : ptr) (r : ModeRun) : M ModeRun :=
  if plus r then
    match r_argv r with
    | [] => need_more_params c ;; mret r
    | param :: _ =>
        match parse_uint param with
        | Some value =>
            if (value =? 0)%Z then need_more_params c ;; mret (consume r) else
            upd_channel ch (set_ch_user_limit value) ;;
            mret (note_mode "l" (note_param param (consume r)))
        | None => need_more_params c ;; mret (consume r)
        end
    end
  else upd_channel ch (set_ch_user_limit 0) ;; mret (note_mode "l" r).

(** The two numbers of [+j count:seconds]. *)
Definition parse_throttle (param : cstr) : option (Z * Z) :=
  if negb (has_char ":" param) then None else
  let '(before, rest) := span (Ascii.eqb ":") param in
  count ← parse_uint before;
  seconds ← parse_uint (tail rest);
  if (count =? 0)%Z || (seconds =? 0)%Z || (UINT_MAX <? count)%Z || (UINT_MAX <? seconds)%Z
  then None else Some (count, seconds).

Definition mode_throttle (c ch : ptr) (r : ModeRun) : M ModeRun :=
  if plus r then
    match r_argv r with
    | [] => need_more_params c ;; mret r
    | param :: _ =>
        if 64 <=? length param then need_more_params c ;; mret r else
        match parse_throttle param with
        | None => need_more_params c ;; mret (consume r)
        | Some (count, seconds) =>
            upd_channel ch (λ C, set_ch_join_throttle_seconds seconds (set_ch_join_throttle_count count C)) ;;
            mret (note_mode "j" (note_param param (consume r)))
        end
    end
  else
    upd_channel ch (λ C, set_ch_join_throttle_seconds 0 (set_ch_join_throttle_count 0 C)) ;;
    mret (note_mode "j" r).

(** The list a letter stands for, and how to replace it. *)
Definition mask_list (letter : ascii) (C : Channel) : list ChannelMaskEntry :=
  if Ascii.eqb letter "b" then ch_ban_list C else
  if Ascii.eqb letter "e" then ch_exception_list C else ch_invite_exception_list C.
Definition set_mask_list (letter : ascii) (l : list ChannelMaskEntry) (C : Channel) : Channel :=
  if Ascii.eqb letter "b" then set_ch_ban_list l C else
  if Ascii.eqb letter "e" then set_ch_exception_list l C else set_ch_invite_exception_list l C.

(** +b, +e and +I with a parameter. *)
Definition mode_mask (c ch : ptr) (letter : ascii) (param : cstr) (r : ModeRun) : M ModeRun :=
  cfg ← config;
  K ← client c;
  C ← channel ch;
  let r := consume r in
  let noted := note_param param (note_mode letter r) in
  if plus r then
    let authorized := Ascii.eqb letter "b" && may_manage_protected C c in
    targets ← gets (λ w, ban_mask_targets_protected w C param);
    if Ascii.eqb letter "b" && negb authorized && targets then
      tell c ERR_CHANOPRIVSNEEDED [server_name cfg; cl_nick K; ch_name C] ;; mret r
    else
      ok ← (if mask_needs_entry (mask_list letter C) param then alloc else mret true);
      upd_channel ch (λ C, set_mask_list letter (channel_mask_add_authorized ok (mask_list letter C) param authorized).2 C) ;;
      mret noted
  else
    upd_channel ch (λ C, set_mask_list letter (channel_mask_remove (mask_list letter C) param).2 C) ;;
    mret noted.

Definition mode_letter (c ch : ptr) (letter : ascii) (r : ModeRun) : M ModeRun :=
  cfg ← config;
  K ← client c;
  C ← channel ch;
  let bit := channel_boolean_mode_bit letter in
  if negb (bit =? 0)%N then
    if Ascii.eqb letter "r" then
      tell c ERR_ONLYSERVERSCANCHANGE [server_name cfg; cl_nick K; ch_name C] ;; mret r
    else
      upd_channel ch (λ C, set_ch_modes (flip (plus r) (ch_modes C) bit) C) ;;
      mret (note_mode letter r)
  else
  let privilege := channel_privilege_bit letter in
  if negb (privilege =? 0)%N then mode_privilege c ch letter privilege r else
  if Ascii.eqb letter "k" then mode_text c ch letter set_ch_key (IRC_CHANNEL_KEY_MAX + 1) r else
  if Ascii.eqb letter "l" then mode_limit c ch r else
  if Ascii.eqb letter "j" then mode_throttle c ch r else
  if Ascii.eqb letter "L" then mode_text c ch letter set_ch_limit_redirect (IRC_CHANNEL_NAME_MAX + 1) r else
  if Ascii.eqb letter "B" then mode_text c ch letter set_ch_ban_redirect (IRC_CHANNEL_NAME_MAX + 1) r else
  if is_list_letter letter then
    match r_argv r with
    | [] => need_more_params c ;; mret r
    | param :: _ => mode_mask c ch letter param r
    end
  else tell c ERR_UNKNOWNMODE [server_name cfg; cl_nick K; [letter]] ;; mret r.

(** The loop over the mode string; [None] when a change was refused for lack of
    privileges, which ends the command. *)
Fixpoint mode_letters (c ch : ptr) (may_change : bool) (letters : cstr) (r : ModeRun) : M (option ModeRun) :=
  match letters with
  | [] => mret (Some r)
  | letter :: rest =>
      if is_sign letter then mode_letters c ch may_change rest (set_sign letter r) else
      if is_list_letter letter && bool_decide (r_argv r = []) then
        send_mask_list c ch letter ;; mode_letters c ch may_change rest r
      else if negb may_change then
        cfg ← config;
        K ← client c;
        C ← channel ch;
        tell c ERR_CHANOPRIVSNEEDED [server_name cfg; cl_nick K; ch_name C] ;; mret None
      else r' ← mode_letter c ch letter r; mode_letters c ch may_change rest r'
  end.

(** The line that announces the changes. *)
Definition mode_announcement (K : Client) (C : Channel) (r : ModeRun) : option cstr :=
  let prefix := format ":%s!%s@%s MODE %s %s"
    [cl_nick K; cl_user K; cl_display_host K; ch_name C; r_changed r] in
  if length prefix <=? IRC_LINE_CONTENT_MAX then
    Some ((if negb (empty (r_params r)) && (length prefix + 1 + length (r_params r) <=? IRC_LINE_CONTENT_MAX)
           then prefix ++ lit " " ++ r_params r else prefix) ++ [CR; LF])
  else None.

Definition mode_channel (c : ptr) (target : cstr) (mode_string : option cstr) (argv : list cstr) : M CommandResult :=
  cfg ← config;
  K ← client c;
  found ← find_channel target;
  match found with
  | None => reply c ERR_NOSUCHCHANNEL [server_name cfg; cl_nick K; target]
  | Some ch =>
      match mode_string with
      | None | Some [] => core_send_channel_modes c ch ;; keep
      | Some letters =>
          C ← channel ch;
          done ← mode_letters c ch (may_change_channel C c) letters (MkRun "+" NUL [] [] argv);
          match done with
          | None => keep
          | Some r =>
              if empty (r_changed r) then keep else
              C ← channel ch;
              match mode_announcement K C r with
              | Some message => channel_broadcast ch None message
              | None => mret tt
              end ;;
              chanserv_persist_channel ch ;;
              keep
          end
      end
  end.

Definition command_mode_core (c : ptr) (params : option cstr) : M CommandResult :=
  u ← command_require_registered c;
  if u : bool then keep else
  cfg ← config;
  K ← client c;
  match params with
  | None => reply c ERR_NEEDMOREPARAMS [server_name cfg; cl_nick K; lit "MODE"]
  | Some params =>
      let '(target, rest) := strtok " " params in
      let '(mode_string, rest) := strtok " " rest in
      let argv := take IRC_MODE_MAX_PARAMS (tokens " " rest) in
      match target with
      | None => keep
      | Some target =>
          if Ascii.eqb (char0 target) "#" || Ascii.eqb (char0 target) "&"
          then mode_channel c target mode_string argv
          else mode_user c target mode_string
      end
  end.

(** ** ChanServ's rules on top ([mode_persist.c]) *)

(** [check_mlock]: [true] when no letter is locked. *)
Fixpoint mlock_letters (c : ptr) (C : Channel) (sign : ascii) (letters : cstr) : M bool :=
  match letters with
  | [] => mret true
  | letter :: rest =>
      if is_sign letter then mlock_letters c C letter rest else
      let bit := boolean_bit letter in
      if (bit =? 0)%N || chanserv_mode_change_allowed C bit (Ascii.eqb sign "+") then mlock_letters c C sign rest else
      cfg ← config;
      K ← client c;
      tell c ERR_CANNOTCHANGECHANMODE [server_name cfg; cl_nick K; [letter]; lit "Mode is locked by ChanServ"] ;;
      mret false
  end.

Definition check_mlock (c : ptr) (found : option ptr) (mode_string : option cstr) : M bool :=
  match found, mode_string with
  | Some ch, Some letters => C ← channel ch; mlock_letters c C "+" letters
  | _, _ => mret true
  end.

(** [strcmp(a, b) > 0]. *)
Fixpoint strcmp_gt (a b : cstr) : bool :=
  match a, b with
  | [], _ => false
  | _ :: _, [] => true
  | x :: a', y :: b' => if Ascii.eqb x y then strcmp_gt a' b' else (byte y <? byte x)%N
  end.

(** [while (digits[0] == '0' && digits[1] != '\0') ++digits;]. *)
Fixpoint strip_zeros (digits : cstr) : cstr :=
  match digits with
  | x :: ((_ :: _) as rest) => if Ascii.eqb x "0" then strip_zeros rest else digits
  | _ => digits
  end.

Definition limit_maximum : cstr := "9223372036854775807".

Definition user_limit_exceeds_persistable_range (param : cstr) : bool :=
  if empty param then false else
  let digits := match param with x :: rest => if Ascii.eqb x "+" then rest else param | [] => [] end in
  if Ascii.eqb (char0 digits) "-" then true else
  if empty digits then false else
  if negb (forallb isdigit digits) then false else
  let digits := strip_zeros digits in
  if negb (length digits =? length limit_maximum) then length limit_maximum <? length digits
  else strcmp_gt digits limit_maximum.

(** The first parameter that must not reach the core: the numeric and its argument. *)
Fixpoint bad_parameter (name : cstr) (sign : ascii) (letters : cstr) (argv : list cstr) : option (cstr * cstr) :=
  match letters with
  | [] => None
  | letter :: rest =>
      if is_sign letter then bad_parameter name letter rest argv else
      let adding := Ascii.eqb sign "+" in
      let consumes := has_char letter "qaohv" || Ascii.eqb letter "k" ||
                      (has_char letter "ljLB" && adding) || is_list_letter letter in
      let param := hd_error argv in
      if Ascii.eqb letter "l" && adding && match param with Some p => user_limit_exceeds_persistable_range p | None => false end
      then Some (ERR_NEEDMOREPARAMS, lit "MODE") else
      if has_char letter "LB" && adding &&
         match param with
         | None => true
         | Some p => negb (strchr IRC_CHANNEL_PREFIXES (char0 p)) || (IRC_CHANNEL_NAME_MAX <? length p) || strcaseeq p name
         end
      then Some (ERR_NOSUCHCHANNEL, default (lit "*") param) else
      bad_parameter name sign rest (if consumes then tail argv else argv)
  end.

Definition validate_channel_mode_params (c : ptr) (found : option ptr) (params : cstr) : M bool :=
  match found with
  | None => mret true
  | Some ch =>
      cfg ← config;
      K ← client c;
      C ← channel ch;
      let '(_, rest) := strtok " " (snprintf IRCD_MESSAGE_BUFFER_SIZE params) in
      let '(modes, rest) := strtok " " rest in
      match (modes ← modes; bad_parameter (ch_name C) "+" modes (take IRC_MODE_MAX_PARAMS (tokens " " rest))) with
      | None => mret true
      | Some (numeric, arg) => tell c numeric [server_name cfg; cl_nick K; arg] ;; mret false
      end
  end.

(** The modes of [handle_special_user_modes] for operators. *)
Definition oper_mode_bit : ascii → ClientModeSet := letter_bit
  [("H"%char, CLIENT_MODE_HIDE_OPER); ("I"%char, CLIENT_MODE_HIDE_IDLE); ("W"%char, CLIENT_MODE_WHOIS_NOTICE);
   ("g"%char, CLIENT_MODE_GLOBALS); ("s"%char, CLIENT_MODE_SERVER_NOTICES)].

(** Whether a letter was consumed, and the letters left for the core. *)
Fixpoint special_letters (c : ptr) (is_oper : bool) (sign : ascii) (acc : cstr * ascii) (consumed : bool)
    (letters : cstr) : M (bool * cstr) :=
  match letters with
  | [] => mret (consumed, acc.1)
  | letter :: rest =>
      if is_sign letter then special_letters c is_oper letter acc consumed rest else
      cfg ← config;
      K ← client c;
      if Ascii.eqb letter "x" then
        upd_client c (if Ascii.eqb sign "+" then usermode_apply_cloak cfg else usermode_remove_cloak) ;;
        special_letters c is_oper sign acc true rest
      else
      let bit := oper_mode_bit letter in
      if negb (bit =? 0)%N then
        (if is_oper then upd_client c (λ K, set_cl_modes (flip (Ascii.eqb sign "+") (cl_modes K) bit) K)
         else tell c ERR_NOPRIVILEGES [server_name cfg; cl_nick K]) ;;
        special_letters c is_oper sign acc true rest
      else special_letters c is_oper sign (append_mode 128 acc sign letter) consumed rest
  end.

Definition handle_special_user_modes (c : ptr) (target letters : cstr) : M (bool * cstr) :=
  found ← find_nick target;
  if negb (bool_decide (found = Some c)) then mret (false, []) else
  K ← client c;
  special_letters c (client_mode_has (cl_modes K) (N.lor CLIENT_MODE_OPER CLIENT_MODE_NETADMIN)) "+" ([], NUL) false letters.

Definition command_mode_policy_core (c : ptr) (params : option cstr) : M CommandResult :=
  match params with
  | None => command_mode_core c None
  | Some params =>
      let '(target, rest) := strtok " " (snprintf IRCD_MESSAGE_BUFFER_SIZE params) in
      let mode_string := (strtok " " rest).1 in
      match target with
      | None => command_mode_core c (Some params)
      | Some target =>
          if strchr IRC_CHANNEL_PREFIXES (char0 target) then
            let channel_name := snprintf (IRC_CHANNEL_NAME_MAX + 1) target in
            found ← find_channel channel_name;
            match found, mode_string with
            | Some ch, None =>
                u ← command_require_registered c;
                if u : bool then keep else send_channel_modes c ch ;; keep
            | _, _ =>
                unlocked ← check_mlock c found mode_string;
                if negb unlocked then keep else
                valid ← validate_channel_mode_params c found params;
                if negb valid then keep else
                old ← gets (λ w, default (0%Z, 0%Z) ((λ ch, (ch_join_throttle_count (the_channel w ch),
                        ch_join_throttle_seconds (the_channel w ch))) <$> found));
                result ← command_mode_core c (Some params);
                found ← find_channel channel_name;
                match found with
                | None => mret tt
                | Some ch =>
                    C ← channel ch;
                    when (negb (bool_decide (old = (ch_join_throttle_count C, ch_join_throttle_seconds C))))
                      (upd_channel ch channel_join_throttle_clear) ;;
                    chanserv_persist_channel ch
                end ;;
                mret result
            end
          else
            match mode_string with
            | None => command_mode_core c (Some params)
            | Some letters =>
                out ← handle_special_user_modes c target letters;
                let '(consumed, filtered) := out in
                command_mode_core c (Some (if consumed : bool then
                  snprintf IRCD_MESSAGE_BUFFER_SIZE
                    (if empty filtered then target else target ++ lit " " ++ filtered)
                  else params))
            end
      end
  end.

(** ** The command ([mode_control.c]) *)

(** The letters left for the core, and whether [x] was among the letters. *)
Fixpoint control_letters (c : ptr) (sign : ascii) (acc : cstr * ascii) (handled_x : bool) (letters : cstr)
    : M (bool * cstr) :=
  match letters with
  | [] => mret (handled_x, acc.1)
  | letter :: rest =>
      if is_sign letter then control_letters c letter acc handled_x rest else
      cfg ← config;
      K ← client c;
      if has_char letter "DM" then
        tell c ERR_NOPRIVILEGES [server_name cfg; cl_nick K] ;; control_letters c sign acc handled_x rest
      else if Ascii.eqb letter "x" then
        (if Ascii.eqb sign "+" then
           if empty (cloak_key cfg) || bool_decide (cloak_generate cfg (cl_real_ip K) (cl_real_host K) = None)
           then tell c ":%s NOTICE %s :MODE +x unavailable: cloak_key is not configured" [server_name cfg; cl_nick K]
           else upd_client c (λ K, cloak_refresh_display_host cfg
                  (set_cl_modes (client_mode_add (cl_modes K) CLIENT_MODE_CLOAKED) K))
         else upd_client c (λ K, cloak_refresh_display_host cfg
                (set_cl_modes (client_mode_remove (cl_modes K) CLIENT_MODE_CLOAKED) K))) ;;
        control_letters c sign acc true rest
      else control_letters c sign (append_mode 128 acc sign letter) handled_x rest
  end.

Definition command_mode (c : ptr) (params : option cstr) : M CommandResult :=
  match params with
  | None => command_mode_policy_core c None
  | Some params =>
      K ← client c;
      let '(target, rest) := strtok " " (snprintf IRCD_MESSAGE_BUFFER_SIZE params) in
      let '(modes, rest) := strtok " " rest in
      match target, modes with
      | Some target, None =>
          if streq target (cl_nick K) then
            u ← command_require_registered c;
            if u : bool then keep else send_full_user_modes c ;; keep
          else command_mode_policy_core c (Some params)
      | Some target, Some modes =>
          if negb (streq target (cl_nick K)) || strchr IRC_CHANNEL_PREFIXES (char0 target)
          then command_mode_policy_core c (Some params) else
          u ← command_require_registered c;
          if u : bool then keep else
          out ← control_letters c "+" ([], NUL) false modes;
          let '(handled_x, filtered) := out in
          when (negb (empty filtered))
            (_ ← command_mode_policy_core c (Some (snprintf IRCD_MESSAGE_BUFFER_SIZE
               (target ++ lit " " ++ filtered ++ match strtok_rest rest with Some more => lit " " ++ more | None => [] end)));
             mret tt) ;;
          when handled_x (send_full_user_modes c) ;;
          keep
      | None, _ => command_mode_policy_core c (Some params)
      end
  end.

(** ** DEAF and MUTE ([deafmute.c]) *)

Definition set_control_mode (c : ptr) (params : option cstr) (command : cstr) (mode : ascii) (bit : ClientModeSet)
    : M CommandResult :=
  u ← command_require_registered c;
  if u : bool then keep else
  cfg ← config;
  K ← client c;
  let need := reply c ERR_NEEDMOREPARAMS [server_name cfg; cl_nick K; command] in
  if negb (client_mode_has (cl_modes K) (N.lor CLIENT_MODE_OPER CLIENT_MODE_NETADMIN))
  then reply c ERR_NOPRIVILEGES [server_name cfg; cl_nick K] else
  let '(spec, rest) := strtok [" "%char; "009"%char] (default [] params) in
  match spec with
  | None => need
  | Some spec =>
      if bool_decide (is_Some (strtok [" "%char; "009"%char] rest).1) then need else
      let adding := negb (Ascii.eqb (char0 spec) "-") in
      let target_name := if is_sign (char0 spec) then tail spec else spec in
      if empty target_name then need else
      found ← find_nick target_name;
      match found with
      | None => reply c ERR_NOSUCHNICK [server_name cfg; cl_nick K; target_name]
      | Some t =>
          upd_client t (λ T, set_cl_modes (flip adding (cl_modes T) bit) T) ;;
          K ← client c;
          T ← client t;
          let sign := [if adding then "+"%char else "-"%char] in
          let line := snprintf IRCD_MESSAGE_BUFFER_SIZE
            (format ":%s!%s@%s MODE %s %c%c" [cl_nick K; cl_user K; cl_display_host K; cl_nick T; sign; [mode]]) in
          _ ← send_line t line;
          (if t =? c then mret tt else _ ← send_line c line; mret tt) ;;
          snotice_broadcast SNOTICE_MODERATION "%s by %s: %c%s (%c%c) [real_ip=%s]"
            [command; cl_nick K; sign; cl_nick T; sign; [mode]; cl_real_ip T] ;;
          keep
      end
  end.

Definition command_deaf (c : ptr) (params : option cstr) : M CommandResult :=
  set_control_mode c params "DEAF" "D" CLIENT_MODE_PRIVATE_DEAF.
Definition command_mute (c : ptr) (params : option cstr) : M CommandResult :=
  set_control_mode c params "MUTE" "M" CLIENT_MODE_CHANNEL_MUTE.

End Mode.
