(* ===== verification/ModeProps.v ===== *)
(** * What MODE can and cannot change

    The consistency of the state, the reach of a channel MODE, the user modes nobody
    can give himself, and the range check on +l. *)

From S2P Require Import Prelude CString Modes HashTable MaskMatch Output World Channel Invariant Policy Tags Numerics Ircv3 Presence Env Cloak Register Connection Services JoinPart ChanCmds Mode.

(** ** Consistency *)

Lemma set_mask_list_shape letter l C : same_channel_shape C (set_mask_list letter l C).
Proof. unfold set_mask_list. repeat case_if; by split_and!. Qed.

Lemma refresh_shape `{E : Env} cfg K : same_client_shape K (cloak_refresh_display_host cfg K).
Proof.
  unfold cloak_refresh_display_host. repeat case_if; try destruct (cloak_generate _ _ _); by split_and!.
Qed.

Lemma same_client_shape_trans K1 K2 K3 :
  same_client_shape K1 K2 → same_client_shape K2 K3 → same_client_shape K1 K3.
Proof. unfold same_client_shape. intuition congruence. Qed.

Lemma need_more_params_quiet c : does quiet (need_more_params c).
Proof. unfold need_more_params. frames. Qed.
Lemma send_mask_list_quiet c ch t : does quiet (send_mask_list c ch t).
Proof. unfold send_mask_list. frames. Qed.
Lemma core_send_channel_modes_quiet c ch : does quiet (core_send_channel_modes c ch).
Proof. unfold core_send_channel_modes. frames. Qed.
Lemma send_channel_modes_quiet c ch : does quiet (send_channel_modes c ch).
Proof. unfold send_channel_modes. frames. Qed.
Lemma send_full_user_modes_quiet c : does quiet (send_full_user_modes c).
Proof. unfold send_full_user_modes. frames. Qed.
#[export] Hint Resolve need_more_params_quiet send_mask_list_quiet core_send_channel_modes_quiet send_channel_modes_quiet send_full_user_modes_quiet : frame.

Section Frames.
Context `{S : Services} `{E : Env}.

Lemma mlock_letters_quiet c C s l : does quiet (mlock_letters c C s l).
Proof. revert s. induction l; intros s; simpl; frames. Qed.
Lemma check_mlock_quiet c f m : does quiet (check_mlock c f m).
Proof. unfold check_mlock. pose proof mlock_letters_quiet. frames. Qed.
Lemma validate_quiet c f p : does quiet (validate_channel_mode_params c f p).
Proof. unfold validate_channel_mode_params. frames. Qed.
Lemma secureops_quiet ch s b : does quiet (secureops_allows ch s b).
Proof. unfold secureops_allows. frames. Qed.

(** ** The reach of a channel MODE

    What MODE never changes of the channel it works on: the registration flag and
    what ChanServ keeps there, topic, invitations, who is a member and with which
    service privileges; and the bounds of what it changes. *)
Definition within (n : nat) (l : list ChannelMaskEntry) : Prop := length l ≤ n.
Definition bounded_channel (C : Channel) : Prop :=
  within IRC_CHANNEL_MASK_LIST_MAX (ch_ban_list C) ∧ within IRC_CHANNEL_MASK_LIST_MAX (ch_exception_list C) ∧
  within IRC_CHANNEL_MASK_LIST_MAX (ch_invite_exception_list C) ∧
  length (ch_key C) ≤ IRC_CHANNEL_KEY_MAX ∧ length (ch_limit_redirect C) ≤ IRC_CHANNEL_NAME_MAX ∧
  length (ch_ban_redirect C) ≤ IRC_CHANNEL_NAME_MAX ∧
  (0 ≤ ch_join_throttle_count C ≤ UINT_MAX)%Z ∧ (0 ≤ ch_join_throttle_seconds C ≤ UINT_MAX)%Z ∧
  (0 ≤ ch_user_limit C ≤ ULONG_MAX)%Z.

(** The part of a channel MODE has no hand in. *)
Definition fixed_part (C : Channel) :=
  (ch_name C, map m_client (ch_members C), map m_service (ch_members C), ch_member_count C,
   ch_topic C, ch_topic_setter C, ch_topic_time C, ch_invites C,
   (ch_chanserv_policy_loaded C, ch_chanserv_policy_valid C, ch_chanserv_founder C, ch_chanserv_mode_lock C,
    ch_chanserv_secure_ops C, ch_chanserv_successor C, ch_chanserv_greeting C)).

Definition mode_kept (C C' : Channel) : Prop :=
  fixed_part C' = fixed_part C ∧
  channel_mode_has (ch_modes C') CHANNEL_MODE_REGISTERED = channel_mode_has (ch_modes C) CHANNEL_MODE_REGISTERED ∧
  (bounded_channel C → bounded_channel C').

#[local] Instance mode_kept_preorder : PreOrder mode_kept.
Proof.
  split.
  - intros C. by split_and!.
  - intros A B C (H1 & H2 & H3) (H4 & H5 & H6). split_and!; [congruence.. | auto].
Qed.

(** Steps that touch at most channel [ch], and keep what MODE must keep. *)
Definition works_on (ch : ptr) (w w' : World) : Prop :=
  w_channels_by_name w' = w_channels_by_name w ∧
  (∀ i, i ≠ ch → w_channels w' !! i = w_channels w !! i) ∧
  match w_channels w !! ch with
  | None => w_channels w' !! ch = None
  | Some C => ∃ C', w_channels w' !! ch = Some C' ∧ mode_kept C C'
  end.

#[local] Instance works_on_silent ch : Silent (works_on ch).
Proof.
  split; [split|].
  - intros w. split_and!; [done..|]. destruct (w_channels w !! ch) as [C|] eqn:E'; [|done]. exists C. by split.
  - intros a b d (N1 & H1 & H2) (N2 & H3 & H4). split_and!; [congruence | intros i Hi; rewrite H3, H1; done |].
    destruct (w_channels a !! ch) as [C|].
    + destruct H2 as (C' & HC' & K1). rewrite HC' in H4. destruct H4 as (C'' & HC'' & K2).
      exists C''. split; [done | by etrans].
    + by rewrite H2 in H4.
  - intros w w' H. unfold quiet in H. rewrite H. split_and!; [done..|]. simpl.
    destruct (w_channels w !! ch) as [C|] eqn:E'; [|done]. exists C. by split.
Qed.

Lemma works_on_upd ch f : (∀ C, mode_kept C (f C)) → does (works_on ch) (upd_channel ch f).
Proof.
  intros Hf w. unfold upd_channel, modify, put_channel. simpl. split_and!; [done | |].
  - intros i Hi. simpl. by rewrite lookup_alter_ne.
  - simpl. rewrite lookup_alter_eq. destruct (w_channels w !! ch) as [C|]; [|done]. exists (f C). by split.
Qed.

Lemma works_on_alloc ch : does (works_on ch) alloc.
Proof.
  intros w. split_and!; [done..|]. simpl. destruct (w_channels w !! ch) as [C|]; [|done]. exists C. by split.
Qed.

(** Flipping a boolean mode other than +r leaves +r alone. *)
Lemma flip_other plus modes i j : (i < 64)%N → (j < 64)%N → i ≠ j →
  channel_mode_has (flip plus modes (bit i)) (bit j) = channel_mode_has modes (bit j).
Proof.
  intros Hi Hj Hne. unfold channel_mode_has, flip, client_mode_add, client_mode_remove. rewrite !mode_has_bit.
  destruct plus.
  - rewrite N.lor_spec, testbit_bit, bool_decide_false by done. by rewrite orb_false_r.
  - rewrite N.land_spec, testbit_cnot, testbit_bit, (bool_decide_false (j = i)) by done.
    rewrite bool_decide_true by done. by rewrite andb_true_r.
Qed.

Lemma boolean_bit_cases letter :
  channel_boolean_mode_bit letter = 0%N ∨ letter = "r"%char ∨
  ∃ i, channel_boolean_mode_bit letter = bit i ∧ (i < 64)%N ∧ bit i ≠ CHANNEL_MODE_REGISTERED.
Proof.
  unfold channel_boolean_mode_bit, letter_bit. cbn [find fst].
  repeat match goal with |- context [if Ascii.eqb ?a ?b then _ else _] => destruct (Ascii.eqb_spec a b); [
    subst; try (right; left; reflexivity);
    right; right; cbn [snd]; match goal with |- ∃ i, ?m = _ ∧ _ => let m' := eval unfold m in m in
      match m' with bit ?k => exists k; split; [reflexivity|]; split; [reflexivity|]; vm_compute; discriminate end end |] end.
  by left.
Qed.

Lemma digits_value_nonneg acc s : (0 ≤ acc)%Z → (0 ≤ (digits_value acc s).1)%Z.
Proof.
  revert acc. induction s as [|x s IH]; intros acc H; simpl; [done|]. destruct (isdigit x) eqn:Hx; [|done].
  apply IH. unfold isdigit, in_range in Hx. apply andb_prop in Hx as [Hx _]. apply N.leb_le in Hx. change (byte "0") with 48%N in Hx. lia.
Qed.

Lemma parse_uint_range text v : parse_uint text = Some v → (0 ≤ v ≤ ULONG_MAX)%Z.
Proof.
  unfold parse_uint. destruct (empty text); [done|]. unfold strtoul.
  destruct (match drop_while isspace text with [] => _ | _ => _ end) as [neg u].
  destruct (negb (isdigit (char0 u))); [by rewrite orb_true_r|].
  pose proof (digits_value_nonneg 0 u ltac:(lia)) as Hn. destruct (digits_value 0 u) as [d e]. simpl in Hn.
  destruct (ULONG_MAX <? d)%Z eqn:Hd; cbn [orb]; [done|]. bools. destruct (empty e); cbn [negb]; [|done].
  intros H. injection H as <-. unfold ULONG_MAX in *. destruct neg; [|lia].
  pose proof (Z.mod_pos_bound (- d) (2 ^ 64) ltac:(lia)). lia.
Qed.

Lemma parse_throttle_range param a b :
  parse_throttle param = Some (a, b) → (0 ≤ a ≤ UINT_MAX)%Z ∧ (0 ≤ b ≤ UINT_MAX)%Z.
Proof.
  unfold parse_throttle. destruct (negb _); [done|]. destruct (span _ param) as [before rest].
  intros (x & Hx & (y & Hy & H)%bind_Some)%bind_Some. revert H. case_if; [done|]. intros [= <- <-].
  apply parse_uint_range in Hx, Hy. bools. lia.
Qed.

Lemma authorize_length text l : length (authorize text l) = length l.
Proof. induction l as [|e l IH]; simpl; [done|]. case_if; simpl; by rewrite ?IH. Qed.

Lemma mask_add_within ok l text a :
  length l ≤ IRC_CHANNEL_MASK_LIST_MAX → length (channel_mask_add_authorized ok l text a).2 ≤ IRC_CHANNEL_MASK_LIST_MAX.
Proof.
  intros Hl. unfold channel_mask_add_authorized. repeat case_if; simpl; try done; rewrite ?authorize_length; bools; lia.
Qed.

Lemma remove_first_length {A} (p : A → bool) l : length (remove_first p l).2 ≤ length l.
Proof.
  induction l as [|x l IH]; simpl; [done|]. destruct (p x); simpl; [lia|].
  destruct (remove_first p l); simpl in *. lia.
Qed.

Lemma mode_kept_mask letter l C :
  (within IRC_CHANNEL_MASK_LIST_MAX (mask_list letter C) → within IRC_CHANNEL_MASK_LIST_MAX l) →
  mode_kept C (set_mask_list letter l C).
Proof.
  intros Hl. unfold set_mask_list, mask_list in *. repeat case_if; (split_and!; [done..|]);
    unfold bounded_channel; simpl; intuition.
Qed.

Lemma works_on_member ch c f :
  (∀ m, m_client (f m) = m_client m) → (∀ m, m_service (f m) = m_service m) →
  does (works_on ch) (with_member ch c f).
Proof.
  intros H1 H2. unfold with_member. apply does_bind; [apply _ | apply does_gets, _|]. intros C.
  destruct (channel_find_member C c); [|apply does_ret, _]. apply does_bind; [apply _| |intros; apply does_ret, _].
  apply works_on_upd. intros C'. split_and!; [|done|done]. unfold fixed_part. simpl.
  assert (Hm : ∀ {B} (g : ChannelMember → B) l, (∀ m, g (f m) = g m) → map g (upd_member c f l) = map g l).
  { intros B g l Hg. induction l as [|m l IH]; simpl; [done|]. case_if; simpl; rewrite ?Hg, ?IH; done. }
  rewrite !Hm by done. done.
Qed.

Hint Extern 4 (does (works_on _) alloc) => apply works_on_alloc : frame.
Hint Extern 5 (does (works_on _) _) => apply (does_quiet _); solve [eauto with frame] : frame.
Hint Resolve secureops_quiet check_mlock_quiet validate_quiet : frame.

Lemma mode_privilege_works c ch letter bit r : does (works_on ch) (mode_privilege c ch letter bit r).
Proof. unfold mode_privilege. frames; by apply works_on_member. Qed.

Lemma mode_text_works c ch letter set n r :
  (∀ s C, length s ≤ n → mode_kept C (set s C)) → does (works_on ch) (mode_text c ch letter set (n + 1) r).
Proof.
  intros Hs. unfold mode_text. frames; apply works_on_upd; intros C; apply Hs; [|simpl; lia].
  unfold snprintf. rewrite length_take. lia.
Qed.

Ltac kept_field := split_and!; [reflexivity | reflexivity |];
  unfold bounded_channel; simpl; intuition; lia.

Lemma mode_limit_works c ch r : does (works_on ch) (mode_limit c ch r).
Proof.
  unfold mode_limit. frames; apply works_on_upd; intros C.
  - match goal with H : parse_uint _ = Some _ |- _ => apply parse_uint_range in H end. kept_field.
  - unfold ULONG_MAX. kept_field.
Qed.

Lemma mode_throttle_works c ch r : does (works_on ch) (mode_throttle c ch r).
Proof.
  unfold mode_throttle. frames; apply works_on_upd; intros C.
  - match goal with H : parse_throttle _ = Some _ |- _ => apply parse_throttle_range in H end. kept_field.
  - unfold UINT_MAX. kept_field.
Qed.

Lemma mode_mask_works c ch letter param r : does (works_on ch) (mode_mask c ch letter param r).
Proof.
  unfold mode_mask. frames; apply works_on_upd; intros C; apply mode_kept_mask; unfold within; intros Hl.
  - by apply mask_add_within.
  - pose proof (remove_first_length (λ e, streq (mask e) param) (mask_list letter C)). unfold channel_mask_remove. lia.
Qed.

Hint Resolve mode_privilege_works mode_limit_works mode_throttle_works mode_mask_works : frame.

Lemma mode_letter_works c ch letter r : does (works_on ch) (mode_letter c ch letter r).
Proof.
  unfold mode_letter. frames; try (apply mode_text_works; intros s C Hs; kept_field).
  apply works_on_upd. intros C. split_and!; [done | |done]. simpl.
  destruct (boolean_bit_cases letter) as [H0|[->|(i & Hi & Hlt & Hne)]].
  - rewrite H0 in *. done.
  - done.
  - rewrite Hi. apply flip_other; [done | done |]. intros ->. done.
Qed.
Hint Resolve mode_letter_works : frame.

Lemma mode_letters_works c ch b letters r : does (works_on ch) (mode_letters c ch b letters r).
Proof. revert r. induction letters; intros r; simpl; frames. Qed.

(** Without operator status on the channel nothing changes. *)
Lemma mode_letters_refused c ch letters r : does quiet (mode_letters c ch false letters r).
Proof. revert r. induction letters; intros r; simpl; frames. Qed.

(** ** The command keeps the state consistent *)

Lemma set_mask_keeps ch letter f : does keeps (upd_channel ch (λ C, set_mask_list letter (f C) C)).
Proof. apply upd_channel_keeps. intros C. apply set_mask_list_shape. Qed.

Lemma cloak_keeps c cfg f :
  (∀ K, same_client_shape K (f K)) → does keeps (upd_client c (λ K, cloak_refresh_display_host cfg (f K))).
Proof.
  intros Hf. apply upd_client_keeps. intros K. eapply same_client_shape_trans; [apply Hf | apply refresh_shape].
Qed.

Lemma special_cloak_keeps c cfg (b : bool) :
  does keeps (upd_client c (if b then usermode_apply_cloak cfg else usermode_remove_cloak)).
Proof.
  apply upd_client_keeps. intros K. destruct b.
  - unfold usermode_apply_cloak. eapply same_client_shape_trans; [|apply refresh_shape]. by split_and!.
  - unfold usermode_remove_cloak. case_if; by split_and!.
Qed.

Hint Extern 3 (does keeps (upd_channel _ (λ C, set_mask_list _ _ C))) => apply set_mask_keeps : frame.
Hint Extern 3 (does keeps (upd_client _ (λ K, cloak_refresh_display_host _ _))) =>
  apply cloak_keeps; intros ?; by split_and! : frame.
Hint Extern 3 (does keeps (upd_client _ (if _ then usermode_apply_cloak _ else _))) => apply special_cloak_keeps : frame.
Hint Extern 3 (does keeps (upd_channel _ channel_join_throttle_clear)) =>
  apply upd_channel_keeps, throttle_clear_shape : frame.

Lemma mode_privilege_keeps c ch letter bit r : does keeps (mode_privilege c ch letter bit r).
Proof. unfold mode_privilege. frames. Qed.
Lemma mode_text_keeps c ch letter set n r :
  (∀ s C, same_channel_shape C (set s C)) → does keeps (mode_text c ch letter set n r).
Proof. intros Hs. unfold mode_text. frames; apply upd_channel_keeps; intros C; apply Hs. Qed.
Lemma mode_limit_keeps c ch r : does keeps (mode_limit c ch r).
Proof. unfold mode_limit. frames. Qed.
Lemma mode_throttle_keeps c ch r : does keeps (mode_throttle c ch r).
Proof. unfold mode_throttle. frames. Qed.
Lemma mode_mask_keeps c ch letter param r : does keeps (mode_mask c ch letter param r).
Proof. unfold mode_mask. frames. Qed.
Hint Resolve mode_privilege_keeps mode_limit_keeps mode_throttle_keeps mode_mask_keeps : frame.

Lemma mode_letter_keeps c ch letter r : does keeps (mode_letter c ch letter r).
Proof. unfold mode_letter. frames; apply mode_text_keeps; intros s C; by split_and!. Qed.
Hint Resolve mode_letter_keeps : frame.
Lemma mode_letters_keeps c ch b letters r : does keeps (mode_letters c ch b letters r).
Proof. revert r. induction letters; intros r; simpl; frames. Qed.
Lemma user_letters_keeps c s letters : does keeps (user_letters c s letters).
Proof. revert s. induction letters; intros s; simpl; frames. Qed.
Hint Resolve mode_letters_keeps user_letters_keeps : frame.
Lemma command_mode_core_keeps c p : does keeps (command_mode_core c p).
Proof. unfold command_mode_core, mode_channel, mode_user. frames. Qed.
Hint Resolve command_mode_core_keeps : frame.
Lemma special_letters_keeps c b s acc d letters : does keeps (special_letters c b s acc d letters).
Proof. revert s acc d. induction letters; intros s acc d; simpl; frames. Qed.
Hint Resolve special_letters_keeps : frame.
Lemma command_mode_policy_core_keeps c p : does keeps (command_mode_policy_core c p).
Proof. unfold command_mode_policy_core, handle_special_user_modes. frames. Qed.
Hint Resolve command_mode_policy_core_keeps : frame.
Lemma control_letters_keeps c s acc d letters : does keeps (control_letters c s acc d letters).
Proof. revert s acc d. induction letters; intros s acc d; simpl; frames. Qed.
Hint Resolve control_letters_keeps : frame.
Lemma command_mode_keeps c p : does keeps (command_mode c p).
Proof. unfold command_mode. frames. Qed.
Lemma set_control_mode_keeps c p n m b : does keeps (set_control_mode c p n m b).
Proof. unfold set_control_mode. frames. Qed.

(** ** At most one channel, and only by its operators *)

Definition same_channels (w w' : World) : Prop :=
  w_channels w' = w_channels w ∧ w_channels_by_name w' = w_channels_by_name w.

#[local] Instance same_channels_silent : Silent same_channels.
Proof.
  split; [split|]; unfold same_channels.
  - done.
  - intros a b d [H1 H2] [H3 H4]. split; congruence.
  - intros w w' H. unfold quiet in H. rewrite H. done.
Qed.

Hint Extern 4 (does same_channels (upd_client _ _)) => intros ?; by split : frame.
Hint Extern 5 (does same_channels _) => apply (does_quiet _); solve [eauto with frame] : frame.

Lemma user_letters_same c s l : does same_channels (user_letters c s l).
Proof. revert s. induction l; intros s; simpl; frames. Qed.
Lemma special_letters_same c b s acc d l : does same_channels (special_letters c b s acc d l).
Proof. revert s acc d. induction l; intros s acc d; simpl; frames. Qed.
Lemma control_letters_same c s acc d l : does same_channels (control_letters c s acc d l).
Proof. revert s acc d. induction l; intros s acc d; simpl; frames. Qed.
Hint Resolve user_letters_same special_letters_same control_letters_same : frame.

(** A member of rank operator or higher. *)
Definition commands (C : Channel) (c : ptr) : Prop :=
  ∃ m, m ∈ ch_members C ∧ m_client m = c ∧ 3 ≤ channel_privilege_rank (m_privileges m).

Lemma may_change_commands C c : may_change_channel C c = true → commands C c.
Proof.
  unfold may_change_channel. destruct (channel_find_member C c) as [m|] eqn:Em; [|done]. rewrite !privilege_has_lor.
  intros H. exists m. unfold channel_find_member in Em. apply find_some in Em as [Hin Hc]. apply Nat.eqb_eq in Hc.
  split; [by apply list_elem_of_In|]. split; [done|]. unfold channel_privilege_rank. repeat case_if; try done; lia.
Qed.

(** The channels of [w'] are those of [w], or one of them was changed, within
    [mode_kept], by a client that was owner, protected or operator there. *)
Definition mode_reach (c : ptr) (w w' : World) : Prop :=
  w_channels_by_name w' = w_channels_by_name w ∧
  (w_channels w' = w_channels w ∨
   ∃ ch C C', w_channels w !! ch = Some C ∧ commands C c ∧ mode_kept C C' ∧
     w_channels w' = <[ch := C']> (w_channels w)).

Lemma mode_reach_before c w w1 w' : same_channels w w1 → mode_reach c w1 w' → mode_reach c w w'.
Proof. unfold mode_reach. intros [-> ->]. done. Qed.
Lemma mode_reach_after c w w1 w' : mode_reach c w w1 → same_channels w1 w' → mode_reach c w w'.
Proof. unfold mode_reach. intros H [-> ->]. done. Qed.
Lemma mode_reach_same c w w' : same_channels w w' → mode_reach c w w'.
Proof. intros [H1 H2]. split; [done | by left]. Qed.

Lemma works_on_reach c ch w w' C :
  w_channels w !! ch = Some C → may_change_channel C c = true → works_on ch w w' → mode_reach c w w'.
Proof.
  intros HC Hm%may_change_commands (Hn & Ho & Hk). split; [done|]. right. rewrite HC in Hk. destruct Hk as (C' & HC' & Hk).
  exists ch, C, C'. split_and!; try done. apply map_eq. intros i.
  destruct (decide (i = ch)) as [->|Hi]; [by rewrite lookup_insert_eq | rewrite lookup_insert_ne by done; by apply Ho].
Qed.

Lemma mode_channel_reach c target m argv w : wf w → mode_reach c w (mode_channel c target m argv w).2.
Proof.
  intros Hw. unfold mode_channel, config, client, find_channel. rewrite !run_gets.
  assert (Hq : ∀ (k : M CommandResult), does quiet k → mode_reach c w (k w).2).
  { intros k Hk. apply mode_reach_same, (does_quiet same_channels k Hk). }
  destruct (hash_get (w_channels_by_name w) target) as [ch|] eqn:G; [|apply Hq; frames].
  destruct m as [[|x letters]|]; [apply Hq; frames| |apply Hq; frames].
  destruct (proj1 (proj2 (wf_names w Hw) target ch) G) as (C & HC & _).
  unfold channel. rewrite run_gets. assert (the_channel w ch = C) as -> by (unfold the_channel; by rewrite HC).
  destruct (may_change_channel C c) eqn:Hm.
  - apply (works_on_reach c ch w _ C HC Hm).
    match goal with |- works_on ch w (?k w).2 => assert (does (works_on ch) k) as Hk; [|apply Hk] end.
    pose proof mode_letters_works. frames.
  - apply Hq. pose proof mode_letters_refused. frames.
Qed.

Lemma command_mode_core_reach c p w : wf w → mode_reach c w (command_mode_core c p w).2.
Proof.
  intros Hw. unfold command_mode_core. rewrite run_bind.
  destruct (require_registered_cases c w) as [[_ ->]|(_ & i & ->)]; [|apply mode_reach_same; by split].
  assert (Hq : ∀ (k : M CommandResult), does same_channels k → mode_reach c w (k w).2).
  { intros k Hk. apply mode_reach_same, Hk. }
  unfold config, client. rewrite !run_gets. destruct p as [p|]; [|apply Hq; frames].
  destruct (strtok " " p) as [target rest]. destruct (strtok " " rest) as [m rest'].
  destruct target as [target|]; [|apply Hq; frames]. case_if; [by apply mode_channel_reach|].
  apply Hq. unfold mode_user. frames.
Qed.

(** The throttle is reset on the channel that was changed, if at all. *)
Lemma after_core_reach c ch C0 w w1 :
  mode_reach c w w1 → w_channels w !! ch = Some C0 →
  mode_reach c w ((C ← channel ch;
    when (negb (bool_decide ((ch_join_throttle_count C0, ch_join_throttle_seconds C0) =
                             (ch_join_throttle_count C, ch_join_throttle_seconds C))))
      (upd_channel ch channel_join_throttle_clear) ;; chanserv_persist_channel ch) w1).2.
Proof.
  intros [Hn Hr] H0. unfold channel. rewrite run_gets.
  case_bool_decide as Hd; cbn [negb when].
  { apply (mode_reach_after c w w1); [by split|]. apply (does_quiet same_channels). frames. }
  destruct Hr as [Hr|(ch' & C & C' & HC & Hm & Hk & Hr)].
  { exfalso. apply Hd. unfold the_channel. by rewrite Hr, H0. }
  destruct (decide (ch' = ch)) as [->|Hne].
  2:{ exfalso. apply Hd. unfold the_channel. by rewrite Hr, lookup_insert_ne, H0. }
  rewrite run_bind. cbn [upd_channel modify].
  apply (mode_reach_after c w (put_channel ch channel_join_throttle_clear w1)).
  - split; [done|]. right. exists ch, C, (channel_join_throttle_clear C'). split_and!; [done | done | |].
    + etrans; [exact Hk|]. split_and!; [done..|]. unfold bounded_channel. done.
    + simpl. rewrite Hr. by rewrite alter_insert_eq.
  - apply (does_quiet same_channels). frames.
Qed.

Lemma policy_channel_reach c params target m w :
  wf w → mode_reach c w ((found ← find_channel target;
    match found, m with
    | Some ch, None =>
        u ← command_require_registered c;
        if u : bool then keep else send_channel_modes c ch ;; keep
    | _, _ =>
        unlocked ← check_mlock c found m;
        if negb unlocked then keep else
        valid ← validate_channel_mode_params c found params;
        if negb valid then keep else
        old ← gets (λ w, default (0%Z, 0%Z) ((λ ch, (ch_join_throttle_count (the_channel w ch),
                ch_join_throttle_seconds (the_channel w ch))) <$> found));
        result ← command_mode_core c (Some params);
        found ← find_channel target;
        match found with
        | None => mret tt
        | Some ch =>
            C ← channel ch;
            when (negb (bool_decide (old = (ch_join_throttle_count C, ch_join_throttle_seconds C))))
              (upd_channel ch channel_join_throttle_clear) ;;
            chanserv_persist_channel ch
        end ;;
        mret result
    end) w).2.
Proof.
  intros Hw. unfold find_channel. rewrite run_gets.
  assert (Hq : ∀ (k : M CommandResult), does quiet k → mode_reach c w (k w).2).
  { intros k Hk. apply mode_reach_same, (does_quiet same_channels k Hk). }
  destruct (hash_get (w_channels_by_name w) target) as [ch|] eqn:G, m as [m|]; try solve [apply Hq; frames];
    cbv beta iota; rewrite run_bind;
    match goal with |- context [check_mlock c ?f ?m w] =>
      destruct (run_quiet (check_mlock c f m) w) as (b & i & ->); [eauto with frame|] end;
    (destruct b; cbn [negb]; [|apply mode_reach_same; by split]);
    rewrite run_bind;
    match goal with |- context [validate_channel_mode_params c ?f ?m ?v] =>
      destruct (run_quiet (validate_channel_mode_params c f m) v) as (b & j & ->); [eauto with frame|] end;
    (destruct b; cbn [negb]; [|apply mode_reach_same; by split]);
    rewrite run_gets, run_bind; set (w0 := set_w_io j (set_w_io i w));
    assert (Hw0 : wf w0) by (by apply (wf_same_state w));
    pose proof (command_mode_core_reach c (Some params) w0 Hw0) as Hr;
    destruct (command_mode_core c (Some params) w0) as [result w1]; simpl in Hr;
    (apply (mode_reach_before c w w0); [by split|]); rewrite run_gets;
    assert (w_channels_by_name w1 = w_channels_by_name w) as Hn by (apply Hr); rewrite Hn, G.
  2, 3: exact Hr.
  destruct (proj1 (proj2 (wf_names w Hw) target ch) G) as (C0 & HC0 & _).
  pose proof (after_core_reach c ch C0 w0 w1 Hr HC0) as Ha.
  assert (the_channel w0 ch = C0) as E0 by (unfold the_channel; simpl; by rewrite HC0).
  cbn [fmap option_fmap option_map default id]. rewrite E0. rewrite run_bind.
  match type of Ha with mode_reach _ _ (?k w1).2 => destruct (k w1) as [u w2] end. exact Ha.
Qed.

Lemma policy_core_reach c p w : wf w → mode_reach c w (command_mode_policy_core c p w).2.
Proof.
  intros Hw. unfold command_mode_policy_core. destruct p as [p|]; [|by apply command_mode_core_reach].
  destruct (strtok " " (snprintf IRCD_MESSAGE_BUFFER_SIZE p)) as [target rest].
  destruct target as [target|]; [|by apply command_mode_core_reach].
  destruct (strchr _ _); [by apply policy_channel_reach|].
  destruct (strtok " " rest).1 as [letters|]; [|by apply command_mode_core_reach]. rewrite run_bind.
  assert (Hs : does same_channels (handle_special_user_modes c target letters))
    by (unfold handle_special_user_modes; frames).
  assert (Hk : does keeps (handle_special_user_modes c target letters))
    by (unfold handle_special_user_modes; frames).
  specialize (Hs w). specialize (Hk w Hw). destruct (handle_special_user_modes c target letters w) as [[b f] w1].
  destruct Hk as [Hw1 _]. apply (mode_reach_before c w w1); [exact Hs|]. by apply command_mode_core_reach.
Qed.

(** C9: the reach of MODE.  From a consistent state MODE leaves a consistent one with
    the same memberships.  It changes at most one channel, and only when the client was
    owner, protected or operator there.  On that channel +r, what ChanServ keeps there,
    topic, invitations and service privileges are untouched, and the bounds hold on:
    at most 100 masks in each list, key, redirect and throttle fields within their
    widths. *)
Theorem mode_channel_authority c params w :
  wf w → let w' := (command_mode c params w).2 in wf w' ∧ links w' = links w ∧ mode_reach c w w'.
Proof.
  intros Hw. destruct (command_mode_keeps c params w Hw) as [Hw' Hl]. split_and!; [done..|]. clear Hw' Hl.
  unfold command_mode. destruct params as [p|]; [|by apply policy_core_reach].
  unfold client. rewrite run_gets. destruct (strtok " " (snprintf IRCD_MESSAGE_BUFFER_SIZE p)) as [target rest].
  destruct (strtok " " rest) as [modes rest']. destruct target as [target|]; [|by apply policy_core_reach].
  destruct modes as [modes|].
  2:{ case_if; [|by apply policy_core_reach]. apply mode_reach_same, (does_quiet same_channels). frames. }
  case_if; [by apply policy_core_reach|]. rewrite run_bind.
  destruct (require_registered_cases c w) as [[_ ->]|(_ & i & ->)]; [|apply mode_reach_same; by split].
  rewrite run_bind. pose proof (control_letters_same c "+" ([], NUL) false modes w) as Hs.
  pose proof (control_letters_keeps c "+" ([], NUL) false modes w Hw) as [Hw1 _].
  destruct (control_letters c "+" ([], NUL) false modes w) as [[hx f] w1]. simpl in Hs, Hw1.
  apply (mode_reach_before c w w1); [done|]. destruct (empty f); cbn [negb when].
  - apply mode_reach_same. match goal with |- same_channels w1 (?k w1).2 => assert (does same_channels k) as Hk by frames end.
    apply Hk.
  - rewrite run_bind. rewrite run_bind. match goal with |- context [command_mode_policy_core c ?p w1] =>
      pose proof (policy_core_reach c p w1 Hw1) as Hr; destruct (command_mode_policy_core c p w1) as [res w2] end.
    apply (mode_reach_after c w1 w2); [exact Hr|].
    match goal with |- same_channels w2 ?t => change t with ((when hx (send_full_user_modes c) ;; keep) w2).2 end.
    assert (does same_channels (when hx (send_full_user_modes c) ;; keep)) as Hk by frames. apply Hk.
Qed.

(** ** Boolean modes are applied as written *)

Definition boolean_letter (letter : ascii) : bool := is_sign letter || negb (channel_boolean_mode_bit letter =? 0)%N.

(** The mode set after a string of signs and boolean letters; [r] is the server's. *)
Fixpoint apply_booleans (sign : ascii) (letters : cstr) (modes : ChannelModeSet) : ChannelModeSet :=
  match letters with
  | [] => modes
  | l :: rest =>
      if is_sign l then apply_booleans l rest modes
      else apply_booleans sign rest (if Ascii.eqb l "r" then modes else flip (Ascii.eqb sign "+") modes (channel_boolean_mode_bit l))
  end.

(** The registration's lock permits the changes: on a registered channel every letter
    but [r] is set only if it is locked on and cleared only if it is not. *)
Fixpoint lock_permits (C : Channel) (sign : ascii) (letters : cstr) : bool :=
  match letters with
  | [] => true
  | l :: rest =>
      if is_sign l then lock_permits C l rest else
      let locked_on := negb (N.land (ch_chanserv_mode_lock C) (channel_boolean_mode_bit l) =? 0)%N in
      (Ascii.eqb l "r" || negb (channel_mode_has (ch_modes C) CHANNEL_MODE_REGISTERED) ||
       ch_chanserv_policy_valid C && Bool.eqb locked_on (Ascii.eqb sign "+")) && lock_permits C sign rest
  end.

Lemma boolean_letter_bit l : boolean_letter l = true → is_sign l = false → channel_boolean_mode_bit l ≠ 0%N.
Proof. unfold boolean_letter. intros H Hs. rewrite Hs in H. cbn [orb] in H. by apply negb_true_iff, N.eqb_neq in H. Qed.

(** A boolean letter takes no parameter and stands for no list. *)
Lemma boolean_letter_plain l : channel_boolean_mode_bit l ≠ 0%N →
  is_list_letter l = false ∧ has_char l "ljLBqaohvk" = false.
Proof.
  unfold channel_boolean_mode_bit, letter_bit. cbn [find fst].
  repeat match goal with |- context [if Ascii.eqb ?a ?b then _ else _] => destruct (Ascii.eqb_spec a b); [
    subst; intros _; vm_compute; by split |] end.
  done.
Qed.

Lemma note_mode_sign l r : r_sign (note_mode l r) = r_sign r.
Proof. unfold note_mode. by destruct (append_mode _ _ _ _). Qed.

Lemma mode_letters_booleans c ch letters r w :
  Forall (λ l, boolean_letter l = true) letters →
  ∃ r' i, mode_letters c ch true letters r w =
    (Some r', set_w_io i (put_channel ch (λ C, set_ch_modes (apply_booleans (r_sign r) letters (ch_modes C)) C) w)).
Proof.
  intros H. revert r w. induction H as [|l letters Hl Hls IH]; intros r w; simpl.
  { exists r, (w_io w). transitivity (Some r, put_channel ch id w); [by rewrite put_channel_id|].
    f_equal. transitivity (put_channel ch (λ C, set_ch_modes (ch_modes C) C) w); [apply put_channel_ext; by intros []|].
    unfold put_channel. by destruct w. }
  destruct (is_sign l) eqn:Hs; [apply IH|].
  pose proof (boolean_letter_bit l Hl Hs) as Hb. destruct (boolean_letter_plain l Hb) as [-> _]. cbn [andb].
  unfold mode_letter, config, client, channel. rewrite run_bind, !run_gets. apply N.eqb_neq in Hb. rewrite Hb. cbn [negb].
  destruct (Ascii.eqb l "r").
  - rewrite run_bind. match goal with |- context [tell ?c ?f ?a w] => destruct (run_quiet (tell c f a) w (tell_quiet c f a)) as (u & i & ->) end.
    destruct (IH r (set_w_io i w)) as (r' & j & E'). exists r', j. exact E'.
  - cbn [upd_channel modify].
    destruct (IH (note_mode l r) (put_channel ch (λ C, set_ch_modes (flip (plus r) (ch_modes C)
      (channel_boolean_mode_bit l)) C) w)) as (r' & i & E').
    exists r', i. etrans; [exact E'|]. by rewrite note_mode_sign, put_channel_twice.
Qed.

Lemma boolean_letters_valid name sign letters argv :
  Forall (λ l, boolean_letter l = true) letters → bad_parameter name sign letters argv = None.
Proof.
  intros H. revert sign argv. induction H as [|l letters Hl Hls IH]; intros sign argv; cbn [bad_parameter]; [done|].
  destruct (is_sign l) eqn:Hs; [apply IH|].
  pose proof (boolean_letter_bit l Hl Hs) as Hb. apply boolean_letter_plain in Hb as [_ Hb].
  assert (Ascii.eqb l "l" = false ∧ has_char l "LB" = false) as [-> ->]; [|apply IH].
  simpl in Hb |- *. bools. repeat match goal with H : Ascii.eqb _ _ = false |- _ => rewrite H end. done.
Qed.

Lemma mlock_letters_permit c C sign letters w :
  Forall (λ l, boolean_letter l = true) letters →
  ∃ i, mlock_letters c C sign letters w = (lock_permits C sign letters, set_w_io i w).
Proof.
  intros H. revert sign. induction H as [|l letters Hl Hls IH]; intros sign; simpl; [exists (w_io w); by destruct w|].
  destruct (is_sign l) eqn:Hs; [apply IH|]. pose proof (boolean_letter_bit l Hl Hs) as Hb%N.eqb_neq.
  unfold chanserv_mode_change_allowed, boolean_bit. destruct (Ascii.eqb l "r"); [apply IH|]. rewrite Hb. cbn [orb].
  destruct (negb (channel_mode_has _ _)); [apply IH|]. cbn [orb].
  destruct (ch_chanserv_policy_valid C); cbn [negb andb]; [destruct (Bool.eqb _ _); cbn [andb]; [apply IH|]|].
  all: unfold config, client; rewrite !run_gets, run_bind; match goal with |- context [tell ?x ?f ?a ?v] =>
    destruct (run_quiet (tell x f a) v (tell_quiet x f a)) as (u & i & ->) end; by exists i.
Qed.

(** What the two outer layers do with a channel target. *)
Lemma command_mode_on_channel c p target rest w :
  length p < IRCD_MESSAGE_BUFFER_SIZE → strtok " " p = (Some target, rest) →
  strchr IRC_CHANNEL_PREFIXES (char0 target) = true → is_Some (strtok " " rest).1 →
  command_mode c (Some p) w = command_mode_policy_core c (Some p) w.
Proof.
  intros Hp Ht Hc [letters Hl]. unfold command_mode, client. rewrite run_gets, snprintf_id by lia. rewrite Ht.
  destruct (strtok " " rest) as [m rest']. simpl in Hl. subst m. by rewrite Hc, orb_true_r.
Qed.

(** MODE below the lock, on a channel its sender may change. *)
Lemma applied_booleans c p target rest letters rest' ch C w :
  cl_registered (the_client w c) = true → length p < IRCD_MESSAGE_BUFFER_SIZE →
  strtok " " p = (Some target, rest) → strtok " " rest = (Some letters, rest') →
  (char0 target = "#"%char ∨ char0 target = "&"%char) →
  hash_get (w_channels_by_name w) target = Some ch → w_channels w !! ch = Some C → may_change_channel C c = true →
  Forall (λ l, boolean_letter l = true) letters →
  w_channels ((valid ← validate_channel_mode_params c (Some ch) p;
    if negb valid then keep else
    old ← gets (λ w, default (0%Z, 0%Z) ((λ ch, (ch_join_throttle_count (the_channel w ch),
            ch_join_throttle_seconds (the_channel w ch))) <$> Some ch));
    result ← command_mode_core c (Some p);
    found ← find_channel target;
    match found with
    | None => mret tt
    | Some ch =>
        C ← channel ch;
        when (negb (bool_decide (old = (ch_join_throttle_count C, ch_join_throttle_seconds C))))
          (upd_channel ch channel_join_throttle_clear) ;;
        chanserv_persist_channel ch
    end ;;
    mret result) w).2 =
    <[ch := set_ch_modes (apply_booleans "+" letters (ch_modes C)) C]> (w_channels w).
Proof.
  intros Hreg Hp Ht Hl Hc Hch HC Hmay Hls. unfold find_channel.
  assert (HtC : the_channel w ch = C) by (unfold the_channel; by rewrite HC).
  rewrite run_bind. unfold validate_channel_mode_params, config, client, channel.
  rewrite !run_gets, (snprintf_id _ p) by lia. rewrite Ht, Hl. cbn [mbind option_bind].
  rewrite boolean_letters_valid by done. cbn [mret ST_ret negb]. rewrite run_gets, run_bind.
  destruct (mode_letters_booleans c ch letters (MkRun "+" NUL [] [] (take IRC_MODE_MAX_PARAMS (tokens " " rest'))) w Hls)
    as (r' & i1 & Er). cbn [r_sign] in Er.
  set (w1 := put_channel ch _ w) in Er.
  assert (Hcore : ∃ res i, command_mode_core c (Some p) w = (res, set_w_io i w1)).
  { unfold command_mode_core. rewrite run_bind. destruct (require_registered_cases c w) as [[_ ->]|(Hf & _)]; [|congruence].
    unfold config, client. rewrite !run_gets, Ht, Hl.
    assert (Ascii.eqb (char0 target) "#" || Ascii.eqb (char0 target) "&" = true) as -> by (by destruct Hc as [-> | ->]).
    unfold mode_channel, config, client, find_channel. rewrite !run_gets, Hch.
    destruct letters as [|x letters]; [by apply strtok_Some in Hl as (? & _)|].
    unfold channel. rewrite run_gets, HtC, Hmay, run_bind, Er.
    match goal with |- ∃ res i, ?k (set_w_io i1 w1) = _ => assert (does quiet k) as Hk by frames;
      destruct (run_quiet k (set_w_io i1 w1) Hk) as (res & i & ->) end. by exists res, i. }
  destruct Hcore as (res & i & ->). rewrite run_gets.
  assert (w_channels w1 = <[ch := set_ch_modes (apply_booleans "+" letters (ch_modes C)) C]> (w_channels w)) as E1.
  { unfold w1. simpl. apply map_eq. intros j. destruct (decide (j = ch)) as [->|];
      [by rewrite lookup_alter_eq, lookup_insert_eq, HC | by rewrite lookup_alter_ne, lookup_insert_ne]. }
  change (w_channels_by_name (set_w_io i w1)) with (w_channels_by_name w). rewrite Hch, run_bind, run_gets.
  assert (the_channel (set_w_io i w1) ch = set_ch_modes (apply_booleans "+" letters (ch_modes C)) C) as ->
    by (unfold the_channel; change (w_channels (set_w_io i w1)) with (w_channels w1); by rewrite E1, lookup_insert_eq).
  cbn [fmap option_fmap option_map default id]. rewrite HtC, bool_decide_true by done. cbn [negb when].
  rewrite run_ret. destruct (run_quiet (chanserv_persist_channel ch) (set_w_io i w1)) as (a & j & ->); [eauto with frame|].
  exact E1.
Qed.

(** C38: boolean channel modes are applied as written, or not at all.  An operator of
    the channel sends MODE with a string of signs and boolean letters.  If the channel
    is registered with ChanServ and its mode lock forbids one of the changes, no channel
    changes; otherwise each letter but [r], which only the server sets, is set or cleared
    according to the sign before it, in order, and nothing else of any channel changes. *)
Theorem boolean_modes_applied c p target rest letters rest' ch C w :
  cl_registered (the_client w c) = true → length p < IRCD_MESSAGE_BUFFER_SIZE →
  strtok " " p = (Some target, rest) → strtok " " rest = (Some letters, rest') →
  (char0 target = "#"%char ∨ char0 target = "&"%char) → length target ≤ IRC_CHANNEL_NAME_MAX →
  hash_get (w_channels_by_name w) target = Some ch → w_channels w !! ch = Some C → may_change_channel C c = true →
  Forall (λ l, boolean_letter l = true) letters →
  w_channels (command_mode c (Some p) w).2 =
    if lock_permits C "+" letters then <[ch := set_ch_modes (apply_booleans "+" letters (ch_modes C)) C]> (w_channels w)
    else w_channels w.
Proof.
  intros Hreg Hp Ht Hl Hc Hlen Hch HC Hmay Hls.
  assert (Hpre : strchr IRC_CHANNEL_PREFIXES (char0 target) = true) by (by destruct Hc as [-> | ->]).
  rewrite (command_mode_on_channel c p target rest) by (rewrite ?Hl; eauto).
  unfold command_mode_policy_core. rewrite (snprintf_id _ p) by lia. rewrite Ht, Hl, Hpre. cbn [fst].
  rewrite (snprintf_id _ target) by lia. cbv zeta. unfold find_channel. rewrite run_gets, Hch. cbv beta iota.
  rewrite run_bind. unfold check_mlock, channel. rewrite run_gets.
  assert (the_channel w ch = C) as -> by (unfold the_channel; by rewrite HC).
  destruct (mlock_letters_permit c C "+" letters w Hls) as [i0 ->]. destruct (lock_permits C "+" letters); cbn [negb]; [|done].
  apply (applied_booleans c p target rest letters rest' ch C (set_w_io i0 w)); done.
Qed.

(** ** User modes nobody gives himself *)

(** Held by operators, services and the server's own decisions. *)
Definition privileged_modes : ClientModeSet := foldr N.lor 0%N
  [CLIENT_MODE_OPER; CLIENT_MODE_NETADMIN; CLIENT_MODE_REGISTERED; CLIENT_MODE_SERVICE; CLIENT_MODE_VHOST;
   CLIENT_MODE_WEBIRC; CLIENT_MODE_SECURE; CLIENT_MODE_HELPOP; CLIENT_MODE_PRIVATE_DEAF; CLIENT_MODE_CHANNEL_MUTE].
(** Settable by operators only. *)
Definition oper_only_modes : ClientModeSet := foldr N.lor 0%N
  [CLIENT_MODE_HIDE_OPER; CLIENT_MODE_HIDE_IDLE; CLIENT_MODE_WHOIS_NOTICE; CLIENT_MODE_GLOBALS; CLIENT_MODE_SERVER_NOTICES].

Definition held (P : ClientModeSet) (K : Client) : N := N.land (cl_modes K) P.

(** What MODE never changes of a client. *)
Definition standing (K : Client) :=
  (cl_id K, cl_registered K, cl_nick K, cl_user K, cl_realname K, cl_account_name K, cl_real_ip K, cl_real_host K,
   cl_oper_permissions K, cl_snotice_mask K, cl_channels K, held privileged_modes K).

Lemma flip_held plus m b P :
  N.land b P = 0%N → N.land P (N.ones 64) = P → N.land (flip plus m b) P = N.land m P.
Proof.
  intros Hb HP. apply N.bits_inj. intros i. rewrite !N.land_spec.
  destruct (N.testbit P i) eqn:Hi; [|by rewrite !andb_false_r]. rewrite !andb_true_r.
  assert (N.testbit b i = false) as Hbi.
  { assert (H : N.testbit (N.land b P) i = false) by (by rewrite Hb, N.bits_0). by rewrite N.land_spec, Hi, andb_true_r in H. }
  assert (i < 64)%N as Hlt.
  { assert (H : N.testbit (N.land P (N.ones 64)) i = true) by (by rewrite HP). rewrite N.land_spec, Hi in H.
    destruct (decide (i < 64)%N) as [|Hge]; [done|]. rewrite N.ones_spec_high in H by lia. done. }
  destruct plus; unfold flip, client_mode_add, client_mode_remove.
  - by rewrite N.lor_spec, Hbi, orb_false_r.
  - rewrite N.land_spec, testbit_cnot, Hbi, bool_decide_true by done. by rewrite andb_true_r.
Qed.

Lemma flip_privileged plus m b :
  N.land b privileged_modes = 0%N → N.land (flip plus m b) privileged_modes = N.land m privileged_modes.
Proof. intros. by apply flip_held. Qed.

Lemma standing_flip plus b K :
  N.land b privileged_modes = 0%N → standing (set_cl_modes (flip plus (cl_modes K) b) K) = standing K.
Proof. intros H. unfold standing, held. simpl. by rewrite flip_privileged. Qed.

Lemma refresh_modes cfg K : cl_modes (cloak_refresh_display_host cfg K) = cl_modes K ∧
  standing (cloak_refresh_display_host cfg K) = standing K.
Proof. unfold cloak_refresh_display_host. repeat case_if; try destruct (cloak_generate _ _ _); done. Qed.

Lemma letter_bit_In table l : letter_bit table l = 0%N ∨ (l, letter_bit table l) ∈ table.
Proof.
  unfold letter_bit. destruct (find _ table) as [[a b]|] eqn:Ef; [|by left]. right.
  apply find_some in Ef as [Hin He]. simpl in *. apply Ascii.eqb_eq in He. subst. by apply list_elem_of_In.
Qed.

(** The letters the core lets a user set. *)
Lemma self_settable_privileged l :
  client_mode_self_settable l = true → N.land (client_mode_bit l) privileged_modes = 0%N.
Proof.
  unfold client_mode_self_settable. intros H. apply has_char_elem in H.
  repeat (apply elem_of_cons in H as [->|H]; [vm_compute; reflexivity|]). by apply elem_of_nil in H.
Qed.
Lemma self_settable_oper_only l :
  client_mode_self_settable l = true → oper_mode_bit l = 0%N → N.land (client_mode_bit l) oper_only_modes = 0%N.
Proof.
  unfold client_mode_self_settable. intros H. apply has_char_elem in H.
  repeat (apply elem_of_cons in H as [->|H]; [vm_compute; done|]). by apply elem_of_nil in H.
Qed.
Lemma oper_mode_privileged l : N.land (oper_mode_bit l) privileged_modes = 0%N.
Proof.
  unfold oper_mode_bit. match goal with |- context [letter_bit ?t l] => destruct (letter_bit_In t l) as [->|H] end; [done|].
  repeat (apply elem_of_cons in H as [H|H]; [injection H as -> ->; vm_compute; reflexivity|]). by apply elem_of_nil in H.
Qed.

(** *** Only the sender, and nothing that stands *)

Definition stands (c : ptr) (w w' : World) : Prop :=
  standing (the_client w' c) = standing (the_client w c) ∧ ∀ d, d ≠ c → the_client w' d = the_client w d.
#[local] Instance stands_silent c : Silent (stands c).
Proof.
  split; [split|]; unfold stands.
  - done.
  - intros x y z [H1 H2] [H3 H4]. split; [congruence|]. intros d Hd. by rewrite H4, H2.
  - intros w w' H. unfold quiet in H. rewrite H. done.
Qed.

Lemma stands_upd c f : (∀ K, standing (f K) = standing K) → does (stands c) (upd_client c f).
Proof.
  intros Hf w. split.
  - exact (same_at_upd standing c c f Hf w).
  - intros d Hd. exact (same_at_other id d c f Hd w).
Qed.

Hint Extern 4 (does (stands _) (upd_channel _ _)) => intros ?; by split : frame.
Hint Extern 4 (does (stands _) alloc) => intros ?; by split : frame.
Hint Extern 5 (does (stands _) _) => apply (does_quiet _); solve [eauto with frame] : frame.
Lemma stands_member c ch d f : does (stands c) (with_member ch d f).
Proof. unfold with_member. frames. Qed.
Hint Extern 4 (does (stands _) (channel_add_privileges _ _ _)) => apply stands_member : frame.
Hint Extern 4 (does (stands _) (channel_remove_manual_privileges _ _ _)) => apply stands_member : frame.

Lemma mode_letters_stands c ch b l r : does (stands c) (mode_letters c ch b l r).
Proof.
  revert r. induction l; intros r; simpl; [frames|]. frames.
  unfold mode_letter, mode_privilege, mode_text, mode_limit, mode_throttle, mode_mask. frames.
Qed.
Lemma user_letters_stands c s l : does (stands c) (user_letters c s l).
Proof.
  revert s. induction l; intros s; simpl; frames. apply stands_upd. intros K. apply standing_flip.
  apply self_settable_privileged. by bools.
Qed.
Hint Resolve mode_letters_stands user_letters_stands : frame.
Lemma core_stands c p : does (stands c) (command_mode_core c p).
Proof. unfold command_mode_core, mode_channel, mode_user. frames. Qed.
Lemma special_letters_stands c b s acc d l : does (stands c) (special_letters c b s acc d l).
Proof.
  revert s acc d. induction l; intros s acc d; simpl; frames; apply stands_upd; intros K.
  - case_if; unfold usermode_apply_cloak, usermode_remove_cloak.
    + rewrite (proj2 (refresh_modes _ _)). by apply (standing_flip true CLIENT_MODE_CLOAKED).
    + assert (H : standing (set_cl_modes (client_mode_remove (cl_modes K) CLIENT_MODE_CLOAKED) K) = standing K)
        by (by apply (standing_flip false CLIENT_MODE_CLOAKED)).
      case_if; [exact H|]. etrans; [|exact H]. done.
  - apply standing_flip, oper_mode_privileged.
Qed.
Hint Resolve core_stands special_letters_stands : frame.
Lemma policy_core_stands c p : does (stands c) (command_mode_policy_core c p).
Proof. unfold command_mode_policy_core, handle_special_user_modes. frames. Qed.
Hint Resolve policy_core_stands : frame.
Lemma control_letters_stands c s acc d l : does (stands c) (control_letters c s acc d l).
Proof.
  revert s acc d. induction l; intros s acc d; simpl; frames; apply stands_upd; intros K;
    rewrite (proj2 (refresh_modes _ _)).
  - by apply (standing_flip true CLIENT_MODE_CLOAKED).
  - by apply (standing_flip false CLIENT_MODE_CLOAKED).
Qed.
Hint Resolve control_letters_stands : frame.
Lemma command_mode_stands c p : does (stands c) (command_mode c p).
Proof. unfold command_mode. frames. Qed.

(** *** Only operators set the operators' modes *)

Definition is_operator (K : Client) : bool := client_mode_has (cl_modes K) (N.lor CLIENT_MODE_OPER CLIENT_MODE_NETADMIN).
Abbreviation holds_oper_modes := (same_at (held oper_only_modes)).
(** Letters without one of the operators' modes. *)
Abbreviation plain := (Forall (λ l, oper_mode_bit l = 0%N)).

Lemma is_operator_standing K K' : standing K' = standing K → is_operator K' = is_operator K.
Proof.
  intros H. assert (held privileged_modes K' = held privileged_modes K) as Hh by (unfold standing in H; congruence).
  assert (∀ X, N.land (cl_modes X) (N.lor CLIENT_MODE_OPER CLIENT_MODE_NETADMIN) =
               N.land (held privileged_modes X) (N.lor CLIENT_MODE_OPER CLIENT_MODE_NETADMIN)) as Hs.
  { intros X. unfold held. rewrite <-N.land_assoc. f_equal. }
  unfold is_operator, client_mode_has. by rewrite (Hs K), (Hs K'), Hh.
Qed.

Lemma held_flip plus b K :
  N.land b oper_only_modes = 0%N → held oper_only_modes (set_cl_modes (flip plus (cl_modes K) b) K) = held oper_only_modes K.
Proof. intros H. unfold held. simpl. by apply flip_held. Qed.

Hint Extern 4 (does (same_at _ _) (with_member _ _ _)) => unfold with_member; frames : frame.
Lemma mode_letters_same_at {A} (f : Client → A) c ch b l r : does (same_at f c) (mode_letters c ch b l r).
Proof.
  revert r. induction l; intros r; simpl; [frames|]. frames.
  unfold mode_letter, mode_privilege, mode_text, mode_limit, mode_throttle, mode_mask,
    channel_add_privileges, channel_remove_manual_privileges. frames.
Qed.
Hint Resolve mode_letters_same_at : frame.

Lemma user_letters_held c s l : plain l → does (holds_oper_modes c) (user_letters c s l).
Proof.
  intros Hl. revert s. induction Hl as [|x l Hx Hl IH]; intros s; simpl; frames.
  apply same_at_upd. intros K. apply held_flip, self_settable_oper_only; [by bools|done].
Qed.

Definition second_token (p : cstr) : option cstr := (strtok " " (strtok " " p).2).1.

Lemma core_held c p :
  (∀ l, second_token p = Some l → plain l) → does (holds_oper_modes c) (command_mode_core c (Some p)).
Proof.
  intros Hp. unfold command_mode_core. unfold second_token in Hp. destruct (strtok " " p) as [target rest].
  cbn [snd] in Hp. destruct (strtok " " rest) as [letters rest']. cbn [fst] in Hp.
  assert (plain (default [] letters)) as Hl by (destruct letters as [l|]; [by apply Hp|by apply Forall_nil]).
  pose proof (λ s, user_letters_held c s _ Hl). unfold mode_user, mode_channel.
  frames.
Qed.

(** The target is somebody else: nothing happens. *)
Lemma core_other c p target rest w :
  strtok " " p = (Some target, rest) → strchr IRC_CHANNEL_PREFIXES (char0 target) = false →
  hash_get (w_clients_by_nick w) target ≠ Some c → quiet w (command_mode_core c (Some p) w).2.
Proof.
  intros Ht Hch Hn. unfold command_mode_core. rewrite Ht, run_bind.
  destruct (require_registered_cases c w) as [[_ ->]|[_ [i ->]]]; [|done].
  unfold config, client. rewrite !run_gets. destruct (strtok " " rest) as [m rest'].
  assert (Ascii.eqb (char0 target) "#" || Ascii.eqb (char0 target) "&" = false) as ->.
  { unfold strchr in Hch. bools. match goal with H : has_char _ _ = false |- _ => apply has_char_false in H end.
    destruct (Ascii.eqb_spec (char0 target) "#"); [set_solver|]. destruct (Ascii.eqb_spec (char0 target) "&"); set_solver. }
  unfold mode_user, config, client, find_nick. rewrite !run_gets.
  destruct (hash_get _ target) as [t|]; [|apply reply_quiet].
  assert (negb (t =? c) = true) as -> by (apply negb_true_iff, Nat.eqb_neq; congruence).
  apply reply_quiet.
Qed.

Lemma append_mode_plain size acc s l :
  plain acc.1 → oper_mode_bit s = 0%N → oper_mode_bit l = 0%N → plain (append_mode size acc s l).1.
Proof.
  destruct acc as [b last]. unfold append_mode. intros Hb Hs Hl. simpl in Hb.
  repeat case_if; simpl; rewrite ?Forall_app, ?Forall_singleton; auto.
Qed.

Lemma special_letters_left c b s acc d l w :
  plain acc.1 → oper_mode_bit s = 0%N →
  plain (special_letters c b s acc d l w).1.2 ∧ ((special_letters c b s acc d l w).1.1 = false → d = false ∧ plain l).
Proof.
  revert s acc d w. induction l as [|x l IH]; intros s acc d w Ha Hs; simpl; [done|].
  destruct (is_sign x) eqn:Ex.
  { assert (oper_mode_bit x = 0%N) as Hx by (unfold is_sign in Ex; apply orb_prop in Ex as [->%Ascii.eqb_eq| ->%Ascii.eqb_eq]; done).
    edestruct (IH x acc d w) as [H1 H2]; [done..|]. split; [done|]. intros H. apply H2 in H as [-> ?]. auto. }
  unfold config, client. rewrite !run_gets. case_if; [|case_if].
  - rewrite run_bind. destruct (upd_client _ _ w) as [a w']. edestruct (IH s acc true w') as [H1 H2]; [done..|].
    split; [done|]. intros H. by apply H2 in H as [? _].
  - rewrite run_bind. match goal with |- context [?m w] => destruct (m w) as [a w'] end.
    edestruct (IH s acc true w') as [H1 H2]; [done..|]. split; [done|]. intros H. by apply H2 in H as [? _].
  - assert (oper_mode_bit x = 0%N) as Hx by (by bools; apply N.eqb_eq).
    edestruct (IH s (append_mode 128 acc s x) d w) as [H1 H2]; [by apply append_mode_plain|done|].
    split; [done|]. intros H. apply H2 in H as [-> ?]. auto.
Qed.

Lemma special_letters_held c s acc d l : does (holds_oper_modes c) (special_letters c false s acc d l).
Proof.
  revert s acc d. induction l; intros s acc d; simpl; frames. apply same_at_upd. intros K.
  assert (∀ plus, held oper_only_modes (set_cl_modes (flip plus (cl_modes K) CLIENT_MODE_CLOAKED) K) = held oper_only_modes K)
    as Hx by (intros; by apply held_flip).
  case_if; unfold usermode_apply_cloak, usermode_remove_cloak.
  - unfold held. rewrite (proj1 (refresh_modes _ _)). exact (Hx true).
  - case_if; exact (Hx false).
Qed.

Lemma second_token_snprintf n t f l :
  t ≠ [] → " "%char ∉ t → second_token (snprintf n (t ++ " "%char :: f)) = Some l → ∀ x, x ∈ l → x ∈ f.
Proof.
  intros Hne Ht. unfold second_token, snprintf. destruct (decide (n - 1 ≤ length t)) as [Hle|Hgt].
  - rewrite take_app_le by lia. destruct (take (n - 1) t) as [|y u] eqn:Et; [intros [=]|].
    rewrite (strtok_word (y :: u)); [intros [=]|done|]. rewrite <-Et. intros H%elem_of_take. destruct H as (i & H & _).
    by apply list_elem_of_lookup_2 in H.
  - rewrite take_app_ge by lia. destruct (n - 1 - length t) as [|m] eqn:Et; [lia|]. cbn [take].
    rewrite (strtok_space t) by done. cbn [snd]. intros Hl x Hx.
    destruct (strtok " " (take m f)) as [tok r] eqn:Etok. cbn [fst] in Hl. subst tok.
    apply strtok_elem in Etok as [Htok _]. apply Htok in Hx. apply elem_of_take in Hx as (i & Hx & _).
    by apply list_elem_of_lookup_2 in Hx.
Qed.

Lemma second_token_word n t : " "%char ∉ t → second_token (snprintf n t) = None.
Proof.
  intros Ht. unfold second_token, snprintf. destruct (take (n - 1) t) as [|y u] eqn:Et; [done|].
  rewrite (strtok_word (y :: u)); [done..|]. rewrite <-Et. intros (i & H & _)%elem_of_take. by apply list_elem_of_lookup_2 in H.
Qed.

Lemma policy_core_held c p w :
  length p < IRCD_MESSAGE_BUFFER_SIZE → NUL ∉ p → is_operator (the_client w c) = false →
  holds_oper_modes c w (command_mode_policy_core c (Some p) w).2.
Proof.
  intros Hlen Hnul Hop. unfold command_mode_policy_core. rewrite snprintf_id by done.
  destruct (strtok " " p) as [[target|] rest] eqn:Ht; cycle 1.
  { apply core_held. unfold second_token. rewrite Ht. cbn [snd]. intros l Hl.
    unfold strtok in Ht. destruct (drop_while _ p); [injection Ht as <-; done|]. by destruct (span _ _). }
  destruct (strtok_Some _ _ _ _ Ht) as (Hne & Hsp & _). specialize (Hsp " "%char).
  assert (" "%char ∉ target) as Hs by set_solver.
  destruct (strchr IRC_CHANNEL_PREFIXES (char0 target)) eqn:Hch.
  { match goal with |- holds_oper_modes c w (?m w).2 => assert (does (holds_oper_modes c) m) as Hm; [|exact (Hm w)] end.
    assert (does (holds_oper_modes c) (command_mode_core c (Some p))) as Hcore; [|frames].
    unfold command_mode_core, mode_channel. rewrite Ht. frames. exfalso.
    unfold strchr in Hch. apply orb_prop in Hch as [Hz%Ascii.eqb_eq|Hz].
    - apply Hnul. apply strtok_elem in Ht as [Ht _]. apply Ht. destruct target; [done|]. simpl in Hz. subst. left.
    - bools. rewrite has_char_elem in Hz. apply elem_of_cons in Hz as [Hz|Hz]; [by rewrite Hz in *|].
      apply elem_of_cons in Hz as [Hz|Hz]; [by rewrite Hz in *|]. by apply elem_of_nil in Hz. }
  destruct (strtok " " rest).1 as [letters|] eqn:Hl; cycle 1.
  { apply core_held. unfold second_token. rewrite Ht. cbn [snd]. by rewrite Hl. }
  assert (second_token p = Some letters) as Hp by (unfold second_token; by rewrite Ht).
  unfold handle_special_user_modes, find_nick, client. rewrite run_bind, run_gets. case_if; bools.
  { apply silent_quiet. by eapply core_other. }
  rewrite run_gets. fold (is_operator (the_client w c)). rewrite Hop.
  pose proof (special_letters_left c false "+" ([], NUL) false letters w (Forall_nil_2 _) eq_refl) as [Hf Hd].
  pose proof (special_letters_held c "+" ([], NUL) false letters w) as Hh.
  destruct (special_letters _ _ _ _ _ _ w) as [[consumed filtered] w']. cbn [fst snd] in *. etrans; [exact Hh|].
  apply core_held. intros l. destruct consumed.
  - case_if; [by rewrite second_token_word|]. intros H. apply Forall_forall. intros x Hx.
    rewrite Forall_forall in Hf. apply Hf. by eapply (second_token_snprintf _ target).
  - rewrite Hp. intros [= <-]. by apply Hd.
Qed.

Lemma control_letters_held c s acc d l : does (holds_oper_modes c) (control_letters c s acc d l).
Proof.
  revert s acc d. induction l; intros s acc d; simpl; frames; apply same_at_upd; intros K;
    unfold held; rewrite (proj1 (refresh_modes _ _)).
  - by apply (held_flip true CLIENT_MODE_CLOAKED).
  - by apply (held_flip false CLIENT_MODE_CLOAKED).
Qed.

Lemma control_letters_no_nul c s acc d l w :
  NUL ∉ acc.1 → NUL ∉ l → NUL ≠ s → NUL ∉ (control_letters c s acc d l w).1.2.
Proof.
  revert s acc d w. induction l as [|x l IH]; intros s acc d w Ha Hl Hs; simpl; [done|].
  apply not_elem_of_cons in Hl as [Hx Hl]. case_if; [by apply IH|].
  unfold config, client. rewrite !run_gets. case_if; [|case_if].
  - rewrite run_bind. match goal with |- context [?m w] => destruct (m w) as [a w'] end. by apply IH.
  - rewrite run_bind. match goal with |- context [?m w] => destruct (m w) as [a w'] end. by apply IH.
  - apply IH; try done. destruct acc as [b last]. unfold append_mode. repeat case_if; set_solver.
Qed.

(** C10: What a user may do to user modes: MODE leaves every other client as it is,
    and of the sender it leaves identity, account, permissions, channels and the modes
    operators, services and the server hand out (o, N, r, S, t, V, z, h, D, M).  The
    operators' own modes (H, I, W, g, s) move only when the sender is an operator,
    although the inner layer would accept g and s from anybody: the filter in front of
    it takes them out however the command is written. *)
Theorem user_modes_guarded c p w :
  length p < IRCD_MESSAGE_BUFFER_SIZE → NUL ∉ p →
  let w' := (command_mode c (Some p) w).2 in
  (∀ d, d ≠ c → the_client w' d = the_client w d) ∧
  standing (the_client w' c) = standing (the_client w c) ∧
  (is_operator (the_client w c) = false →
     held oper_only_modes (the_client w' c) = held oper_only_modes (the_client w c)).
Proof.
  intros Hlen Hnul w'. destruct (command_mode_stands c (Some p) w) as [H1 H2].
  split; [exact H2|]. split; [exact H1|]. intros Hop. subst w'. change (holds_oper_modes c w (command_mode c (Some p) w).2).
  unfold command_mode, client. rewrite run_gets, snprintf_id by done.
  destruct (strtok " " p) as [[target|] rest] eqn:Ht; [|destruct (strtok " " rest); by apply policy_core_held].
  apply strtok_elem in Ht as [Ht Hr]. destruct (strtok " " rest) as [[modes|] rest'] eqn:Hm; cycle 1.
  { case_if; [|by apply policy_core_held].
    match goal with |- holds_oper_modes c w (?m w).2 => assert (does (holds_oper_modes c) m) as Hd; [frames|exact (Hd w)] end. }
  case_if; [by apply policy_core_held|]. rewrite run_bind.
  destruct (require_registered_cases c w) as [[_ ->]|[_ [i ->]]]; [|done].
  apply strtok_elem in Hm as [Hm Hr'].
  pose proof (control_letters_held c "+" ([], NUL) false modes w) as Hh.
  pose proof (control_letters_stands c "+" ([], NUL) false modes w) as [Hst _].
  assert (NUL ∉ (control_letters c "+" ([], NUL) false modes w).1.2) as Hn.
  { apply control_letters_no_nul; [apply not_elem_of_nil| |done]. intros Hx. by apply Hnul, Hr, Hm. }
  rewrite run_bind. destruct (control_letters _ _ _ _ _ w) as [[x filtered] w1]. cbn [fst snd] in *.
  etrans; [exact Hh|]. destruct (empty filtered); cbn [negb when].
  { match goal with |- holds_oper_modes c ?u (?m ?u).2 => assert (does (holds_oper_modes c) m) as Hd; [frames|exact (Hd u)] end. }
  rewrite !run_bind. match goal with |- context [command_mode_policy_core c (Some ?q) w1] =>
    pose proof (policy_core_held c q w1) as Hq; destruct (command_mode_policy_core c (Some q) w1) as [r w2] end.
  etrans; [apply Hq|].
  - apply snprintf_length. unfold IRCD_MESSAGE_BUFFER_SIZE. lia.
  - intros (j & Hx & _)%elem_of_take. apply list_elem_of_lookup_2 in Hx.
    rewrite !elem_of_app in Hx. destruct Hx as [Hx|[Hx|[Hx|Hx]]]; [by apply Hnul, Ht | by apply list_elem_of_singleton in Hx | by apply Hn |].
    destruct rest'; [by apply elem_of_nil in Hx|]. cbn [strtok_rest] in Hx. rewrite elem_of_app in Hx.
    destruct Hx as [Hx|Hx]; [by apply list_elem_of_singleton in Hx|]. by apply Hnul, Hr, Hr'.
  - by rewrite (is_operator_standing _ _ Hst).
  - assert (does (holds_oper_modes c) (when x (send_full_user_modes c) ;; keep)) as Hd by frames. exact (Hd w2).
Qed.

(** ** The limit that the database can hold *)

Definition decimal (d : cstr) : Z := (digits_value 0 d).1.
Abbreviation all_digits := (λ d, forallb isdigit d = true).
Definition digit (x : ascii) : Z := (Z.of_N (byte x) - 48)%Z.

Lemma isdigit_range x : isdigit x = true → (0 ≤ digit x ≤ 9)%Z.
Proof.
  unfold isdigit, in_range, digit. intros [H1 H2]%andb_prop. apply N.leb_le in H1, H2.
  change (byte "0") with 48%N in H1. change (byte "9") with 57%N in H2. lia.
Qed.

Lemma digits_value_all a d :
  all_digits d → digits_value a d = (a * 10 ^ Z.of_nat (length d) + decimal d, [])%Z.
Proof.
  revert a. induction d as [|x d IH]; intros a; [cbn; intros _; f_equal; lia|].
  unfold decimal. cbn [forallb digits_value length]. intros [-> Hd]%andb_prop.
  rewrite (IH (0 * 10 + _)%Z), (IH (a * 10 + _)%Z) by done. cbn [fst].
  rewrite Nat2Z.inj_succ, Z.pow_succ_r by lia. f_equal. ring.
Qed.

Lemma decimal_cons x d : all_digits (x :: d) → decimal (x :: d) = (digit x * 10 ^ Z.of_nat (length d) + decimal d)%Z.
Proof.
  intros [Hx Hd]%andb_prop. unfold decimal at 1. cbn [digits_value]. rewrite Hx, digits_value_all by done.
  cbn [fst]. unfold digit. f_equal.
Qed.

Lemma decimal_range d : all_digits d → (0 ≤ decimal d < 10 ^ Z.of_nat (length d))%Z.
Proof.
  induction d as [|x d IH]; intros H; [cbn; lia|]. rewrite decimal_cons by done. apply andb_prop in H as [Hx Hd].
  specialize (IH Hd). apply isdigit_range in Hx. cbn [length]. rewrite Nat2Z.inj_succ, Z.pow_succ_r by lia. nia.
Qed.

Lemma strip_zeros_spec d :
  all_digits d → all_digits (strip_zeros d) ∧ decimal (strip_zeros d) = decimal d ∧
  (length (strip_zeros d) ≤ 1 ∨ char0 (strip_zeros d) ≠ "0"%char).
Proof.
  induction d as [|x d IH]; [by auto|]. intros H. destruct d as [|y d]; [cbn; auto|].
  destruct (decide (x = "0"%char)) as [->|Hx]; cycle 1.
  { assert (strip_zeros (x :: y :: d) = x :: y :: d) as -> by (apply Ascii.eqb_neq in Hx; simpl; by rewrite Hx). auto. }
  change (strip_zeros ("0"%char :: y :: d)) with (strip_zeros (y :: d)). pose proof H as [_ Hd]%andb_prop. destruct (IH Hd) as (H1 & H2 & H3). split_and!; [done| |done].
  rewrite H2, (decimal_cons "0") by done. change (digit "0") with 0%Z. lia.
Qed.

Lemma strcmp_gt_spec a b :
  all_digits a → all_digits b → length a = length b → strcmp_gt a b = (decimal b <? decimal a)%Z.
Proof.
  revert b. induction a as [|x a IH]; intros [|y b] Ha Hb Hlen; try done.
  rewrite !decimal_cons by done. apply andb_prop in Ha as [Hx Ha], Hb as [Hy Hb]. cbn [length] in Hlen.
  injection Hlen as Hlen. pose proof (decimal_range a Ha). pose proof (decimal_range b Hb). rewrite Hlen in *.
  cbn [strcmp_gt]. destruct (Ascii.eqb_spec x y) as [->|Hne].
  - rewrite IH by done. destruct (Z.ltb_spec (decimal b) (decimal a)), (Z.ltb_spec (digit y * 10 ^ Z.of_nat (length b) + decimal b) (digit y * 10 ^ Z.of_nat (length b) + decimal a)); lia.
  - assert (byte x ≠ byte y) as Hb' by (intros Heq; apply Hne; rewrite <-(ascii_N_embedding x), <-(ascii_N_embedding y); unfold byte in Heq; by rewrite Heq).
    unfold digit. pose proof (isdigit_range x Hx). pose proof (isdigit_range y Hy). unfold digit in *.
    destruct (N.ltb_spec (byte y) (byte x)), (Z.ltb_spec ((Z.of_N (byte y) - 48) * 10 ^ Z.of_nat (length b) + decimal b) ((Z.of_N (byte x) - 48) * 10 ^ Z.of_nat (length b) + decimal a)); try done; nia.
Qed.

(** The comparison on the stripped digits. *)
Lemma range_digits d :
  all_digits d → d ≠ [] →
  (if negb (length (strip_zeros d) =? length limit_maximum) then length limit_maximum <? length (strip_zeros d)
   else strcmp_gt (strip_zeros d) limit_maximum) = (INT64_MAX <? decimal d)%Z.
Proof.
  intros Hd Hne. destruct (strip_zeros_spec d Hd) as (Hs & <- & Hz). revert Hs Hz. generalize (strip_zeros d). intros e Hs Hz.
  assert (Z.of_nat (length limit_maximum) = 19%Z) as Hl by reflexivity.
  pose proof (decimal_range e Hs) as He. case_if; bools.
  - destruct (Nat.ltb_spec (length limit_maximum) (length e)) as [Hlt|Hge]; symmetry.
    + apply Z.ltb_lt. destruct Hz as [Hz|Hz]; [change (length limit_maximum) with 19 in Hlt; lia|].
      destruct e as [|x e]; [cbn in Hlt; lia|]. rewrite decimal_cons by done. apply andb_prop in Hs as [Hx Hs].
      pose proof (isdigit_range x Hx). pose proof (decimal_range e Hs).
      assert (digit x ≠ 0%Z) as Hnz.
      { intros Hd0. apply Hz. cbn [char0 hd]. rewrite <-(ascii_N_embedding x). unfold digit, byte in Hd0.
        replace (N_of_ascii x) with 48%N by lia. reflexivity. }
      assert (10 ^ 19 ≤ 10 ^ Z.of_nat (length e))%Z by (apply Z.pow_le_mono_r; cbn [length] in Hlt; lia).
      unfold INT64_MAX. change (10 ^ 19)%Z with 10000000000000000000%Z in *. nia.
    + apply Z.ltb_ge. assert (10 ^ Z.of_nat (length e) ≤ 10 ^ 18)%Z by (apply Z.pow_le_mono_r; lia).
      unfold INT64_MAX. change (10 ^ 18)%Z with 1000000000000000000%Z in *. lia.
  - rewrite (strcmp_gt_spec _ limit_maximum Hs eq_refl) by assumption. reflexivity.
Qed.

Lemma digit_not_sign x : isdigit x = true → isspace x = false ∧ Ascii.eqb x "-" = false ∧ Ascii.eqb x "+" = false.
Proof. destruct x as [[] [] [] [] [] [] [] []]; vm_compute; done. Qed.

Lemma strtoul_digits d : isdigit (char0 d) = true →
  strtoul d = (let '(v, e) := digits_value 0 d in if (ULONG_MAX <? v)%Z then (ULONG_MAX, true, false, e) else (v, false, false, e)).
Proof.
  intros Hd. destruct d as [|x d]; [done|]. cbn [char0 hd] in Hd. destruct (digit_not_sign x Hd) as (Hsp & Hm & Hp).
  unfold strtoul. rewrite (drop_while_id isspace) by (intros ?? [= <- _]; done).
  rewrite Hm, Hp. cbn [char0 hd]. by rewrite Hd.
Qed.

Lemma parse_digits d v : parse_uint d = Some v → isdigit (char0 d) = true → all_digits d ∧ v = decimal d.
Proof.
  unfold parse_uint. case_if; [done|]. intros H Hd. rewrite strtoul_digits in H by done.
  assert (∀ a s, (digits_value a s).2 = [] → all_digits s) as Hall.
  { intros a s. revert a. induction s as [|x s IH]; intros a; [done|]. simpl. case_if; [simpl; apply IH|done]. }
  pose proof (Hall 0%Z d) as Hx. unfold decimal. destruct (digits_value 0 d) as [n e]. cbn [fst snd] in *.
  destruct (ULONG_MAX <? n)%Z; [done|]. destruct e; [|done]. injection H as <-. split; [by apply Hx|done].
Qed.

(** A leading plus is skipped; what follows starts with a digit. *)
Lemma parse_plus x p v :
  isspace x = false → x ≠ "-"%char → parse_uint (x :: p) = Some v →
  let d := if Ascii.eqb x "+" then p else x :: p in isdigit (char0 d) = true ∧ parse_uint d = Some v.
Proof.
  intros Hsp Hm Hp. assert (isdigit (char0 (if Ascii.eqb x "+" then p else x :: p)) = true) as Hd.
  { revert Hp. unfold parse_uint, strtoul. cbn [empty]. rewrite (drop_while_id isspace) by (intros ?? [= <- _]; done).
    apply Ascii.eqb_neq in Hm. rewrite Hm. destruct (Ascii.eqb x "+"); case_if; bools; done. }
  split; [exact Hd|]. destruct (Ascii.eqb x "+") eqn:Hx; [|done]. revert Hp.
  destruct p as [|y p]; [done|]. unfold parse_uint. cbn [empty]. rewrite (strtoul_digits (y :: p)) by done.
  unfold strtoul. rewrite (drop_while_id isspace) by (intros ?? [= <- _]; done).
  apply Ascii.eqb_neq in Hm. by rewrite Hm, Hx, Hd.
Qed.

(** [+l] is refused before it reaches the channel exactly when the number does
    not fit the database's signed column: for every parameter the mode parser would
    accept (no leading white space), the check on the digits of the text says whether
    the value the parser returns exceeds INT64_MAX, and always refuses a minus sign,
    which [strtoul] would wrap around. *)
Theorem limit_range_check_exact p v :
  isspace (char0 p) = false → parse_uint p = Some v →
  (user_limit_exceeds_persistable_range p = true ↔ (INT64_MAX < v)%Z ∨ char0 p = "-"%char).
Proof.
  intros Hsp Hp. destruct p as [|x p]; [done|]. cbn [char0 hd] in *. unfold user_limit_exceeds_persistable_range. cbn [empty].
  destruct (decide (x = "-"%char)) as [->|Hm]; [cbn; naive_solver|].
  destruct (parse_plus x p v Hsp Hm Hp) as [H0 Hv]. set (d := if Ascii.eqb x "+" then p else x :: p) in *.
  destruct (parse_digits d v Hv H0) as [Hd ->]. destruct (digit_not_sign _ H0) as (_ & -> & _).
  assert (d ≠ []) as Hne by (by intros Hd0; rewrite Hd0 in H0).
  assert (empty d = false) as -> by (by destruct d). rewrite Hd. cbn [negb]. rewrite range_digits by done.
  rewrite Z.ltb_lt. naive_solver.
Qed.

End Frames.

#[export] Hint Resolve command_mode_keeps set_control_mode_keeps : frame.
#[export] Hint Extern 4 (does keeps (command_deaf _ _)) => apply set_control_mode_keeps : frame.
#[export] Hint Extern 4 (does keeps (command_mute _ _)) => apply set_control_mode_keeps : frame.

Lemma limit_range_check_exact_witness :
  user_limit_exceeds_persistable_range (lit "+9223372036854775808") = true ∧
  user_limit_exceeds_persistable_range (lit "0009223372036854775807") = false.
Proof.
  split.
  - apply (limit_range_check_exact (lit "+9223372036854775808") 9223372036854775808 eq_refl); [vm_compute; reflexivity|].
    left. reflexivity.
  - destruct (user_limit_exceeds_persistable_range _) eqn:H; [|reflexivity].
    apply (limit_range_check_exact (lit "0009223372036854775807") 9223372036854775807 eq_refl) in H; [|vm_compute; reflexivity].
    destruct H as [H|H]; [vm_compute in H; discriminate H|discriminate H].
Defined.
