(* ===== verification/SaCmds.v ===== *)
(** * SAJOIN, SAPART and SAMODE ([src/commands/sajoin.c], [sapart.c], [samode.c])

    The commands by which an operator with can_override acts on channels and users with
    the authority of the server. *)

From S2P Require Import Prelude CString Modes HashTable MaskMatch Output World Channel Invariant Policy Tags Numerics Ircv3 Presence Env Cloak Register Connection Services Registry JoinPart Oper ChanCmds Mode.

Section SaCmds.
Context `{E : Env} `{S : Services}.

(** ** SAJOIN and SAPART *)

Definition sajoin_one (c t : ptr) (name : cstr) : M unit :=
  T ← client t;
  if negb (channel_name_valid name) || (IRC_MAX_CHANNELS_PER_CLIENT <=? cl_channel_count T) then mret tt else
  found ← server_get_or_create_channel name;
  match found with
  | None => mret tt
  | Some ch =>
      C ← channel ch;
      if channel_has_client C t then mret tt else
      let first := ch_member_count C =? 0 in
      rc ← channel_add_client ch t;
      if negb (rc =? 0)%Z then mret tt else
      (if channel_mode_has (ch_modes C) CHANNEL_MODE_REGISTERED then
         privileges ← chanserv_client_privileges t (ch_name C);
         when (negb (privileges =? 0)%N) (_ ← channel_set_service_privileges ch t privileges; mret tt)
       else when first
         (_ ← channel_add_privileges ch t (N.lor CHANNEL_PRIV_OWNER CHANNEL_PRIV_OPERATOR); mret tt)) ;;
      ircv3_broadcast_join ch t ;;
      ircv3_away_notify_join ch t ;;
      channel_log_join ch t ;;
      cfg ← config;
      K ← client c;
      T ← client t;
      C ← channel ch;
      snotice_broadcast SNOTICE_MODERATION "SAJOIN by %s: %s -> %s [real_ip=%s]"
        [cl_nick K; cl_nick T; ch_name C; cl_real_ip T] ;;
      when (negb (empty (ch_topic C))) (tell t RPL_TOPIC [server_name cfg; cl_nick T; ch_name C; ch_topic C]) ;;
      command_send_names ch t
  end.

Definition sapart_one (c t : ptr) (name : cstr) : M unit :=
  found ← find_channel name;
  match found with
  | None => mret tt
  | Some ch =>
      C ← channel ch;
      if negb (channel_has_client C t) then mret tt else
      K ← client c;
      T ← client t;
      let reason := snprintf 64 (format "Forced part by %s" [cl_nick K]) in
      channel_broadcast ch None (snprintf IRCD_MESSAGE_BUFFER_SIZE
        (format ":%s!%s@%s PART %s :%s" [cl_nick T; cl_user T; cl_display_host T; ch_name C; reason] ++ [CR; LF])) ;;
      channel_log_part ch t reason ;;
      snotice_broadcast SNOTICE_MODERATION "SAPART by %s: %s <- %s [real_ip=%s]"
        [cl_nick K; cl_nick T; ch_name C; cl_real_ip T] ;;
      channel_remove_client ch t ;;
      server_remove_channel_if_empty ch
  end.

(** Their common frame: "<nick> <channel>[,<channel>...]". *)
Definition sa_channels (c : ptr) (params : option cstr) (command done : cstr) (one : ptr → cstr → M unit) : M CommandResult :=
  without_permission c OPER_PERMISSION_OVERRIDE (
    cfg ← config;
    K ← client c;
    let '(nick, rest) := strtok " " (default [] params) in
    match nick, strtok_rest rest with
    | Some nick, Some channels =>
        found ← find_nick nick;
        match found with
        | None => reply c ERR_NOSUCHNICK [server_name cfg; cl_nick K; nick]
        | Some t =>
            for_each (tokens ", " channels) (one t) ;;
            K ← client c;
            T ← client t;
            reply c done [server_name cfg; cl_nick K; cl_nick T]
        end
    | _, _ => reply c ERR_NEEDMOREPARAMS [server_name cfg; cl_nick K; command]
    end).

Definition command_sajoin (c : ptr) (params : option cstr) : M CommandResult :=
  sa_channels c params "SAJOIN" ":%s NOTICE %s :SAJOIN completed for %s" (sajoin_one c).
Definition command_sapart (c : ptr) (params : option cstr) : M CommandResult :=
  sa_channels c params "SAPART" ":%s NOTICE %s :SAPART completed for %s" (sapart_one c).

(** ** SAMODE *)

Definition allowed_user_mode : ascii → ClientModeSet := letter_bit
    [("B"%char, CLIENT_MODE_BOT); ("d"%char, CLIENT_MODE_DEAF); ("g"%char, CLIENT_MODE_GLOBALS);
     ("H"%char, CLIENT_MODE_HIDE_OPER); ("h"%char, CLIENT_MODE_HELPOP); ("I"%char, CLIENT_MODE_HIDE_IDLE);
     ("i"%char, CLIENT_MODE_INVISIBLE); ("p"%char, CLIENT_MODE_PRIVATE); ("R"%char, CLIENT_MODE_REGONLY_MSG);
     ("s"%char, CLIENT_MODE_SERVER_NOTICES); ("T"%char, CLIENT_MODE_NO_CTCP);
     ("W"%char, CLIENT_MODE_WHOIS_NOTICE); ("w"%char, CLIENT_MODE_WALLOPS)].

(** A limit that could not be stored. *)
Fixpoint samode_bad_limit (adding : bool) (letters : cstr) (argv : list cstr) : bool :=
  match letters with
  | [] => false
  | letter :: rest =>
      if is_sign letter then samode_bad_limit (Ascii.eqb letter "+") rest argv else
      let consumes := has_char letter "qaohv" || Ascii.eqb letter "k" ||
                      (has_char letter "ljLB" && adding) || is_list_letter letter in
      if Ascii.eqb letter "l" && adding &&
         match hd_error argv with Some param => user_limit_exceeds_persistable_range param | None => false end
      then true else samode_bad_limit adding rest (if consumes then tail argv else argv)
  end.

Definition samode_channel_params_valid (c : ptr) (rest : cstr) : M bool :=
  let '(modes, rest) := strtok " " (snprintf IRCD_MESSAGE_BUFFER_SIZE rest) in
  let argv := take IRC_MODE_MAX_PARAMS (tokens " " rest) in
  match modes with
  | None => mret true
  | Some letters =>
      if samode_bad_limit true letters argv then
        cfg ← config;
        K ← client c;
        tell c ERR_NEEDMOREPARAMS [server_name cfg; cl_nick K; lit "SAMODE"] ;; mret false
      else mret true
  end.

Fixpoint samode_letters (c t : ptr) (adding : bool) (letters : cstr) : M unit :=
  match letters with
  | [] => mret tt
  | letter :: rest =>
      if is_sign letter then samode_letters c t (Ascii.eqb letter "+") rest else
      let b := allowed_user_mode letter in
      (if (b =? 0)%N then
         cfg ← config;
         K ← client c;
         tell c ERR_UMODEUNKNOWNFLAG [server_name cfg; cl_nick K]
       else upd_client t (λ T, set_cl_modes ((if adding then client_mode_add else client_mode_remove) (cl_modes T) b) T)) ;;
      samode_letters c t adding rest
  end.

Definition samode_user (c t : ptr) (modes : option cstr) : M CommandResult :=
  cfg ← config;
  K ← client c;
  match modes with
  | None | Some [] => reply c ERR_NEEDMOREPARAMS [server_name cfg; cl_nick K; lit "SAMODE"]
  | Some letters =>
      samode_letters c t true letters ;;
      T ← client t;
      tell c ":%s NOTICE %s :SAMODE completed for %s" [server_name cfg; cl_nick K; cl_nick T] ;;
      snotice_broadcast SNOTICE_MODERATION "SAMODE by %s: user %s %s [real_ip=%s]"
        [cl_nick K; cl_nick T; letters; cl_real_ip T] ;;
      keep
  end.

(** Replaces the record of a member; the caller has looked it up. *)
Definition upd_membership (ch c : ptr) (f : ChannelMember → ChannelMember) : M unit :=
  upd_channel ch (λ C, set_ch_members (upd_member c f (ch_members C)) C).

Definition samode_authority (m : ChannelMember) : ChannelMember :=
  set_m_privileges (N.lor (m_privileges m) (N.lor CHANNEL_PRIV_OWNER CHANNEL_PRIV_OPERATOR)) m.

(** The mode change, with the caller holding owner status for its duration. *)
Definition samode_run (c ch : ptr) (target rest : cstr) : M unit :=
  upd_membership ch c samode_authority ;;
  _ ← command_mode_core c (Some (snprintf IRCD_MESSAGE_BUFFER_SIZE (target ++ lit " " ++ rest)));
  chanserv_persist_channel ch ;;
  K ← client c;
  snotice_broadcast SNOTICE_MODERATION "SAMODE by %s: channel %s %s" [cl_nick K; target; rest].

Definition samode_channel (c ch : ptr) (target rest : cstr) : M CommandResult :=
  valid ← samode_channel_params_valid c rest;
  if negb valid then keep else
  C ← channel ch;
  match channel_find_member C c with
  | None =>
      rc ← channel_add_client ch c;
      if negb (rc =? 0)%Z then keep else
      samode_run c ch target rest ;; channel_remove_client ch c ;; keep
  | Some saved =>
      samode_run c ch target rest ;;
      upd_membership ch c (λ m, MkMember (m_client m) (m_privileges saved) (m_manual saved) (m_service saved)) ;;
      keep
  end.

Definition command_samode (c : ptr) (params : option cstr) : M CommandResult :=
  without_permission c OPER_PERMISSION_OVERRIDE (
    cfg ← config;
    K ← client c;
    let '(target, rest) := strtok " " (default [] params) in
    match target, strtok_rest rest with
    | Some target, Some rest =>
        if strchr IRC_CHANNEL_PREFIXES (char0 target) then
          found ← find_channel target;
          match found with
          | None => reply c ERR_NOSUCHCHANNEL [server_name cfg; cl_nick K; target]
          | Some ch => samode_channel c ch target rest
          end
        else
          found ← find_nick target;
          match found with
          | None => reply c ERR_NOSUCHNICK [server_name cfg; cl_nick K; target]
          | Some t => samode_user c t (strtok " " rest).1
          end
    | _, _ => reply c ERR_NEEDMOREPARAMS [server_name cfg; cl_nick K; lit "SAMODE"]
    end).
End SaCmds.
