(* ===== verification/Dispatch.v ===== *)
(** * Dispatch ([src/commands/dispatch.c]) and the line parser ([src/irc.c])

    A complete line becomes tags, command and parameters; the command is charged to
    the flood budget, looked up in the table and run between the IRCv3 bookkeeping
    calls. *)

From S2P Require Import Prelude CString Modes HashTable MaskMatch Output World Channel Invariant Policy Tags Numerics Ircv3 Presence Env Cloak Register Connection Services Registry RegistryProps Sound Flood JoinPart Oper Accounts NickServ ChanDb ChanServ Cap Message MessageProps Query ChanCmds Mode SaCmds.

(** ** Handlers outside the model

    The handlers of the services, of the ban and operator databases and of the
    configuration.  What the loop relies on: a handler leaves the server sound and its
    caller connected ([stable]); ending other connections, as GHOST does, is allowed. *)
Class Handlers `{E : Env} `{S : Services} := {
  other_handler : string → ptr → option cstr → M CommandResult;
  (** [ban_db_add_timed] into a database that could be opened: type, mask, reason, origin, seconds. *)
  ban_db_add_timed : BanType → cstr → cstr → cstr → Z → M unit;
  (** Starts new channel log files at the time. *)
  channel_log_rotate_all : Z → M unit;

  other_stable name c p : does (stable c) (other_handler name c p);
  ban_add_silent t m r o s : does silent_step (ban_db_add_timed t m r o s);
  log_rotate_silent t : does silent_step (channel_log_rotate_all t) }.

#[refine] Definition no_handlers `{E : Env} `{S : Services} : Handlers := {|
  other_handler _ _ _ := keep;
  ban_db_add_timed _ _ _ _ _ := mret tt;
  channel_log_rotate_all _ := mret tt |}.
Proof. all: intros; try (apply does_ret, _); intros w; by split. Defined.

Section Dispatch.
Context `{E : Env} `{S : Services} {R : Recipients} {H : Handlers}.

Record CommandEntry := Entry { ce_name : cstr; ce_handler : ptr → option cstr → M CommandResult; ce_cost : Z }.

Definition other (name : string) (cost : Z) : CommandEntry := Entry name (other_handler name) cost.

Definition command_table : list CommandEntry := [
  other "ADMIN" 1; Entry "AUTHENTICATE" command_authenticate 0; Entry "AWAY" command_away 0; Entry "CAP" command_cap 0;
  Entry "CHANSERV" command_chanserv 2; other "CHATHISTORY" 5; Entry "CSDROP" command_csdrop 3; Entry "CSINFO" command_csinfo 3; Entry "CSSET" command_csset 3;
  Entry "DEAF" command_deaf 0; Entry "DIE" command_die 0; other "ELINE" 0; other "FLASH" 0; other "GEOBAN" 0;
  Entry "GLOBOPS" command_globops 0; Entry "IDENTIFY" command_identify 5; other "INFO" 2; Entry "INVITE" command_invite 0;
  Entry "ISON" command_ison 1; Entry "JOIN" command_join 0; Entry "KICK" command_kick 0; Entry "KILL" command_kill 0;
  other "KLINE" 0; Entry "KNOCK" command_knock 0; other "LINKS" 2; Entry "LIST" command_list 5;
  Entry "LOCOPS" command_locops 0; Entry "LUSERS" command_lusers 1; other "MEMOSERV" 2; Entry "MODE" command_mode 0;
  Entry "MOTD" command_motd 1; other "MSINFO" 3; other "MSPURGE" 3; Entry "MUTE" command_mute 0;
  Entry "NAMES" command_names 3; Entry "NICK" command_nick 0; Entry "NICKSERV" command_nickserv 2; Entry "NOTICE" command_notice 0;
  other "NSDROP" 3; other "NSINFO" 3; other "NSSET" 3; Entry "OPER" command_oper 5; other "OPERADD" 0;
  other "OPERDEL" 0; other "OPERLIST" 2; other "OPERSET" 0; Entry "PART" command_part 0; Entry "PASS" command_pass 0;
  Entry "PING" command_ping 0; Entry "PMSTATS" command_pmstats 0; Entry "PONG" command_pong 0;
  Entry "PRIVMSG" command_privmsg 0; Entry "QUIT" command_quit 0; other "REHASH" 0; Entry "RESTART" command_restart 0;
  other "RULES" 1; Entry "SAJOIN" command_sajoin 0; Entry "SAMODE" command_samode 0; Entry "SAPART" command_sapart 0;
  Entry "SETHOST" command_sethost 0; Entry "SETIDENT" command_setident 0; Entry "SETNAME" command_setname 0;
  Entry "SILENCE" command_silence 1; Entry "SNOTICE" command_snotice 0; other "STATS" 1; Entry "TAGMSG" command_tagmsg 0;
  other "TIME" 1; Entry "TOPIC" command_topic 0; other "UNGEOBAN" 0; Entry "USER" command_user 0;
  Entry "USERHOST" command_userhost 1; Entry "USERIP" command_userip 1; other "VERSION" 1;
  Entry "WALLOPS" command_wallops 0; Entry "WATCH" command_watch 1; Entry "WEBIRC" command_webirc 0; Entry "WHO" command_who 4;
  Entry "WHOIS" command_whois 2; Entry "WHOWAS" command_whowas 2; other "ZLINE" 0].

(** The handler of the first entry with the name, once its cost is granted. *)
Definition run_entry (c : ptr) (command : cstr) (params : option cstr) : M CommandResult :=
  match find (λ e, strcaseeq command (ce_name e)) command_table with
  | Some e =>
      allowed ← command_expensive_allow c command (ce_cost e);
      if allowed : bool then ce_handler e c params else keep
  | None => send_bounded_command_numeric c "421" command "Unknown command" ;; keep
  end.

Definition command_dispatch (c : ptr) (command : cstr) (params : option cstr) : M CommandResult :=
  t ← now;
  cfg ← config;
  upd_client c (λ K, if cl_ping_pending K then K else set_cl_last_liveness_activity t K) ;;
  K ← client c;
  if nospoof_enabled cfg && cl_nospoof_started K && negb (cl_nospoof_verified K) && (cl_nospoof_deadline K <=? t)%Z then
    snotice_broadcast SNOTICE_SECURITY "No-spoof timeout: %s [real_ip=%s]" [command_reply_nick K; cl_real_ip K] ;;
    tell c ":%s ERROR :No-spoof PING timeout" [server_name cfg] ;;
    mret COMMAND_DISCONNECT_CLIENT
  else
  flood ← general_flood_allow c command (general_flood_cost command);
  if (flood =? 0)%Z then mret COMMAND_DISCONNECT_CLIENT else
  if (flood <? 0)%Z then keep else
  K ← client c;
  if strcaseeq command "MODE" && negb (channel_mode_wire_fits K params) then
    reply c ":%s 417 %s MODE :MODE change would exceed the IRC line limit; split the change"
      [server_name cfg; command_reply_nick K]
  else run_entry c command params.

(** Tags and the rest of a line; [None] for tags without anything behind. *)
Definition split_tags (line : cstr) : option (option cstr * cstr) :=
  match line with
  | "@"%char :: _ =>
      match span (Ascii.eqb " ") line with
      | (_, []) => None
      | (tags, _ :: rest) => Some (Some (tail tags), drop_while (Ascii.eqb " ") rest)
      end
  | _ => Some (None, line)
  end.

(** [true]: disconnect. *)
Definition irc_handle_line (c : ptr) (line : cstr) : M bool :=
  match split_tags line with
  | None => mret false
  | Some (tags, line) =>
      cfg ← config;
      K ← client c;
      if Ascii.eqb (char0 line) ":" then
        snotice_broadcast SNOTICE_SECURITY "Protocol violation: client-supplied prefix from %s [real_ip=%s]"
          [command_reply_nick K; cl_real_ip K] ;;
        tell c ":%s ERROR :Client-supplied prefixes are not permitted" [server_name cfg] ;;
        mret true
      else
      let '(command, rest) := strtok " " line in
      match command with
      | None => mret false
      | Some command =>
          ircv3_begin_command c tags ;;
          result ← command_dispatch c command (strtok_rest rest);
          ircv3_end_command c ;;
          mret match result with COMMAND_DISCONNECT_CLIENT => true | COMMAND_KEEP_CLIENT => false end
      end
  end.
End Dispatch.
