(* ===== verification/Loop.v ===== *)
(** * The event loop ([src/server.c])

    From bytes read on a connection to lines, from lines to commands, the results of
    the resolver threads, the deadlines, and one turn of [server_run] around them.  What
    the kernel, OpenSSL and the resolvers report in a turn is its input. *)

From S2P Require Import Prelude CString Modes HashTable MaskMatch Output World Channel Invariant Policy Tags Numerics Ircv3 Presence Env Cloak Register Connection Services Registry RegistryProps Sound Flood JoinPart Oper Accounts NickServ ChanDb ChanServ Cap Message MessageProps Query ChanCmds Mode SaCmds Dispatch.

(** ** Input ([client_input_line_fits], [process_buffered_lines], [read_client]) *)

Definition IRCV3_CLIENT_TAG_SECTION_MAX : nat := 4096.
Definition IRCD_PING_TOKEN_MAX : nat := 20.
Definition IRC_INPUT_LINE_MAX : nat := IRCV3_CLIENT_TAG_SECTION_MAX + IRC_LINE_CONTENT_MAX.
Definition IRC_INPUT_BUFFER_SIZE : nat := 2 * 4096.
Definition SERVER_INPUT_LINE_BUDGET_PER_CLIENT : nat := 32.
Definition SERVER_INPUT_LINE_BUDGET_GLOBAL : nat := 512.
Definition SERVER_DNS_RESULT_BUDGET : nat := 64.
Definition SERVER_DNSBL_RESULT_BUDGET : nat := 64.
Definition SERVER_DNSBL_LISTED_BUDGET : nat := 4.
Definition SERVER_TLS_HANDSHAKE_BUDGET : nat := 32.

Definition client_input_line_fits (line : cstr) : bool :=
  match line with
  | "@"%char :: _ =>
      match span (Ascii.eqb " ") line with
      | (_, []) => false
      | (tags, _) =>
          let tag_section_length := length tags + 1 in
          negb (length tags =? 1) && (tag_section_length <=? IRCV3_CLIENT_TAG_SECTION_MAX) &&
          (length line - tag_section_length <=? IRC_LINE_CONTENT_MAX)
      end
  | _ => length line <=? IRC_LINE_CONTENT_MAX
  end.

(** A raw line without one trailing CR. *)
Definition without_cr (raw : cstr) : cstr :=
  match reverse raw with
  | ch :: l => if Ascii.eqb ch CR then reverse l else raw
  | [] => raw
  end.

(** [memchr(base, '\n', remaining)]: the bytes in front of the newline. *)
Definition raw_line (base : cstr) : option cstr :=
  match span (Ascii.eqb LF) base with (_, []) => None | (raw, _) => Some raw end.

Definition protocol_violation (c : ptr) : M unit :=
  K ← client c;
  snotice_broadcast SNOTICE_SECURITY "Protocol violation from %s: malformed or overlong IRC framing" [cl_real_ip K].

Section Loop.
Context `{E : Env} `{S : Services} {R : Recipients} {H : Handlers}.

(** How the loop over the buffered lines ends, with the offset reached and the budget
    left: it ran out of lines or budget, it found a bad line, or a command asked to
    disconnect. *)
Inductive LineLoop := LINES_DONE (offset budget : nat) | LINES_BAD (budget : nat) | LINES_QUIT (offset budget : nat).

Fixpoint line_loop (rounds : nat) (c : ptr) (offset budget : nat) : M LineLoop :=
  match rounds with
  | 0 => mret (LINES_DONE offset budget)
  | Datatypes.S rounds =>
      K ← client c;
      if (budget =? 0) || (length (cl_inbuf K) <=? offset) then mret (LINES_DONE offset budget) else
      let base := drop offset (cl_inbuf K) in
      match raw_line base with
      | None => mret (LINES_DONE offset budget)
      | Some raw =>
          let offset' := offset + length raw + 1 in
          let line := without_cr raw in
          if has_char NUL raw || has_char CR line then protocol_violation c ;; mret (LINES_BAD budget) else
          if negb (client_input_line_fits line) then
            if negb (Ascii.eqb (char0 base) "@") then protocol_violation c ;; mret (LINES_BAD budget) else
            cfg ← config;
            tell c ":%s 417 %s :Input line was too long" [server_name cfg; command_reply_nick K] ;;
            line_loop rounds c offset' (budget - 1)
          else
            quit ← (if empty line then mret false else irc_handle_line c line);
            if quit : bool then mret (LINES_QUIT offset' (budget - 1)) else line_loop rounds c offset' (budget - 1)
      end
  end.

(** [memmove(inbuf, inbuf + offset, ...)]. *)
Definition consume_input (c : ptr) (offset : nat) : M unit :=
  upd_client c (λ K, set_cl_inbuf (drop offset (cl_inbuf K)) K).

Definition overlong_partial (inbuf : cstr) : bool :=
  ((if Ascii.eqb (char0 inbuf) "@" then IRC_INPUT_LINE_MAX else IRC_LINE_CONTENT_MAX) + 1 <? length inbuf) &&
  negb (has_char LF inbuf).

(** Whether to disconnect, whether lines are left, and the budget left. *)
Definition process_buffered_lines (c : ptr) (global_budget : nat) : M (bool * bool * nat) :=
  ending ← line_loop SERVER_INPUT_LINE_BUDGET_PER_CLIENT c 0 global_budget;
  match ending with
  | LINES_BAD budget => mret (true, false, budget)
  | LINES_QUIT offset budget => consume_input c offset ;; mret (true, false, budget)
  | LINES_DONE offset budget =>
      consume_input c offset ;;
      K ← client c;
      if overlong_partial (cl_inbuf K) then
        snotice_broadcast SNOTICE_SECURITY "Protocol violation from %s: overlong partial IRC line (%zu bytes)"
          [cl_real_ip K; dec_nat (length (cl_inbuf K))] ;;
        cfg ← config;
        tell c ":%s 417 %s :Input line was too long" [server_name cfg; command_reply_nick K] ;;
        mret (true, false, budget)
      else mret (false, has_char LF (cl_inbuf K), budget)
  end.

(** What [recv] or [SSL_read] reports; only OpenSSL asks for a write. *)
Inductive ReadResult := READ_BYTES (bytes : cstr) | READ_AGAIN | READ_WANT_WRITE | READ_CLOSED.

Definition read_flags (c : ptr) (retry want_write : bool) : M unit :=
  on_conn c (set_input_retry_pending retry) ;; upd_client c (set_cl_input_want_write want_write).

Definition read_client (c : ptr) (received : ReadResult) : M bool :=
  K ← client c;
  tls ← gets (λ w, ssl (the_conn w c));
  if IRC_INPUT_BUFFER_SIZE - 1 <=? length (cl_inbuf K) then mret true else
  let available := IRC_INPUT_BUFFER_SIZE - length (cl_inbuf K) - 1 in
  match received with
  | READ_BYTES ((_ :: _) as bytes) =>
      when tls (read_flags c false false) ;;
      upd_client c (λ K, set_cl_inbuf (cl_inbuf K ++ take available bytes) K) ;;
      mret false
  | READ_AGAIN => when tls (read_flags c true false) ;; mret false
  | READ_WANT_WRITE => if tls : bool then read_flags c true true ;; mret false else mret true
  | READ_BYTES [] | READ_CLOSED => mret true
  end.

(** ** Ending connections *)

Definition sendq_notice (c : ptr) : M unit :=
  K ← client c;
  limit ← gets (λ w, outbuf_limit (the_conn w c));
  snotice_broadcast SNOTICE_FLOOD "SendQ exceeded for %s (nick=%s limit=%zu bytes)"
    [cl_real_ip K; or_star (cl_nick K); dec limit].

(** The test after a client was served: more output than its queue may hold. *)
Definition sendq_check (c : ptr) (disconnect : bool) : M bool :=
  over ← overflowed c;
  if negb disconnect && over then
    sendq_notice c ;;
    upd_client c (set_cl_quit_reason "SendQ exceeded") ;;
    mret true
  else mret disconnect.

Definition drop_client (c : ptr) : M unit :=
  K ← client c;
  server_disconnect c (Some (if empty (cl_quit_reason K) then IRC_DEFAULT_QUIT_REASON else cl_quit_reason K)).

(** ** Serving the buffered input of all clients *)

Definition client_count : M nat := gets (λ w, length (w_client_array w)).
Definition client_at (index : nat) : M ptr := gets (λ w, nth index (w_client_array w) 0).

(** [index], [pending] and the budget after [rounds] more visits at most. *)
Fixpoint drain_loop (rounds index : nat) (pending : bool) (budget : nat) : M (nat * bool * nat) :=
  match rounds with
  | 0 => mret (index, pending, budget)
  | Datatypes.S rounds =>
      n ← client_count;
      if (n =? 0) || (budget =? 0) then mret (index, pending, budget) else
      let index := if n <=? index then 0 else index in
      c ← client_at index;
      K ← client c;
      tls ← gets (λ w, tls_state (the_conn w c));
      if bool_decide (tls = CLIENT_TLS_HANDSHAKE) || empty (cl_inbuf K)
      then drain_loop rounds ((index + 1) mod n) pending budget else
      '(disconnect, client_pending, budget) ← process_buffered_lines c budget;
      disconnect ← sendq_check c disconnect;
      if disconnect : bool then
        drop_client c ;;
        n ← client_count;
        if n =? 0 then mret (index, pending, budget)
        else drain_loop rounds (if n <=? index then 0 else index) pending budget
      else
        n ← client_count;
        drain_loop rounds ((index + 1) mod n) (client_pending || pending) budget
  end.

Definition set_dispatch_cursor (n : nat) : M unit := modify (set_w_input_dispatch_cursor n).

(** Whether complete lines may be left, and the budget left. *)
Definition drain_buffered_client_input (global_budget : nat) : M (bool * nat) :=
  initial_count ← client_count;
  if initial_count =? 0 then set_dispatch_cursor 0 ;; mret (false, global_budget) else
  cursor ← gets w_input_dispatch_cursor;
  '(index, pending, budget) ← drain_loop initial_count (cursor mod initial_count) false global_budget;
  n ← client_count;
  set_dispatch_cursor (if 0 <? n then index mod n else 0) ;;
  mret (pending || (budget =? 0), budget).

(** ** The resolver threads' results *)

Record DnsResult := MkDnsResult { dr_client_id : N; dr_verified : bool; dr_resolved_host : cstr }.
Record DnsblResult := MkDnsblResult { bl_client_id : N; bl_listed : bool; bl_name : cstr; bl_zone : cstr }.

Definition in_handshake (c : ptr) : M bool := gets (λ w, bool_decide (tls_state (the_conn w c) = CLIENT_TLS_HANDSHAKE)).

Definition handle_dns_result (result : DnsResult) : M unit :=
  found ← server_find_client_by_id (dr_client_id result);
  match found with
  | None => mret tt
  | Some c =>
      K ← client c;
      if negb (bool_decide (cl_dns_state K = CLIENT_DNS_PENDING)) then mret tt else
      cfg ← config;
      handshake ← in_handshake c;
      (if dr_verified result && negb (empty (dr_resolved_host result)) then
         let host := snprintf (IRC_HOST_MAX + 1) (dr_resolved_host result) in
         upd_client c (λ K, set_cl_real_host host (set_cl_dns_state CLIENT_DNS_VERIFIED K)) ;;
         snotice_broadcast SNOTICE_DNS "FCrDNS verified: %s -> %s" [cl_real_ip K; host] ;;
         upd_client c (λ K, if client_mode_has (cl_modes K) (N.lor CLIENT_MODE_CLOAKED CLIENT_MODE_VHOST) then K
                            else set_cl_display_host host K) ;;
         when (negb handshake) (tell c NOTICE_GOTDNS [server_name cfg])
       else
         upd_client c (λ K, set_cl_real_host [] (set_cl_dns_state CLIENT_DNS_FAILED K)) ;;
         snotice_broadcast SNOTICE_DNS "FCrDNS failed or did not verify for %s" [cl_real_ip K] ;;
         when (negb handshake) (tell c NOTICE_FAILDNS [server_name cfg])) ;;
      command_maybe_register c
  end.

(** The pipe holds [results]. *)
Definition drain_dns_results (results : list DnsResult) : M unit :=
  for_each (take SERVER_DNS_RESULT_BUDGET results) handle_dns_result.

Definition IRCD_DNSBL_NAME_MAX : nat := 63.
Definition SERVER_DNSBL_REASON_ZONE_MAX : nat := IRC_QUIT_REASON_MAX - 6 - IRCD_DNSBL_NAME_MAX - 3.
Definition SERVER_DNSBL_SET_BY_NAME_MAX : nat := IRCD_OPER_NAME_MAX - 6.

Definition handle_dnsbl_result (result : DnsblResult) : M unit :=
  found ← server_find_client_by_id (bl_client_id result);
  match found with
  | None => mret tt
  | Some c =>
      K ← client c;
      if negb (bool_decide (cl_dnsbl_state K = CLIENT_DNSBL_PENDING)) then mret tt else
      if negb (bl_listed result) then upd_client c (set_cl_dnsbl_state CLIENT_DNSBL_CLEAR) ;; command_maybe_register c else
      cfg ← config;
      let name := if empty (bl_name result) then lit "listed" else bl_name result in
      let zone := if empty (bl_zone result) then lit "unknown" else bl_zone result in
      let reason := snprintf (IRC_QUIT_REASON_MAX + 1)
        (format "DNSBL %s (%s)" [take IRCD_DNSBL_NAME_MAX name; take SERVER_DNSBL_REASON_ZONE_MAX zone]) in
      let set_by := snprintf (IRCD_OPER_NAME_MAX + 1) (format "DNSBL:%s" [take SERVER_DNSBL_SET_BY_NAME_MAX name]) in
      upd_client c (set_cl_dnsbl_state CLIENT_DNSBL_LISTED) ;;
      if eline_policy_match_server BAN_EXCEPTION_DNSBL (cl_real_ip K) then
        upd_client c (set_cl_dnsbl_state CLIENT_DNSBL_CLEAR) ;;
        snotice_broadcast (N.lor SNOTICE_DNS SNOTICE_BANS) "DNSBL listed %s in %s (%s); exempted by ELINE" [cl_real_ip K; zone; name] ;;
        command_maybe_register c
      else
        when registration_ban_handle
          (ban_db_add_timed BAN_TYPE_ZLINE (cl_real_ip K) reason set_by (zline_default_duration_seconds cfg)) ;;
        snotice_broadcast (N.lor SNOTICE_DNS SNOTICE_BANS)
          "DNSBL listed %s in %s (%s); automatic exact-IP ZLINE created for %u seconds"
          [cl_real_ip K; zone; name; dec (zline_default_duration_seconds cfg)] ;;
        tell c ERR_YOUREBANNEDCREEP [server_name cfg; or_star (cl_nick K); admin_email cfg] ;;
        upd_client c (λ K, set_cl_fd_shutdown true (set_cl_quit_reason reason K))
  end.

(** At most 64 results, and the fourth listing ends the round. *)
Fixpoint drain_dnsbl (handled listed : nat) (results : list DnsblResult) : M unit :=
  match results with
  | [] => mret tt
  | result :: rest =>
      if SERVER_DNSBL_RESULT_BUDGET <=? handled then mret tt else
      handle_dnsbl_result result ;;
      let listed := if bl_listed result then listed + 1 else listed in
      if bl_listed result && (SERVER_DNSBL_LISTED_BUDGET <=? listed) then mret tt
      else drain_dnsbl (handled + 1) listed rest
  end.
Definition drain_dnsbl_results (results : list DnsblResult) : M unit := drain_dnsbl 0 0 results.

(** ** Deadlines ([expire_connection_lookups], [maintain_client_liveness]) *)

Definition registration_overdue (cfg : ServerConfig) (t : Z) (K : Client) : bool :=
  negb (cl_registered K) && (registration_timeout_seconds cfg <=? t - cl_signon_time K)%Z.
Definition nospoof_overdue (cfg : ServerConfig) (t : Z) (K : Client) : bool :=
  nospoof_enabled cfg && cl_nospoof_started K && negb (cl_nospoof_verified K) && (cl_nospoof_deadline K <=? t)%Z.
Definition dns_overdue (t : Z) (K : Client) : bool :=
  bool_decide (cl_dns_state K = CLIENT_DNS_PENDING) && (cl_dns_deadline K <=? t)%Z.
Definition dnsbl_overdue (t : Z) (K : Client) : bool :=
  bool_decide (cl_dnsbl_state K = CLIENT_DNSBL_PENDING) && (cl_dnsbl_deadline K <=? t)%Z.
Definition ping_overdue (t : Z) (K : Client) : bool := cl_ping_pending K && (cl_ping_deadline K <=? t)%Z.

Definition sasl_state_number (s : ClientSaslState) : Z :=
  match s with
  | CLIENT_SASL_NONE => 0 | CLIENT_SASL_PLAIN_WAIT_DATA => 1 | CLIENT_SASL_COMPLETE => 2 | CLIENT_SASL_FAILED => 3
  end.

(** What is done about a client that is not disconnected. *)
Definition expire_lookups (c : ptr) (t : Z) : M unit :=
  cfg ← config;
  K ← client c;
  when (dns_overdue t K)
    (upd_client c (λ K, set_cl_real_host [] (set_cl_dns_state CLIENT_DNS_TIMEOUT K)) ;;
     snotice_broadcast SNOTICE_DNS "FCrDNS timeout for %s" [cl_real_ip K] ;;
     handshake ← in_handshake c;
     when (negb handshake) (tell c NOTICE_FAILDNS [server_name cfg]) ;;
     command_maybe_register c) ;;
  K ← client c;
  when (dnsbl_overdue t K)
    (upd_client c (set_cl_dnsbl_state CLIENT_DNSBL_TIMEOUT) ;;
     snotice_broadcast SNOTICE_DNS "DNSBL lookup timeout for %s" [cl_real_ip K] ;;
     command_maybe_register c).

(** [rounds] rounds of the loop at most; every round passes or removes a client. *)
Fixpoint expire_from (rounds index : nat) (t : Z) : M unit :=
  match rounds with
  | 0 => mret tt
  | Datatypes.S rounds =>
      n ← client_count;
      if n <=? index then mret tt else
      c ← client_at index;
      cfg ← config;
      K ← client c;
      if registration_overdue cfg t K then
        snotice_broadcast SNOTICE_FLOOD "Registration timeout for %s (nick=%s cap=%s sasl_state=%d)"
          [cl_real_ip K; or_star (cl_nick K); if cl_cap_negotiating K then lit "yes" else lit "no"; dec (sasl_state_number (cl_sasl_state K))] ;;
        tell c ":%s ERROR :Registration timeout" [server_name cfg] ;;
        server_disconnect c (Some (lit "Registration timeout")) ;;
        expire_from rounds index t
      else if nospoof_overdue cfg t K then
        snotice_broadcast SNOTICE_SECURITY "No-spoof PING timeout for %s (nick=%s)" [cl_real_ip K; or_star (cl_nick K)] ;;
        tell c ":%s ERROR :No-spoof PING timeout" [server_name cfg] ;;
        server_disconnect c (Some (lit "No-spoof PING timeout")) ;;
        expire_from rounds index t
      else expire_lookups c t ;; expire_from rounds (index + 1) t
  end.

Definition expire_connection_lookups : M unit :=
  t ← now;
  n ← client_count;
  expire_from n 0 t.

(** What is done about a registered client without a PING under way. *)
Definition check_liveness (c : ptr) (t : Z) : M unit :=
  cfg ← config;
  upd_client c (λ K, if (t <? cl_last_liveness_activity K)%Z then set_cl_last_liveness_activity t K else K) ;;
  K ← client c;
  if (ping_interval_seconds cfg <=? t - cl_last_liveness_activity K)%Z then
    let deadline := (t + ping_timeout_seconds cfg)%Z in
    let token := snprintf (IRCD_PING_TOKEN_MAX + 1) (dec deadline) in
    upd_client c (λ K, set_cl_ping_token token (set_cl_ping_deadline deadline K)) ;;
    sent ← sendf c "PING :%s" [token];
    when (0 <=? sent)%Z (upd_client c (set_cl_ping_pending true))
  else mret tt.

Fixpoint maintain_from (rounds index : nat) (t : Z) : M unit :=
  match rounds with
  | 0 => mret tt
  | Datatypes.S rounds =>
      n ← client_count;
      if n <=? index then mret tt else
      c ← client_at index;
      cfg ← config;
      K ← client c;
      if negb (cl_registered K) then maintain_from rounds (index + 1) t else
      if ping_overdue t K then
        let reason := snprintf 64 (format "Ping Timeout: %u seconds" [dec (ping_timeout_seconds cfg)]) in
        snotice_broadcast SNOTICE_CONNECTIONS "PING timeout for %s (nick=%s)" [cl_real_ip K; or_star (cl_nick K)] ;;
        tell c ":%s ERROR :%s" [server_name cfg; reason] ;;
        server_disconnect c (Some reason) ;;
        maintain_from rounds index t
      else
        when (negb (cl_ping_pending K)) (check_liveness c t) ;;
        maintain_from rounds (index + 1) t
  end.

Definition maintain_client_liveness : M unit :=
  t ← now;
  n ← client_count;
  maintain_from n 0 t.

(** ** One turn ([advance_tls_handshake], [server_run]) *)

Inductive HandshakeResult := HANDSHAKE_DONE | HANDSHAKE_WANT_READ | HANDSHAKE_WANT_WRITE | HANDSHAKE_FAILED.

Definition advance_tls_handshake (c : ptr) (accepted : HandshakeResult) : M bool :=
  handshake ← in_handshake c;
  tls ← gets (λ w, ssl (the_conn w c));
  if negb handshake || negb tls then mret false else
  cfg ← config;
  match accepted with
  | HANDSHAKE_DONE =>
      on_conn c (set_tls_state CLIENT_TLS_ESTABLISHED) ;;
      upd_client c (λ K, set_cl_modes (client_mode_add (cl_modes K) CLIENT_MODE_SECURE) (set_cl_tls_want_write false K)) ;;
      K ← client c;
      tell c (match cl_dns_state K with
              | CLIENT_DNS_PENDING => NOTICE_STARTDNS
              | CLIENT_DNS_VERIFIED => NOTICE_GOTDNS
              | _ => NOTICE_FAILDNS
              end) [server_name cfg] ;;
      mret false
  | HANDSHAKE_WANT_READ => upd_client c (set_cl_tls_want_write false) ;; mret false
  | HANDSHAKE_WANT_WRITE => upd_client c (set_cl_tls_want_write true) ;; mret false
  | HANDSHAKE_FAILED =>
      K ← client c;
      snotice_broadcast SNOTICE_SECURITY "TLS handshake failed from %s" [cl_real_ip K] ;; mret true
  end.

(** [client_flush_output(client) < 0]. *)
Definition flush_fails (c : ptr) : M bool := λ w,
  match client_flush_output (the_conn w c) with
  | Some (rc, conn) => ((rc <? 0)%Z, put_conn c conn (io_serial (w_io w)) w)
  | None => (false, w)
  end.

(** What poll reports about a client, and what serving it will meet. *)
Record ClientEvent := MkEvent {
  ev_in : bool; ev_out : bool; ev_error : bool; ev_accept : HandshakeResult; ev_read : ReadResult }.

(** The chain of cases for a client with events: whether to disconnect. *)
Definition serve_events (c : ptr) (ev : ClientEvent) (may_handshake : bool) : M bool :=
  conn ← gets (λ w, the_conn w c);
  K ← client c;
  if ev_error ev then mret true else
  match tls_state conn with
  | CLIENT_TLS_HANDSHAKE =>
      if (ev_in ev || ev_out ev) && may_handshake then advance_tls_handshake c (ev_accept ev) else mret false
  | _ =>
      let established := bool_decide (tls_state conn = CLIENT_TLS_ESTABLISHED) && ssl conn in
      if established && input_retry_pending conn then
        if if cl_input_want_write K then ev_out ev else ev_in ev then read_client c (ev_read ev) else mret false
      else if established && output_retry_pending conn then
        if if output_want_read conn then ev_in ev else ev_out ev then flush_fails c else mret false
      else
        failed ← (if client_output_pending conn && (ev_out ev || output_want_read conn && ev_in ev) then flush_fails c else mret false);
        retry ← gets (λ w, output_retry_pending (the_conn w c));
        if negb failed && negb retry && ev_in ev then read_client c (ev_read ev) else mret failed
  end.

(** A client of the snapshot, if it is still there; the handshakes counted so far. *)
Definition serve_client (c : ptr) (id : N) (ev : ClientEvent) (handshakes : nat) : M nat :=
  found ← server_find_client_by_id id;
  if negb (bool_decide (found = Some c)) then mret handshakes else
  over ← overflowed c;
  if over : bool then
    sendq_notice c ;;
    server_disconnect c (Some (lit "SendQ exceeded")) ;; mret handshakes
  else if negb (ev_in ev || ev_out ev || ev_error ev) then mret handshakes else
  handshake ← in_handshake c;
  let counted := handshake && negb (ev_error ev) && (ev_in ev || ev_out ev) && (handshakes <? SERVER_TLS_HANDSHAKE_BUDGET) in
  disconnect ← serve_events c ev (handshakes <? SERVER_TLS_HANDSHAKE_BUDGET);
  disconnect ← sendq_check c disconnect;
  when disconnect (drop_client c) ;;
  mret (if counted then handshakes + 1 else handshakes).

Fixpoint serve_clients (l : list (ptr * N * ClientEvent)) (handshakes : nat) : M unit :=
  match l with
  | [] => mret tt
  | (c, id, ev) :: rest => h ← serve_client c id ev handshakes; serve_clients rest h
  end.

(** What happens outside during a turn: the clock, and if poll reports anything, the
    connections on the ready listeners, the results in the pipes, and the events of the
    clients in the order of the array. *)
Record TurnInput := MkTurn {
  ti_now : Z;
  ti_later : Z;
  ti_poll_failed : bool;
  ti_ready : bool;
  ti_accepts : list (bool * list AcceptResult);
  ti_dns : list DnsResult;
  ti_dnsbl : list DnsblResult;
  ti_events : list ClientEvent }.

Definition rotate {A} (n : nat) (l : list A) : list A := drop n l ++ take n l.

Definition restarting : M bool := gets w_restart_requested.

Definition maintenance : M unit :=
  t ← now;
  channel_log_rotate_all t ;;
  stop ← restarting;
  when (negb stop) expire_connection_lookups ;;
  stop ← restarting;
  when (negb stop) maintain_client_liveness.

(** The body of the loop: [None] leaves it, [Some s] is the second whose maintenance
    was done last. *)
Definition server_turn (i : TurnInput) (maintenance_second : option Z) : M (option (option Z)) :=
  stop ← restarting;
  if stop : bool then mret None else
  modify (set_w_now (ti_now i)) ;;
  '(buffered_pending, budget) ← drain_buffered_client_input SERVER_INPUT_LINE_BUDGET_GLOBAL;
  stop ← restarting;
  if stop : bool then mret None else
  snapshot ← gets (λ w, map (λ c, (c, cl_id (the_client w c))) (w_client_array w));
  cursor ← gets w_tls_handshake_cursor;
  let n := length snapshot in
  let start := if 0 <? n then cursor mod n else 0 in
  if ti_poll_failed i then mret None else
  modify (set_w_now (ti_later i)) ;;
  when (ti_ready i)
    (for_each (ti_accepts i) (λ l, accept_clients l.1 0 l.2) ;;
     drain_dns_results (ti_dns i) ;;
     drain_dnsbl_results (ti_dnsbl i) ;;
     serve_clients (rotate start (zip snapshot (ti_events i))) 0) ;;
  modify (set_w_tls_handshake_cursor (if 0 <? n then (start + SERVER_TLS_HANDSHAKE_BUDGET) mod n else 0)) ;;
  stop ← restarting;
  when (negb stop && (0 <? budget)) (_ ← drain_buffered_client_input budget; mret tt) ;;
  t ← now;
  if bool_decide (maintenance_second = Some t) then mret (Some maintenance_second) else
  maintenance ;; mret (Some (Some t)).

(** The loop as far as the inputs reach. *)
Fixpoint server_run (inputs : list TurnInput) (maintenance_second : option Z) : M unit :=
  match inputs with
  | [] => mret tt
  | i :: rest =>
      next ← server_turn i maintenance_second;
      match next with
      | None => mret tt
      | Some second => server_run rest second
      end
  end.
End Loop.
