(* ===== verification/SaProps.v ===== *)
(** * Operator commands and authority

    Without the permission an operator command does nothing; with it, the state stays
    consistent.  SAMODE needs a detour: for the duration of the mode change the
    caller's record on the channel says more than its granted privileges. *)

From S2P Require Import Prelude CString Modes HashTable MaskMatch Output World Channel Invariant Policy Tags Numerics Ircv3 Presence Env Cloak Register Connection Services Registry RegistryProps JoinPart Query Oper OperProps ChanCmds Mode ModeProps SaCmds.

(** ** Commands that only answer *)

(** Nothing happened but lines sent to [c]. *)
Definition answers (c : ptr) (w w' : World) : Prop :=
  quiet w w' ∧ (∀ x, x ≠ c → io_conns (w_io w') !! x = io_conns (w_io w) !! x) ∧
  ∃ l, io_log (w_io w') = io_log (w_io w) ++ l ∧ Forall (λ e, e.1 = c) l.

#[export] Instance answers_preorder c : PreOrder (answers c).
Proof.
  split.
  - intros w. split_and!; [reflexivity | done | exists []; by rewrite app_nil_r].
  - intros w1 w2 w3 (A1 & A2 & l1 & A3 & A4) (B1 & B2 & l2 & B3 & B4). split_and!.
    + by etrans.
    + intros x Hx. by rewrite B2, A2.
    + exists (l1 ++ l2). rewrite B3, A3, app_assoc. by rewrite Forall_app.
Qed.

Lemma tell_answers c fmt args : does (answers c) (tell c fmt args).
Proof.
  intros w. unfold tell, sendf. rewrite run_bind. destruct (fits _ _) as [line|]; cbn [snd]; [|reflexivity].
  pose proof (send_line_quiet c line w) as Hq. unfold send_line in *.
  destruct (client_send_line _ _ _ _ _) as [[rc serial] conn]. cbn [fst snd] in *. split_and!; [exact Hq| |].
  - intros x Hx. simpl. by rewrite lookup_insert_ne.
  - exists [(c, line)]. by repeat constructor.
Qed.
Lemma reply_answers c fmt args : does (answers c) (reply c fmt args).
Proof. unfold reply. apply does_bind; [apply _ | apply tell_answers | intros; apply does_ret, _]. Qed.

Section Guarded.
Context `{E : Env} `{S : Services} (c : ptr).

(** A command that ends in "permission denied" (or "register first") in [w]. *)
Definition refused (w : World) (m : M CommandResult) : Prop :=
  (m w).1 = COMMAND_KEEP_CLIENT ∧ answers c w (m w).2.

Lemma reply_refused w fmt args : refused w (reply c fmt args).
Proof. split; [unfold reply; rewrite run_bind; by destruct (tell _ _ _ _) | apply reply_answers]. Qed.

Lemma require_registered_answers : does (answers c) (command_require_registered c).
Proof.
  unfold command_require_registered. apply does_gets_bind. intros w. case_if; [reflexivity|].
  unfold config. rewrite run_gets.
  refine (does_bind _ _ _ (tell_answers _ _ _) _ _). intros. apply does_ret, _.
Qed.

Lemma guard_refused w (k : bool → M CommandResult) :
  k true = keep → refused w (k false) → refused w (command_require_registered c ≫= k).
Proof.
  intros Hk Hf. unfold refused. rewrite run_bind. unfold command_require_registered, client. rewrite run_gets.
  destruct (cl_registered _); [exact Hf|]. unfold config. rewrite run_gets, run_bind.
  match goal with |- context [tell c ?f ?a w] => pose proof (tell_answers c f a w) as H; destruct (tell c f a w) as [[] w'] end.
  simpl. rewrite Hk. by split.
Qed.

Lemma without_refused w permission k :
  oper_permission_has (cl_oper_permissions (the_client w c)) permission = false → refused w (without_permission c permission k).
Proof.
  intros H. apply guard_refused; [done|]. unfold refused, client, config. rewrite !run_gets, H. cbn [negb]. rewrite !run_gets.
  apply reply_refused.
Qed.

Lemma mode_refused w (p : Client → bool) (k : ServerConfig → Client → M CommandResult) :
  p (the_client w c) = false →
  refused w (u ← command_require_registered c;
    if u : bool then keep else
    cfg ← config;
    K ← client c;
    if negb (p K) then reply c ERR_NOPRIVILEGES [server_name cfg; cl_nick K] else k cfg K).
Proof.
  intros H. apply guard_refused; [done|]. unfold refused, client, config. rewrite !run_gets, H. apply reply_refused.
Qed.

(** The operator commands, with what each asks of its caller. *)
Definition operator_commands (params : option cstr) : list ((Client → bool) * M CommandResult) :=
  let permitted p := λ K, oper_permission_has (cl_oper_permissions K) p in
  [(permitted OPER_PERMISSION_KILL, command_kill c params);
   (permitted OPER_PERMISSION_WALLOPS, command_wallops c params);
   (permitted OPER_PERMISSION_OVERRIDE, command_sethost c params);
   (permitted OPER_PERMISSION_OVERRIDE, command_setident c params);
   (permitted OPER_PERMISSION_OVERRIDE, command_setname c params);
   (permitted OPER_PERMISSION_OVERRIDE, command_sajoin c params);
   (permitted OPER_PERMISSION_OVERRIDE, command_sapart c params);
   (permitted OPER_PERMISSION_OVERRIDE, command_samode c params);
   (permitted OPER_PERMISSION_DIE, command_die c params);
   (permitted OPER_PERMISSION_RESTART, command_restart c params);
   (λ K, is_oper_client K && client_mode_has (cl_modes K) CLIENT_MODE_GLOBALS, command_globops c params);
   (λ K, is_oper_client K && client_mode_has (cl_modes K) CLIENT_MODE_GLOBALS, command_locops c params);
   (is_oper_client, command_snotice c params);
   (is_oper_client, command_userip c params)].

Lemma globops_refused w params command :
  is_oper_client (the_client w c) && client_mode_has (cl_modes (the_client w c)) CLIENT_MODE_GLOBALS = false →
  refused w (send_oper_message c params command).
Proof.
  intros H. unfold send_oper_message. apply guard_refused; [done|]. unfold refused, client, config. rewrite !run_gets.
  rewrite <-negb_andb, H. apply reply_refused.
Qed.

(** C19: operator commands are closed to everybody else.  If the caller lacks what a
    command asks for (a permission granted by OPER, or operator mode), KILL, WALLOPS,
    SETHOST, SETIDENT, SETNAME, SAJOIN, SAPART, SAMODE, DIE, RESTART, GLOBOPS, LOCOPS,
    SNOTICE and USERIP leave the server exactly as it was, queue nothing for anybody
    but the caller, and keep the connection.  And KILL has its own limit: a service is never
    killed, nor a network administrator by anybody but another one; the answer is
    again all that happens. *)
Theorem operator_commands_guarded w :
  (∀ params may m, (may, m) ∈ operator_commands params → may (the_client w c) = false → refused w m) ∧
  (∀ t reason, let T := the_client w t in
     client_mode_has (cl_modes T) CLIENT_MODE_SERVICE = true ∨
     client_mode_has (cl_modes T) CLIENT_MODE_NETADMIN = true ∧ client_mode_has (cl_modes (the_client w c)) CLIENT_MODE_NETADMIN = false →
     refused w (kill_target c t reason)).
Proof.
  split.
  - intros params may m Hin Hno. unfold operator_commands in Hin. cbv zeta in Hin.
    rewrite !elem_of_cons, elem_of_nil in Hin. destruct_or!; try done; injection Hin as -> ->; cbv beta in Hno.
    all: first [by apply without_refused | by apply globops_refused | by apply (mode_refused w is_oper_client)].
  - intros t reason T Hdeny. unfold kill_target, config, client, refused. rewrite !run_gets. fold T.
    assert (client_mode_has (cl_modes T) CLIENT_MODE_SERVICE || client_mode_has (cl_modes T) CLIENT_MODE_NETADMIN &&
      negb (client_mode_has (cl_modes (the_client w c)) CLIENT_MODE_NETADMIN) = true) as ->; [|apply reply_refused].
    destruct Hdeny as [->|[-> ->]]; [done | by rewrite orb_true_r].
Qed.
End Guarded.
