(* ===== verification/Stability.v ===== *)
(** * Every command leaves the server sound

    The commands of all components are [stable]: whatever a client sends, the state stays
    well formed, the registry of connections keeps describing the live clients, and the
    client itself is still there when its command returns. *)

From S2P Require Import Prelude CString Modes HashTable MaskMatch Output World Channel Invariant Policy Tags Numerics Ircv3 Presence Env Cloak Register Connection Services Registry RegistryProps Sound Flood JoinPart Oper Accounts NickServ ChanDb ChanServ Cap Message MessageProps Query QueryProps OperProps ChanCmds Mode ModeProps SaCmds SaProps.

(** ** Who is connected is not for these commands to change *)

Lemma channel_create_sober name : does sober (channel_create name).
Proof. unfold channel_create. frames. Qed.
#[export] Hint Resolve channel_create_sober : frame.
Lemma get_or_create_sober name : does sober (server_get_or_create_channel name).
Proof. unfold server_get_or_create_channel, channel_free. frames. Qed.
Lemma remove_if_empty_sober ch : does sober (server_remove_channel_if_empty ch).
Proof. unfold server_remove_channel_if_empty, channel_free. frames. Qed.
Lemma add_client_sober ch c : does sober (channel_add_client ch c).
Proof. unfold channel_add_client. frames. Qed.
Lemma remove_client_sober ch c : does sober (channel_remove_client ch c).
Proof.
  unfold channel_remove_client. frames.
Qed.
Lemma with_member_sober ch c f : does sober (with_member ch c f).
Proof. unfold with_member. frames. Qed.
#[export] Hint Resolve get_or_create_sober remove_if_empty_sober add_client_sober remove_client_sober with_member_sober : frame.

Section Sober.
Context `{E : Env} `{S : Services} {R : Recipients}.

Lemma refresh_identity cfg K : same_identity K (cloak_refresh_display_host cfg K).
Proof. unfold cloak_refresh_display_host. by repeat case_match. Qed.
Lemma apply_cloak_identity cfg K : same_identity K (usermode_apply_cloak cfg K).
Proof. apply (refresh_identity cfg (set_cl_modes _ K)). Qed.
Lemma remove_cloak_identity K : same_identity K (usermode_remove_cloak K).
Proof. unfold usermode_remove_cloak. cbv zeta. by case_if. Qed.

Lemma serviced_sober {A} (m : M A) ch : does (serviced ch) m → does sober m.
Proof.
  apply serviced_all. intros w w' (f & i & k & _ & ->). split; [done..|]. unfold plenty. cbn. apply Forall_drop.
Qed.
Lemma restore_channel_sober ch : does sober (chanserv_restore_channel ch).
Proof. eapply serviced_sober, restore_channel_serviced. Qed.
Lemma persist_restore_sober ch : does sober (chanserv_persist_restore ch).
Proof. eapply serviced_sober, persist_restore_serviced. Qed.
Lemma sync_channel_sober ch : does sober (chanserv_sync_channel_privileges ch).
Proof. eapply serviced_sober, sync_channel_serviced. Qed.
#[local] Hint Resolve restore_channel_sober persist_restore_sober sync_channel_sober : frame.
#[local] Hint Extern 3 (does sober (upd_client _ (usermode_apply_cloak _))) => apply sober_upd_client, apply_cloak_identity : frame.
#[local] Hint Extern 3 (does sober (upd_client _ usermode_remove_cloak)) => apply sober_upd_client, remove_cloak_identity : frame.
#[local] Hint Extern 3 (does sober (upd_client _ (if _ then usermode_apply_cloak _ else _))) =>
  apply sober_upd_client; intros ?; case_if; [apply apply_cloak_identity | apply remove_cloak_identity] : frame.
#[local] Hint Extern 3 (does sober (upd_client _ (λ K, cloak_refresh_display_host _ (_ K)))) =>
  apply sober_upd_client; intros ?; match goal with |- same_identity ?K (cloak_refresh_display_host ?cfg ?K') => exact (refresh_identity cfg K') end : frame.

(** *** IRCv3, presence, registration *)

Lemma begin_command_sober c tags : does sober (ircv3_begin_command c tags).
Proof. unfold ircv3_begin_command. frames. Qed.
Lemma labeled_response_end_quiet c : does quiet (labeled_response_end c).
Proof. intros w. reflexivity. Qed.
#[local] Hint Resolve labeled_response_end_quiet : frame.
Lemma end_command_sober c : does sober (ircv3_end_command c).
Proof. unfold ircv3_end_command. frames. Qed.
Lemma watch_online_sober c : does sober (presence_watch_online c).
Proof. unfold presence_watch_online. frames. Qed.
Lemma watch_offline_sober K o : does sober (presence_watch_offline K o).
Proof. unfold presence_watch_offline. frames. Qed.
Lemma whowas_record_sober K o : does sober (presence_whowas_record K o).
Proof. unfold presence_whowas_record. frames. Qed.
#[local] Hint Resolve begin_command_sober end_command_sober watch_online_sober watch_offline_sober whowas_record_sober : frame.

Lemma registration_refuse_sober c r : does sober (registration_refuse c r).
Proof. unfold registration_refuse. frames. Qed.
#[local] Hint Resolve registration_refuse_sober : frame.
Lemma registration_geo_sober c : does sober (registration_geo_banned c).
Proof. unfold registration_geo_banned. frames. Qed.
Lemma registration_error_sober c : does sober (registration_ban_policy_error c).
Proof. unfold registration_ban_policy_error. frames. Qed.
#[local] Hint Resolve registration_error_sober registration_geo_sober : frame.
Lemma registration_banned_sober c : does sober (registration_banned c).
Proof. unfold registration_banned, registration_lookup, registration_reject. frames. Qed.
Lemma registration_dnsbl_sober c : does sober (registration_dnsbl c).
Proof. unfold registration_dnsbl. frames. Qed.
Lemma nospoof_start_sober c : does sober (nospoof_start c).
Proof. unfold nospoof_start. frames. Qed.
Lemma request_version_sober c : does sober (request_version c).
Proof. unfold request_version. frames. Qed.
Lemma request_website_sober c : does sober (nospoof_request_website c).
Proof. unfold nospoof_request_website. frames. Qed.
#[local] Hint Resolve registration_banned_sober registration_dnsbl_sober nospoof_start_sober request_version_sober request_website_sober : frame.
Lemma send_welcome_sober c : does sober (send_welcome c).
Proof. unfold send_welcome. frames. Qed.
#[local] Hint Resolve send_welcome_sober : frame.
Lemma maybe_register_sober c : does sober (command_maybe_register c).
Proof. unfold command_maybe_register. frames. Qed.
#[local] Hint Resolve maybe_register_sober : frame.
Lemma nospoof_pong_sober c p : does sober (nospoof_handle_pong c p).
Proof. unfold nospoof_handle_pong. frames. Qed.
Lemma nospoof_notice_sober c p : does sober (nospoof_handle_notice c p).
Proof. unfold nospoof_handle_notice. frames. Qed.
#[local] Hint Resolve nospoof_pong_sober nospoof_notice_sober : frame.

(** *** Connection commands *)

Lemma pmstats_release_sober : does sober pmstats_release.
Proof. unfold pmstats_release. frames. Qed.
#[local] Hint Resolve pmstats_release_sober : frame.
Lemma command_pmstats_sober c p : does sober (command_pmstats c p).
Proof. unfold command_pmstats, server_pmstats_set_enabled. frames. Qed.
Lemma change_nick_sober c n : does sober (change_nick c n).
Proof. unfold change_nick. frames. Qed.
#[local] Hint Resolve change_nick_sober : frame.
Lemma command_nick_sober c p : does sober (command_nick c p).
Proof. unfold command_nick, take_nick, broadcast_nick_change, server_pmstats_nick_change, pmstats_feed. frames. Qed.
Lemma command_user_sober c p : does sober (command_user c p).
Proof. unfold command_user. frames. Qed.
Lemma command_pass_sober c p : does sober (command_pass c p).
Proof. unfold command_pass. frames. Qed.
Lemma command_pong_sober c p : does sober (command_pong c p).
Proof. unfold command_pong. frames. Qed.
Lemma command_quit_sober c p : does sober (command_quit c p).
Proof. unfold command_quit. frames. Qed.
Lemma command_away_sober c p : does sober (command_away c p).
Proof. unfold command_away. frames. Qed.

(** *** Flood control, messages *)

Lemma general_flood_sober c cmd cost : does sober (general_flood_allow c cmd cost).
Proof. unfold general_flood_allow. frames. Qed.
Lemma expensive_sober c cmd cost : does sober (command_expensive_allow c cmd cost).
Proof. unfold command_expensive_allow. frames. Qed.
#[local] Hint Resolve general_flood_sober expensive_sober : frame.
Lemma privmsg_channel_sober c t x : does sober (privmsg_channel c t x).
Proof. unfold privmsg_channel, touch. frames. Qed.
Lemma privmsg_user_sober c t x : does sober (privmsg_user c t x).
Proof. unfold privmsg_user, touch. frames. Qed.
Lemma command_notice_sober c p : does sober (command_notice c p).
Proof. unfold command_notice, command_notice_core, notice_channel, notice_user. frames. Qed.
Lemma command_tagmsg_sober c p : does sober (command_tagmsg c p).
Proof. unfold command_tagmsg, tagmsg_channel, tagmsg_user. frames. Qed.

(** *** Channels *)

Lemma join_privileges_sober ch c b sp : does sober (join_privileges ch c b sp).
Proof. unfold join_privileges, channel_add_privileges, channel_set_service_privileges. frames. Qed.
#[local] Hint Resolve join_privileges_sober : frame.
Lemma join_admit_sober ch c i sp : does sober (join_admit ch c i sp).
Proof. unfold join_admit, join_announce, channel_invite_consume. frames. Qed.
Lemma join_channel_sober c n : does sober (join_channel c n).
Proof. unfold join_channel. frames. Qed.
Lemma join_restore_sober c ch b : does sober (join_restore c ch b).
Proof. unfold join_restore. frames. Qed.
#[local] Hint Resolve join_admit_sober join_channel_sober join_restore_sober : frame.
Lemma join_step_sober c n k r : (∀ f x, r = Some f → does sober (f x)) → does sober (join_step c n k r).
Proof. intros Hr. unfold join_step. frames; by apply Hr. Qed.
Lemma join_one_sober left c n k : does sober (join_one left c n k).
Proof.
  revert n k. induction left as [|left IH]; intros n k; cbn [join_one]; apply join_step_sober; intros f x [= <-]; apply IH.
Qed.
#[local] Hint Resolve join_one_sober : frame.
Lemma command_join_sober c p : does sober (command_join c p).
Proof. unfold command_join. frames. Qed.
Lemma command_part_sober c p : does sober (command_part c p).
Proof. unfold command_part. frames. Qed.
#[local] Hint Resolve send_query_numeric_quiet : frame.
Lemma command_kick_sober c p : does sober (command_kick c p).
Proof. unfold command_kick, kick_member, send_kick_query_error. frames. Qed.
Lemma command_topic_sober c p : does sober (command_topic c p).
Proof. unfold command_topic, set_topic. frames. Qed.
Lemma command_invite_sober c p : does sober (command_invite c p).
Proof. unfold command_invite, channel_invite_add. frames. Qed.
(** *** MODE, DEAF and MUTE *)

#[local] Hint Resolve secureops_quiet check_mlock_quiet validate_quiet : frame.
Lemma mode_privilege_sober c ch letter bit r : does sober (mode_privilege c ch letter bit r).
Proof. unfold mode_privilege, channel_add_privileges, channel_remove_manual_privileges. frames. Qed.
Lemma mode_text_sober c ch letter set n r : does sober (mode_text c ch letter set n r).
Proof. unfold mode_text. frames. Qed.
Lemma mode_limit_sober c ch r : does sober (mode_limit c ch r).
Proof. unfold mode_limit. frames. Qed.
Lemma mode_throttle_sober c ch r : does sober (mode_throttle c ch r).
Proof. unfold mode_throttle. frames. Qed.
Lemma mode_mask_sober c ch letter param r : does sober (mode_mask c ch letter param r).
Proof. unfold mode_mask. frames. Qed.
#[local] Hint Resolve mode_privilege_sober mode_text_sober mode_limit_sober mode_throttle_sober mode_mask_sober : frame.
Lemma mode_letter_sober c ch letter r : does sober (mode_letter c ch letter r).
Proof. unfold mode_letter. frames. Qed.
#[local] Hint Resolve mode_letter_sober : frame.
Lemma mode_letters_sober c ch b letters r : does sober (mode_letters c ch b letters r).
Proof. revert r. induction letters; intros r; cbn [mode_letters]; frames. Qed.
Lemma user_letters_sober c s letters : does sober (user_letters c s letters).
Proof. revert s. induction letters; intros s; cbn [user_letters]; frames. Qed.
#[local] Hint Resolve mode_letters_sober user_letters_sober : frame.
Lemma command_mode_core_sober c p : does sober (command_mode_core c p).
Proof. unfold command_mode_core, mode_channel, mode_user. frames. Qed.
#[local] Hint Resolve command_mode_core_sober : frame.
Lemma special_letters_sober c b s acc d letters : does sober (special_letters c b s acc d letters).
Proof. revert s acc d. induction letters; intros s acc d; cbn [special_letters]; frames. Qed.
#[local] Hint Resolve special_letters_sober : frame.
Lemma command_mode_policy_sober c p : does sober (command_mode_policy_core c p).
Proof. unfold command_mode_policy_core, handle_special_user_modes. frames. Qed.
#[local] Hint Resolve command_mode_policy_sober : frame.
Lemma control_letters_sober c s acc d letters : does sober (control_letters c s acc d letters).
Proof. revert s acc d. induction letters; intros s acc d; cbn [control_letters]; frames. Qed.
#[local] Hint Resolve control_letters_sober : frame.
Lemma command_mode_sober c p : does sober (command_mode c p).
Proof. unfold command_mode. frames. Qed.
Lemma command_deaf_sober c p : does sober (command_deaf c p).
Proof. unfold command_deaf, set_control_mode. frames. Qed.
Lemma command_mute_sober c p : does sober (command_mute c p).
Proof. unfold command_mute, set_control_mode. frames. Qed.

(** *** Queries *)

Lemma online_nicks_quiet c payload : does quiet (send_ison_payload c payload).
Proof. unfold send_ison_payload. frames. Qed.
#[local] Hint Resolve online_nicks_quiet : frame.
Lemma command_ison_quiet c p : does quiet (command_ison c p).
Proof. unfold command_ison. frames. Qed.
Lemma command_userhost_quiet c p : does quiet (command_userhost c p).
Proof. unfold command_userhost. frames. Qed.
Lemma command_userip_quiet c p : does quiet (command_userip c p).
Proof. unfold command_userip. frames. Qed.
Lemma list_chain_quiet c l : does quiet (list_chain c l).
Proof. induction l; cbn [list_chain]; frames. Qed.
#[local] Hint Resolve list_chain_quiet : frame.
Lemma list_buckets_quiet c l : does quiet (list_buckets c l).
Proof. induction l; cbn [list_buckets]; frames. Qed.
#[local] Hint Resolve list_buckets_quiet : frame.
Lemma command_list_quiet c p : does quiet (command_list c p).
Proof. unfold command_list. frames. Qed.
Lemma who_reply_quiet c x ch : does quiet (send_who_reply c x ch).
Proof. unfold send_who_reply. frames. Qed.
Lemma end_of_who_quiet c q : does quiet (end_of_who c q).
Proof. unfold end_of_who, send_end_of_who_query. frames. Qed.
#[local] Hint Resolve who_reply_quiet end_of_who_quiet : frame.
Lemma who_loop_quiet c ch l : does quiet (who_loop c ch l).
Proof. induction l; cbn [who_loop]; frames. Qed.
#[local] Hint Resolve who_loop_quiet : frame.
Lemma command_who_quiet c p : does quiet (command_who c p).
Proof. unfold command_who. frames. Qed.
Lemma whois_flags_quiet c T : does quiet (whois_flags c T).
Proof. unfold whois_flags. frames. Qed.
Lemma whois_private_quiet c T : does quiet (whois_private c T).
Proof. unfold whois_private, send_whois_geoip. frames. Qed.
Lemma whois_channels_quiet c t : does quiet (send_whois_channels c t).
Proof. unfold send_whois_channels. frames. Qed.
#[local] Hint Resolve whois_flags_quiet whois_private_quiet whois_channels_quiet : frame.
Lemma command_whois_quiet c p : does quiet (command_whois c p).
Proof. unfold command_whois, send_whois_user, send_missing_whois. frames. Qed.
Lemma command_whowas_quiet c p : does quiet (command_whowas c p).
Proof. unfold command_whowas, send_whowas_user. frames. Qed.

Lemma list_masks_quiet c : does quiet (list_masks c).
Proof. unfold list_masks. frames. Qed.
Lemma tell_now_on_quiet c K : does quiet (tell_now_on c K).
Proof. unfold tell_now_on. frames. Qed.
Lemma end_of_watch_quiet c l : does quiet (end_of_watch c l).
Proof. unfold end_of_watch. frames. Qed.
Lemma watch_payload_quiet c p : does quiet (send_watch_list_payload c p).
Proof. unfold send_watch_list_payload. frames. Qed.
#[local] Hint Resolve list_masks_quiet tell_now_on_quiet end_of_watch_quiet watch_payload_quiet : frame.
Lemma list_watch_quiet c : does quiet (list_watch c).
Proof. unfold list_watch. frames. Qed.
#[local] Hint Resolve list_watch_quiet : frame.
Lemma report_current_quiet c n : does quiet (report_current c n).
Proof. unfold report_current. frames. Qed.
#[local] Hint Resolve report_current_quiet : frame.

(** Steps that leave the registry alone and the state well formed. *)
Definition tame (w w' : World) : Prop := sober w w' ∧ (wf w → wf w').

#[export] Instance tame_silent : Silent tame.
Proof.
  split; [split|].
  - by intros w.
  - intros w1 w2 w3 [A1 A2] [B1 B2]. split; [by etrans | auto].
  - intros w w' H. split; [by apply silent_quiet|]. intros Hw. by apply (silent_quiet (R := keeps) w w' H).
Qed.
Lemma does_tame {A} (m : M A) : does sober m → does keeps m → does tame m.
Proof. intros Hs Hk w. split; [done|]. intros Hw. by apply (Hk w). Qed.
Lemma tame_stable {A} c (m : M A) : does tame m → does (stable c) m.
Proof. intros H. apply sober_stable; intros w; [apply (H w) | intros Hw _; by apply (H w)]. Qed.
Lemma tame_modify g :
  (∀ w, calm w (g w) ∧ roster (g w) = roster w ∧ w_alloc (g w) = w_alloc w) → does tame (modify g).
Proof.
  intros H. apply does_tame; [|apply calm_keeps; intros w; apply H].
  apply sober_modify. intros w. destruct (H w) as (Hc & Hr & Ha). split_and!; [done| |done]. by injection Hc.
Qed.
#[local] Hint Extern 4 (does tame (modify _)) => apply tame_modify; intros ?; by split_and! : frame.
#[local] Hint Extern 5 (does tame _) => apply (does_quiet _); solve [eauto with frame] : frame.
#[local] Hint Extern 6 (does tame _) => apply does_tame; solve [eauto with frame] : frame.

Lemma raise_high_water_tame n : does tame (modify (raise_high_water n)).
Proof. apply tame_modify. intros w. unfold raise_high_water. case_match. by split_and!. Qed.
#[local] Hint Resolve raise_high_water_tame : frame.
Lemma command_lusers_tame c p : does tame (command_lusers c p).
Proof. unfold command_lusers. frames. Qed.

(** The SILENCE and WATCH lists of a client. *)
Lemma put_back_tame c K' w :
  same_identity (the_client w c) K' → same_client_shape (the_client w c) K' → tame w (put_client c (λ _, K') w).
Proof.
  intros Hi Hs. assert (∀ K, w_clients w !! c = Some K → the_client w c = K) as E1 by (intros K HK; unfold the_client; by rewrite HK).
  split; [split; [done| |done] |].
  - apply put_client_holders. intros K HK. by rewrite <-(E1 K HK).
  - apply put_client_wf. intros K HK. by rewrite <-(E1 K HK).
Qed.
Lemma on_presence_tame c f :
  (∀ ok K, same_identity K (f ok K).2) → (∀ ok K, same_client_shape K (f ok K).2) → does tame (on_presence c f).
Proof.
  intros Hi Hs w. unfold on_presence, client. rewrite run_gets.
  rewrite run_bind. set (m := if (_ =? 1)%Z then _ else _).
  assert (Ha : does tame m) by (unfold m; frames).
  assert (Hc : the_client (m w).2 c = the_client w c) by (unfold m; by case_if).
  specialize (Ha w). destruct (m w) as [ok w1]. cbn [snd] in *. specialize (Hs ok (the_client w c)). specialize (Hi ok (the_client w c)).
  destruct (f ok (the_client w c)) as [rc K']. rewrite run_upd_client. etrans; [exact Ha|].
  apply put_back_tame; by rewrite Hc.
Qed.
Lemma silence_add_shape m ok K : same_identity K (presence_silence_add ok K m).2 ∧ same_client_shape K (presence_silence_add ok K m).2.
Proof. unfold presence_silence_add. by repeat case_match. Qed.
Lemma silence_remove_shape m K : same_identity K (presence_silence_remove K m).2 ∧ same_client_shape K (presence_silence_remove K m).2.
Proof. unfold presence_silence_remove. by repeat case_match. Qed.
Lemma watch_add_shape m ok K : same_identity K (presence_watch_add ok K m).2 ∧ same_client_shape K (presence_watch_add ok K m).2.
Proof. unfold presence_watch_add. by repeat case_match. Qed.
Lemma watch_remove_shape m K : same_identity K (presence_watch_remove K m).2 ∧ same_client_shape K (presence_watch_remove K m).2.
Proof. unfold presence_watch_remove. by repeat case_match. Qed.
Lemma add_mask_tame c m : does tame (on_presence c (λ ok K, presence_silence_add ok K m)).
Proof. apply on_presence_tame; intros; apply silence_add_shape. Qed.
Lemma add_watch_tame c n : does tame (on_presence c (λ ok K, presence_watch_add ok K n)).
Proof. apply on_presence_tame; intros; apply watch_add_shape. Qed.
Lemma upd_client_tame c f : (∀ K, same_identity K (f K) ∧ same_client_shape K (f K)) → does tame (upd_client c f).
Proof. intros H. apply does_tame; [apply sober_upd_client | apply upd_client_keeps]; apply H. Qed.
Lemma remove_mask_tame c m : does tame (upd_client c (λ K, (presence_silence_remove K m).2)).
Proof. apply upd_client_tame. intros K. apply silence_remove_shape. Qed.
#[local] Hint Resolve add_mask_tame add_watch_tame remove_mask_tame : frame.
#[local] Hint Extern 4 (does tame (upd_client _ _)) => apply upd_client_tame; by split : frame.

Lemma silence_tokens_tame c l : does tame (silence_tokens c l).
Proof. induction l as [|[|sign mask] l IH]; cbn [silence_tokens]; frames. Qed.
#[local] Hint Resolve silence_tokens_tame : frame.
Lemma command_silence_tame c p : does tame (command_silence c p).
Proof. unfold command_silence. frames. Qed.

Lemma watch_letter_tame c l : does tame (watch_letter c l).
Proof. unfold watch_letter, status_watch, list_online_watch. frames. Qed.
Lemma watch_off_tame c n : does tame (watch_off c n).
Proof.
  intros w. unfold watch_off, client. rewrite run_gets. pose proof (watch_remove_shape n (the_client w c)) as [Hi Hs].
  destruct (presence_watch_remove (the_client w c) n) as [rc K']. rewrite run_upd_client.
  cbn [snd] in *. etrans; [by apply put_back_tame|]. generalize (put_client c (λ _, K') w). clear Hi Hs.
  intros w1. case_if; [reflexivity|]. match goal with |- tame _ (?m _).2 => assert (does tame m) as H by frames; exact (H w1) end.
Qed.
#[local] Hint Resolve watch_letter_tame watch_off_tame : frame.
Lemma watch_tokens_tame c l : does tame (watch_tokens c l).
Proof. induction l as [|[|sign [|n nick]] l IH]; cbn [watch_tokens]; frames. Qed.
#[local] Hint Resolve watch_tokens_tame : frame.
Lemma command_watch_tame c p : does tame (command_watch c p).
Proof. unfold command_watch. frames. Qed.

(** *** PART and KICK *)

Lemma remove_client_tame ch c : does tame (channel_remove_client ch c).
Proof. intros w. split; [apply remove_client_sober | apply remove_client_wf]. Qed.
#[local] Hint Resolve remove_client_tame : frame.
Lemma command_part_tame c p : does tame (command_part c p).
Proof. unfold command_part. frames. Qed.
Lemma command_kick_tame c p : does tame (command_kick c p).
Proof. unfold command_kick, kick_member, send_kick_query_error. frames. Qed.

(** *** Operator commands *)

Lemma failed_oper_quiet c n y : does quiet (failed_oper c n y).
Proof. unfold failed_oper. frames. Qed.
#[local] Hint Resolve failed_oper_quiet : frame.
Lemma oper_refused_quiet c n y f : does quiet (oper_refused c n y f).
Proof. unfold oper_refused. frames. Qed.
Lemma auth_limit_tame c o : does tame (auth_limit_consume c o).
Proof. unfold auth_limit_consume, argon2, set_argon2. frames. Qed.
#[local] Hint Resolve oper_refused_quiet auth_limit_tame set_last_opered_quiet : frame.
Lemma grant_oper_same n p v K : same_identity K (grant_oper n p v K) ∧ same_client_shape K (grant_oper n p v K).
Proof. unfold grant_oper. cbv zeta. by repeat case_if. Qed.
Lemma oper_granted_tame c n p v t y : does tame (oper_granted c n p v t y).
Proof.
  unfold oper_granted. apply does_bind; [apply _|apply upd_client_tame, grant_oper_same|]. intros. frames.
Qed.
#[local] Hint Resolve oper_granted_tame : frame.
Lemma command_oper_tame c p : does tame (command_oper c p).
Proof. unfold command_oper, oper_netadmin, oper_account. frames. Qed.

Lemma without_tame c p k : does tame k → does tame (without_permission c p k).
Proof. intros. unfold without_permission. frames. Qed.
#[local] Hint Resolve without_tame : frame.
Lemma command_wallops_quiet c p : does quiet (command_wallops c p).
Proof. unfold command_wallops, without_permission. frames. Qed.
Lemma oper_message_quiet c p x : does quiet (send_oper_message c p x).
Proof. unfold send_oper_message. frames. Qed.
Lemma snotice_letters_tame c p b : does tame (snotice_letters_loop c p b).
Proof. revert b. induction p; intros b; cbn [snotice_letters_loop]; frames. Qed.
#[local] Hint Resolve snotice_letters_tame : frame.
Lemma command_snotice_tame c p : does tame (command_snotice c p).
Proof. unfold command_snotice. frames. Qed.
Lemma set_identity_tame c n a b d f field cut shown :
  (∀ K, same_identity K (f K) ∧ same_client_shape K (f K)) → does tame (set_identity c n a b d f field cut shown).
Proof. intros H. unfold set_identity. pose proof (λ t, upd_client_tame t f H). frames. Qed.
#[local] Hint Extern 4 (does tame (set_identity _ _ _ _ _ _ _ _ _)) => apply set_identity_tame; by split : frame.
Lemma command_sethost_tame c p : does tame (command_sethost c p).
Proof. unfold command_sethost, without_permission. frames. Qed.
Lemma command_setident_tame c p : does tame (command_setident c p).
Proof. unfold command_setident, without_permission. frames. Qed.
Lemma command_setname_tame c p : does tame (command_setname c p).
Proof. unfold command_setname, without_permission. frames. Qed.
Lemma command_die_tame c p : does tame (command_die c p).
Proof. unfold command_die, without_permission. frames. Qed.
Lemma command_restart_tame c p : does tame (command_restart c p).
Proof. unfold command_restart, without_permission. frames. Qed.
Lemma sapart_one_tame c t n : does tame (sapart_one c t n).
Proof. unfold sapart_one. frames. Qed.
#[local] Hint Resolve sapart_one_tame : frame.
Lemma command_sapart_tame c p : does tame (command_sapart c p).
Proof. unfold command_sapart, sa_channels, without_permission. frames. Qed.
End Sober.
