(* ===== verification/Disconnects.v ===== *)
(** * Ending a connection leaves the server sound

    [server_disconnect] keeps the state well formed and the registry exact, takes no
    memory, and leaves every other client as it was; KILL is its first user. *)

From S2P Require Import Prelude CString Modes HashTable MaskMatch Output World Channel Invariant Policy Tags Numerics Ircv3 Presence Env Cloak Register Connection Services Registry RegistryProps Sound Flood JoinPart Oper Accounts NickServ ChanDb ChanServ Cap Message MessageProps Query QueryProps OperProps ChanCmds Mode ModeProps SaCmds SaProps Stability.

Section Disconnects.
Context `{E : Env} `{S : Services} {R : Recipients}.

(** A client the table knows is alive. *)
Lemma named_alive w nick t : wf w → hash_get (w_clients_by_nick w) nick = Some t → alive w t.
Proof. intros Hw H. apply (wf_nicks w Hw) in H as (K & HK & _). by exists K. Qed.

(** Ending one connection takes no memory. *)
Definition plentiful (w w' : World) : Prop := plenty w → plenty w'.
#[local] Instance plentiful_silent : Silent plentiful.
Proof.
  split; [split; unfold plentiful; auto|]. intros w w' H. unfold quiet in H. rewrite H. by unfold plentiful, plenty.
Qed.
Lemma sober_plentiful {A} (m : M A) : does sober m → does plentiful m.
Proof. intros H w. exact (sober_plenty _ _ (H w)). Qed.
Lemma modify_plentiful g : (∀ w, w_alloc (g w) = w_alloc w) → does plentiful (modify g).
Proof. intros H w Hw. unfold plenty, modify. simpl. by rewrite H. Qed.
#[local] Hint Extern 4 (does plentiful (modify _)) => apply modify_plentiful; intros ?; reflexivity : frame.
#[local] Hint Extern 5 (does plentiful _) => apply sober_plentiful; solve [eauto with frame] : frame.
Lemma leave_all_plentiful n c r : does plentiful (leave_all n c r).
Proof. induction n; cbn [leave_all]; frames. Qed.
Lemma count_remove_plentiful ip : does plentiful (connection_count_remove ip).
Proof. unfold connection_count_remove, counts_set. frames. Qed.
Lemma client_free_plentiful c : does plentiful (client_free c).
Proof.
  unfold client_free, presence_on_client_free, pmstats_client_free, server_pmstats_disconnect.
  pose proof pmstats_feed_quiet. pose proof watch_offline_sober. pose proof whowas_record_sober. pose proof pmstats_release_sober. frames.
Qed.
#[local] Hint Resolve leave_all_plentiful count_remove_plentiful client_free_plentiful : frame.
Lemma disconnect_plentiful t r : does plentiful (server_disconnect t r).
Proof. unfold server_disconnect, server_pmstats_disconnect, id_index_remove. pose proof pmstats_feed_quiet. frames. Qed.

(** Nor does accepting connections use memory up. *)
Lemma client_create_plentiful id ip conn : does plentiful (client_create id ip conn).
Proof. unfold client_create. frames. Qed.
Lemma id_index_add_plentiful id c : does plentiful (id_index_add id c).
Proof. unfold id_index_add. frames. Qed.
Lemma count_add_plentiful ip : does plentiful (connection_count_add ip).
Proof. unfold connection_count_add, counts_set. frames. Qed.
Lemma ensure_capacity_plentiful : does plentiful ensure_client_capacity.
Proof. unfold ensure_client_capacity. frames. Qed.
#[local] Hint Resolve client_create_plentiful id_index_add_plentiful count_add_plentiful ensure_capacity_plentiful : frame.
Lemma accept_one_plentiful tls peer nb ssl writes allocs : does plentiful (accept_one tls peer nb ssl writes allocs).
Proof. unfold accept_one, accept_created, start_lookups, id_index_remove, reject. frames. Qed.
#[local] Hint Resolve accept_one_plentiful : frame.
Lemma accept_clients_sound tls n pending w : sound w → sound (accept_clients tls n pending w).2.
Proof.
  intros (Hw & Hr & Hp). destruct (accept_clients_ok tls n pending w Hw Hr) as [H1 H2]. split_and!; [done..|].
  revert Hp. enough (does plentiful (accept_clients tls n pending)) as H by apply (H w). clear.
  revert n. induction pending as [|[| |peer nb ssl writes allocs] pending IH]; intros n; cbn [accept_clients]; frames.
Qed.

Lemma disconnect_sound t r w : sound w → alive w t → sound (server_disconnect t r w).2.
Proof.
  intros (Hw & Hr & Hp) [K HK]. split_and!.
  - by apply (disconnected_clients t r w K).
  - by apply (disconnect_registry t r w K).
  - by apply disconnect_plentiful.
Qed.
Lemma disconnect_other t r w c :
  sound w → alive w t → alive w c → t ≠ c → alive (server_disconnect t r w).2 c ∧ input (server_disconnect t r w).2 c = input w c.
Proof.
  intros (Hw & _) [K HK] Hc Hne. unfold alive, input, the_client.
  destruct (disconnected_clients t r w K Hw HK) as (_ & -> & _). by rewrite lookup_delete_ne.
Qed.

Lemma kill_target_stable c t reason w : alive w t → stable c w (kill_target c t reason w).2.
Proof.
  intros Ht. unfold kill_target, config, client. rewrite !run_gets.
  case_if; [by apply (does_quiet (stable c) _ (reply_quiet _ _ _))|]. cbv zeta.
  apply (quiet_step _ _ _ (λ x, stable c w x.2)); [frames|]. intros _ i.
  apply (quiet_step _ _ _ (λ x, stable c w x.2)); [unfold send_kill_notification; frames|]. intros _ j.
  set (w1 := set_w_io j _). destruct (Nat.eqb_spec t c) as [->|Hne].
  - assert (does (stable c) (upd_client c (set_cl_quit_reason (snprintf (IRC_QUIT_REASON_MAX + 1) (format "Killed (%s (%s))" [cl_nick (the_client w c); reason]))) ;; mret COMMAND_DISCONNECT_CLIENT)) as H.
    { apply tame_stable. apply does_bind; [apply _| |intros; apply does_ret, _]. by apply upd_client_tame. }
    intros Hs Hc. refine (H w1 _ Hc). by apply (silent_quiet (R := stable c) w w1).
  - intros Hs Hc. assert (Hs1 : sound w1) by (by apply (silent_quiet (R := stable c) w w1)).
    rewrite run_bind. pose proof (disconnect_sound t (Some (snprintf (IRC_QUIT_REASON_MAX + 1) (format "Killed (%s (%s))" [cl_nick (the_client w c); reason]))) w1 Hs1 Ht) as H1.
    pose proof (disconnect_other t (Some (snprintf (IRC_QUIT_REASON_MAX + 1) (format "Killed (%s (%s))" [cl_nick (the_client w c); reason]))) w1 c Hs1 Ht Hc Hne) as H2.
    destruct (server_disconnect t _ w1) as [[] w2]. by split.
Qed.

Lemma command_kill_stable c p : does (stable c) (command_kill c p).
Proof.
  intros w. assert (Hq : ∀ m : M CommandResult, does quiet m → stable c w (m w).2) by (intros m Hm; apply (does_quiet _ m Hm)).
  unfold command_kill, without_permission. rewrite run_bind.
  destruct (require_registered_cases c w) as [[_ ->]|(_ & i & ->)]; [|by apply silent_quiet].
  unfold client, config, find_nick. rewrite !run_gets. case_if; [apply Hq; frames|]. rewrite !run_gets.
  destruct p as [p|]; [|apply Hq; frames]. destruct (strtok " " p) as [[nick|] rest]; [|apply Hq; frames]. cbv zeta.
  case_if; [apply Hq; frames|]. rewrite run_gets.
  destruct (hash_get _ nick) as [t|] eqn:Ht; [|apply Hq; unfold send_missing_kill_target; pose proof send_query_numeric_quiet; frames].
  intros Hs. apply kill_target_stable; [|done]. by apply (named_alive w nick); [apply Hs|].
Qed.
End Disconnects.
