(* ===== verification/NickServProps.v ===== *)
(** * What NickServ may do

    Accounts and their tokens change as the statements of the database say; whatever is
    sent to NickServ, the server stays sound and its sender connected. *)

From S2P Require Import Prelude CString Modes HashTable MaskMatch Output World Channel Invariant Policy Tags Numerics Ircv3 Presence Env Cloak Register Connection Services Registry RegistryProps Sound Flood JoinPart Oper Accounts NickServ ChanDb ChanServ Cap Message MessageProps Query QueryProps OperProps ChanCmds Mode ModeProps SaCmds SaProps Stability Disconnects.

Section NickServProps.
Context `{E : Env} `{S : Services} {R : Recipients}.

#[local] Hint Extern 4 (does tame (modify _)) => apply tame_modify; intros ?; by split_and! : frame.
#[local] Hint Extern 5 (does tame _) => apply (does_quiet _); solve [eauto with frame] : frame.
#[local] Hint Extern 6 (does tame _) => apply does_tame; solve [eauto with frame] : frame.

(** ** The database and the limits *)

Lemma update_tame s p f : does tame (update s p f).
Proof. unfold update, rows, set_rows. frames. Qed.
#[local] Hint Resolve update_tame : frame.
Lemma db_get_quiet name : does quiet (nickserv_db_get name).
Proof. unfold nickserv_db_get, rows. frames. Qed.
Lemma db_add_tame a : does tame (nickserv_db_add a).
Proof. unfold nickserv_db_add, rows, set_rows. frames. Qed.
Lemma set_text_tame s f name v n b : does tame (set_text s f name v n b).
Proof. unfold set_text. frames. Qed.
#[local] Hint Resolve db_get_quiet db_add_tame set_text_tame : frame.
Lemma db_set_password_tame name h : does tame (nickserv_db_set_password name h).
Proof. unfold nickserv_db_set_password. frames. Qed.
Lemma db_set_last_identified_tame name t : does tame (nickserv_db_set_last_identified name t).
Proof. unfold nickserv_db_set_last_identified. frames. Qed.
Lemma db_set_email_challenge_tame name e h t : does tame (nickserv_db_set_email_challenge name e h t).
Proof. unfold nickserv_db_set_email_challenge. frames. Qed.
Lemma db_verify_email_tame name h t : does tame (nickserv_db_verify_email name h t).
Proof. unfold nickserv_db_verify_email. frames. Qed.
Lemma db_set_reset_token_tame name h t : does tame (nickserv_db_set_reset_token name h t).
Proof. unfold nickserv_db_set_reset_token. frames. Qed.
Lemma db_consume_reset_token_tame name h t p : does tame (nickserv_db_consume_reset_token name h t p).
Proof. unfold nickserv_db_consume_reset_token. frames. Qed.
#[local] Hint Resolve db_set_password_tame db_set_last_identified_tame db_set_email_challenge_tame db_verify_email_tame
  db_set_reset_token_tame db_consume_reset_token_tame : frame.

Lemma registration_allowed_tame ip t b : does tame (server_nickserv_registration_allowed ip t b).
Proof. unfold server_nickserv_registration_allowed. frames. Qed.
Lemma mail_request_allowed_tame ip t : does tame (nickserv_mail_request_allowed ip t).
Proof. unfold nickserv_mail_request_allowed. frames. Qed.
#[local] Hint Resolve registration_allowed_tame mail_request_allowed_tame auth_limit_tame : frame.

(** ** The commands that keep to the sender *)

Lemma apply_cloak_shape cfg K : same_client_shape K (usermode_apply_cloak cfg K).
Proof. unfold usermode_apply_cloak, cloak_refresh_display_host. by repeat case_match. Qed.
(** Cloaking a record that is who [K] is. *)
Ltac cloaked :=
  match goal with |- same_identity ?K (usermode_apply_cloak ?cfg ?K') ∧ _ =>
    exact (conj (apply_cloak_identity cfg K') (apply_cloak_shape cfg K')) end.
Lemma apply_account_same cfg a K : same_identity K (apply_account cfg a K) ∧ same_client_shape K (apply_account cfg a K).
Proof.
  unfold apply_account. cbv zeta. repeat case_if; first [done | cloaked].
Qed.
Lemma forget_account_same cfg K : same_identity K (forget_account cfg K) ∧ same_client_shape K (forget_account cfg K).
Proof.
  unfold forget_account. cbv zeta. case_if; first [done | cloaked].
Qed.
Lemma enter_account_tame c cfg a : does tame (upd_client c (apply_account cfg a)).
Proof. apply upd_client_tame, apply_account_same. Qed.
Lemma leave_account_tame c cfg : does tame (upd_client c (forget_account cfg)).
Proof. apply upd_client_tame, forget_account_same. Qed.
Lemma nickserv_notice_quiet c t : does quiet (nickserv_notice c t).
Proof. unfold nickserv_notice. frames. Qed.
Lemma hash_password_quiet p : does quiet (hash_password p).
Proof. unfold hash_password. frames. Qed.
Lemma generate_token_quiet : does quiet generate_token.
Proof. unfold generate_token. frames. Qed.
Lemma send_token_mail_quiet t a k b : does quiet (send_token_mail t a k b).
Proof. unfold send_token_mail. frames. Qed.
#[local] Hint Resolve enter_account_tame leave_account_tame nickserv_notice_quiet hash_password_quiet generate_token_quiet
  send_token_mail_quiet : frame.

Lemma record_identify_tame a : does tame (record_successful_identify a).
Proof. unfold record_successful_identify. frames. Qed.
#[local] Hint Resolve record_identify_tame : frame.
Lemma nickserv_identify_tame c a p : does tame (nickserv_identify c a p).
Proof. unfold nickserv_identify. frames. Qed.
#[local] Hint Resolve nickserv_identify_tame : frame.
Lemma nickserv_register_tame c p : does tame (nickserv_register c p).
Proof. unfold nickserv_register. frames. Qed.
Lemma logout_with_tame c p : does tame (logout_with c p).
Proof. unfold logout_with. frames. Qed.
#[local] Hint Resolve logout_with_tame : frame.
Lemma nickserv_logout_tame c p : does tame (nickserv_logout c p).
Proof. unfold nickserv_logout. frames. Qed.
Lemma nickserv_command_identify_tame c p : does tame (nickserv_command_identify c p).
Proof. unfold nickserv_command_identify. frames. Qed.
Lemma nickserv_set_password_tame c p : does tame (nickserv_set_password c p).
Proof. unfold nickserv_set_password. frames. Qed.
Lemma nickserv_set_email_tame c p : does tame (nickserv_set_email c p).
Proof. unfold nickserv_set_email. frames. Qed.
Lemma nickserv_verify_tame c p : does tame (nickserv_verify c p).
Proof. unfold nickserv_verify. frames. Qed.
Lemma reset_request_tame a : does tame (reset_request a).
Proof. unfold reset_request. frames. Qed.
#[local] Hint Resolve nickserv_set_password_tame nickserv_set_email_tame reset_request_tame : frame.
Lemma nickserv_reset_tame c p : does tame (nickserv_reset c p).
Proof. unfold nickserv_reset. frames. Qed.
Lemma nickserv_set_tame c p : does tame (nickserv_set c p).
Proof. unfold nickserv_set. frames. Qed.

(** *** After a change of account *)

Lemma account_notify_quiet c : does quiet (ircv3_account_notify c).
Proof. apply ircv3_account_notify_quiet. Qed.
Lemma sync_member_sober ch c : does sober (sync_member_privileges ch c).
Proof. eapply serviced_sober, sync_member_serviced. Qed.
Lemma sync_member_tame ch c : does tame (sync_member_privileges ch c).
Proof. apply does_tame; [apply sync_member_sober | apply sync_member_keeps]. Qed.
#[local] Hint Resolve account_notify_quiet sync_member_tame : frame.
Lemma sync_client_tame c : does tame (chanserv_sync_client_privileges c).
Proof. unfold chanserv_sync_client_privileges. frames. Qed.
#[local] Hint Resolve sync_client_tame : frame.
Lemma account_entered_tame c : does tame (account_entered c).
Proof. unfold account_entered. frames. Qed.
Lemma account_left_tame c : does tame (account_left c).
Proof. unfold account_left. frames. Qed.
#[local] Hint Resolve account_entered_tame account_left_tame : frame.
Lemma identify_alias_tame c p : does tame (handle_identify_alias c p).
Proof. unfold handle_identify_alias. frames. Qed.
Lemma logout_alias_tame c p : does tame (handle_logout_alias c p).
Proof. unfold handle_logout_alias. frames. Qed.
Lemma recover_presence_tame t : does tame (recover_presence_after t).
Proof. unfold recover_presence_after, server_find_client_by_id. pose proof watch_online_sober. pose proof watch_offline_sober.
  pose proof whowas_record_sober. frames. Qed.
Lemma registration_admitted_tame c b t : does tame (registration_admitted c b t).
Proof. unfold registration_admitted. frames. Qed.
Lemma mail_admitted_tame c b t : does tame (mail_admitted c b t).
Proof. unfold mail_admitted. frames. Qed.

(** ** Recovering a nickname *)

Lemma guest_nick_shape id : guest_nick id ≠ [] ∧ length (guest_nick id) ≤ IRC_NICK_MAX.
Proof. split; [done|]. unfold guest_nick, snprintf. rewrite length_take. unfold IRC_NICK_MAX. lia. Qed.

Lemma announce_recovery_quiet t o : does quiet (announce_recovery t o).
Proof. unfold announce_recovery. frames. Qed.
#[local] Hint Resolve announce_recovery_quiet : frame.

(** With memory left, the renaming is the one NICK makes. *)
Lemma recover_rename_run t T w :
  wf w → plenty w → w_clients w !! t = Some T → cl_nick T ≠ [] →
  hash_get (w_clients_by_nick w) (guest_nick (cl_id T)) = None →
  (change_nick t (guest_nick (cl_id T)) w).1 = true ∧
  recover_rename t w = (announce_recovery t (cl_nick T) ;; mret true) (change_nick t (guest_nick (cl_id T)) w).2.
Proof.
  intros Hw Hp HT Hne Hfree. assert (the_client w t = T) as E1 by (unfold the_client; by rewrite HT).
  rewrite change_nick_run by apply guest_nick_shape.
  assert (Ht : others_only t w (table_without w t)).
  { unfold table_without. rewrite E1. destruct (cl_nick T) eqn:En; [done|]. simpl. rewrite <-En.
    apply remove_nick_others; [done..|]. by rewrite En. }
  assert (hd true (w_alloc w) = true) as Ha by (unfold plenty in Hp; by destruct Hp).
  pose proof (hash_set_spec (hd true (w_alloc w)) (table_without w t) (guest_nick (cl_id T)) t (proj1 Ht)) as Hs.
  unfold recover_rename, client, find_nick. rewrite !run_gets, E1, Hfree. rewrite bool_decide_false by (by intros [? ?]).
  rewrite run_modify. pose proof (client_nick T (wf_clients w Hw t T HT)) as Hlen.
  rewrite (snprintf_id (IRC_NICK_MAX + 1) (cl_nick T)) by lia.
  assert ((hash_remove (w_clients_by_nick w) (cl_nick T)).2 = table_without w t) as ->.
  { unfold table_without. rewrite E1. by destruct (cl_nick T). }
  unfold put_nick. rewrite run_bind, run_upd_client, run_bind. cbn [alloc w_alloc put_client set_w_clients set_w_clients_by_nick].
  unfold alloc. cbn [w_alloc put_client set_w_clients set_w_clients_by_nick]. rewrite run_gets.
  cbn [w_clients_by_nick put_client set_w_clients set_w_clients_by_nick set_w_alloc].
  destruct (hash_set _ _ _ t) as [rc t']. destruct Hs as (_ & _ & _ & Hok). rewrite (Hok Ha). cbn [Z.eqb negb].
  split; reflexivity.
Qed.

Lemma recover_rename_spec t T w :
  wf w → plenty w → w_clients w !! t = Some T → cl_nick T ≠ [] →
  let '(ok, w') := recover_rename t w in
  wf w' ∧ (if ok then w_clients w' = alter (set_cl_nick (guest_nick (cl_id T))) t (w_clients w) else w' = w) ∧
  (ok = true ↔ hash_get (w_clients_by_nick w) (guest_nick (cl_id T)) = None).
Proof.
  intros Hw Hp HT Hne. destruct (hash_get (w_clients_by_nick w) (guest_nick (cl_id T))) as [x|] eqn:Hfree.
  - unfold recover_rename, client, find_nick. rewrite !run_gets. unfold the_client. rewrite HT. simpl. rewrite Hfree.
    rewrite bool_decide_true by eauto. done.
  - destruct (recover_rename_run t T w Hw Hp HT Hne Hfree) as [Hok ->]. destruct (guest_nick_shape (cl_id T)) as [Hg Hl].
    pose proof (change_nick_spec t (guest_nick (cl_id T)) w Hw (mk_is_Some _ _ HT) Hg Hl) as Hs. rewrite Hfree in Hs.
    specialize (Hs ltac:(done)). destruct (change_nick _ _ w) as [ok w1]. simpl in Hok. subst ok. destruct Hs as (Hw1 & Hcl & _).
    simpl. apply (quiet_step _ _ _ (λ x, let '(ok, w') := x in wf w' ∧ (if ok : bool then w_clients w' = _ else w' = w) ∧ (ok = true ↔ _))); [frames|].
    intros _ i. simpl. split_and!; [by apply (wf_same_state w1) | done | done].
Qed.

Lemma put_nick_sober t n : does sober (put_nick t n).
Proof. unfold put_nick. frames. Qed.
#[local] Hint Resolve put_nick_sober : frame.
Lemma recover_rename_sober t : does sober (recover_rename t).
Proof. unfold recover_rename. frames. Qed.

Lemma recover_rename_stable c t T w : w_clients w !! t = Some T → cl_nick T ≠ [] → stable c w (recover_rename t w).2.
Proof.
  intros HT Hne (Hw & Hr & Hp) Hc. pose proof (recover_rename_sober t w) as Hs.
  pose proof (recover_rename_spec t T w Hw Hp HT Hne) as Hx. destruct (recover_rename t w) as [ok w']. destruct Hx as (Hw' & _).
  simpl in *. split_and!; [split_and!| |].
  - done.
  - by apply (sober_registry w).
  - by apply Hs.
  - by apply (sober_alive w).
  - by apply sober_input.
Qed.

#[local] Hint Extern 5 (does (stable _) _) => apply (does_quiet _); solve [eauto with frame] : frame.
#[local] Hint Extern 6 (does (stable _) _) => apply tame_stable; solve [eauto with frame] : frame.

(** The sender is identified to the account of that name, which the database has and
    which is enabled. *)
Definition may_recover (w : World) (c : ptr) (nick : cstr) : bool :=
  let K := the_client w c in
  negb (empty (cl_account_name K)) && strcaseeq (cl_account_name K) nick && nickserv_db_opens w &&
  match (nickserv_db_get nick w).1 with Some (Some a) => na_enabled a | _ => false end.

Lemma db_get_run name w : nickserv_db_get name w = ((nickserv_db_get name w).1, w).
Proof. unfold nickserv_db_get. case_if; [done|]. rewrite run_gets. by case_if. Qed.
Lemma recover_authorized_run c nick w : recover_authorized c nick w = (may_recover w c nick, w).
Proof.
  unfold recover_authorized, may_recover, client. rewrite run_gets. cbv zeta.
  destruct (empty _); [done|]. destruct (strcaseeq _ _); [|done]. cbn [orb negb andb]. rewrite run_gets.
  destruct (nickserv_db_opens w); [|done]. cbn [negb andb]. by rewrite run_bind, db_get_run.
Qed.

(** The second word of RECOVER asks for the connection to be ended. *)
Definition asks_kill (params : option cstr) : bool :=
  match (strtok " " (strtok " " (default [] params)).2).1 with Some action => strcaseeq action "KILL" | None => false end.

(** GHOST and RECOVER answer with a notice, or act for the owner of a nickname. *)
Lemma nickserv_recover_cases c params ghost w :
  (∃ i, (nickserv_recover c params ghost w).2 = set_w_io i w) ∨
  (∃ nick t, (strtok " " (default [] params)).1 = Some nick ∧ may_recover w c nick = true ∧
     hash_get (w_clients_by_nick w) nick = Some t ∧ t ≠ c ∧
     nickserv_recover c params ghost w = recover_target c (ghost || asks_kill params) ghost t w).
Proof.
  assert (Hq : ∀ m : M unit, does quiet m → ∃ i, (m w).2 = set_w_io i w).
  { intros m Hm. destruct (run_quiet m w Hm) as (r & i & ->). by exists i. }
  unfold nickserv_recover, asks_kill.
  destruct (strtok " " (default [] params)) as [nick rest]. cbn [snd fst]. destruct (strtok " " rest) as [action rest']. cbv zeta.
  cbn [fst]. set (kill := ghost || _). destruct nick as [nick|]; [|left; apply Hq; frames]. case_if; [left; apply Hq; frames|].
  rewrite run_bind, recover_authorized_run. destruct (may_recover w c nick) eqn:Ha; cbn [negb]; [|left; apply Hq; frames].
  unfold find_nick. rewrite run_gets. destruct (hash_get _ nick) as [t|] eqn:Ht; [|left; apply Hq; frames].
  destruct (Nat.eqb_spec t c) as [->|Hne]; [left; apply Hq; frames|].
  right. by exists nick, t.
Qed.

Lemma notice_stable c x w : stable c w (nickserv_notice c x w).2.
Proof. apply (does_quiet (stable c) _ (nickserv_notice_quiet c x)). Qed.

Lemma recover_target_stable c kill ghost t T w :
  w_clients w !! t = Some T → cl_nick T ≠ [] → t ≠ c → stable c w (recover_target c kill ghost t w).2.
Proof.
  intros HT Hne Htc. unfold recover_target, client. rewrite run_gets. destruct kill.
  - intros Hw Hc. rewrite run_bind. generalize (lit "Nickname session disconnected."). intros x.
    match goal with |- context [server_disconnect t ?r w] =>
      pose proof (disconnect_sound t r w Hw (mk_is_Some _ _ HT)) as H1;
      pose proof (disconnect_other t r w c Hw (mk_is_Some _ _ HT) Hc Htc) as [H2 H3]; destruct (server_disconnect t r w) as [[] w1] end.
    cbn [snd] in H1, H2, H3. rewrite <-H3. by apply notice_stable.
  - rewrite run_bind. pose proof (recover_rename_stable c t T w HT Hne) as H1.
    destruct (recover_rename t w) as [ok w1]. cbn [snd] in H1. etrans; [exact H1 | apply notice_stable].
Qed.

Lemma nickserv_recover_stable c p ghost : does (stable c) (nickserv_recover c p ghost).
Proof.
  intros w Hw Hc. destruct (nickserv_recover_cases c p ghost w) as [[i ->]|(nick & t & _ & _ & Ht & Hne & ->)].
  - by apply (silent_quiet (R := stable c) w).
  - destruct Hw as (Hw & Hw'). apply (wf_nicks w Hw) in Ht as (T & HT & Hn & _). by apply (recover_target_stable c _ ghost t T w).
Qed.

(** ** Messages to NickServ *)

#[local] Hint Resolve nickserv_recover_stable nickserv_register_tame nickserv_logout_tame nickserv_command_identify_tame
  nickserv_verify_tame nickserv_reset_tame nickserv_set_tame identify_alias_tame logout_alias_tame recover_presence_tame
  registration_admitted_tame mail_admitted_tame : frame.
Lemma handle_message_stable c t : does (stable c) (nickserv_handle_message c t).
Proof. unfold nickserv_handle_message. frames. Qed.
Lemma recover_target_before_quiet t : does quiet (recover_target_before t).
Proof. unfold recover_target_before. frames. Qed.
#[local] Hint Resolve handle_message_stable recover_target_before_quiet : frame.
Lemma nickserv_message_run_stable c t b n : does (stable c) (nickserv_message c t b n).
Proof. unfold nickserv_message. frames. Qed.
#[local] Hint Resolve nickserv_message_run_stable : frame.
Lemma nickserv_message_stable c t : does (stable c) (command_nickserv_message c t).
Proof. unfold command_nickserv_message. frames. Qed.
#[local] Hint Resolve nickserv_message_stable : frame.
Lemma command_nickserv_stable c p : does (stable c) (command_nickserv c p).
Proof. unfold command_nickserv. frames. Qed.
Lemma command_identify_stable c p : does (stable c) (command_identify c p).
Proof. unfold command_identify. frames. Qed.
End NickServProps.
