(* ===== verification/AccountProps.v ===== *)
(** * Accounts: tokens, identification and the recovery of nicknames

    A token sent by mail works at most once and in time, IDENTIFY gives a client the
    account whose password it knows, and only the owner of a nickname can have its user
    removed. *)

From S2P Require Import Prelude CString Modes HashTable MaskMatch Output World Channel Invariant Policy Tags Numerics Ircv3 Presence Env Cloak Register Connection Services Registry RegistryProps Sound Flood JoinPart Oper Accounts NickServ ChanDb ChanServ Cap Message MessageProps Query QueryProps OperProps ChanCmds Mode ModeProps SaCmds SaProps Stability Disconnects NickServProps.

Section AccountProps.
Context `{E : Env} `{S : Services} {R : Recipients}.

(** ** Histories of the database *)

(** The calls that change the table. *)
Inductive AccountOp :=
  | ADD (a : NickServAccount)
  | DELETE (name : cstr)
  | SET_PASSWORD (name password_hash : cstr)
  | SET_VHOST (name vhost : cstr)
  | SET_ENABLED (name : cstr) (enabled : bool)
  | SET_LAST_IDENTIFIED (name : cstr) (t : Z)
  | SET_EMAIL_CHALLENGE (name email token_hash : cstr) (expires_at : Z)
  | VERIFY_EMAIL (name token_hash : cstr) (t : Z)
  | ADMIN_SET_EMAIL (name email : cstr) (verified : bool)
  | SET_RESET_TOKEN (name token_hash : cstr) (expires_at : Z)
  | CONSUME_RESET_TOKEN (name token_hash : cstr) (t : Z) (password_hash : cstr).

Definition succeeded (r : option bool) : bool := match r with Some true => true | _ => false end.

Definition run_op (op : AccountOp) : M bool :=
  match op with
  | ADD a => nickserv_db_add a
  | DELETE name => nickserv_db_delete name
  | SET_PASSWORD name h => nickserv_db_set_password name h
  | SET_VHOST name v => nickserv_db_set_vhost name v
  | SET_ENABLED name b => nickserv_db_set_enabled name b
  | SET_LAST_IDENTIFIED name t => nickserv_db_set_last_identified name t
  | SET_EMAIL_CHALLENGE name e h t => nickserv_db_set_email_challenge name e h t
  | VERIFY_EMAIL name h t => r ← nickserv_db_verify_email name h t; mret (succeeded r)
  | ADMIN_SET_EMAIL name e b => nickserv_db_admin_set_email name e b
  | SET_RESET_TOKEN name h t => nickserv_db_set_reset_token name h t
  | CONSUME_RESET_TOKEN name h t p => r ← nickserv_db_consume_reset_token name h t p; mret (succeeded r)
  end.

Definition accounts (w : World) : list NickServAccount := ns_accounts (w_nickserv w).

(** What was done to the table, the last first, and whether it succeeded; the rest of the
    server and the clock may change in between. *)
Inductive history : list (AccountOp * bool) → list NickServAccount → Prop :=
  | history_start : history [] []
  | history_step h w op : history h (accounts w) →
      history ((op, (run_op op w).1) :: h) (accounts (run_op op w).2).

(** The two kinds of tokens: what a row keeps, and the calls that store and take one. *)
Inductive Token := RESET | VERIFY.
Definition token_of (k : Token) (a : NickServAccount) : cstr * Z :=
  match k with
  | RESET => (na_reset_token_hash a, na_reset_expires_at a)
  | VERIFY => (na_email_verify_token_hash a, na_email_verify_expires_at a)
  end.
Definition issues (k : Token) (op : AccountOp) (name : cstr) (token : cstr * Z) : Prop :=
  match k, op with
  | RESET, SET_RESET_TOKEN n h t | VERIFY, SET_EMAIL_CHALLENGE n _ h t => strcaseeq name n = true ∧ token = (h, t)
  | _, _ => False
  end.
(** The token of [name] is taken, or withdrawn: by its use, and by a new password or an
    address set by an operator. *)
Definition spends (k : Token) (op : AccountOp) (name : cstr) : Prop :=
  match k, op with
  | RESET, CONSUME_RESET_TOKEN n _ _ _ | RESET, SET_PASSWORD n _ | VERIFY, VERIFY_EMAIL n _ _
  | VERIFY, ADMIN_SET_EMAIL n _ _ => strcaseeq name n = true
  | _, _ => False
  end.

(** The token was stored for the name, and not been taken since. *)
Definition outstanding (k : Token) (h : list (AccountOp * bool)) (name : cstr) (token : cstr * Z) : Prop :=
  ∃ later op earlier, h = later ++ (op, true) :: earlier ∧ issues k op name token ∧
    Forall (λ e, e.2 = true → ¬ spends k e.1 name) later.

Definition redeems (k : Token) (op : AccountOp) (name token_hash : cstr) (t : Z) : Prop :=
  match k, op with
  | RESET, CONSUME_RESET_TOKEN n h t' _ | VERIFY, VERIFY_EMAIL n h t' => n = name ∧ h = token_hash ∧ t' = t
  | _, _ => False
  end.

(** Names are a primary key. *)
Definition name_keys (l : list NickServAccount) : list cstr := map (λ a, map tolower (na_name a)) l.

Lemma same_name_same_row l a b :
  NoDup (name_keys l) → a ∈ l → b ∈ l → strcaseeq (na_name a) (na_name b) = true → a = b.
Proof.
  intros Hnd [i Hi]%list_elem_of_lookup [j Hj]%list_elem_of_lookup H. unfold strcaseeq, streq in H. bools.
  assert (i = j) as ->; [|congruence].
  apply (NoDup_lookup (name_keys l) i j (map tolower (na_name a))); [done|..]; unfold name_keys; rewrite list_lookup_fmap.
  - by rewrite Hi.
  - rewrite Hj. simpl. by rewrite H.
Qed.

(** ** One statement *)

(** The rows a call selects, and what it makes of them; adding and deleting apart. *)
Definition op_selects (op : AccountOp) (a : NickServAccount) : bool :=
  match op with
  | ADD _ | DELETE _ => false
  | SET_PASSWORD n _ | SET_VHOST n _ | SET_ENABLED n _ | SET_LAST_IDENTIFIED n _ | SET_EMAIL_CHALLENGE n _ _ _
  | ADMIN_SET_EMAIL n _ _ | SET_RESET_TOKEN n _ _ => named n a
  | VERIFY_EMAIL n h t =>
      named n a && streq (na_email_verify_token_hash a) h && (t <=? na_email_verify_expires_at a)%Z && negb (empty (na_pending_email a))
  | CONSUME_RESET_TOKEN n h t _ =>
      named n a && streq (na_reset_token_hash a) h && (t <=? na_reset_expires_at a)%Z && na_enabled a
  end.
Definition op_change (op : AccountOp) (a : NickServAccount) : NickServAccount :=
  match op with
  | ADD _ | DELETE _ => a
  | SET_PASSWORD _ h | CONSUME_RESET_TOKEN _ _ _ h => set_na_reset [] 0 (set_na_password_hash h a)
  | SET_VHOST _ v => set_na_vhost v a
  | SET_ENABLED _ b => set_na_enabled b a
  | SET_LAST_IDENTIFIED _ t => set_na_last_identified_at t a
  | SET_EMAIL_CHALLENGE _ e h t => set_na_email (na_email a) (na_email_verified a) e h t a
  | VERIFY_EMAIL _ _ _ => set_na_email (na_pending_email a) true [] [] 0 a
  | ADMIN_SET_EMAIL _ e b => set_na_email e b [] [] 0 a
  | SET_RESET_TOKEN _ h t => set_na_reset h t a
  end.

Definition selected (op : AccountOp) (t : Z) (a : NickServAccount) : NickServAccount :=
  if op_selects op a then set_na_updated_at t (op_change op a) else a.

Lemma update_run s op w :
  let '(r, w') := update s (op_selects op) (op_change op) w in
  (changed r = false ∧ accounts w' = accounts w) ∨
  changed r = true ∧ Exists (λ a, op_selects op a = true) (accounts w) ∧ ∃ t, accounts w' = map (selected op t) (accounts w).
Proof.
  unfold update, rows, now, set_rows. rewrite run_gets. destruct (sqlite_step s w); cbn [negb]; [|by left].
  rewrite !run_gets, run_modify. change (ns_accounts (w_nickserv w)) with (accounts w).
  change (accounts (set_w_nickserv _ w)) with (map (selected op (w_now w)) (accounts w)).
  destruct (decide (Exists (λ a, op_selects op a = true) (accounts w))) as [Hx|Hx]; [right|left].
  - split_and!; [|done|by exists (w_now w)]. apply Exists_exists in Hx as (a & Ha & Hs). simpl.
    assert (a ∈ filter (λ row, op_selects op row = true) (accounts w)) as Hin by (by apply list_elem_of_filter).
    destruct (filter _ (accounts w)); [by apply elem_of_nil in Hin | done].
  - assert (Hn : Forall (λ a, op_selects op a = false) (accounts w)).
    { apply Forall_forall. intros a Ha. destruct (op_selects op a) eqn:Hs; [|done]. destruct Hx. apply Exists_exists. by exists a. }
    assert (filter (λ row, op_selects op row = true) (accounts w) = [] ∧ map (selected op (w_now w)) (accounts w) = accounts w)
      as [H1 H2].
    { clear Hx. induction Hn as [|a l Ha Hn [IH1 IH2]]; [done|]. split; [by rewrite filter_cons_False by (by rewrite Ha)|].
      cbn [map]. rewrite IH2. unfold selected. by rewrite Ha. }
    split; [simpl; by rewrite H1 | exact H2].
Qed.

Lemma succeeded_changed (m : M (option nat)) w :
  (r ← (r ← m; mret match r with Some n => Some (0 <? n) | None => None end); mret (succeeded r)) w = (r ← m; mret (changed r)) w.
Proof. rewrite !run_bind. by destruct (m w) as [[[|n]|] w']. Qed.

(** Shows that a call is its guard, and its statement behind it. *)
Ltac refused_or_updated :=
  unfold nickserv_db_set_password, nickserv_db_set_vhost, nickserv_db_set_enabled, nickserv_db_set_last_identified,
    nickserv_db_set_email_challenge, nickserv_db_verify_email, nickserv_db_admin_set_email, nickserv_db_set_reset_token,
    nickserv_db_consume_reset_token, set_text;
  match goal with |- context [if ?b then _ else _] => exists (negb b) end; eexists; intros ?;
  match goal with |- context [if ?b then _ else _] => destruct b; cbn [negb] end; [reflexivity|];
  first [reflexivity | apply (succeeded_changed (update _ _ _))].

(** A call that is refused leaves the table; the others are updates. *)
Lemma op_effect op w :
  let '(r, w') := run_op op w in
  (r = false ∧ accounts w' = accounts w) ∨
  r = true ∧ match op with
  | ADD a => Forall (λ b, strcaseeq (na_name b) (na_name a) = false) (accounts w) ∧
      ∃ b, na_name b = na_name a ∧ (∀ k, (token_of k b).1 = []) ∧ accounts w' = accounts w ++ [b]
  | DELETE name => accounts w' = filter (λ row, named name row = false) (accounts w)
  | _ => Exists (λ a, op_selects op a = true) (accounts w) ∧ ∃ t, accounts w' = map (selected op t) (accounts w)
  end.
Proof.
  assert (Hset : ∀ (m : M bool), (∃ g s, ∀ w, m w = (if g : bool then r ← update s (op_selects op) (op_change op); mret (changed r) else mret false) w) →
    let '(r, w') := m w in (r = false ∧ accounts w' = accounts w) ∨
      r = true ∧ Exists (λ a, op_selects op a = true) (accounts w) ∧ ∃ t, accounts w' = map (selected op t) (accounts w)).
  { intros m (g & s & ->). destruct g; [|by left]. rewrite run_bind. pose proof (update_run s op w) as Hu.
    destruct (update _ _ _ w) as [r w']. unfold mret, ST_ret. by destruct Hu as [[-> Hu]|(-> & Hu)]; [left|right]. }
  destruct op; cbn [run_op]; try (apply Hset; refused_or_updated).
  - unfold nickserv_db_add, rows, now, set_rows. case_if; [by left|]. rewrite !run_gets.
    destruct (negb _ || _); [by left|]. rewrite run_gets. destruct (negb _ || _) eqn:Hx; [by left|].
    rewrite run_gets, run_modify. unfold mret, ST_ret. right. split; [done|]. bools. split.
    + apply Forall_forall. intros b Hb. change (ns_accounts (w_nickserv w)) with (accounts w) in *.
      destruct (strcaseeq _ _) eqn:Hs; [|done].
      assert (existsb (named (na_name a)) (accounts w) = true) by (apply existsb_exists; exists b; split; [by apply list_elem_of_In|done]).
      congruence.
    + eexists. split_and!; [| |reflexivity]; [done | by intros []].
  - clear Hset. unfold nickserv_db_delete, rows, set_rows. destruct (name_valid name); cbn [negb]; [|by left].
    rewrite run_gets. destruct (sqlite_step _ w); cbn [negb]; [|by left]. rewrite run_gets, run_modify. unfold mret, ST_ret.
    destruct (existsb _ _) eqn:Hx; [by right|left]. split; [done|].
    change (filter (λ row, named name row = false) (accounts w) = accounts w). change (ns_accounts (w_nickserv w)) with (accounts w) in Hx.
    induction (accounts w) as [|b l IH]; [done|]. simpl in Hx. apply orb_false_elim in Hx as [Hb Hx].
    rewrite filter_cons_True by done. by rewrite IH.
Qed.

(** ** Tokens *)

Lemma change_token k op a t :
  op_selects op a = true → let a' := set_na_updated_at t (op_change op a) in
  na_name a' = na_name a ∧
  ((token_of k a').1 = [] ∨ issues k op (na_name a) (token_of k a') ∨ (token_of k a' = token_of k a ∧ ¬ spends k op (na_name a))).
Proof. intros H. split; [by destruct op|]. destruct k, op; simpl in *; auto. Qed.
Lemma spends_selects k op a b :
  op_selects op b = true → spends k op (na_name a) → strcaseeq (na_name a) (na_name b) = true.
Proof.
  intros Hb Ha. destruct k, op; simpl in *; try done; unfold named, strcaseeq, streq in *; bools;
    apply bool_decide_eq_true; congruence.
Qed.

Lemma name_keys_selected op t l : name_keys (map (selected op t) l) = name_keys l.
Proof.
  unfold name_keys. rewrite map_map. apply map_ext. intros a. unfold selected. case_if; [|done].
  by destruct (change_token RESET op a t Heqb) as [-> _].
Qed.
Lemma name_keys_fresh l b a :
  Forall (λ b, strcaseeq (na_name b) (na_name a) = false) l → na_name b = na_name a → NoDup (name_keys l) → NoDup (name_keys (l ++ [b])).
Proof.
  intros Hf Hb Hnd. unfold name_keys. rewrite map_app. apply NoDup_app. split_and!; [done| |apply NoDup_singleton].
  intros x (c & -> & Hc)%list_elem_of_fmap Hx. rewrite Forall_forall in Hf. specialize (Hf c Hc). simpl in Hx.
  apply list_elem_of_singleton in Hx. unfold strcaseeq, streq in Hf. bools. destruct Hf. by rewrite Hx, Hb.
Qed.

Lemma name_keys_filter P `{∀ a : NickServAccount, Decision (P a)} l : NoDup (name_keys l) → NoDup (name_keys (filter P l)).
Proof.
  induction l as [|a l IH]; [done|]. intros [Hn Hl]%NoDup_cons. destruct (decide (P a)).
  - rewrite filter_cons_True by done. constructor; [|by apply IH]. intros (b & Hb & [_ Hin]%list_elem_of_filter)%list_elem_of_fmap.
    apply Hn, list_elem_of_fmap. by exists b.
  - rewrite filter_cons_False by done. by apply IH.
Qed.

(** What holds of every table with a history. *)
Record tokens_ok (h : list (AccountOp * bool)) (l : list NickServAccount) : Prop := {
  tokens_keys : NoDup (name_keys l);
  tokens_outstanding k a : a ∈ l → (token_of k a).1 ≠ [] → outstanding k h (na_name a) (token_of k a) }.

Lemma outstanding_later k h e name token :
  (e.2 = true → ¬ spends k e.1 name) → outstanding k h name token → outstanding k (e :: h) name token.
Proof. intros He (later & op & earlier & -> & Hi & Hl). exists (e :: later), op, earlier. split_and!; [done..|]. by constructor. Qed.
Lemma outstanding_now k h op name token : issues k op name token → outstanding k ((op, true) :: h) name token.
Proof. intros Hi. exists [], op, h. split_and!; [done..|constructor]. Qed.

(** Rows that stay keep their tokens. *)
Lemma tokens_ok_subset h e l l' :
  tokens_ok h l → NoDup (name_keys l') → (∀ a, a ∈ l' → (∀ k, (token_of k a).1 = []) ∨ a ∈ l) →
  (e.2 = true → ∀ k name, ¬ spends k e.1 name) → tokens_ok (e :: h) l'.
Proof.
  intros [H1 H2] Hk Hl He. split; [done|]. intros k a Ha Hne. destruct (Hl a Ha) as [Hz|Hin]; [by destruct (Hne (Hz k))|].
  apply outstanding_later; [|by apply H2]. intros Hr. by apply He.
Qed.

Lemma tokens_ok_selected h op t l :
  tokens_ok h l → Exists (λ a, op_selects op a = true) l → tokens_ok ((op, true) :: h) (map (selected op t) l).
Proof.
  intros [H1 H2] (b & Hb & Hs)%Exists_exists. split; [by rewrite name_keys_selected|].
  intros k a' (a & -> & Ha)%list_elem_of_fmap Hne. unfold selected in *. case_if.
  - destruct (change_token k op a t Heqb0) as [-> [Hz|[Hi|[Ht Hn]]]]; [done | by apply outstanding_now |].
    rewrite Ht in *. apply outstanding_later; [done | by apply H2].
  - apply outstanding_later; [|by apply H2]. intros _ Hsp.
    pose proof (same_name_same_row l a b H1 Ha Hb (spends_selects k op a b Hs Hsp)) as ->. simpl in Hs. congruence.
Qed.

Lemma history_tokens h l : history h l → tokens_ok h l.
Proof.
  induction 1 as [|h w op Hh IH]; [split; [constructor | by intros ?? ?%elem_of_nil]|].
  pose proof (op_effect op w) as He. destruct (run_op op w) as [r w']. simpl. destruct He as [[-> ->]|[-> He]].
  - apply (tokens_ok_subset h _ (accounts w)); [done | apply IH | by right | done].
  - destruct op; try (destruct He as (Hx & t0 & ->); by apply tokens_ok_selected).
    + destruct He as (Hf & b & Hb & Hz & ->). apply (tokens_ok_subset h _ (accounts w)); [done| | |].
      * apply (name_keys_fresh _ b a); [done..|apply IH].
      * intros c [Hc|Hc%list_elem_of_singleton]%elem_of_app; [by right|left; by subst].
      * by intros _ [] ? [].
    + rewrite He. apply (tokens_ok_subset h _ (accounts w)); [done| | |by intros _ [] ? []].
      * apply name_keys_filter, IH.
      * intros a [_ Ha]%list_elem_of_filter. by right.
Qed.

Lemma redeems_selects k op name hash t a :
  redeems k op name hash t → op_selects op a = true →
  strcaseeq (na_name a) name = true ∧ (token_of k a).1 = hash ∧ (t <= (token_of k a).2)%Z.
Proof.
  intros Hr Hs. by destruct k, op; try done; destruct Hr as (-> & -> & ->); simpl in *; unfold named, streq in *; bools.
Qed.
(** No token is empty. *)
Lemma redeems_hash k op name hash t w : redeems k op name hash t → (run_op op w).1 = true → hash ≠ [].
Proof.
  intros Hr Hok ->. destruct k, op; try done; destruct Hr as (-> & -> & ->); revert Hok; cbn [run_op];
    unfold nickserv_db_consume_reset_token, nickserv_db_verify_email; by destruct (name_valid name).
Qed.

(** C17: a token sent by mail works at most once, in time, and for the account it was
    sent for.  Whatever was done to the database since it was created, when a RESET or
    VERIFY is accepted, one row carries the name; the last token stored for that row has
    the hash presented and has not expired; since it was stored no RESET or VERIFY of the
    account was accepted, and its password (its address, for VERIFY) was not set
    otherwise; and the change is made to that row alone. *)
Theorem tokens_work_once k h op name hash t w :
  history h (accounts w) → redeems k op name hash t → (run_op op w).1 = true →
  ∃ a expires_at updated_at, a ∈ accounts w ∧ strcaseeq (na_name a) name = true ∧ (t <= expires_at)%Z ∧
    token_of k a = (hash, expires_at) ∧ outstanding k h (na_name a) (hash, expires_at) ∧
    accounts (run_op op w).2 =
      map (λ b, if strcaseeq (na_name b) name then set_na_updated_at updated_at (op_change op b) else b) (accounts w).
Proof.
  intros [Hk Ho]%history_tokens Hr Hok. pose proof (redeems_hash _ _ _ _ _ _ Hr Hok) as Hne. pose proof (op_effect op w) as He. destruct (run_op op w) as [r w']. simpl in *. subst r.
  destruct He as [[? _]|[_ He]]; [done|].
  assert (Hx : Exists (λ a, op_selects op a = true) (accounts w) ∧ ∃ t, accounts w' = map (selected op t) (accounts w))
    by (destruct k, op; try done).
  destruct Hx as [(a & Ha & Hs)%Exists_exists (t0 & ->)].
  destruct (redeems_selects k op name hash t a Hr Hs) as (Hn & Hh & Ht).
  exists a, (token_of k a).2, t0. assert (token_of k a = (hash, (token_of k a).2)) as E1 by (destruct (token_of k a); simpl in *; by subst).
  split_and!; [done..| |].
  - rewrite <-E1. apply Ho; [done|]. by rewrite Hh.
  - apply map_ext_in. intros b Hb%list_elem_of_In. unfold selected. destruct (strcaseeq (na_name b) name) eqn:Hbn.
    + assert (b = a) as ->; [|by rewrite Hs]. apply (same_name_same_row (accounts w)); [done..|].
      unfold strcaseeq, streq in *. bools. apply bool_decide_eq_true. congruence.
    + destruct (op_selects op b) eqn:Hsb; [|done]. destruct (redeems_selects k op name hash t b Hr Hsb) as [Hbt _]. congruence.
Qed.

(** ** Identification *)

(** The mode bits an account may change. *)
Definition account_modes : ClientModeSet := N.lor CLIENT_MODE_REGISTERED (N.lor CLIENT_MODE_VHOST CLIENT_MODE_CLOAKED).

Lemma apply_cloak_form cfg K :
  ∃ host, usermode_apply_cloak cfg K = set_cl_display_host host (set_cl_modes (client_mode_add (cl_modes K) CLIENT_MODE_CLOAKED) K).
Proof.
  unfold usermode_apply_cloak, cloak_refresh_display_host. set (K' := set_cl_modes _ K).
  repeat case_match; first [by exists (cl_display_host K'); destruct K | by eexists].
Qed.

Ltac mode_bits :=
  unfold client_mode_add, client_mode_remove;
  rewrite ?N.lor_spec, ?N.land_spec, ?N.lor_spec, ?N.land_spec, ?testbit_cnot, ?N.lor_spec;
  unfold account_modes, CLIENT_MODE_REGISTERED, CLIENT_MODE_VHOST, CLIENT_MODE_CLOAKED in *;
  rewrite ?N.lor_spec, ?testbit_bit in *.

(** What a client has of an account, whatever it had before: its name and +r, and its host
    unless an operator gave the client one; no other privilege. *)
Record carries (a : NickServAccount) (K K' : Client) : Prop := {
  carries_name : cl_account_name K' = na_name a;
  carries_registered : client_mode_has (cl_modes K') CLIENT_MODE_REGISTERED = true;
  carries_modes i : (i < 64)%N → N.testbit account_modes i = false → N.testbit (cl_modes K') i = N.testbit (cl_modes K) i;
  carries_host : na_vhost a ≠ [] → client_mode_has (cl_modes K) CLIENT_MODE_VHOST = false ∨ cl_account_vhost_active K = true →
    cl_display_host K' = na_vhost a;
  carries_operator_host : client_mode_has (cl_modes K) CLIENT_MODE_VHOST = true → cl_account_vhost_active K = false →
    cl_display_host K' = cl_display_host K;
  carries_rest : (cl_nick K', cl_registered K', cl_oper_permissions K', cl_channels K', cl_real_ip K') =
    (cl_nick K, cl_registered K, cl_oper_permissions K, cl_channels K, cl_real_ip K) }.

Lemma registered_bit m : client_mode_has m CLIENT_MODE_REGISTERED = N.testbit m 11.
Proof. apply mode_has_bit. Qed.

(** The fields of a record built by updates. *)
Ltac carried :=
  split; cbn -[client_mode_has client_mode_add client_mode_remove account_modes]; rewrite ?registered_bit;
  [ done
  | mode_bits; by rewrite ?orb_true_r
  | intros i Hi Ha; mode_bits; rewrite ?(bool_decide_true _ Hi) in *; repeat case_bool_decide; simplify_eq/=;
    rewrite ?orb_false_r, ?andb_true_r, ?orb_true_r in *; done
  | .. ].

Lemma apply_account_carries cfg a K : from_stmt a = Some a → carries a K (apply_account cfg a K).
Proof.
  intros Hf. assert (length (na_name a) ≤ IRC_NICK_MAX ∧ length (na_vhost a) ≤ IRC_HOST_MAX) as [Hn Hv].
  { unfold from_stmt, copy_text_column in Hf.
    match type of Hf with (if ?b then _ else _) = _ => destruct b eqn:Hc end; [|done]. by bools. }
  assert (snprintf (IRC_NICK_MAX + 1) (na_name a) = na_name a) as En by (apply snprintf_id; lia).
  assert (snprintf (IRC_HOST_MAX + 1) (na_vhost a) = na_vhost a) as Ev by (apply snprintf_id; lia).
  assert (Hadd : client_mode_has (client_mode_add (cl_modes K) CLIENT_MODE_REGISTERED) CLIENT_MODE_VHOST = client_mode_has (cl_modes K) CLIENT_MODE_VHOST).
  { unfold client_mode_has, CLIENT_MODE_VHOST. rewrite !mode_has_bit. mode_bits. by rewrite orb_false_r. }
  unfold apply_account. rewrite En, Ev. cbv zeta. cbn [cl_modes cl_account_vhost_active set_cl_account_name set_cl_modes].
  rewrite Hadd. destruct (na_vhost a) as [|v0 v] eqn:Hvh; cbn [empty negb].
  - destruct (cl_account_vhost_active K) eqn:Hact.
    + match goal with |- carries _ _ (usermode_apply_cloak _ ?K0) => destruct (apply_cloak_form cfg K0) as [host ->] end.
      carried; try done. congruence.
    + by carried.
  - destruct (negb _ || _) eqn:Ho; carried; try done; intros H1; [intros H2; rewrite H1, H2 in Ho; done|].
    intros [H2|H2]; rewrite H2, ?orb_true_r in Ho; done.
Qed.

(** What the environment, the limit on password checks and the database must say for
    [name] and [password] to be the account [a] of the client. *)
Record proves (w : World) (c : ptr) (name password : cstr) (a : NickServAccount) : Prop := {
  proves_row : a ∈ accounts w ∧ strcaseeq (na_name a) name = true;
  proves_readable : nickserv_db_opens w = true ∧ sqlite_step "get" w = true ∧ name_valid name = true ∧ from_stmt a = Some a;
  proves_enabled : na_enabled a = true;
  proves_password : password ≠ [] ∧ argon2id_verify (na_password_hash a) password = true;
  proves_allowed : (auth_limit_consume c "NickServ IDENTIFY" w).1 = true;
  proves_own : cl_account_name (the_client w c) = [] ∨ strcaseeq (cl_account_name (the_client w c)) name = true }.

(** All of a row but the times of its last use. *)
Definition credentials (a : NickServAccount) : NickServAccount := set_na_updated_at 0 (set_na_last_identified_at 0 a).

Lemma from_stmt_id a b : from_stmt a = Some b → b = a.
Proof. unfold from_stmt. case_if; congruence. Qed.

Lemma db_get_Some w name a :
  NoDup (name_keys (accounts w)) →
  (nickserv_db_get name w).1 = Some (Some a) ↔
  name_valid name = true ∧ sqlite_step "get" w = true ∧ a ∈ accounts w ∧ strcaseeq (na_name a) name = true ∧ from_stmt a = Some a.
Proof.
  intros Hnd. unfold nickserv_db_get, rows. destruct (name_valid name); cbn [negb]; [|by split; [|intros (? & _)]].
  rewrite run_gets. destruct (sqlite_step "get" w); cbn [negb]; [|by split; [|intros (_ & ? & _)]]. rewrite run_gets.
  change (ns_accounts (w_nickserv w)) with (accounts w). simpl.
  destruct (find (named name) (accounts w)) as [b|] eqn:Hb.
  - apply find_some in Hb as [Hin%list_elem_of_In Hbn]. unfold named in Hbn. split.
    + destruct (from_stmt b) as [b'|] eqn:Hf; [|done]. pose proof (from_stmt_id _ _ Hf) as ->. intros [= <-]. done.
    + intros (_ & _ & Ha & Han & Hf). assert (b = a) as ->; [|by rewrite Hf]. apply (same_name_same_row (accounts w)); [done..|].
      unfold strcaseeq, streq in *. bools. apply bool_decide_eq_true. congruence.
  - split; [done|]. intros (_ & _ & Ha%list_elem_of_In & Han & _). pose proof (find_none _ _ Hb a Ha) as Hn. unfold named in Hn. congruence.
Qed.

(** Recording the time changes no credentials. *)
Lemma set_last_identified_credentials name t w :
  let w' := (nickserv_db_set_last_identified name t w).2 in
  calm w w' ∧ map credentials (accounts w') = map credentials (accounts w).
Proof.
  cbv zeta. split.
  - assert (does calm (nickserv_db_set_last_identified name t)) as H; [|apply (H w)].
    unfold nickserv_db_set_last_identified, update, rows, set_rows. frames.
  - pose proof (op_effect (SET_LAST_IDENTIFIED name t) w) as He. cbn [run_op] in He.
    destruct (nickserv_db_set_last_identified name t w) as [r w']. simpl. destruct He as [[_ ->]|(_ & _ & t0 & ->)]; [done|].
    rewrite map_map. apply map_ext. intros a. unfold selected. by case_if.
Qed.
Lemma record_identify_credentials name w :
  let w' := (record_successful_identify name w).2 in
  calm w w' ∧ map credentials (accounts w') = map credentials (accounts w).
Proof.
  unfold record_successful_identify, now. case_if; [done|]. rewrite run_gets. destruct (nickserv_db_opens w); [|done].
  cbn [when]. rewrite run_gets, run_bind. pose proof (set_last_identified_credentials name (w_now w) w) as H.
  by destruct (nickserv_db_set_last_identified name (w_now w) w).
Qed.

Lemma nickserv_identify_cases c name password w :
  NoDup (name_keys (accounts w)) →
  let '(ok, w') := nickserv_identify c name password w in
  map credentials (accounts w') = map credentials (accounts w) ∧
  if ok : bool then
    ∃ a, proves w c name password a ∧ w_clients w' = alter (apply_account (w_config w) a) c (w_clients w)
  else w_clients w' = w_clients w ∧ ∀ a, ¬ proves w c name password a.
Proof.
  intros Hnd. unfold nickserv_identify, client. rewrite run_gets.
  destruct (empty name || empty password) eqn:He.
  { split_and!; [done..|]. intros a Ha. destruct (proves_password _ _ _ _ _ Ha), (proves_readable _ _ _ _ _ Ha) as (_ & _ & Hv & _).
    destruct password, name; try done. }
  destruct (negb _ && negb _) eqn:Ho.
  { split_and!; [done..|]. intros a Ha. apply andb_prop in Ho as [Ho1 Ho2].
    destruct (proves_own _ _ _ _ _ Ha) as [E0|E0]; [by rewrite E0 in Ho1 | by rewrite E0 in Ho2]. }
  rewrite run_gets. destruct (nickserv_db_opens w) eqn:Hop; cbn [negb].
  2:{ split_and!; [done..|]. intros a Ha. destruct (proves_readable _ _ _ _ _ Ha). congruence. }
  rewrite run_bind, db_get_run. destruct ((nickserv_db_get name w).1) as [[a|]|] eqn:Hget.
  2, 3: split_and!; [done..|]; intros a Ha; destruct (proves_row _ _ _ _ _ Ha), (proves_readable _ _ _ _ _ Ha) as (_ & ? & ? & ?);
    pose proof (proj2 (db_get_Some w name a Hnd) ltac:(done)); congruence.
  assert (Honly : ∀ b, proves w c name password b → b = a).
  { intros b Hb. destruct (proves_row _ _ _ _ _ Hb), (proves_readable _ _ _ _ _ Hb) as (_ & ? & ? & ?).
    pose proof (proj2 (db_get_Some w name b Hnd) ltac:(done)). congruence. }
  destruct (na_enabled a) eqn:Hen; cbn [negb].
  2:{ split_and!; [done..|]. intros b Hb. pose proof (proves_enabled _ _ _ _ _ Hb). rewrite (Honly b Hb) in *. congruence. }
  rewrite run_bind. pose proof (auth_limit_clerical c "NickServ IDENTIFY" w) as Hcl.
  destruct (auth_limit_consume c "NickServ IDENTIFY" w) as [allowed w1] eqn:Hau. cbn [snd] in Hcl. unfold clerical in Hcl.
  assert (accounts w1 = accounts w ∧ w_clients w1 = w_clients w ∧ w_config w1 = w_config w) as (E1 & E2 & E3) by (by rewrite Hcl).
  destruct allowed; cbn [negb].
  2:{ unfold mret, ST_ret. rewrite E1, E2. split_and!; [done..|]. intros b Hb. pose proof (proves_allowed _ _ _ _ _ Hb) as H. by rewrite Hau in H. }
  destruct (argon2id_verify _ password) eqn:Hpw; cbn [negb].
  2:{ unfold mret, ST_ret. rewrite E1, E2. split_and!; [done..|]. intros b Hb. destruct (proves_password _ _ _ _ _ Hb). rewrite (Honly b Hb) in *. congruence. }
  rewrite run_bind. pose proof (record_identify_credentials (na_name a) w1) as [Hcalm Hcr].
  destruct (record_successful_identify (na_name a) w1) as [[] w2]. cbn [snd] in *. unfold calm in Hcalm. injection Hcalm as F0 _ F2 _ _ _ _ _.
  unfold config. rewrite run_gets, run_upd_client. unfold mret, ST_ret. split.
  - change (accounts (put_client _ _ w2)) with (accounts w2). by rewrite Hcr, E1.
  - exists a. apply db_get_Some in Hget as (Hv & Hs & Ha & Han & Hf); [|done]. split; [|by simpl; rewrite F0, F2, E2, E3].
    split; [done | done | done | | by rewrite Hau |].
    { split; [|done]. intros ->. by rewrite orb_true_r in He. }
    destruct (cl_account_name (the_client w c)) eqn:En; [by left|right]. by destruct (strcaseeq _ name).
Qed.

(** C15: the test IDENTIFY and SASL share gives an account to nobody else.
    [nickserv_identify] succeeds exactly when the database has an enabled account of that
    name whose hash verifies the password, the limit on checks allows one, and the client
    is not identified to another account; then the client alone is changed, and carries
    the account: its name, +r, and its host unless an operator set one, and no other mode.
    Otherwise no client changes.  Either way the rows keep all but the times of use. *)
Theorem identify_gives_the_proven_account c name password w :
  NoDup (name_keys (accounts w)) →
  let '(ok, w') := nickserv_identify c name password w in
  (ok = true ↔ ∃ a, proves w c name password a) ∧
  map credentials (accounts w') = map credentials (accounts w) ∧
  (ok = false → w_clients w' = w_clients w) ∧
  (ok = true → ∀ a, proves w c name password a →
     (∀ d, d ≠ c → w_clients w' !! d = w_clients w !! d) ∧
     ∀ K, w_clients w !! c = Some K → ∃ K', w_clients w' !! c = Some K' ∧ carries a K K').
Proof.
  intros Hnd. pose proof (nickserv_identify_cases c name password w Hnd) as H.
  destruct (nickserv_identify c name password w) as [[] w']; destruct H as [Hc H].
  - destruct H as (a & Ha & Hcl). split_and!; [by split; [eauto|] | done | done |]. intros _ b Hb.
    assert (b = a) as ->.
    { destruct (proves_row _ _ _ _ _ Ha), (proves_row _ _ _ _ _ Hb). apply (same_name_same_row (accounts w)); [done..|].
      unfold strcaseeq, streq in *. bools. apply bool_decide_eq_true. congruence. }
    rewrite Hcl. split; [intros d Hd; by rewrite lookup_alter_ne|]. intros K HK. rewrite lookup_alter_eq, HK.
    eexists. split; [done|]. apply apply_account_carries, (proves_readable _ _ _ _ _ Ha).
  - destruct H as [Hcl Hn]. split_and!; [|done..]. split; [done|]. intros (a & Ha). by destruct (Hn a).
Qed.

(** ** Recovering a nickname *)

(** The client is identified to an enabled account of that name. *)
Definition owns (w : World) (c : ptr) (nick : cstr) : Prop :=
  cl_account_name (the_client w c) ≠ [] ∧ strcaseeq (cl_account_name (the_client w c)) nick = true ∧
  ∃ a, a ∈ accounts w ∧ strcaseeq (na_name a) nick = true ∧ na_enabled a = true.

Lemma may_recover_owns w c nick : may_recover w c nick = true → owns w c nick.
Proof.
  unfold may_recover. cbv zeta. intros [[[H1 H2]%andb_prop _]%andb_prop H3]%andb_prop. split_and!; [by intros E0; rewrite E0 in H1 | done |].
  revert H3. unfold nickserv_db_get, rows. destruct (name_valid nick); [|done]. cbn [negb]. rewrite run_gets.
  destruct (sqlite_step "get" w); [|done]. cbn [negb]. rewrite run_gets. simpl. destruct (find _ _) as [b|] eqn:Hb; [|done].
  apply find_some in Hb as [Hin%list_elem_of_In Hn]. destruct (from_stmt b) as [b'|] eqn:Hf; [|done].
  pose proof (from_stmt_id _ _ Hf) as ->. by exists b.
Qed.

(** C16: GHOST and RECOVER act for the owner of a nickname only.  They keep the server
    sound and the sender connected, and change nobody, unless the sender is identified to
    the enabled account named by the first word and another client uses that nickname:
    then that client alone is disconnected, when GHOST or KILL was asked for, or else
    renamed to a guest nickname that nobody used. *)
Theorem recovery_belongs_to_the_owner c params ghost w :
  sound w → alive w c →
  let w' := (nickserv_recover c params ghost w).2 in
  sound w' ∧ alive w' c ∧
  (w_clients w' = w_clients w ∨
   ∃ nick t T, (strtok " " (default [] params)).1 = Some nick ∧ owns w c nick ∧
     t ≠ c ∧ w_clients w !! t = Some T ∧ fold_key (cl_nick T) = fold_key nick ∧
     if ghost || asks_kill params then w_clients w' = delete t (w_clients w)
     else w_clients w' = alter (set_cl_nick (guest_nick (cl_id T))) t (w_clients w) ∧
       ∀ d D, w_clients w !! d = Some D → fold_key (cl_nick D) ≠ fold_key (guest_nick (cl_id T))).
Proof.
  intros Hs Hc. destruct (nickserv_recover_stable c params ghost w Hs Hc) as (Hs' & Hc' & _). split_and!; [done..|].
  destruct (nickserv_recover_cases c params ghost w) as [[i ->]|(nick & t & Hn & Ha & Ht & Hne & E0)]; [by left|].
  destruct Hs as (Hw & _ & Hp). pose proof (proj1 (proj2 (wf_nicks w Hw) nick t) Ht) as (T & HT & Hnt & Hf).
  rewrite E0. unfold recover_target, client. rewrite run_gets. destruct (ghost || asks_kill params) eqn:Hk.
  - right. exists nick, t, T. split_and!; [done | by apply may_recover_owns | done..|].
    rewrite run_bind. match goal with |- context [server_disconnect t ?r w] =>
      destruct (disconnected_clients t r w T Hw HT) as (_ & Hd & _); destruct (server_disconnect t r w) as [[] w1] end.
    rewrite (nickserv_notice_quiet c _ w1). exact Hd.
  - rewrite run_bind. pose proof (recover_rename_spec t T w Hw Hp HT Hnt) as Hr.
    destruct (recover_rename t w) as [ok w1]. destruct Hr as (_ & Hr & Hok). rewrite (nickserv_notice_quiet c _ w1).
    cbn [w_clients set_w_io]. destruct ok; [|left; by subst]. right. exists nick, t, T.
    split_and!; [done | by apply may_recover_owns | done..|]. intros d D HD E1.
    pose proof (proj1 Hok eq_refl) as Hnone. destruct (guest_nick_shape (cl_id T)) as [Hg _].
    assert (hash_get (w_clients_by_nick w) (guest_nick (cl_id T)) = Some d); [|congruence].
    apply (wf_nicks w Hw). exists D. split_and!; [done | | done]. intros E2. rewrite E2 in E1. by destruct (guest_nick (cl_id T)).
Qed.
End AccountProps.
