(* ===== verification/CapProps.v ===== *)
(** * Capabilities, SASL and gateways

    CAP REQ is applied as a whole, SASL leads to the account IDENTIFY would give, and
    WEBIRC gives an address to the connections of authorized gateways only, with the
    registry of connections kept exact. *)

From S2P Require Import Prelude CString Modes HashTable MaskMatch Output World Channel Invariant Policy Tags Numerics Ircv3 Presence Env Cloak Register Connection Services Registry RegistryProps Sound Flood JoinPart Oper Accounts NickServ ChanDb ChanServ Cap Message MessageProps Query QueryProps OperProps ChanCmds Mode ModeProps SaCmds SaProps Stability Disconnects NickServProps AccountProps.

Section CapProps.
Context `{E : Env} `{S : Services} {R : Recipients}.

#[local] Hint Extern 5 (does tame _) => apply (does_quiet _); solve [eauto with frame] : frame.
#[local] Hint Extern 6 (does tame _) => apply does_tame; solve [eauto with frame] : frame.
#[local] Hint Extern 4 (does tame (upd_client _ _)) => apply upd_client_tame; by split : frame.

(** ** CAP and AUTHENTICATE are tame *)

Lemma send_cap_quiet c s x : does quiet (send_cap c s x).
Proof. unfold send_cap. frames. Qed.
#[local] Hint Resolve send_cap_quiet maybe_register_sober command_maybe_register_keeps : frame.
Lemma command_cap_tame c p : does tame (command_cap c p).
Proof. unfold command_cap. frames. Qed.

Lemma sasl_reset_tame c : does tame (sasl_reset_payload c).
Proof. unfold sasl_reset_payload. frames. Qed.
#[local] Hint Resolve sasl_reset_tame nickserv_identify_tame sync_client_tame account_notify_quiet : frame.
Lemma sasl_end_tame c n : does tame (sasl_end c n).
Proof. unfold sasl_end. frames. Qed.
#[local] Hint Resolve sasl_end_tame : frame.
Lemma sasl_append_tame c f : does tame (sasl_append_frame c f).
Proof. unfold sasl_append_frame. frames. Qed.
Lemma sasl_finish_tame c : does tame (sasl_finish_plain c).
Proof. unfold sasl_finish_plain, sasl_fail. frames. Qed.
#[local] Hint Resolve sasl_append_tame sasl_finish_tame : frame.
Lemma command_authenticate_tame c p : does tame (command_authenticate c p).
Proof. unfold command_authenticate, sasl_fail, sasl_too_long. frames. Qed.

(** ** The address and the id of a forwarded connection *)

Lemma counts_ok_from t m m' : (∀ key, from key m' = from key m) → counts_ok t m → counts_ok t m'.
Proof. intros H [H1 H2]. split; [done|]. intros key. by rewrite H2, H. Qed.

Lemma from_replace key c id ip (m : gmap ptr (N * cstr)) :
  from key (<[c := (id, ip)]> m) = (if decide (address_key ip = Some (fold_key key)) then 1 else 0) + from key (delete c m).
Proof. rewrite <-(insert_delete_eq m c). apply from_insert, lookup_delete_eq. Qed.

Lemma count_add_canonical ip ip' w :
  canonical_numeric_ip ip = canonical_numeric_ip ip' → connection_count_add ip w = connection_count_add ip' w.
Proof. intros H. unfold connection_count_add. by rewrite H. Qed.
Lemma count_remove_canonical ip ip' w :
  canonical_numeric_ip ip = canonical_numeric_ip ip' → connection_count_remove ip w = connection_count_remove ip' w.
Proof. intros H. unfold connection_count_remove. by rewrite H. Qed.

(** The counters after a move are those of the clients with the new address. *)
Lemma count_move_plentiful old new : does plentiful (server_connection_count_move old new).
Proof.
  unfold server_connection_count_move. pose proof count_add_plentiful. pose proof count_remove_plentiful.
  pose proof plentiful_silent. frames.
Qed.

Lemma count_move_spec w m c id old new :
  counts_ok (w_connection_counts_by_ip w) m → m !! c = Some (id, old) →
  let '(ok, w') := server_connection_count_move old new w in
  ∃ t l, w' = set_w_alloc l (set_w_connection_counts_by_ip t w) ∧
    if ok : bool then counts_ok t (<[c := (id, new)]> m) else t = w_connection_counts_by_ip w.
Proof.
  intros Hm Hc. unfold server_connection_count_move.
  assert (Hsame : ∃ t l, w = set_w_alloc l (set_w_connection_counts_by_ip t w) ∧ t = w_connection_counts_by_ip w).
  { exists (w_connection_counts_by_ip w), (w_alloc w). split; [by destruct w | done]. }
  destruct (canonical_numeric_ip old) as [old_key|] eqn:Eo; [|exact Hsame].
  destruct (canonical_numeric_ip new) as [new_key|] eqn:En; [|exact Hsame]. rewrite run_gets.
  destruct (hash_get _ old_key) as [[|n]|] eqn:G; [exact Hsame | | exact Hsame].
  destruct (streq old_key new_key) eqn:Hk.
  - unfold streq in Hk. bools. subst new_key. exists (w_connection_counts_by_ip w), (w_alloc w). split; [by destruct w|].
    apply (counts_ok_from _ m); [|done]. intros key. rewrite from_replace, (from_delete key c id old m Hc).
    unfold address_key. by rewrite Eo, En.
  - set (x := fresh (dom m)). assert (Hx : m !! x = None) by (apply not_elem_of_dom, is_fresh).
    assert (Hxc : x ≠ c) by (intros E0; rewrite E0, Hc in Hx; done).
    rewrite run_bind, (count_add_canonical new_key new w) by (by rewrite En; apply (canonical_idempotent new)).
    pose proof (count_add_spec new w m x id Hm Hx) as Ha.
    destruct (connection_count_add new w) as [added w1]. destruct Ha as (t1 & l1 & -> & Ht1).
    destruct added; cbn [negb]; [|by exists t1, l1]. rewrite run_bind.
    rewrite (count_remove_canonical old_key old) by (by rewrite Eo; apply (canonical_idempotent old)).
    assert (Hc' : <[x := (id, new)]> m !! c = Some (id, old)) by (by rewrite lookup_insert_ne).
    match goal with |- context [connection_count_remove old ?v] => destruct (count_remove_spec v _ c id old Ht1 Hc') as (t2 & -> & Ht2) end.
    exists t2, l1. split; [done|]. revert Ht2. apply counts_ok_from. intros key.
    rewrite from_replace, delete_insert_ne, (from_insert key x) by (try done; by rewrite lookup_delete_ne). done.
Qed.

(** The client under its new id. *)
Definition renumbered (c : ptr) (id : N) (t : HashTable ptr) (l : list bool) (w : World) : World :=
  put_client c (set_cl_id id) (set_w_next_client_id id (set_w_clients_by_id t (set_w_alloc l w))).

Lemma identities_put c f w K :
  w_clients w !! c = Some K → identities (put_client c f w) = <[c := (cl_id (f K), cl_real_ip (f K))]> (identities w).
Proof.
  intros HK. apply map_eq. intros x. unfold identities. simpl. destruct (decide (x = c)) as [->|Hx].
  - by rewrite lookup_fmap, lookup_alter_eq, HK, lookup_insert_eq.
  - by rewrite lookup_insert_ne, !lookup_fmap, lookup_alter_ne by congruence.
Qed.
Lemma identities_lookup w c K : w_clients w !! c = Some K → identities w !! c = Some (cl_id K, cl_real_ip K).
Proof. intros H. unfold identities. by rewrite lookup_fmap, H. Qed.

Lemma reassign_run c K w :
  sound w → w_clients w !! c = Some K →
  (server_reassign_client_id c w = (false, w)) ∨
  ∃ t l, server_reassign_client_id c w = (true, renumbered c (w_next_client_id w + 1) t l w) ∧
    Forall (λ b, b = true) l ∧ table_wf t ∧
    ∀ k, hash_get t k = if decide (fold_key (client_id_key (cl_id K)) = fold_key k) then None else
      if decide (fold_key (client_id_key (w_next_client_id w + 1)) = fold_key k) then Some c else hash_get (w_clients_by_id w) k.
Proof.
  intros (Hw & Hr & Hp) HK. unfold server_reassign_client_id, client. rewrite !run_gets.
  destruct (_ =? _)%N; [by left|]. right. cbv zeta. unfold alloc. rewrite run_bind, run_gets.
  change (w_clients_by_id (set_w_alloc _ w)) with (w_clients_by_id w).
  pose proof (hash_set_spec (hd true (w_alloc w)) (w_clients_by_id w) (client_id_key (w_next_client_id w + 1)) c (proj1 (reg_ids w Hr))) as Hs.
  destruct (hash_set _ _ _ c) as [rc t']. destruct Hs as (Ht' & Hget & _ & Hok).
  assert (rc = 0%Z) as -> by (apply Hok; unfold plenty in Hp; by destruct Hp). cbn [negb Z.eqb].
  rewrite !run_modify, run_upd_client.
  assert (the_client w c = K) as -> by (unfold the_client; by rewrite HK).
  pose proof (hash_remove_spec t' (client_id_key (cl_id K)) Ht') as Hrem. destruct (hash_remove t' _) as [r t] eqn:Et.
  destruct Hrem as (Ht & _ & Hrem). exists t, (tail (w_alloc w)). split_and!; [done | by destruct Hp | done |].
  intros k. rewrite Hrem. case_decide; [done|]. by apply Hget.
Qed.

Lemma renumbered_sound c K t l w :
  sound w → w_clients w !! c = Some K → Forall (λ b, b = true) l → table_wf t →
  (∀ k, hash_get t k = if decide (fold_key (client_id_key (cl_id K)) = fold_key k) then None else
     if decide (fold_key (client_id_key (w_next_client_id w + 1)) = fold_key k) then Some c else hash_get (w_clients_by_id w) k) →
  sound (renumbered c (w_next_client_id w + 1) t l w).
Proof.
  intros (Hw & [H1 H2 [H3 H3'] H4 H5 H6] & Hp) HK Hl Ht Hget. pose proof (identities_lookup w c K HK) as Hi.
  unfold renumbered. set (id := (w_next_client_id w + 1)%N) in *. set (w1 := set_w_next_client_id id _).
  assert (identities (put_client c (set_cl_id id) w1) = <[c := (id, cl_real_ip K)]> (identities w)) as Hid
    by (by rewrite (identities_put c _ w1 K HK)).
  split_and!; [apply put_client_wf; [done|]; by apply (wf_same_state w) | | exact Hl].
  split; rewrite ?Hid; simpl; [done | | split; [done|] | | |done].
  - intros x. rewrite H2. destruct (decide (x = c)) as [->|]; [rewrite lookup_insert_eq, Hi; split; eauto | by rewrite lookup_insert_ne].
  - intros id' x. rewrite Hget. destruct (decide (fold_key (client_id_key (cl_id K)) = _)) as [E1%client_id_key_inj|Hn].
    + split; [done|]. intros (ip & [[<- Hx]|[Hx Hx']]%lookup_insert_Some).
      * assert (cl_id K ≤ w_next_client_id w)%N by (by eapply H4). injection Hx as Hx _. subst id. lia.
      * assert (hash_get (w_clients_by_id w) (client_id_key id') = Some x) as G1 by (apply H3'; eauto).
        assert (hash_get (w_clients_by_id w) (client_id_key id') = Some c) as G2 by (apply H3'; subst; eauto). congruence.
    + destruct (decide (fold_key (client_id_key id) = _)) as [<-%client_id_key_inj|Hn'].
      * split; [intros [= <-]; exists (cl_real_ip K); apply lookup_insert_eq|].
        intros (ip & [[<- _]|[_ Hx]]%lookup_insert_Some); [done|]. apply H4 in Hx. subst id. lia.
      * rewrite H3'. split; intros (ip & Hx).
        -- exists ip. rewrite lookup_insert_ne; [done|]. intros <-. rewrite Hi in Hx. by simplify_eq.
        -- apply lookup_insert_Some in Hx as [[<- Hx]|[_ Hx]]; [by simplify_eq | eauto].
  - intros x id' ip [[<- Hx]|[_ Hx]]%lookup_insert_Some; [by simplify_eq|]. apply H4 in Hx. subst id. lia.
  - revert H5. apply counts_ok_from. intros key. by rewrite from_replace, (from_delete key c (cl_id K) (cl_real_ip K) _ Hi).
Qed.

(** The client under its new address. *)
Lemma readdressed_sound c K g ip t l w :
  sound w → w_clients w !! c = Some K → Forall (λ b, b = true) l → counts_ok t (<[c := (cl_id K, ip)]> (identities w)) →
  (∀ K, cl_id (g K) = cl_id K ∧ cl_real_ip (g K) = ip ∧ same_client_shape K (g K)) →
  sound (put_client c g (set_w_alloc l (set_w_connection_counts_by_ip t w))).
Proof.
  intros (Hw & [H1 H2 [H3 H3'] H4 H5 H6] & Hp) HK Hl Ht Hg. pose proof (identities_lookup w c K HK) as Hi.
  set (w1 := set_w_alloc l _). assert (Hid : identities (put_client c g w1) = <[c := (cl_id K, ip)]> (identities w)).
  { rewrite (identities_put c g w1 K HK). by destruct (Hg K) as (-> & -> & _). }
  assert (Hlk : ∀ x id, (∃ ip0, <[c := (cl_id K, ip)]> (identities w) !! x = Some (id, ip0)) ↔ ∃ ip0, identities w !! x = Some (id, ip0)).
  { intros x id. destruct (decide (x = c)) as [->|]; [rewrite lookup_insert_eq, Hi | by rewrite lookup_insert_ne].
    split; intros (ip0 & [= <- <-]); eauto. }
  split_and!; [apply put_client_wf; [intros; apply Hg|]; by apply (wf_same_state w) | | exact Hl].
  split; rewrite ?Hid; simpl; [done | | split; [done|] | |done|done].
  - intros x. rewrite H2. destruct (decide (x = c)) as [->|]; [rewrite lookup_insert_eq, Hi; split; eauto | by rewrite lookup_insert_ne].
  - intros id x. by rewrite H3', Hlk.
  - intros x id ip0 Hx. assert (∃ ip0, identities w !! x = Some (id, ip0)) as [ip1 Hx'] by (apply Hlk; eauto). eauto.
Qed.

Lemma spent_sound t l w :
  sound w → Forall (λ b, b = true) l → t = w_connection_counts_by_ip w → sound (set_w_alloc l (set_w_connection_counts_by_ip t w)).
Proof.
  intros (Hw & [H1 H2 H3 H4 H5 H6] & Hp) Hl ->. split_and!; [by apply (wf_same_state w) | by split | exact Hl].
Qed.

Lemma gateway_client_shape cfg t p g h ip K :
  length ip ≤ IRC_IP_MAX →
  let K' := gateway_client cfg t p g h ip K in
  cl_id K' = cl_id K ∧ cl_real_ip K' = ip ∧ same_client_shape K K' ∧ cl_inbuf K' = cl_inbuf K.
Proof. intros Hl. split_and!; [done| |done|done]. apply (snprintf_id (IRC_IP_MAX + 1)). lia. Qed.

Lemma webirc_refuse_quiet c f : does quiet (webirc_refuse c f).
Proof. unfold webirc_refuse. frames. Qed.
#[local] Hint Resolve webirc_refuse_quiet request_website_sober nospoof_request_website_keeps : frame.
#[local] Hint Extern 5 (does (stable _) _) => apply (does_quiet _); solve [eauto with frame] : frame.
#[local] Hint Extern 6 (does (stable _) _) => apply tame_stable; solve [eauto with frame] : frame.

(** A step that leaves a sound server, and then stable ones. *)
Lemma stable_from {A} c (m : M A) w w1 :
  sound w1 → alive w1 c → input w1 c = input w c → does (stable c) m →
  sound (m w1).2 ∧ alive (m w1).2 c ∧ input (m w1).2 c = input w c.
Proof. intros H1 H2 H3 Hm. destruct (Hm w1 H1 H2) as (? & ? & ?). split_and!; [done..|congruence]. Qed.

Lemma webirc_welcome_tame c p g : does tame (webirc_welcome c p g).
Proof. unfold webirc_welcome. frames. Qed.

(** The connection is ended, with no more than a new id, or goes on under its new address. *)
Lemma webirc_accept_cases c p g h ip w K :
  length ip ≤ IRC_IP_MAX → sound w → w_clients w !! c = Some K →
  ∃ v, sound v ∧ input v c = input w c ∧
    ((∃ f m, (∀ K, same_client_shape K (f K) ∧ cl_real_ip (f K) = cl_real_ip K ∧ cl_modes (f K) = cl_modes K) ∧
        w_clients v = alter f c (w_clients w) ∧ does quiet m ∧ returns COMMAND_DISCONNECT_CLIENT m ∧ webirc_accept c p g h ip w = m v) ∨
     (server_connection_limit_reached w ip (Some K) = false ∧
        w_clients v = alter (λ K, gateway_client (w_config w) (w_now w) p g h ip (set_cl_id (w_next_client_id w + 1) K)) c (w_clients w) ∧
        webirc_accept c p g h ip w = webirc_welcome c p g v)).
Proof.
  intros Hl Hs HK. unfold webirc_accept, config, client. rewrite !run_gets.
  assert (the_client w c = K) as -> by (unfold the_client; by rewrite HK).
  assert (Hrefuse : ∀ (why : M unit) f0 v f, does quiet why → sound v → input v c = input w c → w_clients v = alter f c (w_clients w) →
    (∀ K, same_client_shape K (f K) ∧ cl_real_ip (f K) = cl_real_ip K ∧ cl_modes (f K) = cl_modes K) → ∀ P,
    ∃ v0, sound v0 ∧ input v0 c = input w c ∧
    ((∃ f m, (∀ K, same_client_shape K (f K) ∧ cl_real_ip (f K) = cl_real_ip K ∧ cl_modes (f K) = cl_modes K) ∧
        w_clients v0 = alter f c (w_clients w) ∧ does quiet m ∧ returns COMMAND_DISCONNECT_CLIENT m ∧
        (why ;; webirc_refuse c f0) v = m v0) ∨ P v0)).
  { intros why f0 v f H1 H2 H3 H4 H5 P. exists v. split_and!; [done..|]. left. exists f, (why ;; webirc_refuse c f0).
    split_and!; [done..|frames| |done]. unfold webirc_refuse. eauto with irc. }
  destruct (server_connection_limit_reached _ _ _).
  { apply (Hrefuse _ _ w id); [frames|done|done|by rewrite alter_id|done]. }
  rewrite run_bind. destruct (reassign_run c K w Hs HK) as [->|(t & l & -> & Hal & Ht & Hget)]; cbn [negb].
  { apply (Hrefuse _ _ w id); [frames|done|done|by rewrite alter_id|done]. }
  pose proof (renumbered_sound c K t l w Hs HK Hal Ht Hget) as Hs1.
  assert (Hcl : w_clients (renumbered c (w_next_client_id w + 1) t l w) = alter (set_cl_id (w_next_client_id w + 1)) c (w_clients w)) by done.
  assert (Hsame : w_config (renumbered c (w_next_client_id w + 1) t l w) = w_config w ∧ w_now (renumbered c (w_next_client_id w + 1) t l w) = w_now w) by done.
  set (w1 := renumbered _ _ _ _ _) in *. rewrite run_bind.
  assert (HK1 : w_clients w1 !! c = Some (set_cl_id (w_next_client_id w + 1) K)) by (by rewrite Hcl, lookup_alter_eq, HK).
  pose proof (count_move_spec w1 _ c _ (cl_real_ip K) ip (reg_counts w1 (proj1 (proj2 Hs1))) (identities_lookup w1 c _ HK1)) as Hm.
  pose proof (count_move_plentiful (cl_real_ip K) ip w1 (proj2 (proj2 Hs1))) as Hp.
  assert (Hin : input w1 c = input w c) by (unfold input, the_client; by rewrite HK1, HK).
  clearbody w1. destruct (server_connection_count_move _ _ w1) as [moved w2]. destruct Hm as (t2 & l2 & -> & Hm). cbn [snd] in Hp.
  destruct moved; cbn [negb].
  2:{ apply (Hrefuse _ _ _ (set_cl_id (w_next_client_id w + 1))); [frames | by apply spent_sound | exact Hin | exact Hcl | done]. }
  unfold now. rewrite run_gets, run_upd_client. change (w_now (set_w_alloc _ _)) with (w_now w1). destruct Hsame as [_ ->].
  set (f := gateway_client _ _ _ _ _ _). eexists. split_and!; [| |right; split_and!; [done| |reflexivity]].
  - apply (readdressed_sound c (set_cl_id (w_next_client_id w + 1) K) f ip t2 l2 w1); [done..|]. intros K'.
    by destruct (gateway_client_shape (w_config w) (w_now w) p g h ip K' Hl) as (? & ? & ? & _).
  - rewrite <-Hin. unfold input, the_client. simpl. by rewrite lookup_alter_eq, HK1.
  - simpl. rewrite Hcl. by rewrite alter_alter_eq.
Qed.

Lemma webirc_accept_stable c p g h ip : length ip ≤ IRC_IP_MAX → does (stable c) (webirc_accept c p g h ip).
Proof.
  intros Hl w Hs [K HK]. destruct (webirc_accept_cases c p g h ip w K Hl Hs HK) as (v & Hv & Hi & Hcase).
  assert (alive v c) as Ha.
  { unfold alive. destruct Hcase as [(f & m & _ & -> & _)|(_ & -> & _)]; rewrite lookup_alter_eq, HK; eauto. }
  destruct Hcase as [(f & m & _ & _ & Hq & _ & ->)|(_ & _ & ->)]; apply stable_from; try done.
  - by apply (does_quiet _).
  - apply tame_stable, webirc_welcome_tame.
Qed.

Lemma canonical_supplied_fits ip t : canonical_supplied ip = Some (Some t) → length t ≤ IRC_IP_MAX.
Proof.
  unfold canonical_supplied. destruct (inet_pton_v4 ip) as [a|]; [|destruct (inet_pton_v6 ip) as [a|]; [|done]];
    intros [= (x & _ & Hx)%bind_Some]; destruct (Nat.leb_spec (length x) IRC_IP_MAX); by simplify_eq.
Qed.
Lemma command_webirc_stable c p : does (stable c) (command_webirc c p).
Proof.
  unfold command_webirc. frames. apply webirc_accept_stable. by eapply canonical_supplied_fits.
Qed.

(** *** What WEBIRC changes *)

(** The other clients keep their records. *)
Definition others_same (c : ptr) (w w' : World) : Prop := ∀ d, d ≠ c → w_clients w' !! d = w_clients w !! d.
#[local] Instance others_silent c : Silent (others_same c).
Proof.
  split; [split; unfold others_same; [done|]|].
  - intros w1 w2 w3 A B d Hd. by rewrite B, A.
  - intros w w' H. unfold quiet in H. by rewrite H.
Qed.
Lemma others_upd c f : does (others_same c) (upd_client c f).
Proof. intros w d Hd. simpl. by rewrite lookup_alter_ne by congruence. Qed.
#[local] Hint Resolve others_upd : frame.
#[local] Hint Extern 5 (does (others_same _) _) => apply (does_quiet _); solve [eauto with frame] : frame.

(** Where a connection comes from, and what was told about it. *)
Definition origin (K : Client) :=
  (cl_real_ip K, cl_real_host K, cl_id K, cl_webirc_active K, cl_webirc_gateway_ip K, cl_modes K, cl_nick K).

Lemma webirc_welcome_origin c p g :
  does (others_same c) (webirc_welcome c p g) ∧ does (same_at origin c) (webirc_welcome c p g) ∧
  returns COMMAND_KEEP_CLIENT (webirc_welcome c p g).
Proof.
  unfold webirc_welcome, nospoof_request_website, keep. split_and!; [frames | frames | eauto with irc].
Qed.

(** The gateway may speak for the address: it is configured with this address and
    password, the address is one, and its clients are not too many. *)
Record vouches (w : World) (K : Client) (params : cstr) (ip : cstr) : Prop := {
  vouches_once : cl_registered K = false ∧ cl_webirc_active K = false;
  vouches_gateway : ∃ password gateway_name supplied_host supplied_ip g,
    webirc_params params = Some (password, gateway_name, supplied_host, supplied_ip) ∧
    g ∈ webirc_gateways (w_config w) ∧ webirc_ip_equal (gw_ip g) (snprintf (IRC_IP_MAX + 1) (cl_real_ip K)) = true ∧
    gw_password g = password ∧ canonical_supplied supplied_ip = Some (Some ip);
  vouches_room : server_connection_limit_reached w ip (Some K) = false }.

Lemma command_webirc_cases c params K w :
  w_clients w !! c = Some K →
  (∃ m, does quiet m ∧ returns COMMAND_DISCONNECT_CLIENT m ∧ command_webirc c params w = m w) ∨
  (∃ p gn sh ip, params = Some p ∧ (cl_registered K = false ∧ cl_webirc_active K = false) ∧
     (∃ password gateway_name supplied_host supplied_ip g,
        webirc_params p = Some (password, gateway_name, supplied_host, supplied_ip) ∧
        g ∈ webirc_gateways (w_config w) ∧ webirc_ip_equal (gw_ip g) (snprintf (IRC_IP_MAX + 1) (cl_real_ip K)) = true ∧
        gw_password g = password ∧ canonical_supplied supplied_ip = Some (Some ip)) ∧
     length ip ≤ IRC_IP_MAX ∧
     command_webirc c params w = webirc_accept c (snprintf (IRC_IP_MAX + 1) (cl_real_ip K)) gn sh ip w).
Proof.
  intros HK. assert (HKc : the_client w c = K) by (unfold the_client; by rewrite HK).
  assert (Hno : ∀ (why : M unit) f, does quiet why → ∃ m, does quiet m ∧ returns COMMAND_DISCONNECT_CLIENT m ∧ (why ;; webirc_refuse c f) w = m w).
  { intros why f H1. exists (why ;; webirc_refuse c f). split_and!; [frames| |done]. unfold webirc_refuse. eauto with irc. }
  unfold command_webirc, config, client. rewrite !run_gets, HKc. destruct params as [p|]; [|left; apply Hno; frames].
  destruct (_ || _) eqn:Hon; [left; apply Hno; frames|]. bools.
  destruct (webirc_params p) as [[[[password gn] sh] sip]|] eqn:Hp; [|left; apply Hno; frames].
  case_bool_decide as Hg; [left; apply Hno; frames|]. destruct (authorized_gateway _ _ _) as [g|] eqn:Hau; [|done].
  apply find_some in Hau as [Hin%list_elem_of_In Hgp]. apply andb_prop in Hgp as [Hip Hpw]. unfold password_equal, streq in Hpw. bools.
  destruct (canonical_supplied sip) as [[ip|]|] eqn:Hc; [right| |left; apply Hno; frames].
  - exists p, gn, sh, ip. split_and!; [done..| |by eapply canonical_supplied_fits|done].
    by exists password, gn, sh, sip, g.
  - left. exists (webirc_refuse c webirc_setup_failed). split_and!; [frames| |done]. unfold webirc_refuse. eauto with irc.
Qed.

(** C18: WEBIRC gives a connection another address on the word of a configured gateway
    only.  It keeps the server sound, the registry of connections exact, and every other
    client's record; and either it ends the connection, whose address, host and modes are
    still its own, or the client spoke from a configured gateway with its password, before
    registration and for the first time, and named an address with room under the
    connection limit: then it goes on under that address, without a host name, with a new
    id and +V, and its old address noted as the gateway's. *)
Theorem webirc_trusts_gateways_only c params K w :
  sound w → w_clients w !! c = Some K →
  let '(r, w') := command_webirc c params w in
  let K' := the_client w' c in
  sound w' ∧ alive w' c ∧ others_same c w w' ∧
  ((r = COMMAND_DISCONNECT_CLIENT ∧ cl_real_ip K' = cl_real_ip K ∧ cl_modes K' = cl_modes K) ∨
   ∃ p ip, r = COMMAND_KEEP_CLIENT ∧ params = Some p ∧ vouches w K p ip ∧
     origin K' = (ip, [], (w_next_client_id w + 1)%N, true, snprintf (IRC_IP_MAX + 1) (cl_real_ip K),
       client_mode_add (cl_modes K) CLIENT_MODE_WEBIRC, cl_nick K)).
Proof.
  intros Hs HK. pose proof (command_webirc_stable c params w Hs (mk_is_Some _ _ HK)) as (Hs' & Ha & _).
  assert (HKc : the_client w c = K) by (unfold the_client; by rewrite HK).
  destruct (command_webirc_cases c params K w HK) as [(m & Hq & Hr & E0)|(p & gn & sh & ip & Hp & Ho & Hg & Hl & E0)]; rewrite E0 in *.
  - destruct (run_quiet m w Hq) as (r & i & E1). pose proof (Hr w) as E2. rewrite E1 in *. simpl in *. subst r.
    split_and!; [done..|]. left. change (the_client (set_w_io i w) c) with (the_client w c). by rewrite HKc.
  - destruct (webirc_accept_cases c (snprintf (IRC_IP_MAX + 1) (cl_real_ip K)) gn sh ip w K Hl Hs HK) as (v & _ & _ & [H|H]).
    + destruct H as (f & m & Hf & Hcl & Hq & Hr & E1). rewrite E1 in *.
      destruct (run_quiet m v Hq) as (r & i & E2). pose proof (Hr v) as E3. rewrite E2 in *. simpl in *. subst r.
      split_and!; [done..| |].
      * intros d Hd. simpl. by rewrite Hcl, lookup_alter_ne by congruence.
      * left. change (the_client (set_w_io i v) c) with (the_client v c). unfold the_client. rewrite Hcl, lookup_alter_eq, HK.
        simpl. by destruct (Hf K) as (_ & -> & ->).
    + destruct H as (Hroom & Hcl & E1). rewrite E1 in *.
      destruct (webirc_welcome_origin c (snprintf (IRC_IP_MAX + 1) (cl_real_ip K)) gn) as (H1 & H2 & H3).
      specialize (H1 v). specialize (H2 v). specialize (H3 v). destruct (webirc_welcome _ _ _ v) as [r w']. simpl in *. subst r.
      split_and!; [done..| |].
      * intros d Hd. by rewrite (H1 d Hd), Hcl, lookup_alter_ne by congruence.
      * right. exists p, ip. split_and!; [done|done|by split|]. rewrite H2.
        set (K1 := gateway_client (w_config w) (w_now w) (snprintf (IRC_IP_MAX + 1) (cl_real_ip K)) gn sh ip (set_cl_id (w_next_client_id w + 1) K)).
        assert (the_client v c = K1) as -> by (unfold the_client; by rewrite Hcl, lookup_alter_eq, HK).
        pose proof (gateway_client_shape (w_config w) (w_now w) (snprintf (IRC_IP_MAX + 1) (cl_real_ip K)) gn sh ip (set_cl_id (w_next_client_id w + 1) K) Hl) as (E2 & E3 & (E4 & _) & _).
        fold K1 in E2, E3, E4. unfold origin. rewrite E2, E3, E4. unfold K1. cbn -[snprintf IRC_IP_MAX client_mode_add N.add].
        by rewrite (snprintf_id (IRC_IP_MAX + 1) (snprintf _ _)) by (unfold snprintf; rewrite length_take; lia).
Qed.

(** ** Capability requests *)

(** The word asks for the capability [name], to have it or to lose it. *)
Definition asks (token name : cstr) : option bool :=
  if Ascii.eqb (char0 token) "-" then (if streq (tail token) name then Some false else None)
  else if streq token name then Some true else None.
(** What the last word about [name] asks for. *)
Definition last_asked (words : list cstr) (name : cstr) : option bool :=
  foldl (λ acc token, match asks token name with Some b => Some b | None => acc end) None words.
Lemma last_asked_from words name acc :
  foldl (λ acc token, match asks token name with Some b => Some b | None => acc end) acc words =
  match last_asked words name with Some b => Some b | None => acc end.
Proof.
  unfold last_asked. revert acc. induction words as [|token words IH]; intros acc; [done|]. cbn [foldl].
  rewrite IH, (IH (match asks token name with Some b => Some b | None => None end)).
  by destruct (foldl _ None words), (asks token name).
Qed.
Definition known_word (token : cstr) : Prop := ∃ name b, (name, b) ∈ capabilities ∧ is_Some (asks token name).

(** The table, as names and bit positions. *)
Lemma capability_bit_spec name b : capability_bit name = b → b ≠ 0%N → (name, b) ∈ capabilities.
Proof.
  unfold capability_bit. destruct (find _ capabilities) as [[n b']|] eqn:Hf; [|by intros <-].
  apply find_some in Hf as [Hin%list_elem_of_In Hn]. simpl in *. unfold streq in Hn. bools. by intros <- _; subst.
Qed.
Lemma capabilities_facts :
  Forall (λ e, capability_bit e.1 = e.2 ∧ e.1 ≠ [] ∧ char0 e.1 ≠ "-"%char ∧ e.2 = bit (N.log2 e.2)) capabilities ∧
  NoDup (map (λ e, N.log2 e.2) capabilities).
Proof.
  split; [repeat constructor; try done|]. apply (bool_decide_eq_true_1 _). vm_compute. reflexivity.
Qed.
Lemma capability_bit_of name b : (name, b) ∈ capabilities → capability_bit name = b ∧ name ≠ [] ∧ char0 name ≠ "-"%char ∧ b = bit (N.log2 b).
Proof. intros H. destruct capabilities_facts as [Hf _]. rewrite Forall_forall in Hf. exact (Hf _ H). Qed.

Lemma has_cap_bit p b : b = bit (N.log2 b) → has_cap p b = N.testbit p (N.log2 b).
Proof. intros H. unfold has_cap. rewrite H at 1. apply mode_has_bit. Qed.

Lemma same_capability n1 b1 n2 b2 : (n1, b1) ∈ capabilities → (n2, b2) ∈ capabilities → N.log2 b1 = N.log2 b2 → n1 = n2.
Proof.
  intros [i Hi]%list_elem_of_lookup [j Hj]%list_elem_of_lookup H. destruct capabilities_facts as [_ Hnd].
  assert (i = j) as ->; [|congruence]. apply (NoDup_lookup _ i j (N.log2 b1) Hnd); rewrite list_lookup_fmap.
  - by rewrite Hi.
  - rewrite Hj. simpl. by rewrite H.
Qed.

(** The capability a word is about, and what it asks for. *)
Definition word_name (token : cstr) : cstr := if Ascii.eqb (char0 token) "-" then tail token else token.
Definition word_enables (token : cstr) : bool := negb (Ascii.eqb (char0 token) "-").
Lemma asks_spec token name : asks token name = if streq (word_name token) name then Some (word_enables token) else None.
Proof. unfold asks, word_name, word_enables. by destruct (Ascii.eqb _ _). Qed.

Lemma known_word_spec token : known_word token ↔ word_name token ≠ [] ∧ capability_bit (word_name token) ≠ 0%N.
Proof.
  split.
  - intros (name & b & Hin & H). rewrite asks_spec in H. unfold streq in H. case_bool_decide as E0; [|by destruct H].
    destruct (capability_bit_of name b Hin) as (Hb & Hne & _ & Hbit). rewrite E0. split; [done|]. rewrite Hb, Hbit. unfold bit.
    rewrite N.shiftl_1_l. by apply N.pow_nonzero.
  - intros [_ Hb]. exists (word_name token), (capability_bit (word_name token)).
    split; [by apply capability_bit_spec|]. rewrite asks_spec. unfold streq. rewrite bool_decide_true by done. eauto.
Qed.

(** One word changes the capability it names, and no other bit. *)
Lemma request_word_spec p token :
  match request_word p token with
  | None => ¬ known_word token
  | Some p' => known_word token ∧
      (∀ name b, (name, b) ∈ capabilities → has_cap p' b = match asks token name with Some e => e | None => has_cap p b end) ∧
      (∀ i, (∀ name b, (name, b) ∈ capabilities → b ≠ bit i) → N.testbit p' i = N.testbit p i)
  end.
Proof.
  unfold request_word. fold (word_name token). set (b := capability_bit (word_name token)).
  destruct (empty (word_name token) || _) eqn:He.
  - intros [H1 H2]%known_word_spec. apply orb_true_iff in He as [He|He]; [by destruct (word_name token)|].
    apply N.eqb_eq in He. by subst b.
  - apply orb_false_elim in He as [He Hb]. apply N.eqb_neq in Hb.
    assert (Hin : (word_name token, b) ∈ capabilities) by (by apply capability_bit_spec).
    destruct (capability_bit_of _ _ Hin) as (_ & Hne & _ & Hbit). split; [by apply known_word_spec|].
    set (n := N.log2 b) in *. rewrite Hbit.
    assert (Hset : ∀ i, N.testbit (if Ascii.eqb (char0 token) "-" then N.ldiff p (bit n) else N.lor p (bit n)) i =
      if bool_decide (i = n) then word_enables token else N.testbit p i).
    { intros i. unfold word_enables. destruct (Ascii.eqb _ _); rewrite ?N.ldiff_spec, ?N.lor_spec, testbit_bit;
        by destruct (bool_decide _), (N.testbit p i). }
    split.
    + intros name b' Hin'. destruct (capability_bit_of _ _ Hin') as (_ & _ & _ & Hbit'). rewrite !has_cap_bit, Hset, asks_spec by done.
      unfold streq. case_bool_decide as E1; case_bool_decide as E2; [done| | |done].
      * destruct E2. symmetry. eapply same_capability; [exact Hin' | exact Hin | exact E1].
      * destruct E1. subst name. destruct (capability_bit_of _ _ Hin') as (<- & _). done.
    + intros i Hi. rewrite Hset. case_bool_decide as E1; [|done]. destruct (Hi _ _ Hin). by rewrite Hbit, E1.
Qed.

Lemma request_words_spec words p :
  match request_words p words with
  | None => ¬ Forall known_word words
  | Some p' => Forall known_word words ∧
      (∀ name b, (name, b) ∈ capabilities → has_cap p' b = default (has_cap p b) (last_asked words name)) ∧
      (∀ i, (∀ name b, (name, b) ∈ capabilities → b ≠ bit i) → N.testbit p' i = N.testbit p i)
  end.
Proof.
  revert p. induction words as [|token words IH]; intros p; [done|]. cbn [request_words].
  pose proof (request_word_spec p token) as Hw. destruct (request_word p token) as [p1|]; [|by intros [? _]%Forall_cons].
  destruct Hw as (Hk & Hc & Ho). specialize (IH p1). destruct (request_words p1 words) as [p2|]; [|by intros [_ ?]%Forall_cons].
  destruct IH as (Hk' & Hc' & Ho'). split_and!; [by constructor| |].
  - intros name b Hin. rewrite (Hc' name b Hin), (Hc name b Hin).
    unfold last_asked at 2. cbn [foldl]. rewrite last_asked_from. unfold last_asked. by destruct (asks token name), (foldl _ None words).
  - intros i Hi. by rewrite Ho', Ho.
Qed.

(** The request a CAP command makes, if it makes one. *)
Definition cap_request (params : cstr) : option cstr :=
  let '(subcommand, rest) := strtok " " params in
  match subcommand with
  | Some sub =>
      if negb (strcaseeq sub "LS") && negb (strcaseeq sub "LIST") && strcaseeq sub "REQ"
      then Some (default [] (drop_while (λ ch, Ascii.eqb ch " " || Ascii.eqb ch ":") <$> strtok_rest rest)) else None
  | None => None
  end.

(** What a request would leave of a capability. *)
Definition wanted (enabled : N) (request name : cstr) (b : N) : bool :=
  default (has_cap enabled b) (last_asked (tokens " " (snprintf IRCD_MESSAGE_BUFFER_SIZE request)) name).
(** Every word is known, and labeled responses come with batches. *)
Definition acceptable (enabled : N) (request : cstr) : Prop :=
  request ≠ [] ∧ Forall known_word (tokens " " (snprintf IRCD_MESSAGE_BUFFER_SIZE request)) ∧
  (wanted enabled request "labeled-response" CLIENT_CAP_LABELED_RESPONSE = true → wanted enabled request "batch" CLIENT_CAP_BATCH = true).

Lemma requested_capabilities_spec enabled request :
  match requested_capabilities enabled (Some request) with
  | None => ¬ acceptable enabled request
  | Some p => acceptable enabled request ∧ (∀ name b, (name, b) ∈ capabilities → has_cap p b = wanted enabled request name b) ∧
      (∀ i, (∀ name b, (name, b) ∈ capabilities → b ≠ bit i) → N.testbit p i = N.testbit enabled i)
  end.
Proof.
  unfold requested_capabilities. destruct request as [|x request']; [by intros [? _]|]. set (request := x :: request') in *.
  pose proof (request_words_spec (tokens " " (snprintf IRCD_MESSAGE_BUFFER_SIZE request)) enabled) as H.
  destruct (request_words _ _) as [p|]; [|by intros (_ & ? & _)]. destruct H as (Hk & Hc & Ho).
  assert (Hl : has_cap p CLIENT_CAP_LABELED_RESPONSE = wanted enabled request "labeled-response" CLIENT_CAP_LABELED_RESPONSE)
    by (apply Hc; unfold capabilities; rewrite !elem_of_cons; tauto).
  assert (Hb : has_cap p CLIENT_CAP_BATCH = wanted enabled request "batch" CLIENT_CAP_BATCH)
    by (apply Hc; unfold capabilities; rewrite !elem_of_cons; tauto).
  rewrite Hl, Hb. destruct (_ && negb _) eqn:Hx.
  - intros (_ & _ & H). apply andb_prop in Hx as [H1 H2]. rewrite (H H1) in H2. done.
  - split_and!; [split_and!; [done..|] | done | done]. intros H1. rewrite H1 in Hx. by destruct (wanted _ _ "batch" _).
Qed.

Lemma maybe_register_capabilities c : does (same_at cl_capabilities c) (command_maybe_register c).
Proof.
  unfold command_maybe_register, registration_geo_banned, registration_dnsbl, registration_banned,
    registration_reject, registration_ban_policy_error, registration_refuse, send_welcome, presence_watch_online,
    client, config, now.
  frames. apply same_at_upd. intros K. by destruct (apply_cloak_form a K) as [host ->].
Qed.
#[local] Hint Resolve maybe_register_capabilities : frame.

(** LIST's text, requested by a client without capabilities, enables the same ones. *)
Lemma list_requests_the_same p :
  (p < 512)%N → p ≠ 0%N → (has_cap p CLIENT_CAP_LABELED_RESPONSE = true → has_cap p CLIENT_CAP_BATCH = true) →
  requested_capabilities 0 (Some (enabled_capabilities p)) = Some p.
Proof.
  intros Hp Hne Hb.
  assert (Hall : forallb (λ p, (p =? 0)%N || has_cap p CLIENT_CAP_LABELED_RESPONSE && negb (has_cap p CLIENT_CAP_BATCH) ||
    bool_decide (requested_capabilities 0 (Some (enabled_capabilities p)) = Some p)) (map N.of_nat (seq 0 512)) = true)
    by (vm_compute; reflexivity).
  rewrite forallb_forall in Hall. specialize (Hall p). assert (In p (map N.of_nat (seq 0 512))) as Hin.
  { apply in_map_iff. exists (N.to_nat p). rewrite N2Nat.id. split; [done|]. apply in_seq. lia. }
  apply Hall in Hin. apply orb_true_iff in Hin as [Hin|Hin]; [|by apply bool_decide_eq_true_1 in Hin].
  apply orb_true_iff in Hin as [Hin|Hin]; [by apply N.eqb_eq in Hin|]. apply andb_prop in Hin as [H1 H2]. by rewrite (Hb H1) in H2.
Qed.

(** C31: capability requests are applied as a whole.  CAP REQ enables and disables what
    its words say, the last word about a capability deciding, when it knows every word and
    the result has no labeled responses without batches; otherwise, and for the other
    subcommands, the capabilities stay.  The text LIST answers, sent as a request by a
    client without capabilities, gives it the same ones. *)
Theorem capability_requests_are_atomic c params w K :
  w_clients w !! c = Some K →
  let enabled := cl_capabilities K in
  let enabled' := cl_capabilities (the_client (command_cap c (Some params) w).2 c) in
  match cap_request params with
  | None => enabled' = enabled
  | Some request =>
      (¬ acceptable enabled request → enabled' = enabled) ∧
      (acceptable enabled request →
        (∀ name b, (name, b) ∈ capabilities → has_cap enabled' b = wanted enabled request name b) ∧
        (∀ i, (∀ name b, (name, b) ∈ capabilities → b ≠ bit i) → N.testbit enabled' i = N.testbit enabled i))
  end ∧
  ∀ p, (p < 512)%N → p ≠ 0%N → (has_cap p CLIENT_CAP_LABELED_RESPONSE = true → has_cap p CLIENT_CAP_BATCH = true) →
    requested_capabilities 0 (Some (enabled_capabilities p)) = Some p.
Proof.
  intros HK. split; [|apply list_requests_the_same].
  assert (HKc : the_client w c = K) by (unfold the_client; by rewrite HK). cbv zeta.
  assert (Hsame : ∀ m : M CommandResult, does (same_at cl_capabilities c) m → cl_capabilities (the_client (m w).2 c) = cl_capabilities K).
  { intros m Hm. specialize (Hm w). unfold same_at in Hm. by rewrite Hm, HKc. }
  unfold command_cap, cap_request. destruct (strtok " " params) as [[sub|] rest]; [|apply Hsame; frames].
  set (r := _ <$> strtok_rest rest).
  unfold client. rewrite run_gets, HKc.
  destruct (strcaseeq sub "LS"); cbn [negb andb]; [apply Hsame; unfold send_cap; frames|].
  destruct (strcaseeq sub "LIST"); cbn [negb andb]; [apply Hsame; unfold send_cap; frames|].
  destruct (strcaseeq sub "REQ"); cbn [negb andb]; [|case_if; apply Hsame; frames].
  assert (requested_capabilities (cl_capabilities K) r = requested_capabilities (cl_capabilities K) (Some (default [] r))) as -> by (by destruct r).
  pose proof (requested_capabilities_spec (cl_capabilities K) (default [] r)) as Hreq.
  destruct (requested_capabilities _ _) as [p|].
  - destruct Hreq as (Hacc & Hc & Ho). split; [done|]. intros _. rewrite run_upd_client, run_bind.
    destruct (run_quiet (send_cap c "ACK" (default [] r)) (put_client c (set_cl_cap_negotiating true) w)) as (u & i & ->); [apply send_cap_quiet|].
    rewrite run_upd_client. unfold keep, mret, ST_ret. cbn [snd].
    assert (cl_capabilities (the_client (put_client c (set_cl_capabilities p) (set_w_io i (put_client c (set_cl_cap_negotiating true) w))) c) = p) as ->; [|done].
    unfold the_client. simpl. by rewrite !lookup_alter_eq, HK.
  - split; [|done]. intros _. apply Hsame. unfold send_cap. frames.
Qed.

(** ** SASL *)

(** No client's record changes. *)
Definition clients_same (w w' : World) : Prop := w_clients w' = w_clients w.
#[local] Instance clients_same_silent : Silent clients_same.
Proof.
  split; [split; unfold clients_same; [done | intros ???; congruence]|]. intros w w' H. unfold quiet in H. by rewrite H.
Qed.
#[local] Hint Extern 5 (does clients_same _) => apply (does_quiet _); solve [eauto with frame] : frame.
Lemma sync_client_clients c : does clients_same (chanserv_sync_client_privileges c).
Proof.
  unfold chanserv_sync_client_privileges. frames. eapply serviced_all; [|apply sync_member_serviced]. by intros w w' (f & i & k & _ & ->).
Qed.
#[local] Hint Resolve sync_client_clients : frame.

Definition failed_exchange (K : Client) : Client := set_cl_sasl_state CLIENT_SASL_FAILED (set_cl_sasl_buffer [] K).
Definition complete_exchange (K : Client) : Client := set_cl_sasl_state CLIENT_SASL_COMPLETE (set_cl_sasl_buffer [] K).

Lemma sasl_end_clients c n w : w_clients (sasl_end c n w).2 = alter failed_exchange c (w_clients w).
Proof.
  unfold sasl_end, sasl_reset_payload. rewrite !run_upd_client.
  match goal with |- w_clients (?m ?v).2 = _ => assert (does clients_same m) as H by frames; rewrite (H v) end.
  simpl. by rewrite alter_alter_eq.
Qed.

Lemma alter_insert_eq' (f : Client → Client) c K (m : gmap ptr Client) : alter f c (<[c := K]> m) = <[c := f K]> m.
Proof.
  apply map_eq. intros i. destruct (decide (i = c)) as [->|]; [by rewrite lookup_alter_eq, !lookup_insert_eq|].
  by rewrite lookup_alter_ne, !lookup_insert_ne.
Qed.

(** The end of the payload: the exchange fails, or the client carries the account its
    credentials prove. *)
Lemma sasl_finish_cases c w K :
  w_clients w !! c = Some K → NoDup (name_keys (accounts w)) →
  w_clients (sasl_finish_plain c w).2 = alter failed_exchange c (w_clients w) ∨
  ∃ authzid authcid password a, sasl_credentials (cl_sasl_buffer K) = Some (authzid, authcid, password) ∧
    (authzid = [] ∨ strcaseeq authzid authcid = true) ∧ proves w c authcid password a ∧
    w_clients (sasl_finish_plain c w).2 = alter (λ K, complete_exchange (apply_account (w_config w) a K)) c (w_clients w).
Proof.
  intros HK Hnd. assert (HKc : the_client w c = K) by (unfold the_client; by rewrite HK).
  unfold sasl_finish_plain, config, client, sasl_fail. rewrite !run_gets, HKc.
  destruct (sasl_credentials _) as [[[authzid authcid] password]|]; [|left; apply sasl_end_clients].
  destruct (negb (empty authzid) && _) eqn:Hz; [left; apply sasl_end_clients|].
  rewrite run_bind. pose proof (nickserv_identify_cases c authcid password w Hnd) as Hi.
  destruct (nickserv_identify c authcid password w) as [[] w1]; cbn [negb]; destruct Hi as [_ Hi].
  - right. destruct Hi as (a & Ha & Hcl). exists authzid, authcid, password, a. split_and!; [done| |done|].
    { destruct authzid; [by left|right]. by destruct (strcaseeq _ authcid). }
    unfold sasl_reset_payload. rewrite run_upd_client, run_bind.
    match goal with |- context [when ?b ?m ?v] => assert (does clients_same (when b m)) as H1 by frames; specialize (H1 v); destruct (when b m v) as [[] w2] end.
    rewrite run_bind. assert (does clients_same (memoserv_notify_unread c)) as H2 by frames. specialize (H2 w2).
    destruct (memoserv_notify_unread c w2) as [[] w3]. rewrite run_upd_client.
    match goal with |- w_clients (?m ?v).2 = _ => assert (does clients_same m) as H3 by frames; rewrite (H3 v) end.
    simpl in *. rewrite H2, H1. simpl. rewrite Hcl, !alter_alter_eq. done.
  - left. destruct Hi as [Hcl _]. rewrite sasl_end_clients. by rewrite Hcl.
Qed.

(** Outside an exchange no payload is kept, and in one it stays within its limit. *)
Definition payload_ok (K : Client) : Prop :=
  length (cl_sasl_buffer K) ≤ IRCD_SASL_ENCODED_MAX ∧ (cl_sasl_state K ≠ CLIENT_SASL_PLAIN_WAIT_DATA → cl_sasl_buffer K = []).

(** The payload a frame completes carries credentials that prove the account. *)
Definition authenticates (c : ptr) (K : Client) (frame : cstr) (w : World) (a : NickServAccount) : Prop :=
  cl_sasl_state K = CLIENT_SASL_PLAIN_WAIT_DATA ∧ has_cap (cl_capabilities K) CLIENT_CAP_SASL = true ∧
  ∃ authzid authcid password w1,
    sasl_credentials (cl_sasl_buffer K ++ (if streq frame "+" then [] else frame)) = Some (authzid, authcid, password) ∧
    (authzid = [] ∨ strcaseeq authzid authcid = true) ∧ accounts w1 = accounts w ∧ proves w1 c authcid password a.

(** The outcomes of AUTHENTICATE for the record of its sender. *)
Inductive exchanged (c : ptr) (K : Client) (frame : cstr) (w : World) : Client → Prop :=
  | EXCHANGE_IGNORED : exchanged c K frame w K
  | EXCHANGE_FAILED b : exchanged c K frame w (failed_exchange (set_cl_sasl_buffer b K))
  | EXCHANGE_STARTED : exchanged c K frame w (set_cl_sasl_state CLIENT_SASL_PLAIN_WAIT_DATA (set_cl_sasl_buffer [] K))
  | EXCHANGE_CONTINUED : cl_sasl_state K = CLIENT_SASL_PLAIN_WAIT_DATA →
      length (cl_sasl_buffer K ++ frame) ≤ IRCD_SASL_ENCODED_MAX → exchanged c K frame w (set_cl_sasl_buffer (cl_sasl_buffer K ++ frame) K)
  | EXCHANGE_COMPLETED b cfg a : authenticates c K frame w a →
      exchanged c K frame w (complete_exchange (apply_account cfg a (set_cl_sasl_buffer b K))).

Definition first_word (s : cstr) : cstr := (span (Ascii.eqb " ") s).1.

Lemma authenticate_outcome c p w K :
  w_clients w !! c = Some K → NoDup (name_keys (accounts w)) →
  ∃ K', w_clients (command_authenticate c (Some p) w).2 = <[c := K']> (w_clients w) ∧ exchanged c K (first_word p) w K'.
Proof.
  intros HK Hnd. assert (HKc : the_client w c = K) by (unfold the_client; by rewrite HK).
  assert (Hq : ∀ m : M CommandResult, does quiet m → ∃ K', w_clients (m w).2 = <[c := K']> (w_clients w) ∧ exchanged c K (first_word p) w K').
  { intros m Hm. exists K. specialize (Hm w). unfold quiet in Hm. rewrite Hm. simpl. rewrite insert_id by done. split; [done|constructor]. }
  assert (Hend : ∀ n b w1, w_clients w1 = <[c := set_cl_sasl_buffer b K]> (w_clients w) →
    ∃ K', w_clients ((sasl_end c n ;; keep) w1).2 = <[c := K']> (w_clients w) ∧ exchanged c K (first_word p) w K').
  { intros n b w1 H1. exists (failed_exchange (set_cl_sasl_buffer b K)). split; [|constructor].
    rewrite run_bind. pose proof (sasl_end_clients c n w1) as H2. destruct (sasl_end c n w1) as [[] w2]. simpl in *.
    rewrite H2, H1. apply alter_insert_eq'. }
  assert (Hself : w_clients w = <[c := set_cl_sasl_buffer (cl_sasl_buffer K) K]> (w_clients w)) by (rewrite insert_id; [done|by destruct K]).
  assert (Hfinish : ∀ w1 b, w_clients w1 = <[c := set_cl_sasl_buffer b K]> (w_clients w) → accounts w1 = accounts w →
    cl_sasl_state K = CLIENT_SASL_PLAIN_WAIT_DATA → has_cap (cl_capabilities K) CLIENT_CAP_SASL = true →
    b = cl_sasl_buffer K ++ (if streq (first_word p) "+" then [] else first_word p) →
    ∃ K', w_clients ((sasl_finish_plain c ;; keep) w1).2 = <[c := K']> (w_clients w) ∧ exchanged c K (first_word p) w K').
  { intros w1 b H1 H2 Hst Hcap Hb. assert (HK1 : w_clients w1 !! c = Some (set_cl_sasl_buffer b K)) by (by rewrite H1, lookup_insert_eq).
    rewrite run_bind. pose proof (sasl_finish_cases c w1 _ HK1 ltac:(by rewrite H2)) as Hf.
    destruct (sasl_finish_plain c w1) as [[] w2]. simpl in *. destruct Hf as [->|(z & n & pw & a & Hc & Hz & Hp & ->)]; rewrite H1, alter_insert_eq'.
    - eexists. split; [done|constructor].
    - eexists. split; [done|]. constructor. split_and!; [done..|]. exists z, n, pw, w1. subst b. done. }
  unfold command_authenticate, config, client, sasl_fail, sasl_too_long. rewrite !run_gets, HKc.
  destruct p as [|x p']; [by apply Hq; frames|]. set (p := x :: p') in *. fold (first_word p).
  assert (Hstart : ∃ K', w_clients ((if negb (strcaseeq (first_word p) "PLAIN") then sasl_end c ERR_SASLFAIL ;; keep else
      sasl_reset_payload c ;; upd_client c (set_cl_sasl_state CLIENT_SASL_PLAIN_WAIT_DATA) ;; reply c "AUTHENTICATE +" []) w).2 =
      <[c := K']> (w_clients w) ∧ exchanged c K (first_word p) w K').
  { case_if; [by eapply Hend|]. eexists. split; [|apply EXCHANGE_STARTED]. unfold sasl_reset_payload. rewrite !run_upd_client.
    rewrite (reply_quiet c "AUTHENTICATE +" [] _). simpl.
    rewrite Hself at 1. by rewrite !alter_insert_eq'. }
  destruct (cl_sasl_state K) eqn:Hst; [| |apply Hq; frames|];
    (destruct (has_cap (cl_capabilities K) CLIENT_CAP_SASL) eqn:Hcap; cbn [negb]; [|by eapply Hend]);
    (destruct (streq (first_word p) "*"); [by eapply Hend|]); [exact Hstart| |exact Hstart].
  clear Hstart. case_if; [by eapply Hend|]. destruct (streq (first_word p) "+") eqn:Hplus.
  { apply (Hfinish w (cl_sasl_buffer K)); try done. by rewrite app_nil_r. }
  unfold sasl_append_frame, client. rewrite run_bind, run_gets, HKc. cbv zeta.
  destruct (_ || _) eqn:Hroom; [by eapply Hend|]. bools. rewrite run_bind.
  assert (Halloc : ∃ ok l, (if empty (first_word p) && negb (empty (cl_sasl_buffer K)) then mret true else alloc) w = (ok, set_w_alloc l w)).
  { case_if; [exists true, (w_alloc w); by destruct w | by eexists _, _]. }
  destruct Halloc as (ok & l & ->). destruct ok; cbn [negb]; [|by eapply Hend]. rewrite run_upd_client. unfold mret at 1, ST_ret at 1.
  cbn [Z.eqb Z.ltb Z.compare]. set (w1 := put_client _ _ _).
  assert (Hcl : w_clients w1 = <[c := set_cl_sasl_buffer (cl_sasl_buffer K ++ first_word p) K]> (w_clients w)).
  { unfold w1. simpl. rewrite Hself at 1. by rewrite alter_insert_eq'. }
  destruct (length (first_word p) <? IRCD_SASL_FRAME_MAX); cbn [when].
  - apply (Hfinish w1 (cl_sasl_buffer K ++ first_word p)); done.
  - eexists. split; [exact Hcl|]. apply EXCHANGE_CONTINUED; [done|]. rewrite length_app. lia.
Qed.

Lemma exchanged_payload c K frame w K' : payload_ok K → exchanged c K frame w K' → payload_ok K'.
Proof.
  intros [H1 H2] []; [done|split; simpl; [lia|done]|split; simpl; [lia|done]| |split; simpl; [lia|done]].
  split; [done|]. simpl. intros ?. congruence.
Qed.

(** C14: SASL leads to an account only by its password.  AUTHENTICATE changes no other
    client; it keeps at most 800 bytes of payload, and none once an exchange is over.  It
    changes the account of its sender, or completes an exchange, only in an exchange the
    client began and with the capability, when the payload collected with this frame
    decodes to credentials for which IDENTIFY would give that account, and no other
    identity is asked for; then the client carries the account's name and +r. *)
Theorem sasl_proves_the_account c params w K :
  w_clients w !! c = Some K → NoDup (name_keys (accounts w)) → payload_ok K →
  let w' := (command_authenticate c params w).2 in
  ∃ K', w_clients w' !! c = Some K' ∧ others_same c w w' ∧ payload_ok K' ∧
    (cl_account_name K' ≠ cl_account_name K ∨
     cl_sasl_state K ≠ CLIENT_SASL_COMPLETE ∧ cl_sasl_state K' = CLIENT_SASL_COMPLETE →
     ∃ p a, params = Some p ∧ authenticates c K (first_word p) w a ∧ cl_account_name K' = na_name a ∧
       client_mode_has (cl_modes K') CLIENT_MODE_REGISTERED = true ∧ cl_sasl_state K' = CLIENT_SASL_COMPLETE).
Proof.
  intros HK Hnd Hp. destruct params as [p|].
  2:{ exists K. split_and!; [done..|]. by intros [?|[? ?]]. }
  destruct (authenticate_outcome c p w K HK Hnd) as (K' & Hcl & Ho). exists K'. cbv zeta. split_and!.
  - by rewrite Hcl, lookup_insert_eq.
  - intros d Hd. by rewrite Hcl, lookup_insert_ne by congruence.
  - by eapply exchanged_payload.
  - destruct Ho as [| | | |b cfg a Ha]; try (by intros [?|[? ?]]).
    intros _. exists p, a. destruct Ha as (Hst & Hcap & z & n & pw & w1 & Hc & Hz & Hacc & Hpr).
    destruct (apply_account_carries cfg a (set_cl_sasl_buffer b K)) as [H1 H2 _ _ _ _]; [apply (proves_readable _ _ _ _ _ Hpr)|].
    split_and!; [done| |done|done|done]. split_and!; [done..|]. by exists z, n, pw, w1.
Qed.
End CapProps.
