(* ===== verification/ChanServProps.v ===== *)
(** * What ChanServ may do

    ChanServ's functions keep to the contract [Services] states for them; whatever is
    asked of ChanServ, the server stays sound and the client connected. *)

From S2P Require Import Prelude CString Modes HashTable MaskMatch Output World Channel Invariant Policy Tags Numerics Ircv3 Presence Env Cloak Register Connection Services Registry RegistryProps Sound Flood JoinPart Oper Accounts NickServ ChanDb ChanServ Cap Message MessageProps Query QueryProps OperProps ChanCmds Mode ModeProps SaCmds SaProps Stability Disconnects NickServProps AccountProps.

(** Membership and name are the same, as records. *)
Definition same_members (C C' : Channel) : Prop :=
  ch_name C' = ch_name C ∧ ch_members C' = ch_members C ∧ ch_member_count C' = ch_member_count C.

(** ** Calls for one channel *)

Lemma serviced_replace ch C' w :
  same_members (the_channel w ch) C' → serviced ch w (put_channel ch (λ _, C') w).
Proof.
  intros (E1 & E2 & E3).
  set (g := λ C, set_ch_member_count (ch_member_count C) (set_ch_members (ch_members C) (set_ch_name (ch_name C) C'))).
  exists g, (w_io w), 0. split; [intros C; by split_and!|].
  assert (put_channel ch (λ _, C') w = put_channel ch g w) as ->; [|by destruct w].
  unfold put_channel. f_equal. apply map_eq. intros i. destruct (decide (ch = i)) as [->|]; [|by rewrite !lookup_alter_ne].
  rewrite !lookup_alter_eq. unfold the_channel in *. destruct (w_channels w !! i) as [C|]; [|done]. simpl in *. f_equal.
  unfold g. rewrite <-E1, <-E2, <-E3. by destruct C'.
Qed.

Lemma with_member_serviced ch c f :
  (∀ m, m_client (f m) = m_client m) → (∀ m, privileges_ok (f m)) → does (serviced ch) (with_member ch c f).
Proof.
  intros H1 H2. unfold with_member, channel. frames. apply serviced_upd. intros C.
  apply upd_members_shape; [intros; by apply upd_member_ids | intros; by apply upd_member_Forall].
Qed.
Lemma forget_privileges_serviced ch : does (serviced ch) (channel_forget_service_privileges ch).
Proof.
  apply serviced_upd. intros C.
  apply (upd_members_shape (map (λ m, MkMember (m_client m) (N.lor (m_manual m) (m_service m)) (N.lor (m_manual m) (m_service m)) 0))).
  - intros l. by rewrite map_map.
  - intros l _. apply Forall_fmap, Forall_true. intros m. unfold privileges_ok. simpl. by rewrite N.lor_0_r.
Qed.
Lemma set_service_privileges_serviced ch c p : does (serviced ch) (channel_set_service_privileges ch c p).
Proof. by apply with_member_serviced. Qed.
Lemma remove_manual_privileges_serviced ch c p : does (serviced ch) (channel_remove_manual_privileges ch c p).
Proof. by apply with_member_serviced. Qed.
#[export] Hint Resolve forget_privileges_serviced set_service_privileges_serviced remove_manual_privileges_serviced
  serviced_alloc : frame.
#[export] Hint Extern 4 (does (serviced _) (upd_channel _ _)) =>
  apply serviced_upd; intros ?; split_and!; (reflexivity || (intros ?; assumption)) : frame.
#[export] Hint Extern 5 (does (serviced _) _) => apply (does_quiet _); solve [eauto with frame] : frame.

Section ChanServProps.
Context `{E : Env}.

(** ** The database *)

Lemma set_tables_quiet t : does quiet (set_tables t).
Proof. intros w. reflexivity. Qed.
#[local] Hint Resolve set_tables_quiet : frame.
Lemma chanserv_open_quiet : does quiet chanserv_db_open.
Proof. unfold chanserv_db_open. frames. Qed.
Lemma chanserv_get_quiet name : does quiet (chanserv_db_get name).
Proof. unfold chanserv_db_get, tables. frames. Qed.
Lemma chanserv_create_quiet n f d : does quiet (chanserv_db_create n f d).
Proof. unfold chanserv_db_create, tables. frames. Qed.
Lemma update_channel_quiet s n f : does quiet (update_channel s n f).
Proof. unfold update_channel, tables. frames. Qed.
#[local] Hint Resolve update_channel_quiet : frame.
Lemma db_set_description_quiet n d : does quiet (chanserv_db_set_description n d).
Proof. unfold chanserv_db_set_description. frames. Qed.
Lemma db_set_founder_quiet n d : does quiet (chanserv_db_set_founder n d).
Proof. unfold chanserv_db_set_founder. frames. Qed.
Lemma db_set_enabled_quiet n d : does quiet (chanserv_db_set_enabled n d).
Proof. unfold chanserv_db_set_enabled. frames. Qed.
Lemma db_set_mode_lock_quiet n d : does quiet (chanserv_db_set_mode_lock n d).
Proof. unfold chanserv_db_set_mode_lock. frames. Qed.
Lemma db_set_topic_quiet n a b t : does quiet (chanserv_db_set_topic n a b t).
Proof. unfold chanserv_db_set_topic. frames. Qed.
Lemma db_set_secure_ops_quiet n d : does quiet (chanserv_db_set_secure_ops n d).
Proof. unfold chanserv_db_set_secure_ops. frames. Qed.
Lemma db_set_successor_quiet n d : does quiet (chanserv_db_set_successor n d).
Proof. unfold chanserv_db_set_successor. frames. Qed.
Lemma db_set_greeting_quiet n d : does quiet (chanserv_db_set_greeting n d).
Proof. unfold chanserv_db_set_greeting. frames. Qed.
Lemma chanserv_delete_quiet n : does quiet (chanserv_db_delete n).
Proof. unfold chanserv_db_delete, tables. frames. Qed.
Lemma access_set_quiet n a l : does quiet (chanserv_db_access_set n a l).
Proof. unfold chanserv_db_access_set, tables. frames. Qed.
Lemma access_delete_quiet n a : does quiet (chanserv_db_access_delete n a).
Proof. unfold chanserv_db_access_delete, tables. frames. Qed.
Lemma access_get_quiet n a : does quiet (chanserv_db_access_get n a).
Proof. unfold chanserv_db_access_get, tables. frames. Qed.
Lemma access_rows_quiet f l : (∀ r, does quiet (f r)) → does quiet (access_rows f l).
Proof. intros Hf. induction l as [|r l IH]; cbn [access_rows]; frames. Qed.
Lemma access_foreach_quiet n f : (∀ r, does quiet (f r)) → does quiet (chanserv_db_access_foreach n f).
Proof. intros Hf. pose proof (λ l, access_rows_quiet f l Hf). unfold chanserv_db_access_foreach, tables. frames. Qed.
#[local] Hint Resolve chanserv_open_quiet chanserv_get_quiet chanserv_create_quiet db_set_description_quiet db_set_founder_quiet
  db_set_enabled_quiet db_set_mode_lock_quiet db_set_topic_quiet db_set_secure_ops_quiet db_set_successor_quiet
  db_set_greeting_quiet chanserv_delete_quiet access_set_quiet access_delete_quiet access_get_quiet : frame.

(** ** Parameters and mask lists *)

Lemma persist_save_quiet C : does quiet (chanserv_persist_save C).
Proof. unfold chanserv_persist_save, tables. frames. Qed.
#[local] Hint Resolve persist_save_quiet : frame.

Lemma restore_runtime_members row C C' : restore_runtime row C = Some C' → same_members C C'.
Proof. unfold restore_runtime. case_if; [done|]. intros [= <-]. by split_and!. Qed.
Lemma restore_mask_members ok row C C' : restore_mask ok row C = Some C' → same_members C C'.
Proof.
  unfold restore_mask. case_if; [done|]. unfold list_of_type. repeat case_match; simplify_eq/=; intros; simplify_eq/=; by split_and!.
Qed.

Lemma restore_masks_serviced ch rows : does (serviced ch) (restore_masks ch rows).
Proof.
  induction rows as [|row rows IH]; cbn [restore_masks]; [frames|]. intros w. unfold channel. rewrite run_gets, run_bind.
  match goal with |- context [if ?g then alloc else mret true] => set (m := if g then alloc else mret true) end.
  assert (serviced ch w (m w).2 ∧ the_channel (m w).2 ch = the_channel w ch) as [Hs HC0]
    by (unfold m; case_if; (split; [|reflexivity]); [apply serviced_alloc | reflexivity]).
  destruct (m w) as [ok w1]. cbn [snd] in Hs, HC0. etrans; [exact Hs|].
  destruct (restore_mask ok row _) as [C'|] eqn:HC; [|reflexivity].
  rewrite run_bind. etrans; [apply serviced_replace; rewrite HC0; apply (restore_mask_members _ _ _ _ HC) | apply IH].
Qed.
Lemma restore_rows_serviced ch : does (serviced ch) (restore_rows ch).
Proof.
  unfold restore_rows, tables. apply does_bind; [apply _ | frames|]. intros ok. case_if; [frames|].
  apply does_bind; [apply _ | frames|]. intros t w. unfold channel. rewrite run_gets. cbv zeta.
  match goal with |- serviced _ _ (match ?r with Some _ => _ | None => _ end _).2 => destruct r as [C'|] eqn:HC end; [|reflexivity].
  rewrite run_bind. etrans; [|apply restore_masks_serviced].
  apply serviced_replace. revert HC. case_match; [apply restore_runtime_members|]. intros [= <-]. by split_and!.
Qed.
#[local] Hint Resolve restore_rows_serviced : frame.
Lemma persist_restore_obeys ch : does (serviced ch) (persist_restore ch).
Proof. unfold persist_restore. frames. Qed.
End ChanServProps.

#[export] Hint Resolve set_tables_quiet chanserv_open_quiet chanserv_get_quiet chanserv_create_quiet db_set_description_quiet
  db_set_founder_quiet db_set_enabled_quiet db_set_mode_lock_quiet db_set_topic_quiet db_set_secure_ops_quiet db_set_successor_quiet
  db_set_greeting_quiet chanserv_delete_quiet access_set_quiet access_delete_quiet access_get_quiet persist_save_quiet
  persist_restore_obeys : frame.

(** ** Policies and privileges of live channels *)

Section ChanServ.
Context `{E : Env} `{S : Services}.

Lemma tell_chunks_quiet c fmt args l : does quiet (tell_chunks c fmt args l).
Proof. induction l as [|x l IH]; cbn [tell_chunks]; frames. Qed.
#[local] Hint Resolve tell_chunks_quiet : frame.
Lemma notice_from_quiet c fmt t : does quiet (notice_from c fmt t).
Proof. unfold notice_from. frames. Qed.
#[local] Hint Resolve notice_from_quiet : frame.
Lemma cs_notice_quiet c t : does quiet (cs_notice c t).
Proof. unfold cs_notice. frames. Qed.
Lemma admin_notice_quiet c t : does quiet (admin_notice c t).
Proof. unfold admin_notice. frames. Qed.
#[local] Hint Resolve cs_notice_quiet admin_notice_quiet : frame.

Lemma clear_policy_serviced ch : does (serviced ch) (clear_cached_policy ch).
Proof. unfold clear_cached_policy. frames. Qed.
#[local] Hint Resolve clear_policy_serviced : frame.
Lemma cache_policy_serviced ch r : does (serviced ch) (cache_policy ch r).
Proof. unfold cache_policy. frames. Qed.
#[local] Hint Resolve cache_policy_serviced : frame.
Lemma apply_registration_serviced ch n r : does (serviced ch) (upd_channel ch (apply_registration n r)).
Proof. apply serviced_upd. intros C. unfold apply_registration. cbv zeta. case_if; split_and!; (reflexivity || (intros ?; assumption)). Qed.
#[local] Hint Resolve apply_registration_serviced : frame.
Lemma load_policy_serviced ch b : does (serviced ch) (load_channel_policy ch b).
Proof. unfold load_channel_policy. frames. Qed.
Lemma real_persist_channel_quiet ch : does quiet (persist_channel ch).
Proof. unfold persist_channel. frames. Qed.

Lemma access_privileges_quiet n a : does quiet (access_privileges n a).
Proof. unfold access_privileges. frames. Qed.
#[local] Hint Resolve access_privileges_quiet : frame.
Lemma stored_privileges_quiet K n : does quiet (stored_privileges K n).
Proof. unfold stored_privileges. frames. Qed.
#[local] Hint Resolve stored_privileges_quiet : frame.
Lemma real_client_privileges_quiet c n : does quiet (client_privileges c n).
Proof. unfold client_privileges. frames. Qed.
#[local] Hint Resolve real_client_privileges_quiet : frame.

Lemma broadcast_privilege_quiet ch c p sign : does quiet (broadcast_privilege_change ch c p sign).
Proof. unfold broadcast_privilege_change. frames. Qed.
Lemma desired_quiet ch c : does quiet (desired_privileges ch c).
Proof. unfold desired_privileges. frames. Qed.
Lemma revoke_serviced ch c m p : does (serviced ch) (revoke_unauthorized ch c m p).
Proof. unfold revoke_unauthorized. frames. Qed.
#[local] Hint Resolve broadcast_privilege_quiet desired_quiet revoke_serviced : frame.
Lemma real_sync_member_serviced ch c : does (serviced ch) (sync_member ch c).
Proof. unfold sync_member. frames. Qed.
#[local] Hint Resolve real_sync_member_serviced : frame.
Lemma sync_account_serviced ch a : does (serviced ch) (sync_account ch a).
Proof. unfold sync_account. frames. Qed.
Lemma real_sync_channel_serviced ch : does (serviced ch) (sync_channel ch).
Proof. unfold sync_channel. frames. Qed.
End ChanServ.

(** ** The contract *)

(** ChanServ as the source has it, with the other services of [L]. *)
#[refine] Definition chanserv_services `{E : Env} (L : Services) : Services := {|
  chanserv_restore_channel ch := load_channel_policy ch false;
  chanserv_persist_restore := persist_restore;
  chanserv_client_privileges := client_privileges;
  chanserv_sync_channel_privileges := sync_channel;
  chanserv_persist_channel := persist_channel;
  sync_member_privileges := sync_member;
  memoserv_notify_unread := @memoserv_notify_unread L;
  channel_log_join := @channel_log_join L;
  channel_log_part := @channel_log_part L;
  channel_log_quit := @channel_log_quit L;
  channel_log_message := @channel_log_message L;
  channel_log_handle_chanserv := @channel_log_handle_chanserv L |}.
Proof.
  - intros. apply load_policy_serviced.
  - intros. apply persist_restore_obeys.
  - intros. apply real_client_privileges_quiet.
  - intros. apply real_sync_channel_serviced.
  - intros. apply real_sync_member_serviced.
  - apply notify_unread_quiet.
  - intros. apply real_persist_channel_quiet.
  - apply log_join_quiet.
  - apply log_part_quiet.
  - apply log_quit_quiet.
  - apply log_message_silent.
  - apply log_handle_quiet.
  - apply log_handle_tables.
Defined.

(** ** Messages to ChanServ leave the server sound *)

Section Commands.
Context `{E : Env} `{S : Services} {R : Recipients}.

Lemma serviced_tame {A} (m : M A) ch : does (serviced ch) m → does tame m.
Proof. intros H. apply does_tame; [by apply (serviced_sober m ch) | by eapply serviced_all; [apply serviced_keeps|]]. Qed.

#[local] Hint Resolve clear_policy_serviced cache_policy_serviced load_policy_serviced sync_account_serviced real_sync_channel_serviced
  real_sync_member_serviced : frame.
#[local] Hint Resolve cs_notice_quiet admin_notice_quiet real_persist_channel_quiet db_get_quiet : frame.
#[local] Hint Extern 5 (does tame _) => apply (does_quiet _); solve [eauto with frame] : frame.
#[local] Hint Extern 6 (does tame (?f ?ch _)) => apply (serviced_tame _ ch); solve [eauto with frame] : frame.
#[local] Hint Extern 6 (does tame (?f ?ch)) => apply (serviced_tame _ ch); solve [eauto with frame] : frame.

Lemma set_service_tame ch c p : does tame (channel_set_service_privileges ch c p).
Proof. apply (serviced_tame _ ch), set_service_privileges_serviced. Qed.
#[local] Hint Resolve set_service_tame : frame.
Lemma load_founder_quiet c n : does quiet (load_founder_channel c n).
Proof. unfold load_founder_channel. frames. Qed.
Lemma registrable_quiet c n : does quiet (registrable c n).
Proof. unfold registrable. frames. Qed.
Lemma enabled_account_quiet n : does quiet (enabled_account n).
Proof. unfold enabled_account. frames. Qed.
#[local] Hint Resolve load_founder_quiet registrable_quiet enabled_account_quiet : frame.

Lemma chanserv_register_tame c p : does tame (chanserv_register c p).
Proof.
  unfold chanserv_register. frames.
Qed.
Lemma chanserv_info_quiet c p : does quiet (chanserv_info c p).
Proof. unfold chanserv_info. frames. Qed.
Lemma chanserv_drop_tame c p : does tame (chanserv_drop c p).
Proof. unfold chanserv_drop. frames. Qed.
Lemma access_notice_quiet c n r : does quiet (access_list_notice c n r).
Proof. unfold access_list_notice. frames. Qed.
Lemma access_list_quiet c n : does quiet (access_list c n).
Proof. unfold access_list. pose proof (access_foreach_quiet n _ (access_notice_quiet c n)). frames. Qed.
Lemma access_delete_tame c n a : does tame (access_delete c n a).
Proof. unfold access_delete. frames. Qed.
Lemma access_add_tame c n a l : does tame (access_add c n a l).
Proof. unfold access_add. frames. Qed.
#[local] Hint Resolve access_list_quiet access_delete_tame access_add_tame : frame.
Lemma chanserv_access_tame c p : does tame (chanserv_access c p).
Proof. unfold chanserv_access. frames. Qed.

(** *** SET *)

Lemma service_mode_quiet ch a b : does quiet (broadcast_service_mode_change ch a b).
Proof. unfold broadcast_service_mode_change. frames. Qed.
Lemma service_topic_quiet ch : does quiet (broadcast_service_topic_change ch).
Proof. unfold broadcast_service_topic_change. frames. Qed.
#[local] Hint Resolve service_mode_quiet service_topic_quiet : frame.
#[local] Hint Extern 4 (does tame (upd_channel ?ch _)) =>
  apply (serviced_tame _ ch), serviced_upd; intros ?; split_and!; (reflexivity || (intros ?; assumption)) : frame.
Lemma on_live_tame n f : (∀ ch, does tame (f ch)) → does tame (on_live n f).
Proof. intros Hf. unfold on_live. frames. Qed.
#[local] Hint Extern 4 (does tame (on_live _ _)) => apply on_live_tame; intros ?; frames : frame.
Lemma set_mlock_tame c n v : does tame (set_mlock c n v).
Proof. unfold set_mlock. frames. Qed.
Lemma set_topiclock_tame c n v r : does tame (set_topiclock c n v r).
Proof. unfold set_topiclock. frames. Qed.
Lemma set_secureops_tame c n v : does tame (set_secureops c n v).
Proof. unfold set_secureops. frames. Qed.
Lemma set_successor_tame c n v r : does tame (set_successor c n v r).
Proof. unfold set_successor. frames. Qed.
Lemma set_greeting_tame c n v : does tame (set_greeting c n v).
Proof. unfold set_greeting. frames. Qed.
Lemma set_persistent_topic_tame c n v : does tame (set_persistent_topic c n v).
Proof. unfold set_persistent_topic. frames. Qed.
#[local] Hint Resolve set_mlock_tame set_topiclock_tame set_secureops_tame set_successor_tame set_greeting_tame
  set_persistent_topic_tame : frame.
Lemma chanserv_set_tame c p : does tame (chanserv_set c p).
Proof. unfold chanserv_set. frames. Qed.
#[local] Hint Resolve chanserv_register_tame chanserv_info_quiet chanserv_drop_tame chanserv_access_tame chanserv_set_tame : frame.
Lemma chanserv_message_tame c t : does tame (chanserv_handle_message c t).
Proof. unfold chanserv_handle_message. frames. Qed.
#[local] Hint Resolve chanserv_message_tame : frame.

(** *** CSINFO, CSSET, CSDROP and CHANSERV *)

Lemma admin_only_quiet c : does quiet (admin_only c).
Proof. unfold admin_only, require_netadmin. frames. Qed.
Lemma registration_line_quiet ch b : does quiet (registration_mode_line ch b).
Proof. unfold registration_mode_line. frames. Qed.
#[local] Hint Resolve admin_only_quiet registration_line_quiet : frame.
Lemma refresh_registration_tame n : does tame (refresh_and_broadcast_registration n).
Proof. unfold refresh_and_broadcast_registration. frames. Qed.
#[local] Hint Resolve refresh_registration_tame : frame.
Lemma csset_enabled_quiet n v : does quiet (csset_enabled n v).
Proof. unfold csset_enabled. frames. Qed.
Lemma csset_founder_quiet n v : does quiet (csset_founder n v).
Proof. unfold csset_founder. frames. Qed.
#[local] Hint Resolve csset_enabled_quiet csset_founder_quiet : frame.
Lemma csset_field_quiet n f v : does quiet (csset_field n f v).
Proof. unfold csset_field. frames. Qed.
#[local] Hint Resolve csset_field_quiet : frame.
Lemma command_csinfo_quiet c p : does quiet (command_csinfo c p).
Proof. unfold command_csinfo. frames. Qed.
Lemma command_csset_tame c p : does tame (command_csset c p).
Proof. unfold command_csset. frames. Qed.
Lemma command_csdrop_tame c p : does tame (command_csdrop c p).
Proof. unfold command_csdrop. frames. Qed.
#[local] Hint Resolve command_csdrop_tame : frame.
Lemma registration_exists_quiet n : does quiet (chanserv_registration_exists n).
Proof. unfold chanserv_registration_exists. frames. Qed.
Lemma broadcast_registration_quiet n b : does quiet (broadcast_registration_mode n b).
Proof. unfold broadcast_registration_mode. frames. Qed.
#[local] Hint Resolve registration_exists_quiet broadcast_registration_quiet : frame.
Lemma announce_registration_quiet c n a b x y : does quiet (announce_registration c n a b x y).
Proof. unfold announce_registration. frames. Qed.
Lemma chanserv_dispatch_tame c b p : does tame (chanserv_dispatch c b p).
Proof. unfold chanserv_dispatch. frames. Qed.
#[local] Hint Resolve announce_registration_quiet chanserv_dispatch_tame : frame.
Lemma command_chanserv_tame c p : does tame (command_chanserv c p).
Proof. unfold command_chanserv. frames. Qed.
End Commands.
