(* ===== verification/Registrations.v ===== *)
(** * Registrations are their founders'

    Whatever is sent to ChanServ, the rows about a channel change only for those who may
    change them. *)

From S2P Require Import Prelude CString Modes HashTable MaskMatch Output World Channel Invariant Policy Tags Numerics Ircv3 Presence Env Cloak Register Connection Services Registry RegistryProps Sound Flood JoinPart Oper Accounts NickServ ChanDb ChanServ Cap Message MessageProps Query QueryProps OperProps ChanCmds Mode ModeProps SaCmds SaProps Stability Disconnects NickServProps AccountProps ChanServProps.

Definition stored (w : World) : ChanServTables := io_chanserv (w_io w).

(** ** Names and rows *)

Lemma irc_fold_byte a b : byte a = byte b → a = b.
Proof. unfold byte. intros H. by rewrite <-(ascii_N_embedding a), <-(ascii_N_embedding b), H. Qed.
(** The database and the hash tables agree on which names are the same. *)
Lemma same_channel_spec a b : same_channel a b = true ↔ fold_key a = fold_key b.
Proof.
  unfold same_channel. rewrite Z.eqb_eq. revert b. induction a as [|x a IH]; intros [|y b]; simpl; [done..|].
  destruct (N.ltb_spec (byte (irc_fold x)) (byte (irc_fold y))) as [H|H]; [split; [done|intros [= E _]; rewrite E in H; lia]|].
  destruct (N.ltb_spec (byte (irc_fold y)) (byte (irc_fold x))) as [H'|H']; [split; [done|intros [= E _]; rewrite E in H'; lia]|].
  rewrite IH. assert (irc_fold x = irc_fold y) as -> by (apply irc_fold_byte; lia). split; [by intros -> | by intros [= ->]].
Qed.
Lemma same_channel_refl a : same_channel a a = true.
Proof. by apply same_channel_spec. Qed.
Lemma same_channel_sym a b : same_channel a b = same_channel b a.
Proof. apply eq_true_iff_eq. rewrite !same_channel_spec. by split. Qed.
Lemma same_channel_trans a b c : same_channel a b = true → same_channel a c = same_channel b c.
Proof. intros H%same_channel_spec. apply eq_true_iff_eq. rewrite !same_channel_spec. by rewrite H. Qed.
Lemma without_channel_ext a b t : same_channel a b = true → without_channel a t = without_channel b t.
Proof.
  intros H. assert (∀ x, same_channel x a = same_channel x b) as Hx
    by (intros x; rewrite !(same_channel_sym x); by apply same_channel_trans).
  unfold without_channel, registered_as. by f_equal; apply list_filter_iff; intros r; rewrite Hx.
Qed.

(** The registration of a channel, if it is enabled. *)
Definition registration (t : ChanServTables) (name : cstr) : option ChanServChannel :=
  match find (registered_as name) (ct_channels t) with
  | Some r => if cs_enabled r then Some r else None
  | None => None
  end.

(** ** Steps that change no row, and steps that change rows about one channel only *)

#[export] Instance same_tables_preorder : PreOrder same_tables.
Proof. split; unfold same_tables; [by intros ? | intros ??? A B; congruence]. Qed.

(** The rows about other channels stay, and so does the founder of this one. *)
Definition founder_of (name : cstr) (t : ChanServTables) : option cstr := cs_founder <$> find (registered_as name) (ct_channels t).
Definition edits (name : cstr) (w w' : World) : Prop :=
  without_channel name (stored w') = without_channel name (stored w) ∧ founder_of name (stored w') = founder_of name (stored w).
#[export] Instance edits_preorder name : PreOrder (edits name).
Proof. split; unfold edits; [by intros ? | intros ??? [A A'] [B B']; split; congruence]. Qed.
Lemma same_tables_edits name w w' : same_tables w w' → edits name w w'.
Proof. unfold edits, stored. intros H. by rewrite H. Qed.
Lemma tables_edits {A} name (m : M A) : does same_tables m → does (edits name) m.
Proof. apply does_weaken, same_tables_edits. Qed.

Lemma send_line_tables c line : does same_tables (send_line c line).
Proof. intros w. unfold send_line. by destruct (client_send_line _ _ _ _ _) as [[rc serial] conn]. Qed.
Lemma sendf_tables c fmt args : does same_tables (sendf c fmt args).
Proof. intros w. unfold sendf. destruct (fits _ _); [apply send_line_tables | done]. Qed.
Lemma upd_channel_tables ch f : does same_tables (upd_channel ch f).
Proof. by intros w. Qed.
Lemma alloc_tables : does same_tables alloc.
Proof. by intros w. Qed.
#[export] Hint Resolve send_line_tables sendf_tables upd_channel_tables alloc_tables log_handle_tables : frame.
#[export] Hint Extern 5 (does (edits _) _) => apply tables_edits; solve [eauto with frame] : frame.

Lemma tell_tables c fmt args : does same_tables (tell c fmt args).
Proof. unfold tell. frames. Qed.
#[export] Hint Resolve tell_tables : frame.
Lemma reply_tables c fmt args : does same_tables (reply c fmt args).
Proof. unfold reply. frames. Qed.
Lemma broadcast_tables ch x m : does same_tables (channel_broadcast ch x m).
Proof. unfold channel_broadcast. frames. Qed.
Lemma snotice_chunks_tables c server nick l : does same_tables (send_chunks c server nick l).
Proof. induction l; cbn [send_chunks]; frames. Qed.
#[export] Hint Resolve reply_tables broadcast_tables snotice_chunks_tables : frame.
Lemma notice_chunks_tables c t : does same_tables (send_server_notice_chunks c t).
Proof. unfold send_server_notice_chunks. frames. Qed.
#[export] Hint Resolve notice_chunks_tables : frame.
Lemma snotice_tables m fmt args : does same_tables (snotice_broadcast m fmt args).
Proof. unfold snotice_broadcast. frames. Qed.
Lemma require_registered_tables c `{E : Env} : does same_tables (command_require_registered c).
Proof. unfold command_require_registered. frames. Qed.
#[export] Hint Resolve snotice_tables require_registered_tables : frame.

Section Registrations.
Context `{E : Env} `{S : Services}.

(** ** What the statements of the database change *)

Lemma set_tables_edits name t w :
  without_channel name t = without_channel name (stored w) → founder_of name t = founder_of name (stored w) →
  edits name w (set_tables t w).2.
Proof. by split. Qed.

Lemma filter_map_kept {A} (P : A → bool) (f : A → A) l :
  (∀ a, P (f a) = P a) → (∀ a, P a = false → f a = a) → filter (λ a, P a = false) (map f l) = filter (λ a, P a = false) l.
Proof.
  intros H1 H2. induction l as [|a l IH]; [done|]. simpl. rewrite !filter_cons, H1, IH.
  case_decide as Ha; [by rewrite H2 | done].
Qed.

(** An update of the columns of one registration that keeps its name and its founder. *)
Lemma update_channel_edits s name f :
  (∀ r, cs_name (f r) = cs_name r ∧ cs_founder (f r) = cs_founder r) → does (edits name) (update_channel s name f).
Proof.
  intros Hf w. unfold update_channel, tables, now. rewrite run_gets. case_if; [reflexivity|]. rewrite !run_gets, run_bind.
  set (g := λ r, if registered_as name r then _ else r).
  assert (∀ r, registered_as name (g r) = registered_as name r) as Hg.
  { intros r. unfold g. case_if; [|done]. unfold registered_as. simpl. by rewrite (proj1 (Hf r)). }
  assert (∀ r, cs_founder (g r) = cs_founder r) as Hfo by (intros r; unfold g; case_if; [apply Hf | done]).
  apply set_tables_edits; unfold stored.
  - unfold without_channel. simpl. f_equal. apply filter_map_kept; [exact Hg|]. intros r Hr. unfold g. by rewrite Hr.
  - unfold founder_of. simpl. induction (ct_channels _) as [|r l IH]; simpl; [done|].
    rewrite Hg. destruct (registered_as name r); simpl; [by rewrite Hfo | exact IH].
Qed.
#[local] Hint Extern 3 (does (edits ?n) (update_channel _ ?n _)) => apply update_channel_edits; by split : frame.
Lemma set_mode_lock_edits n l : does (edits n) (chanserv_db_set_mode_lock n l).
Proof. unfold chanserv_db_set_mode_lock. frames. Qed.
Lemma set_topic_edits n a b t : does (edits n) (chanserv_db_set_topic n a b t).
Proof. unfold chanserv_db_set_topic. frames. Qed.
Lemma set_secure_ops_edits n b : does (edits n) (chanserv_db_set_secure_ops n b).
Proof. unfold chanserv_db_set_secure_ops. frames. Qed.
Lemma set_successor_edits n s : does (edits n) (chanserv_db_set_successor n s).
Proof. unfold chanserv_db_set_successor. frames. Qed.
Lemma set_greeting_edits n s : does (edits n) (chanserv_db_set_greeting n s).
Proof. unfold chanserv_db_set_greeting. frames. Qed.

(** Rows of the access list: the channel's own may be replaced. *)
Lemma set_access_edits name l t w :
  t = stored w →
  filter (λ r, same_channel (ca_channel r) name = false) l = filter (λ r, same_channel (ca_channel r) name = false) (ct_access t) →
  edits name w (set_tables (set_ct_access l t) w).2.
Proof. intros -> H. apply set_tables_edits; [|done]. unfold without_channel. simpl. by rewrite H. Qed.

Lemma access_set_edits channel account level : does (edits channel) (chanserv_db_access_set channel account level).
Proof.
  intros w. unfold chanserv_db_access_set, tables. case_if; [reflexivity|]. rewrite !run_gets. case_if; [reflexivity|]. cbv zeta.
  case_if; [|case_if; [|reflexivity]]; rewrite run_bind; apply (set_access_edits channel _ (stored w) w eq_refl).
  - apply filter_map_kept; intros r; destruct (grants_to channel account r) eqn:Hr; try done. intros Hc. unfold grants_to in Hr. by rewrite Hc in Hr.
  - rewrite filter_app, filter_cons. simpl. rewrite same_channel_refl. by rewrite decide_False, app_nil_r.
Qed.
Lemma access_delete_edits channel account : does (edits channel) (chanserv_db_access_delete channel account).
Proof.
  intros w. unfold chanserv_db_access_delete, tables. case_if; [reflexivity|]. rewrite run_gets. case_if; [reflexivity|].
  rewrite run_gets, run_bind. apply (set_access_edits channel _ (stored w) w eq_refl).
  rewrite list_filter_filter. apply list_filter_iff. intros r. unfold grants_to. split; [by intros [? _]|]. intros Hr. by rewrite Hr.
Qed.
#[local] Hint Resolve set_mode_lock_edits set_topic_edits set_secure_ops_edits set_successor_edits set_greeting_edits
  access_set_edits access_delete_edits : frame.

(** ** What only reads the tables *)

Lemma chanserv_open_tables : does same_tables chanserv_db_open.
Proof. unfold chanserv_db_open. frames. Qed.
Lemma chanserv_get_tables n : does same_tables (chanserv_db_get n).
Proof. unfold chanserv_db_get, ChanDb.tables. frames. Qed.
Lemma access_get_tables n a : does same_tables (chanserv_db_access_get n a).
Proof. unfold chanserv_db_access_get, ChanDb.tables. frames. Qed.
Lemma nickserv_get_tables n : does same_tables (nickserv_db_get n).
Proof. unfold nickserv_db_get, rows. frames. Qed.
Lemma access_rows_tables f l : (∀ r, does same_tables (f r)) → does same_tables (access_rows f l).
Proof. intros Hf. induction l as [|r l IH]; cbn [access_rows]; frames. Qed.
#[local] Hint Resolve chanserv_open_tables chanserv_get_tables access_get_tables nickserv_get_tables : frame.
Lemma restore_masks_tables ch rows : does same_tables (restore_masks ch rows).
Proof. induction rows as [|r l IH]; cbn [restore_masks]; frames. Qed.
#[local] Hint Resolve restore_masks_tables : frame.
Lemma persist_restore_tables ch : does same_tables (persist_restore ch).
Proof. unfold persist_restore, restore_rows, ChanDb.tables. frames. Qed.
#[local] Hint Resolve persist_restore_tables : frame.

Lemma tell_chunks_tables c fmt args l : does same_tables (tell_chunks c fmt args l).
Proof. induction l as [|x l IH]; cbn [tell_chunks]; frames. Qed.
#[local] Hint Resolve tell_chunks_tables : frame.
Lemma cs_notice_tables c t : does same_tables (cs_notice c t).
Proof. unfold cs_notice, notice_from. frames. Qed.
Lemma admin_notice_tables c t : does same_tables (admin_notice c t).
Proof. unfold admin_notice, notice_from. frames. Qed.
Lemma with_member_tables ch c f : does same_tables (with_member ch c f).
Proof. unfold with_member. frames. Qed.
Lemma clear_policy_tables ch : does same_tables (clear_cached_policy ch).
Proof. unfold clear_cached_policy, channel_forget_service_privileges. frames. Qed.
#[local] Hint Resolve cs_notice_tables admin_notice_tables with_member_tables clear_policy_tables : frame.
Lemma load_policy_tables ch b : does same_tables (load_channel_policy ch b).
Proof. unfold load_channel_policy, cache_policy. frames. Qed.
Lemma client_privileges_tables c n : does same_tables (client_privileges c n).
Proof. unfold client_privileges, stored_privileges, access_privileges. frames. Qed.
#[local] Hint Resolve load_policy_tables client_privileges_tables : frame.
Lemma sync_member_tables ch c : does same_tables (sync_member ch c).
Proof.
  unfold sync_member, desired_privileges, revoke_unauthorized, broadcast_privilege_change, channel_remove_manual_privileges,
    channel_set_service_privileges. frames.
Qed.
#[local] Hint Resolve sync_member_tables : frame.
Lemma sync_account_tables ch a : does same_tables (sync_account ch a).
Proof. unfold sync_account. frames. Qed.
Lemma sync_channel_tables ch : does same_tables (sync_channel ch).
Proof. unfold sync_channel. frames. Qed.
Lemma service_mode_tables ch a b : does same_tables (broadcast_service_mode_change ch a b).
Proof. unfold broadcast_service_mode_change. frames. Qed.
Lemma service_topic_tables ch : does same_tables (broadcast_service_topic_change ch).
Proof. unfold broadcast_service_topic_change. frames. Qed.
Lemma registration_line_tables ch b : does same_tables (registration_mode_line ch b).
Proof. unfold registration_mode_line. frames. Qed.
#[local] Hint Resolve sync_account_tables sync_channel_tables service_mode_tables service_topic_tables registration_line_tables : frame.
Lemma refresh_tables n : does same_tables (refresh_and_broadcast_registration n).
Proof. unfold refresh_and_broadcast_registration. frames. Qed.
Lemma registration_exists_tables n : does same_tables (chanserv_registration_exists n).
Proof. unfold chanserv_registration_exists. frames. Qed.
Lemma announce_tables c n a b x y : does same_tables (announce_registration c n a b x y).
Proof. unfold announce_registration, broadcast_registration_mode. frames. Qed.
Lemma enabled_account_tables n : does same_tables (enabled_account n).
Proof. unfold enabled_account. frames. Qed.
Lemma admin_only_tables c : does same_tables (admin_only c).
Proof. unfold admin_only, require_netadmin. frames. Qed.
Lemma load_founder_tables c n : does same_tables (load_founder_channel c n).
Proof. unfold load_founder_channel. frames. Qed.
Lemma access_list_tables c n : does same_tables (access_list c n).
Proof.
  assert (∀ r, does same_tables (access_list_notice c n r)) as Hr by (intros r; unfold access_list_notice; frames).
  pose proof (λ l, access_rows_tables _ l Hr). unfold access_list, chanserv_db_access_foreach, ChanDb.tables. frames.
Qed.
Lemma chanserv_info_tables c p : does same_tables (chanserv_info c p).
Proof. unfold chanserv_info. frames. Qed.
Lemma registrable_tables c n : does same_tables (registrable c n).
Proof. unfold registrable. frames. Qed.
#[local] Hint Resolve refresh_tables registration_exists_tables announce_tables enabled_account_tables admin_only_tables
  load_founder_tables access_list_tables chanserv_info_tables registrable_tables : frame.

(** ** The founder's settings *)

Lemma on_live_tables n f : (∀ ch, does same_tables (f ch)) → does same_tables (on_live n f).
Proof. intros Hf. unfold on_live. frames. Qed.
#[local] Hint Extern 4 (does same_tables (on_live _ _)) => apply on_live_tables; intros ?; frames : frame.
Lemma set_mlock_edits c n v : does (edits n) (set_mlock c n v).
Proof. unfold set_mlock. frames. Qed.
Lemma set_topiclock_edits c n v r : does (edits n) (set_topiclock c n v r).
Proof. unfold set_topiclock. frames. Qed.
Lemma set_secureops_edits c n v : does (edits n) (set_secureops c n v).
Proof. unfold set_secureops. frames. Qed.
Lemma set_channel_successor_edits c n v r : does (edits n) (set_successor c n v r).
Proof. unfold set_successor. frames. Qed.
Lemma set_channel_greeting_edits c n v : does (edits n) (set_greeting c n v).
Proof. unfold set_greeting. frames. Qed.
Lemma set_persistent_topic_edits c n v : does (edits n) (set_persistent_topic c n v).
Proof. unfold set_persistent_topic. frames. Qed.
Lemma access_del_edits c n a : does (edits n) (access_delete c n a).
Proof. unfold access_delete. frames. Qed.
Lemma access_add_edits c n a l : does (edits n) (access_add c n a l).
Proof. unfold access_add. frames. Qed.

(** A step that leaves no trace but outside the server, and none in the tables. *)
Lemma run_idle {A} (m : M A) w :
  does quiet m → does same_tables m → ∃ a i, m w = (a, set_w_io i w) ∧ io_chanserv i = stored w.
Proof.
  intros Hq Ht. destruct (run_quiet m w Hq) as (a & i & Hm). exists a, i. split; [done|]. specialize (Ht w). by rewrite Hm in Ht.
Qed.

Lemma chanserv_get_some n w r :
  (chanserv_db_get n w).1 = Some (Some r) → find (registered_as n) (ct_channels (stored w)) = Some r.
Proof.
  unfold chanserv_db_get, ChanDb.tables. case_if; [done|]. rewrite run_gets. case_if; [done|]. rewrite run_gets. simpl.
  destruct (find _ _) as [row|] eqn:Hf; [|done]. unfold registration_from_row. case_if; [|done]. by intros [= ->].
Qed.

(** Who may change the settings: the account that founded the registered channel. *)
Lemma load_founder_spec c name w :
  ∃ found i, load_founder_channel c name w = (found, set_w_io i w) ∧ io_chanserv i = stored w ∧
    ∀ r, found = Some r → ∃ n, name = Some n ∧ registration (stored w) n = Some r ∧ founder_matches r (the_client w c) = true.
Proof.
  destruct (run_idle (load_founder_channel c name) w) as (found & i & Hrun & Hi); [apply load_founder_quiet | frames|].
  exists found, i. split; [done|]. split; [done|]. intros r ->. revert Hrun. unfold load_founder_channel, client. rewrite run_gets. cbv zeta.
  assert (Hno : ∀ t, (cs_notice c t ;; mret (M := M) (None : option ChanServChannel)) w ≠ (Some r, set_w_io i w)).
  { intros t. rewrite run_bind. by destruct (cs_notice c t w). }
  destruct name as [n|]; [|intros Hx; by apply Hno in Hx]. case_if; [intros Hx; by apply Hno in Hx|].
  unfold chanserv_db_open. rewrite run_gets. case_if; [intros Hx; by apply Hno in Hx|]. rewrite run_bind.
  destruct (run_idle (chanserv_db_get n) w) as (g & j & Hg & Hj); [apply chanserv_get_quiet | frames|].
  pose proof (chanserv_get_some n w) as Hfind. rewrite Hg in Hfind |- *. cbn [fst] in Hfind.
  assert (Hno' : ∀ t, (cs_notice c t ;; mret (M := M) (None : option ChanServChannel)) (set_w_io j w) ≠ (Some r, set_w_io i w)).
  { intros t. rewrite run_bind. by destruct (cs_notice c t _). }
  destruct g as [[record|]|]; try (intros Hx; by apply Hno' in Hx). specialize (Hfind record eq_refl).
  destruct (cs_enabled record) eqn:He; cbn [negb]; [|intros Hx; by apply Hno' in Hx].
  destruct (founder_matches record (the_client w c)) eqn:Hm; cbn [negb]; [|intros Hx; by apply Hno' in Hx].
  intros [= <- _]. exists n. split; [done|]. split; [|done]. unfold registration. by rewrite Hfind, He.
Qed.

(** What a client other than a network administrator may cause. *)
Definition settled (c : ptr) (w w' : World) : Prop :=
  stored w' = stored w ∨
  ∃ name r, registration (stored w) name = Some r ∧ founder_matches r (the_client w c) = true ∧ edits name w w'.

Lemma settled_founder c name (k : option ChanServChannel → option cstr → M unit) w :
  (∀ n r, does (edits n) (k (Some r) (Some n))) → (∀ n, does same_tables (k None n)) →
  settled c w ((found ← load_founder_channel c name; k found name) w).2.
Proof.
  intros Hsome Hnone. destruct (load_founder_spec c name w) as (found & i & Hrun & Hi & Hf). rewrite run_bind, Hrun.
  destruct found as [r|].
  - destruct (Hf r eq_refl) as (n & -> & Hr & Hm). right. exists n, r. split; [done|]. split; [done|].
    etrans; [|apply Hsome]. by split; unfold stored; cbn; rewrite Hi.
  - left. unfold stored in *. rewrite (Hnone name (set_w_io i w)). exact Hi.
Qed.
#[local] Hint Resolve set_mlock_edits set_topiclock_edits set_secureops_edits set_channel_successor_edits set_channel_greeting_edits
  set_persistent_topic_edits access_del_edits access_add_edits : frame.

Lemma chanserv_set_settled c p w : settled c w (chanserv_set c p w).2.
Proof.
  unfold chanserv_set. destruct (strtok " " _) as [name rest]. destruct (strtok " " rest) as [field rest']. cbv zeta.
  apply (settled_founder c name (λ found name, match found, name with Some record, Some name => _ | _, _ => _ end)); intros; frames.
Qed.
Lemma chanserv_access_settled c p w : settled c w (chanserv_access c p w).2.
Proof.
  unfold chanserv_access. destruct (strtok " " _) as [name rest]. destruct (strtok " " rest) as [action rest1].
  destruct (strtok " " rest1) as [account rest2]. destruct (strtok " " rest2) as [level rest3]. cbv zeta.
  apply (settled_founder c name (λ found name, match found, name with Some record, Some name => _ | _, _ => _ end)); intros; frames.
Qed.

(** The first word of what is sent to ChanServ. *)
Definition asks (name : string) (text : cstr) : bool :=
  match (strtok " " text).1 with Some s => strcaseeq s name | None => false end.

(** Messages other than REGISTER and DROP. *)
Lemma chanserv_message_settled c text w :
  asks "REGISTER" text = false → asks "DROP" text = false → settled c w (chanserv_handle_message c text w).2.
Proof.
  unfold asks, chanserv_handle_message. destruct (strtok " " text) as [command rest]. cbn [fst]. intros H1 H2. cbv zeta.
  assert (Ht : ∀ m : M unit, does same_tables m → settled c w (m w).2) by (intros m Hm; left; apply (Hm w)).
  destruct command as [command|]; [|apply Ht; frames]. rewrite H1, H2.
  case_if; [apply Ht; frames|]. case_if; [apply chanserv_access_settled|]. case_if; [apply chanserv_set_settled|].
  apply Ht. frames.
Qed.

(** ** REGISTER and DROP *)

(** The live channel the client may register. *)
Definition may_register (w : World) (c ch : ptr) : Prop :=
  ∃ name m, hash_get (w_channels_by_name w) name = Some ch ∧ channel_find_member (the_channel w ch) c = Some m ∧
    channel_privilege_has (m_privileges m) (N.lor CHANNEL_PRIV_OWNER CHANNEL_PRIV_OPERATOR) = true.

(** A registration appeared: that of a channel the client holds, with its account as the founder. *)
Definition registers (c : ptr) (w w' : World) : Prop :=
  ∃ ch, let name := ch_name (the_channel w ch) in
    may_register w c ch ∧ cl_account_name (the_client w c) ≠ [] ∧ find (registered_as name) (ct_channels (stored w)) = None ∧
    without_channel name (stored w') = without_channel name (stored w) ∧
    founder_of name (stored w') = Some (cl_account_name (the_client w c)).
(** A registration disappeared, with all rows about its channel. *)
Definition drops (w w' : World) : Prop :=
  ∃ name, is_Some (find (registered_as name) (ct_channels (stored w))) ∧ stored w' = without_channel name (stored w).

Lemma registrable_spec c name w :
  ∃ found, registrable c name w = (found, w) ∧ ∀ ch, found = Some ch → may_register w c ch.
Proof.
  unfold registrable, find_channel, channel. rewrite run_gets. destruct (hash_get _ name) as [ch|] eqn:Hg; [|by eexists].
  rewrite run_gets. eexists. split; [reflexivity|]. intros ch'. destruct (channel_find_member _ c) as [m|] eqn:Hm; [|done].
  case_if; [|done]. intros [= <-]. by exists name, m.
Qed.

Lemma find_none_existsb {A} (f : A → bool) l : existsb f l = false → find f l = None.
Proof. induction l as [|a l IH]; simpl; [done|]. by destruct (f a). Qed.
Lemma find_some_existsb {A} (f : A → bool) l : existsb f l = true → is_Some (find f l).
Proof. induction l as [|a l IH]; simpl; [done|]. destruct (f a); [eauto | done]. Qed.
Lemma find_app_none {A} (f : A → bool) l l' : find f l = None → find f (l ++ l') = find f l'.
Proof. induction l as [|a l IH]; simpl; [done|]. by destruct (f a). Qed.

Lemma chanserv_create_spec name founder description w :
  let '(ok, w') := chanserv_db_create name founder description w in
  if ok : bool then
    ∃ i, w' = set_w_io i w ∧ find (registered_as name) (ct_channels (stored w)) = None ∧
      without_channel name (stored w') = without_channel name (stored w) ∧ founder_of name (stored w') = Some founder
  else w' = w.
Proof.
  unfold chanserv_db_create, ChanDb.tables, now. case_if; [done|]. rewrite !run_gets. 
  match goal with |- context [if ?b then _ else _] => destruct b eqn:Hc end; [done|]. bools.
  rewrite run_gets, run_bind. simpl. eexists. split; [reflexivity|]. split; [by apply find_none_existsb|]. split.
  - unfold without_channel. simpl. rewrite filter_app, filter_cons, decide_False, filter_nil, app_nil_r; [done|].
    unfold registered_as. simpl. by rewrite same_channel_refl.
  - unfold founder_of. simpl. rewrite find_app_none by (by apply find_none_existsb). simpl. unfold registered_as. simpl. by rewrite same_channel_refl.
Qed.

Lemma save_masks_rows channel l type rows rows' :
  save_masks channel l type rows = Some rows' → ∃ new, rows' = rows ++ new ∧ Forall (λ r, mr_channel r = channel) new.
Proof.
  revert rows. induction l as [|e l IH]; simpl; intros rows; [intros [= <-]; exists []; by rewrite app_nil_r|].
  case_if; [done|]. case_if; [done|]. intros (new & -> & Hnew)%IH. rewrite <-app_assoc. eexists. split; [reflexivity|]. by constructor.
Qed.
Lemma filter_other_rows name new : Forall (λ r, mr_channel r = name) new → filter (λ r, same_channel (mr_channel r) name = false) new = [].
Proof. induction 1 as [|r l Hr _ IH]; [done|]. rewrite filter_cons, IH, decide_False; [done|]. rewrite Hr. by rewrite same_channel_refl. Qed.

Lemma save_transaction_others C t t' :
  save_transaction C t = Some t' →
  without_channel (ch_name C) t' = without_channel (ch_name C) t ∧ founder_of (ch_name C) t' = founder_of (ch_name C) t.
Proof.
  unfold save_transaction. case_if; [done|]. intros (rows1 & (n1 & -> & H1)%save_masks_rows & H)%bind_Some.
  apply bind_Some in H as (rows2 & (n2 & -> & H2)%save_masks_rows & H).
  apply bind_Some in H as (rows3 & (n3 & -> & H3)%save_masks_rows & [= <-]).
  split; [|done]. unfold without_channel. simpl. f_equal.
  - unfold upsert_runtime. case_if.
    + apply filter_map_kept; intros r; cbn [rt_channel runtime_row]; by destruct (same_channel (rt_channel r) (ch_name C)) eqn:Hr; simpl; rewrite ?Hr.
    + rewrite filter_app, filter_cons, decide_False, filter_nil, app_nil_r; [done|]. simpl. by rewrite same_channel_refl.
  - rewrite !filter_app, (filter_other_rows _ n1 H1), (filter_other_rows _ n2 H2), (filter_other_rows _ n3 H3). rewrite !app_nil_r, list_filter_filter. apply list_filter_iff. intros r. split; [by intros [_ ?] | by split].
Qed.
Lemma persist_save_edits C : does (edits (ch_name C)) (chanserv_persist_save C).
Proof.
  intros w. unfold chanserv_persist_save, ChanDb.tables. case_if; [reflexivity|]. rewrite !run_gets. case_if; [reflexivity|].
  rewrite run_gets. destruct (save_transaction C (io_chanserv (w_io w))) as [t'|] eqn:Ht; [|reflexivity].
  rewrite run_bind. by apply save_transaction_others in Ht.
Qed.

Lemma serviced_name ch w w' : serviced ch w w' → ch_name (the_channel w' ch) = ch_name (the_channel w ch).
Proof.
  intros (f & i & k & Hf & ->). unfold the_channel. simpl. rewrite lookup_alter_eq.
  destruct (w_channels w !! ch) as [C|]; [apply Hf | done].
Qed.
Lemma persist_channel_edits ch w : edits (ch_name (the_channel w ch)) w (persist_channel ch w).2.
Proof.
  unfold persist_channel, channel. rewrite run_gets. unfold when. case_if; [|reflexivity]. rewrite run_bind.
  pose proof (persist_save_edits (the_channel w ch) w) as H. by destruct (chanserv_persist_save _ w).
Qed.
(** What REGISTER does to the live channel, and to its parameters in the database. *)
Lemma register_live_edits ch c f x t w :
  (∀ C, same_channel_shape C (f C)) →
  edits (ch_name (the_channel w ch)) w
    ((upd_channel ch f ;; _ ← channel_set_service_privileges ch c x; persist_channel ch ;; cs_notice c t) w).2.
Proof.
  intros Hf. pose proof (serviced_upd ch f Hf w) as Hn1%serviced_name. rewrite run_bind. cbn [upd_channel modify fst snd] in Hn1 |- *.
  set (w1 := put_channel ch f w) in *. assert (edits (ch_name (the_channel w ch)) w w1) as H1 by done. etrans; [exact H1|].
  rewrite <-Hn1. clearbody w1. clear H1 Hn1. rewrite run_bind.
  pose proof (set_service_privileges_serviced ch c x w1) as Hn2%serviced_name.
  pose proof (with_member_tables ch c (λ m, MkMember (m_client m) (N.lor (m_manual m) x) (m_manual m) x) w1) as H2.
  change (with_member ch c _) with (channel_set_service_privileges ch c x) in H2.
  destruct (channel_set_service_privileges ch c x w1) as [rc w2]. cbn [snd] in *. etrans; [by apply same_tables_edits, H2|].
  rewrite <-Hn2, run_bind. pose proof (persist_channel_edits ch w2) as H3. destruct (persist_channel ch w2) as [u w3]. etrans; [exact H3|].
  apply (tables_edits _ (cs_notice c t)). frames.
Qed.

Lemma chanserv_register_spec c p w :
  stored (chanserv_register c p w).2 = stored w ∨ registers c w (chanserv_register c p w).2.
Proof.
  assert (Ht : ∀ (m : M unit) w', does same_tables m → stored w' = stored w → stored (m w').2 = stored w).
  { intros m w' Hm Hs. unfold stored in *. by rewrite (Hm w'). }
  unfold chanserv_register, client. rewrite run_gets. destruct (empty (cl_account_name _)) eqn:Hacc; [left; apply Ht; [frames|done]|].
  destruct (strtok " " _) as [name rest]. cbv zeta. destruct name as [name|]; [|left; apply Ht; [frames|done]].
  case_if; [left; apply Ht; [frames|done]|]. case_if; [left; apply Ht; [frames|done]|].
  rewrite run_bind. destruct (registrable_spec c name w) as (found & -> & Hmay). destruct found as [ch|]; [|left; apply Ht; [frames|done]].
  specialize (Hmay ch eq_refl). unfold channel, chanserv_db_open. rewrite !run_gets, run_bind.
  set (m := if sqlite_step "chanserv_db_open" w then _ else _).
  assert (Hm : let '(ok, w') := m w in
    if ok : bool then ∃ i, w' = set_w_io i w ∧ find (registered_as (ch_name (the_channel w ch))) (ct_channels (stored w)) = None ∧
      without_channel (ch_name (the_channel w ch)) (stored w') = without_channel (ch_name (the_channel w ch)) (stored w) ∧
      founder_of (ch_name (the_channel w ch)) (stored w') = Some (cl_account_name (the_client w c))
    else w' = w) by (unfold m; case_if; [apply chanserv_create_spec | done]).
  destruct (m w) as [ok w1]. destruct ok; cbn [negb]; [|left; subst w1; apply Ht; [frames|done]].
  destruct Hm as (i & -> & Hnone & Ho & Hf). right. exists ch. cbv zeta. split; [done|]. split; [by intros Hx; rewrite Hx in Hacc|].
  split; [done|].
  assert (He : edits (ch_name (the_channel w ch)) (set_w_io i w)
    ((upd_channel ch (cache_new_registration (cl_account_name (the_client w c))) ;;
      _ ← channel_set_service_privileges ch c founder_privileges; persist_channel ch ;; cs_notice c "Channel registered successfully.") (set_w_io i w)).2).
  { apply (register_live_edits ch c _ founder_privileges _ (set_w_io i w)). intros C. split_and!; (reflexivity || (intros ?; assumption)). }
  destruct He as [He1 He2]. rewrite He1, He2. done.
Qed.

Definition netadmin (w : World) (c : ptr) : bool := client_mode_has (cl_modes (the_client w c)) CLIENT_MODE_NETADMIN.

Lemma admin_only_spec c w :
  ∃ refused i, admin_only c w = (refused, set_w_io i w) ∧ io_chanserv i = stored w ∧ (refused = false → netadmin w c = true).
Proof.
  destruct (run_idle (admin_only c) w) as (refused & i & Hrun & Hi); [apply admin_only_quiet | frames|].
  exists refused, i. split; [done|]. split; [done|]. intros ->. revert Hrun. unfold admin_only. rewrite run_bind.
  destruct (require_registered_cases c w) as [[_ ->]|(_ & j & ->)]; [|done].
  unfold require_netadmin, config, client. rewrite !run_gets. unfold netadmin. destruct (client_mode_has _ _); [done|].
  rewrite run_bind. by destruct (tell _ _ _ w).
Qed.

(** A command of the administration does nothing to the tables for anybody else. *)
Lemma admin_only_refuses {A} c (k : A) (m : M A) w :
  netadmin w c = false → stored ((refused ← admin_only c; if refused : bool then mret k else m) w).2 = stored w.
Proof.
  intros Hn. destruct (admin_only_spec c w) as (refused & i & Hrun & Hi & Hr). rewrite run_bind, Hrun.
  destruct refused; [exact Hi|]. by rewrite Hr in Hn.
Qed.

Lemma chanserv_delete_spec name w :
  stored (chanserv_db_delete name w).2 = stored w ∨ drops w (chanserv_db_delete name w).2.
Proof.
  unfold chanserv_db_delete, ChanDb.tables. case_if; [by left|]. rewrite run_gets. case_if; [by left|]. rewrite run_gets.
  destruct (existsb _ _) eqn:He; cbn [negb]; [|by left]. right. exists name. split; [by apply find_some_existsb | done].
Qed.

Lemma drops_from w w0 w' : stored w0 = stored w → drops w0 w' → drops w w'.
Proof. unfold drops. by intros ->. Qed.

Lemma command_csdrop_spec c p w :
  let w' := (command_csdrop c p w).2 in stored w' = stored w ∨ netadmin w c = true ∧ drops w w'.
Proof.
  intros w'. unfold w', command_csdrop. destruct (admin_only_spec c w) as (refused & i & Hrun & Hi & Hr). rewrite run_bind, Hrun.
  destruct refused; [by left|]. unfold config, client, chanserv_db_open. rewrite !run_gets. destruct (strtok " " _) as [name rest].
  assert (Ht : ∀ {A} (m : M A), does same_tables m → stored (m (set_w_io i w)).2 = stored w).
  { intros A m Hm. unfold stored. by rewrite (Hm (set_w_io i w)). }
  destruct name as [name|]; [|left; apply Ht; frames]. rewrite run_gets. case_if; [left; apply Ht; frames|]. rewrite run_bind.
  pose proof (chanserv_delete_spec name (set_w_io i w)) as Hd. destruct (chanserv_db_delete name _) as [deleted w1]. cbn [snd] in Hd.
  match goal with |- context [snd (?m w1)] => assert (does same_tables m) as Hm by frames; specialize (Hm w1); set (w2 := snd (m w1)) in * end.
  unfold same_tables in Hm. fold (stored w1) (stored w2) in Hm.
  destruct Hd as [Hd|(n & Hs & Hd)]; [left; by rewrite Hm, Hd|]. right. split; [by apply Hr|].
  exists n. rewrite Hm, Hd. unfold stored in *. cbn [set_w_io w_io] in Hs |- *. by rewrite Hi in Hs |- *.
Qed.

(** ** CHANSERV *)

(** The ways a message to ChanServ may change its tables. *)
Inductive tables_change (c : ptr) (w w' : World) : Prop :=
  | tables_unchanged : stored w' = stored w → tables_change c w w'
  | settings_changed name r :
      registration (stored w) name = Some r → founder_matches r (the_client w c) = true → edits name w w' → tables_change c w w'
  | channel_registered : netadmin w c = true → registers c w w' → tables_change c w w'
  | channel_dropped : netadmin w c = true → drops w w' → tables_change c w w'.

Lemma settled_change c w w' : settled c w w' → tables_change c w w'.
Proof. intros [H|(n & r & H1 & H2 & H3)]; [by apply tables_unchanged | by eapply settings_changed]. Qed.
Lemma change_from c i w w' : io_chanserv i = stored w → tables_change c (set_w_io i w) w' → tables_change c w w'.
Proof.
  intros Hi. assert (stored (set_w_io i w) = stored w) as E1 by exact Hi. intros [H|n r H1 H2 H3|H1 H2|H1 H2].
  - apply tables_unchanged. by rewrite H.
  - eapply settings_changed; [by rewrite <-E1 | exact H2 | unfold edits in *; by rewrite E1 in H3].
  - apply channel_registered; [exact H1|]. destruct H2 as (ch & R1 & R2 & R3 & R4 & R5). exists ch. cbv zeta in *. rewrite E1 in R3, R4. done.
  - apply channel_dropped; [exact H1 | exact (drops_from w _ w' E1 H2)].
Qed.
Lemma change_to c w w1 w2 : same_tables w1 w2 → tables_change c w w1 → tables_change c w w2.
Proof.
  unfold same_tables. fold (stored w1) (stored w2). intros H [H1|n r H1 H2 H3|H1 H2|H1 H2].
  - apply tables_unchanged. by rewrite H.
  - eapply settings_changed; [done..|]. unfold edits in *. by rewrite H.
  - apply channel_registered; [done|]. destruct H2 as (ch & R). exists ch. cbv zeta in *. by rewrite H.
  - apply channel_dropped; [done|]. unfold drops in *. by rewrite H.
Qed.

Lemma chanserv_dispatch_spec c p w :
  (asks "REGISTER" p = true → netadmin w c = true) → tables_change c w (chanserv_dispatch c (asks "DROP" p) p w).2.
Proof.
  intros Hreg. unfold chanserv_dispatch. destruct (asks "DROP" p) eqn:Hdrop.
  - rewrite run_bind. match goal with |- context [command_csdrop c ?q w] => pose proof (command_csdrop_spec c q w) as H end.
    cbv zeta in H. destruct (command_csdrop _ _ w) as [r w']. cbn [snd mret ST_ret] in *. destruct H as [H|[H1 H2]]; [by apply tables_unchanged | by apply channel_dropped].
  - rewrite run_bind. destruct (run_idle (channel_log_handle_chanserv c p) w) as (handled & i & -> & Hi); [frames | frames|].
    apply (change_from c i w); [done|]. destruct handled; [by apply tables_unchanged|].
    destruct (asks "REGISTER" p) eqn:Ha; [|by apply settled_change, chanserv_message_settled].
    assert (∃ q, chanserv_handle_message c p = chanserv_register c q) as [q ->].
    { unfold asks in Ha. unfold chanserv_handle_message. destruct (strtok " " p) as [command rest]. cbn [fst] in Ha.
      destruct command as [command|]; [|done]. rewrite Ha. eauto. }
    destruct (chanserv_register_spec c q (set_w_io i w)) as [H|H]; [by apply tables_unchanged | by apply channel_registered; [apply Hreg|]].
Qed.

End Registrations.
