(* ===== verification/Authority.v ===== *)
(** * SAMODE keeps the state consistent

    While SAMODE runs a mode change, the caller's record on the channel says more than
    its granted privileges, so the state is not well formed; what holds throughout is
    that it would be with this one record recomputed ([overseen]).  At the end the record is
    restored, or the temporary membership is gone. *)

From S2P Require Import Prelude CString Modes HashTable MaskMatch Output World Channel Invariant Policy Tags Numerics Ircv3 Presence Env Cloak Register Connection Services Registry RegistryProps Sound Flood JoinPart Oper Accounts NickServ ChanDb ChanServ Cap Message MessageProps Query ChanCmds Mode ModeProps SaCmds Stability.

(** ** One channel seen differently *)

Lemma same_channels ch i f g w :
  alter f ch (w_channels w) = alter g i (w_channels w) → wf (put_channel ch f w) → wf (put_channel i g w).
Proof. intros H. apply wf_same_state. cbn. by rewrite H. Qed.

(** A well-formed view of a channel may be exchanged for one of the same shape. *)
Lemma put_channel_view ch f g w :
  (∀ C, same_channel_shape (g C) (f C)) → wf (put_channel ch g w) → wf (put_channel ch f w).
Proof.
  intros Hs Hw. destruct (w_channels w !! ch) as [C0|] eqn:HC.
  - assert (wf (put_channel ch (λ _, f C0) (put_channel ch g w))) as Hw'.
    { apply put_channel_wf; [|done]. intros C E1. simpl in E1. rewrite lookup_alter_eq, HC in E1. injection E1 as <-. apply Hs. }
    rewrite put_channel_twice in Hw'. revert Hw'. apply same_channels. apply map_eq. intros i.
    destruct (decide (i = ch)) as [->|]; [rewrite !lookup_alter_eq; by rewrite HC | by rewrite !lookup_alter_ne].
  - revert Hw. apply same_channels. apply map_eq. intros i.
    destruct (decide (i = ch)) as [->|]; [rewrite !lookup_alter_eq; by rewrite HC | by rewrite !lookup_alter_ne].
Qed.

(** ** The caller's record recomputed *)

Section Overseen.
Context `{E : Env} `{S : Services} (ch c : ptr).

Definition recompute (m : ChannelMember) : ChannelMember :=
  MkMember (m_client m) (N.lor (m_manual m) (m_service m)) (m_manual m) (m_service m).
Definition in_some (x : ptr) (f : ChannelMember → ChannelMember) (C : Channel) : Channel :=
  set_ch_members (upd_member x f (ch_members C)) C.
Definition in_record := in_some c.
Definition overseen (w : World) : Prop := wf (put_channel ch (in_record recompute) w).

Lemma upd_member_twice f g l :
  (∀ m, m_client (f m) = m_client m) → upd_member c g (upd_member c f l) = upd_member c (λ m, g (f m)) l.
Proof.
  intros Hf. induction l as [|m l IH]; simpl; [done|].
  destruct (m_client m =? c) eqn:Em; simpl; rewrite ?Hf, Em; [done | by rewrite IH].
Qed.

(** Replacing the record of [c] by a consistent one. *)
Lemma replaced_ok f l :
  (∀ m, privileges_ok (f m)) → Forall privileges_ok (upd_member c recompute l) → Forall privileges_ok (upd_member c f l).
Proof.
  intros Hf. induction l as [|m l IH]; simpl; [done|]. case_if; rewrite !Forall_cons; intros [H1 H2]; split; auto.
Qed.
(** Updating any record consistently. *)
Lemma updated_ok x f l :
  (∀ m, m_client (f m) = m_client m) → (∀ m, privileges_ok (f m)) →
  Forall privileges_ok (upd_member c recompute l) → Forall privileges_ok (upd_member c recompute (upd_member x f l)).
Proof.
  intros Hc Hf. induction l as [|m l IH]; simpl; [done|].
  destruct (m_client m =? c) eqn:Em, (m_client m =? x) eqn:Ex; simpl; rewrite ?Hc, ?Em; rewrite !Forall_cons; intros [H1 H2]; split; auto.
  all: first [done | by apply upd_member_Forall].
Qed.

Lemma recompute_shape C : same_channel_shape C (in_record recompute C).
Proof. apply upd_members_shape; intros l; [by apply upd_member_ids | by apply upd_member_Forall]. Qed.

Lemma overseen_start w : wf w → overseen w.
Proof. apply put_channel_wf. intros C _. apply recompute_shape. Qed.

Lemma overseen_authority w : wf w → overseen (put_channel ch (in_record samode_authority) w).
Proof.
  intros Hw. unfold overseen. rewrite put_channel_twice. eapply put_channel_view; [|exact (overseen_start w Hw)].
  intros C. unfold in_record, in_some. cbn. rewrite upd_member_twice by done. by split_and!.
Qed.

Lemma overseen_restore f w :
  (∀ m, m_client (f m) = m_client m) → (∀ m, privileges_ok (f m)) → overseen w → wf (put_channel ch (in_record f) w).
Proof.
  intros Hc Hf. apply put_channel_view. intros C. split_and!; cbn; [done| |done|].
  - unfold member_ids. cbn. by rewrite !upd_member_ids.
  - by apply replaced_ok.
Qed.

Lemma remove_recomputed l : remove_first (λ m, m_client m =? c) (upd_member c recompute l) = remove_first (λ m, m_client m =? c) l.
Proof.
  induction l as [|m l IH]; simpl; [done|]. destruct (m_client m =? c) eqn:Em; simpl; rewrite Em; [done | by rewrite IH].
Qed.
Lemma overseen_remove w : overseen w → wf (channel_remove_client ch c w).2.
Proof.
  intros Hw. change (wf (put_client c (drop_link ch) (put_channel ch (drop_member c) w))).
  pose proof (remove_client_wf ch c _ Hw) as H. revert H. apply wf_same_state. cbn.
  assert (alter (drop_member c) ch (alter (in_record recompute) ch (w_channels w)) = alter (drop_member c) ch (w_channels w)) as ->; [|done].
  rewrite alter_alter_eq. apply map_eq. intros i. destruct (decide (i = ch)) as [->|]; [|by rewrite !lookup_alter_ne].
  rewrite !lookup_alter_eq. destruct (w_channels w !! ch) as [C|]; simpl; [|done]. f_equal.
  unfold drop_member, in_record, in_some. cbn. rewrite remove_recomputed. destruct (remove_first _ _) as [found l] eqn:Er.
  destruct found; [by destruct C|].
  assert (upd_member c recompute (ch_members C) = ch_members C) as ->; [|by destruct C].
  clear -Er. revert l Er. induction (ch_members C) as [|m l' IH]; intros l; simpl; [done|].
  destruct (m_client m =? c); [done|]. destruct (remove_first _ l') as [b r] eqn:Er'. intros [= -> <-]. f_equal. by apply (IH r).
Qed.

(** *** Mode changes under supervision *)

Definition oversees (w w' : World) : Prop := overseen w → overseen w'.

#[export] Instance oversees_silent : Silent oversees.
Proof.
  split; [split; unfold oversees; auto|]. intros w w' H. unfold quiet in H. rewrite H. unfold oversees, overseen. by apply wf_same_state.
Qed.

Lemma upd_client_oversees x f : (∀ K, same_client_shape K (f K)) → does oversees (upd_client x f).
Proof.
  intros Hf w Hw. apply (put_client_wf x f) in Hw; [|intros; apply Hf]. revert Hw. by apply wf_same_state.
Qed.
(** Updates of a channel, the members apart. *)
Definition same_members (C C' : Channel) : Prop :=
  ch_name C' = ch_name C ∧ ch_members C' = ch_members C ∧ ch_member_count C' = ch_member_count C.
Lemma overseen_elsewhere i f w :
  i ≠ ch → (∀ C, same_channel_shape C (f C)) → overseen w → overseen (put_channel i f w).
Proof.
  intros Hi Hf Hw. apply (put_channel_wf i f) in Hw; [|intros; apply Hf]. revert Hw. apply wf_same_state. cbn.
  by rewrite alter_alter_ne.
Qed.
Lemma overseen_here f w :
  (∀ C, same_channel_shape (in_record recompute C) (in_record recompute (f C))) → overseen w → overseen (put_channel ch f w).
Proof. intros Hf Hw. unfold overseen. rewrite put_channel_twice. revert Hw. by apply put_channel_view. Qed.
Lemma upd_channel_oversees i f : (∀ C, same_members C (f C)) → does oversees (upd_channel i f).
Proof.
  intros Hf w. destruct (decide (i = ch)) as [->|Hi].
  - intros Hw. apply (overseen_here f w); [|exact Hw]. intros C. destruct (Hf C) as (E1 & E2 & E3). unfold same_channel_shape, member_ids. cbn. by rewrite E1, E2, E3.
  - intros Hw. apply (overseen_elsewhere i f w); [done| |exact Hw]. intros C. destruct (Hf C) as (E1 & E2 & E3).
    unfold same_channel_shape, member_ids. by rewrite E1, E2, E3.
Qed.
Lemma with_member_oversees i x f :
  (∀ m, m_client (f m) = m_client m) → (∀ m, privileges_ok (f m)) → does oversees (with_member i x f).
Proof.
  intros Hc Hf. unfold with_member, channel. frames. intros w. destruct (decide (i = ch)) as [->|Hi].
  - intros Hw. apply (overseen_here (in_some x f) w); [|exact Hw]. intros C. split_and!; cbn; [done| |done|by apply updated_ok].
    unfold member_ids. cbn. by rewrite !upd_member_ids.
  - intros Hw. apply (overseen_elsewhere i (in_some x f) w); [done| |exact Hw]. intros C. by apply upd_members_shape; intros l; [apply upd_member_ids | apply upd_member_Forall].
Qed.
Lemma add_privileges_oversees i x p : does oversees (channel_add_privileges i x p).
Proof. by apply with_member_oversees. Qed.
Lemma remove_manual_oversees i x p : does oversees (channel_remove_manual_privileges i x p).
Proof. by apply with_member_oversees. Qed.
Lemma alloc_oversees : does oversees alloc.
Proof. intros w Hw. revert Hw. by apply wf_same_state. Qed.
#[local] Hint Resolve add_privileges_oversees remove_manual_oversees alloc_oversees secureops_quiet check_mlock_quiet validate_quiet : frame.
#[local] Hint Extern 5 (does oversees _) => apply (does_quiet _); solve [eauto with frame] : frame.
#[local] Hint Extern 4 (does oversees (upd_channel _ _)) => apply upd_channel_oversees; intros ?; by split_and! : frame.
#[local] Hint Extern 4 (does oversees (upd_client _ _)) => apply upd_client_oversees; intros ?; by split_and! : frame.

Lemma mode_privilege_oversees i letter bit r : does oversees (mode_privilege c i letter bit r).
Proof. unfold mode_privilege. frames. Qed.
Lemma mode_limit_oversees i r : does oversees (mode_limit c i r).
Proof. unfold mode_limit. frames. Qed.
Lemma mode_throttle_oversees i r : does oversees (mode_throttle c i r).
Proof. unfold mode_throttle. frames. Qed.
Lemma set_mask_oversees i letter f : does oversees (upd_channel i (λ C, set_mask_list letter (f C) C)).
Proof. apply upd_channel_oversees. intros C. unfold set_mask_list. by repeat case_if. Qed.
#[local] Hint Resolve set_mask_oversees : frame.
Lemma mode_mask_oversees i letter param r : does oversees (mode_mask c i letter param r).
Proof. unfold mode_mask. frames. Qed.
Lemma mode_text_oversees i letter set n r :
  (∀ s C, same_members C (set s C)) → does oversees (mode_text c i letter set n r).
Proof. intros Hs. unfold mode_text. frames; by apply upd_channel_oversees. Qed.
#[local] Hint Extern 4 (does oversees (mode_text _ _ _ _ _ _)) => apply mode_text_oversees; intros ??; by split_and! : frame.
#[local] Hint Resolve mode_privilege_oversees mode_limit_oversees mode_throttle_oversees mode_mask_oversees : frame.
Lemma mode_letter_oversees i letter r : does oversees (mode_letter c i letter r).
Proof. unfold mode_letter. frames. Qed.
#[local] Hint Resolve mode_letter_oversees : frame.
Lemma mode_letters_oversees i b letters r : does oversees (mode_letters c i b letters r).
Proof. revert r. induction letters; intros r; cbn [mode_letters]; frames. Qed.
Lemma user_letters_oversees s letters : does oversees (user_letters c s letters).
Proof. revert s. induction letters; intros s; cbn [user_letters]; frames. Qed.
#[local] Hint Resolve mode_letters_oversees user_letters_oversees : frame.
Lemma command_mode_core_oversees p : does oversees (command_mode_core c p).
Proof. unfold command_mode_core, mode_channel, mode_user. frames. Qed.

End Overseen.
