(* ===== verification/Soundness.v ===== *)
(** * Commands that act on others leave the server sound

    JOIN, NICK and PRIVMSG, SAJOIN and SAMODE: each is [stable] for the client that gave
    it. *)

From S2P Require Import Prelude CString Modes HashTable MaskMatch Output World Channel Invariant Policy Tags Numerics Ircv3 Presence Env Cloak Register Connection Services Registry RegistryProps Sound Flood JoinPart Oper Accounts NickServ ChanDb ChanServ Cap Message MessageProps Query ChanCmds Mode ModeProps SaCmds Stability Disconnects NickServProps AccountProps CapProps ChanServProps Registrations Authority.

Section Soundness.
Context `{E : Env} `{S : Services} {R : Recipients}.

#[local] Hint Extern 5 (does tame _) => apply (does_quiet _); solve [eauto with frame] : frame.
#[local] Hint Extern 6 (does tame _) => apply does_tame; solve [eauto with frame] : frame.
#[local] Hint Extern 5 (does (stable _) _) => apply (does_quiet _); solve [eauto with frame] : frame.
#[local] Hint Extern 6 (does (stable _) _) => apply tame_stable; solve [eauto with frame] : frame.
#[local] Hint Resolve restore_channel_sober persist_restore_sober sync_channel_sober join_one_sober expensive_sober : frame.

(** ** Messages *)

#[local] Hint Resolve nickserv_message_stable command_chanserv_tame memoserv_message_stable : frame.
Lemma privmsg_channel_stable c t x : does (stable c) (privmsg_channel c t x).
Proof. apply steps_stable; [apply privmsg_channel_sober | apply privmsg_channel_keeps]. Qed.
Lemma privmsg_user_stable c t x : does (stable c) (privmsg_user c t x).
Proof. apply steps_stable; [apply privmsg_user_sober | apply privmsg_user_keeps]. Qed.
#[local] Hint Resolve privmsg_channel_stable privmsg_user_stable : frame.
Lemma command_privmsg_stable c p : does (stable c) (command_privmsg c p).
Proof. unfold command_privmsg, command_privmsg_core. frames. Qed.

(** ** JOIN and NICK *)

Lemma command_join_stable c p : does (stable c) (command_join c p).
Proof.
  apply sober_stable; [apply command_join_sober|]. intros w Hw Hc. unfold command_join.
  assert (Hq : ∀ m : M CommandResult, does quiet m → wf (m w).2).
  { intros m Hm. by apply (silent_quiet (R := keeps) w _ (Hm w)). }
  rewrite run_bind. destruct (require_registered_cases c w) as [[_ ->]|(_ & i & ->)].
  2:{ by apply (wf_same_state w). }
  unfold client, config. rewrite !run_gets. destruct p as [p|]; [|apply Hq; frames]. case_if; [apply Hq; frames|].
  destruct (strtok " " p) as [name rest]. destruct (strtok " " rest) as [key rest']. rewrite run_bind.
  pose proof (join_one_outcome IRC_JOIN_REDIRECT_MAX c name key w Hw Hc) as [Ho _].
  by destruct (join_one IRC_JOIN_REDIRECT_MAX c name key w).
Qed.

Lemma command_nick_stable c p : does (stable c) (command_nick c p).
Proof. apply sober_stable; [apply command_nick_sober|]. intros w Hw Hc. by apply command_nick_wf. Qed.

(** ** SAJOIN *)

(** The client [t] stays, and the state stays well formed. *)
Definition fit (t : ptr) (w w' : World) : Prop := wf w ∧ alive w t → wf w' ∧ alive w' t.
#[local] Instance fit_silent t : Silent (fit t).
Proof.
  split; [split; unfold fit; auto|]. intros w w' H [Hw Ht]. split; [by apply (silent_quiet (R := keeps) w w' H)|].
  by apply (sober_alive w); [apply silent_quiet|].
Qed.
Lemma tame_fit {A} t (m : M A) : does tame m → does (fit t) m.
Proof. intros H w [Hw Ht]. destruct (H w) as [Hs Hk]. split; [by apply Hk | by apply (sober_alive w)]. Qed.
#[local] Hint Extern 5 (does (fit _) _) => apply tame_fit; solve [eauto with frame] : frame.

Lemma add_privileges_tame ch x p : does tame (channel_add_privileges ch x p).
Proof. apply does_tame; [apply with_member_sober | apply channel_add_privileges_keeps]. Qed.
Lemma service_privileges_tame ch x p : does tame (channel_set_service_privileges ch x p).
Proof. apply does_tame; [apply with_member_sober | apply channel_set_service_privileges_keeps]. Qed.
#[local] Hint Resolve add_privileges_tame service_privileges_tame : frame.

Lemma sajoin_one_sober c t n : does sober (sajoin_one c t n).
Proof. unfold sajoin_one, channel_set_service_privileges, channel_add_privileges. frames. Qed.

Lemma sajoin_one_fit c t n : does (fit t) (sajoin_one c t n).
Proof.
  intros w [Hw Ht]. split; [|by apply (sober_alive w); [apply sajoin_one_sober|]].
  unfold sajoin_one, client. rewrite run_gets. case_if; [done|]. rewrite run_bind.
  pose proof (server_get_or_create_channel_spec n w Hw) as Hs.
  destruct (server_get_or_create_channel n w) as [[ch|] w1]; destruct Hs as (Hw1 & Hcl & _ & Hf & _); [|done].
  destruct (Hf ch eq_refl) as (C & HC & _). unfold channel. rewrite run_gets. case_if; [done|]. cbv zeta. rewrite run_bind.
  assert (is_Some (w_clients w1 !! t)) as Ht1 by (rewrite Hcl; exact Ht).
  destruct (channel_add_client_spec ch t w1 Hw1 Ht1) as [Hw2 _]; [eauto|].
  destruct (channel_add_client ch t w1) as [rc w2]. cbn [snd] in Hw2. clear -Hw2. revert w2 Hw2.
  match goal with |- ∀ w2, wf w2 → wf (?m w2).2 => assert (does tame m) as H by frames end.
  intros w2. apply (H w2).
Qed.
#[local] Hint Resolve sajoin_one_sober sajoin_one_fit : frame.

(** What only the permission check precedes. *)
Lemma without_wf c p k w : wf w → wf (k w).2 → wf (without_permission c p k w).2.
Proof.
  intros Hw Hk. unfold without_permission. rewrite run_bind.
  assert (Hq : ∀ m : M CommandResult, does quiet m → wf (m w).2).
  { intros m Hm. by apply (silent_quiet (R := keeps) w _ (Hm w)). }
  destruct (require_registered_cases c w) as [[_ ->]|(_ & i & ->)]; [|by apply (wf_same_state w)].
  unfold client. rewrite run_gets. case_if; [apply Hq; frames | exact Hk].
Qed.

Lemma command_sajoin_stable c p : does (stable c) (command_sajoin c p).
Proof.
  apply sober_stable; [unfold command_sajoin, sa_channels, without_permission; frames|].
  intros w Hw _. apply without_wf; [done|]. unfold config, client, find_nick. rewrite !run_gets.
  assert (Hq : ∀ m : M CommandResult, does quiet m → wf (m w).2).
  { intros m Hm. by apply (silent_quiet (R := keeps) w _ (Hm w)). }
  destruct (strtok " " _) as [[nick|] rest]; [|apply Hq; frames].
  destruct (strtok_rest rest) as [channels|]; [|apply Hq; frames]. rewrite run_gets.
  destruct (hash_get _ nick) as [t|] eqn:Ht; [|apply Hq; frames]. pose proof (named_alive w nick t Hw Ht) as Hl.
  match goal with |- wf (?m w).2 => assert (does (fit t) m) as H by frames end. by apply (H w).
Qed.

(** ** SAMODE *)

Lemma upd_membership_sober ch c f : does sober (upd_membership ch c f).
Proof. unfold upd_membership. frames. Qed.
Lemma samode_run_sober c ch t r : does sober (samode_run c ch t r).
Proof. unfold samode_run. pose proof upd_membership_sober. pose proof command_mode_core_sober. frames. Qed.
#[local] Hint Resolve upd_membership_sober samode_run_sober command_mode_core_sober : frame.

Lemma samode_run_overseen c ch t r w : wf w → overseen ch c (samode_run c ch t r w).2.
Proof.
  intros Hw. unfold samode_run, upd_membership, upd_channel. rewrite run_modify.
  pose proof (overseen_authority ch c w Hw) as Ho. revert Ho.
  change (put_channel ch (λ C, set_ch_members (upd_member c samode_authority (ch_members C)) C) w)
    with (put_channel ch (in_record c samode_authority) w). generalize (put_channel ch (in_record c samode_authority) w).
  pose proof (command_mode_core_oversees ch c) as Hm.
  match goal with |- ∀ w, _ → overseen ch c (?m w).2 => assert (does (oversees ch c) m) as H end; [|intros w1; apply (H w1)].
  frames; try apply Hm; apply (does_quiet _); frames.
Qed.

Lemma samode_channel_wf c ch t r w :
  wf w → alive w c → is_Some (w_channels w !! ch) → wf (samode_channel c ch t r w).2.
Proof.
  intros Hw Hc [C HC]. unfold samode_channel.
  apply (quiet_step _ _ _ (λ x, wf x.2)); [unfold samode_channel_params_valid; frames|]. intros valid i.
  set (w0 := set_w_io i w). assert (Hw0 : wf w0) by (by apply (wf_same_state w)).
  destruct valid; cbn [negb]; [|exact Hw0]. unfold channel. rewrite run_gets.
  assert (the_channel w0 ch = C) as HC0 by (unfold the_channel; cbn; by rewrite HC). rewrite HC0.
  destruct (channel_find_member C c) as [saved|] eqn:Hm.
  - rewrite run_bind. pose proof (samode_run_overseen c ch t r w0 Hw0) as Ho. destruct (samode_run c ch t r w0) as [[] w1].
    cbn [snd] in Ho. apply (overseen_restore ch c (λ m, MkMember (m_client m) (m_privileges saved) (m_manual saved) (m_service saved))) in Ho; [exact Ho|done|]. intros m.
    destruct (find_member_in C c saved Hm) as [Hin _]. pose proof (wf_channels w Hw ch C HC) as [_ _ Hp _].
    rewrite Forall_forall in Hp. exact (Hp saved Hin).
  - rewrite run_bind. assert (is_Some (w_channels w0 !! ch)) as Hch by (by exists C).
    destruct (channel_add_client_spec ch c w0 Hw0 Hc Hch) as [Hw1 _].
    destruct (channel_add_client ch c w0) as [rc w1]. cbn [snd] in Hw1. case_if; [done|]. rewrite run_bind.
    pose proof (samode_run_overseen c ch t r w1 Hw1) as Ho. destruct (samode_run c ch t r w1) as [[] w2].
    exact (overseen_remove ch c w2 Ho).
Qed.

Lemma samode_letters_tame c t b l : does tame (samode_letters c t b l).
Proof.
  revert b. induction l; intros b; cbn [samode_letters]; frames.
Qed.
#[local] Hint Resolve samode_letters_tame : frame.
Lemma samode_user_tame c t m : does tame (samode_user c t m).
Proof. unfold samode_user. frames. Qed.
Lemma samode_letters_sober c t b l : does sober (samode_letters c t b l).
Proof. intros w. apply (samode_letters_tame c t b l w). Qed.
#[local] Hint Resolve samode_letters_sober : frame.

Lemma command_samode_stable c p : does (stable c) (command_samode c p).
Proof.
  apply sober_stable.
  { unfold command_samode, samode_channel, samode_channel_params_valid, samode_user, without_permission. frames. }
  intros w Hw Hc. apply without_wf; [done|]. unfold config, client, find_nick, find_channel. rewrite !run_gets.
  assert (Hq : ∀ m : M CommandResult, does quiet m → wf (m w).2).
  { intros m Hm. by apply (silent_quiet (R := keeps) w _ (Hm w)). }
  destruct (strtok " " _) as [[target|] rest]; [|apply Hq; frames].
  destruct (strtok_rest rest) as [r|]; [|apply Hq; frames]. case_if; rewrite run_gets.
  - destruct (hash_get _ target) as [ch|] eqn:G; [|apply Hq; frames].
    destruct (proj1 (proj2 (wf_names w Hw) target ch) G) as (C & HC & _). apply samode_channel_wf; eauto.
  - destruct (hash_get _ target) as [t|]; [|apply Hq; frames]. by apply (samode_user_tame c t).
Qed.

End Soundness.
