(* ===== verification/LoopSound.v ===== *)
(** * The server stays sound

    Whatever clients send and the environment reports, every command, every event and
    every turn of the loop keeps the state well formed and the registry exact, and a
    client is still there when the command it gave returns. *)

From S2P Require Import Prelude CString Modes HashTable MaskMatch Output World Channel Invariant Policy Tags Numerics Ircv3 Presence Env Cloak Register Connection Services Registry RegistryProps Sound Flood JoinPart Oper Accounts NickServ ChanDb ChanServ Cap Message MessageProps Query QueryProps OperProps ChanCmds Mode ModeProps SaCmds SaProps Stability Disconnects NickServProps AccountProps CapProps ChanServProps Registrations Authority Soundness Dispatch Loop.

Section LoopSound.
Context `{E : Env} `{S : Services} {R : Recipients} {H : Handlers}.

(** ** Commands *)

Lemma quiet_stable {A} c (m : M A) : does quiet m → does (stable c) m.
Proof. apply does_quiet, _. Qed.

Create HintDb stable discriminated.
#[local] Hint Constants Opaque : stable.
#[local] Hint Resolve quiet_stable tame_stable steps_stable : stable.
#[local] Hint Resolve command_join_stable command_nick_stable command_privmsg_stable command_sajoin_stable
  command_samode_stable command_kill_stable command_chanserv_tame command_csinfo_quiet command_csset_tame command_csdrop_tame other_stable command_nickserv_stable command_identify_stable
  command_webirc_stable command_cap_tame command_authenticate_tame : stable.
#[local] Hint Resolve command_part_tame command_kick_tame command_oper_tame command_snotice_tame command_sethost_tame
  command_setident_tame command_setname_tame command_die_tame command_restart_tame command_sapart_tame
  command_lusers_tame command_silence_tame command_watch_tame : stable.
#[local] Hint Resolve command_ison_quiet command_userhost_quiet command_userip_quiet command_list_quiet command_who_quiet
  command_whois_quiet command_whowas_quiet command_wallops_quiet command_knock_quiet command_names_quiet
  command_motd_quiet command_ping_quiet : stable.
#[local] Hint Resolve command_away_sober command_deaf_sober command_invite_sober command_mode_sober command_mute_sober
  command_notice_sober command_pass_sober command_pmstats_sober command_pong_sober command_quit_sober
  command_tagmsg_sober command_topic_sober command_user_sober : stable.
#[local] Hint Resolve command_away_keeps command_invite_keeps command_mode_keeps
  command_notice_keeps command_pass_keeps command_pmstats_keeps command_pong_keeps command_quit_keeps
  command_tagmsg_keeps command_topic_keeps command_user_keeps : stable.
Lemma command_globops_stable c p : does (stable c) (command_globops c p).
Proof. exact (quiet_stable c _ (oper_message_quiet c p "GLOBOPS")). Qed.
Lemma command_locops_stable c p : does (stable c) (command_locops c p).
Proof. exact (quiet_stable c _ (oper_message_quiet c p "LOCOPS")). Qed.
Lemma command_deaf_keeps c p : does keeps (command_deaf c p).
Proof. unfold command_deaf. apply set_control_mode_keeps. Qed.
Lemma command_mute_keeps c p : does keeps (command_mute c p).
Proof. unfold command_mute. apply set_control_mode_keeps. Qed.
#[local] Hint Resolve command_globops_stable command_locops_stable command_deaf_keeps command_mute_keeps : stable.

(** Every entry of the command table. *)
Lemma table_stable : Forall (λ e, ∀ c p, does (stable c) (ce_handler e c p)) command_table.
Proof.
  unfold command_table, other.
  repeat (apply Forall_cons_2; [intros c p; cbn [ce_handler]; solve [eauto 4 with stable nocore]|]). by constructor.
Qed.

#[local] Hint Extern 5 (does (stable _) _) => apply quiet_stable; solve [eauto with frame] : frame.
Lemma expensive_stable c cmd cost : does (stable c) (command_expensive_allow c cmd cost).
Proof. apply steps_stable; [apply expensive_sober | apply command_expensive_allow_keeps]. Qed.
Lemma general_flood_stable c cmd cost : does (stable c) (general_flood_allow c cmd cost).
Proof. apply steps_stable; [apply general_flood_sober | apply general_flood_allow_keeps]. Qed.
Lemma upd_client_stable c x f : (∀ K, same_identity K (f K) ∧ same_client_shape K (f K)) → does (stable c) (upd_client x f).
Proof. intros Hf. by apply tame_stable, upd_client_tame. Qed.
Lemma bounded_numeric_quiet c n cmd t : does quiet (send_bounded_command_numeric c n cmd t).
Proof. apply send_bounded_command_numeric_quiet. Qed.
#[local] Hint Resolve expensive_stable general_flood_stable bounded_numeric_quiet : frame.

Lemma run_entry_stable c command params : does (stable c) (run_entry c command params).
Proof.
  unfold run_entry. destruct (find _ command_table) as [e|] eqn:Hf; [|frames].
  apply find_some in Hf as [Hin%list_elem_of_In _]. pose proof table_stable as Ht. rewrite Forall_forall in Ht.
  pose proof (Ht e Hin c params). frames.
Qed.
#[local] Hint Resolve run_entry_stable : frame.

Lemma touch_liveness_stable c t : does (stable c) (upd_client c (λ K, if cl_ping_pending K then K else set_cl_last_liveness_activity t K)).
Proof. apply upd_client_stable. intros K. by case_if. Qed.
#[local] Hint Resolve touch_liveness_stable : frame.
Lemma command_dispatch_stable c command params : does (stable c) (command_dispatch c command params).
Proof. unfold command_dispatch. frames. Qed.

Lemma begin_command_keeps c tags : does keeps (ircv3_begin_command c tags).
Proof. unfold ircv3_begin_command. frames. Qed.
Lemma end_command_keeps c : does keeps (ircv3_end_command c).
Proof. unfold ircv3_end_command. pose proof labeled_response_end_quiet. frames. Qed.
Lemma begin_command_stable c tags : does (stable c) (ircv3_begin_command c tags).
Proof. apply steps_stable; [apply begin_command_sober | apply begin_command_keeps]. Qed.
Lemma end_command_stable c : does (stable c) (ircv3_end_command c).
Proof. apply steps_stable; [apply end_command_sober | apply end_command_keeps]. Qed.
#[local] Hint Resolve command_dispatch_stable begin_command_stable end_command_stable : frame.
Lemma irc_handle_line_stable c line : does (stable c) (irc_handle_line c line).
Proof. unfold irc_handle_line. frames. Qed.
#[local] Hint Resolve irc_handle_line_stable : frame.

(** ** Input *)

(** The server stays sound and [c] connected, whatever becomes of its input. *)
Definition served (c : ptr) (w w' : World) : Prop := sound w → alive w c → sound w' ∧ alive w' c.
#[local] Instance served_silent c : Silent (served c).
Proof.
  split; [split; unfold served; [done|]|].
  - intros w1 w2 w3 A B H1 H2. destruct (A H1 H2). by apply B.
  - intros w w' Hq H1 H2. destruct (silent_quiet (R := stable c) w w' Hq H1 H2) as (? & ? & _). done.
Qed.
Lemma stable_served {A} c (m : M A) : does (stable c) m → does (served c) m.
Proof. intros Hm w H1 H2. by destruct (Hm w H1 H2) as (? & ? & _). Qed.
#[local] Hint Extern 5 (does (served _) _) => apply stable_served; solve [eauto with frame] : frame.

Lemma put_client_sound c f w :
  (∀ K, cl_id (f K) = cl_id K ∧ cl_real_ip (f K) = cl_real_ip K) → (∀ K, same_client_shape K (f K)) →
  sound w → sound (put_client c f w).
Proof.
  intros Hi Hs (Hw & Hr & Hp). split_and!; [by apply put_client_wf| |done].
  assert (identities (put_client c f w) = identities w) as Hid.
  { unfold identities. simpl. apply map_eq. intros i. rewrite !lookup_fmap.
    destruct (decide (i = c)) as [->|]; [rewrite lookup_alter_eq | by rewrite lookup_alter_ne].
    destruct (w_clients w !! c) as [K|]; simpl; [|done]. by destruct (Hi K) as [-> ->]. }
  destruct Hr as [H1 H2 H3 H4 H5 H6]. split; rewrite ?Hid; done.
Qed.
Lemma put_client_alive c f w x : alive (put_client c f w) x ↔ alive w x.
Proof. unfold alive. simpl. by rewrite lookup_alter_is_Some. Qed.
Lemma upd_input_served c f : does (served c) (upd_client c (λ K, set_cl_inbuf (f K) K)).
Proof. intros w Hw Hc. split; [by apply put_client_sound | by apply put_client_alive]. Qed.
Lemma consume_input_served c n : does (served c) (consume_input c n).
Proof. apply upd_input_served. Qed.
#[local] Hint Resolve consume_input_served upd_input_served : frame.
Lemma on_conn_quiet' c f : does quiet (on_conn c f).
Proof. intros w. reflexivity. Qed.
#[local] Hint Resolve on_conn_quiet' : frame.

Lemma line_loop_stable rounds c offset budget : does (stable c) (line_loop rounds c offset budget).
Proof. revert offset budget. induction rounds; intros offset budget; cbn [line_loop]; unfold protocol_violation; frames. Qed.
#[local] Hint Resolve line_loop_stable : frame.
Lemma process_lines_served c budget : does (served c) (process_buffered_lines c budget).
Proof. unfold process_buffered_lines. frames. Qed.
Lemma upd_client_served c x f : (∀ K, same_identity K (f K) ∧ same_client_shape K (f K)) → does (served c) (upd_client x f).
Proof. intros Hf. by apply stable_served, upd_client_stable. Qed.
#[local] Hint Extern 4 (does (served _) (upd_client _ _)) => apply upd_client_served; intros ?; by split_and! : frame.
#[local] Hint Extern 4 (does (stable _) (upd_client _ _)) => apply upd_client_stable; intros ?; by split_and! : frame.
Lemma read_client_served c r : does (served c) (read_client c r).
Proof. unfold read_client, read_flags. frames. Qed.
Lemma sendq_notice_quiet c : does quiet (sendq_notice c).
Proof. unfold sendq_notice. frames. Qed.
#[local] Hint Resolve sendq_notice_quiet : frame.
Lemma sendq_check_served c b : does (served c) (sendq_check c b).
Proof. unfold sendq_check. frames. Qed.
#[local] Hint Resolve process_lines_served read_client_served sendq_check_served : frame.

(** ** All clients *)

Definition lasts (w w' : World) : Prop := sound w → sound w'.
#[local] Instance lasts_silent : Silent lasts.
Proof.
  split; [split; unfold lasts; auto|]. intros w w' H1 (Hw & Hr & Hp). split_and!.
  - by apply (silent_quiet (R := keeps) w w').
  - apply (sober_registry w); [by apply silent_quiet | done].
  - by apply (silent_quiet (R := sober) w w').
Qed.
Lemma tame_lasts {A} (m : M A) : does tame m → does lasts m.
Proof.
  intros Hm w (Hw & Hr & Hp). destruct (Hm w) as [Hs Hk]. split_and!; [by apply Hk | by apply (sober_registry w) | by apply Hs].
Qed.
#[local] Hint Extern 5 (does tame _) => apply (does_quiet _); solve [eauto with frame] : frame.
#[local] Hint Extern 5 (does lasts _) => apply tame_lasts; solve [eauto with frame] : frame.
#[local] Hint Extern 4 (does tame (upd_client _ _)) => apply upd_client_tame; intros ?; by split_and! : frame.

(** The clients of the array are there. *)
Lemma client_at_alive w index : sound w → index < length (w_client_array w) → alive w (nth index (w_client_array w) 0).
Proof.
  intros (_ & Hr & _) Hi. assert (nth index (w_client_array w) 0 ∈ w_client_array w) as Hin.
  { apply list_elem_of_In, nth_In, Hi. }
  apply (reg_array w Hr) in Hin. unfold identities in Hin. by rewrite lookup_fmap, fmap_is_Some in Hin.
Qed.
Lemma found_alive w id c : sound w → hash_get (w_clients_by_id w) (client_id_key id) = Some c → alive w c.
Proof.
  intros (_ & Hr & _) Hf. apply (reg_ids w Hr) in Hf as [ip Hf]. unfold identities in Hf. rewrite lookup_fmap in Hf.
  unfold alive. destruct (w_clients w !! c); [eauto | done].
Qed.

(** A step that serves [c] and may end its connection. *)
Lemma disconnect_lasts c reason w : alive w c → lasts w (server_disconnect c reason w).2.
Proof. intros Hc Hs. by apply disconnect_sound. Qed.
Lemma drop_client_sound c w : sound w → alive w c → sound (drop_client c w).2.
Proof. intros Hs Hc. unfold drop_client, client. rewrite run_gets. by apply disconnect_sound. Qed.

(** One more step of a run that has [P] so far. *)
Lemma run_step {A B} (m : M A) (k : A → M B) (P : World → Prop) (Q : World → Prop) w :
  P w → (P w → Q (m w).2) → (∀ a w1, Q w1 → sound (k a w1).2) → sound ((m ≫= k) w).2.
Proof. intros Hp Hm Hk. rewrite run_bind. specialize (Hm Hp). destruct (m w) as [a w1]. by apply Hk. Qed.
Lemma served_step {A B} (m : M A) (k : A → M B) c w :
  does (served c) m → sound w → alive w c → (∀ a w1, sound w1 → alive w1 c → sound (k a w1).2) → sound ((m ≫= k) w).2.
Proof.
  intros Hm Hs Hc Hk. rewrite run_bind. destruct (Hm w Hs Hc) as [H1 H2]. destruct (m w) as [a w1]. by apply Hk.
Qed.

Lemma drain_loop_lasts rounds index pending budget : does lasts (drain_loop rounds index pending budget).
Proof.
  revert index pending budget. induction rounds as [|rounds IH]; intros index pending budget w Hs; cbn [drain_loop]; [done|].
  unfold client_count, client_at, client. rewrite run_gets. case_if; [done|]. cbv zeta. rewrite !run_gets.
  set (i := if _ <=? index then 0 else index). set (c := nth i (w_client_array w) 0).
  assert (Hc : alive w c).
  { apply client_at_alive; [done|]. unfold i. bools. case_if; bools; lia. }
  case_if; [by apply IH|]. clearbody c.
  apply (served_step _ _ c); [eauto with frame | done | done |]. intros [[disconnect more] budget'] w1 Hs1 Hc1.
  apply (served_step _ _ c); [eauto with frame | done | done |]. intros drop w2 Hs2 Hc2. destruct drop.
  - rewrite run_bind. pose proof (drop_client_sound c w2 Hs2 Hc2) as Hs3. destruct (drop_client c w2) as [[] w3].
    rewrite run_gets. case_if; [done | by apply IH].
  - rewrite run_gets. by apply IH.
Qed.
#[local] Hint Resolve drain_loop_lasts : frame.
Lemma set_cursor_tame n : does tame (set_dispatch_cursor n).
Proof. apply tame_modify. intros w. by split_and!. Qed.
#[local] Hint Resolve set_cursor_tame : frame.
Lemma drain_input_lasts budget : does lasts (drain_buffered_client_input budget).
Proof. unfold drain_buffered_client_input, client_count. frames. Qed.

Lemma maybe_register_tame c : does tame (command_maybe_register c).
Proof. apply does_tame; [apply maybe_register_sober | apply command_maybe_register_keeps]. Qed.
#[local] Hint Resolve maybe_register_tame : frame.
Lemma show_host_tame c h : does tame (upd_client c (λ K, if client_mode_has (cl_modes K) (N.lor CLIENT_MODE_CLOAKED CLIENT_MODE_VHOST) then K
                            else set_cl_display_host h K)).
Proof. apply upd_client_tame. intros K. case_if; by split_and!. Qed.
#[local] Hint Resolve show_host_tame : frame.
Lemma find_by_id_quiet id : does quiet (server_find_client_by_id id).
Proof. by intros w. Qed.
#[local] Hint Resolve find_by_id_quiet : frame.
Lemma handle_dns_tame r : does tame (handle_dns_result r).
Proof. unfold handle_dns_result, in_handshake. frames. Qed.
Lemma ban_add_quiet t m r o n : does quiet (ban_db_add_timed t m r o n).
Proof. apply silent_quiet_step, ban_add_silent. Qed.
Lemma log_rotate_quiet t : does quiet (channel_log_rotate_all t).
Proof. apply silent_quiet_step, log_rotate_silent. Qed.
#[local] Hint Resolve handle_dns_tame ban_add_quiet log_rotate_quiet : frame.
Lemma handle_dnsbl_tame r : does tame (handle_dnsbl_result r).
Proof. unfold handle_dnsbl_result. frames. Qed.
#[local] Hint Resolve handle_dnsbl_tame : frame.
Lemma drain_dnsbl_tame handled listed l : does tame (drain_dnsbl handled listed l).
Proof. revert handled listed. induction l; intros handled listed; cbn [drain_dnsbl]; frames. Qed.
#[local] Hint Resolve drain_dnsbl_tame : frame.
Lemma expire_lookups_tame c t : does tame (expire_lookups c t).
Proof. unfold expire_lookups, in_handshake. frames. Qed.
Lemma check_liveness_tame c t : does tame (check_liveness c t).
Proof. unfold check_liveness. frames. apply upd_client_tame. intros K. case_if; by split_and!. Qed.
#[local] Hint Resolve expire_lookups_tame check_liveness_tame : frame.

Lemma quiet_alive w w' c : quiet w w' → alive w c → alive w' c.
Proof. intros Hq. apply sober_alive. by apply silent_quiet. Qed.

(** The end of a client that missed a deadline: two quiet steps, then it is disconnected. *)
Lemma farewell_sound {A B C} (m1 : M A) (m2 : M B) c reason (k : M C) w :
  does quiet m1 → does quiet m2 → sound w → alive w c → (∀ w1, sound w1 → sound (k w1).2) →
  sound ((m1 ;; m2 ;; server_disconnect c reason ;; k) w).2.
Proof.
  intros H1 H2 Hs Hc Hk. apply (quiet_step _ _ _ (λ x, sound x.2)); [done|]. intros _ i.
  apply (quiet_step _ _ _ (λ x, sound x.2)); [done|]. intros _ j. rewrite run_bind.
  assert (H3 : sound (server_disconnect c reason (set_w_io j (set_w_io i w))).2).
  { apply disconnect_sound; [|done]. by apply (silent_quiet (R := lasts) w). }
  destruct (server_disconnect _ _ _) as [[] w2]. by apply Hk.
Qed.

Lemma expire_from_lasts rounds index t : does lasts (expire_from rounds index t).
Proof.
  revert index. induction rounds as [|rounds IH]; intros index w Hs; cbn [expire_from]; [done|].
  unfold client_count, client_at, client, config. rewrite run_gets. case_if; [done|]. rewrite !run_gets.
  assert (Hc : alive w (nth index (w_client_array w) 0)) by (apply client_at_alive; [done|]; bools; lia).
  revert Hc. generalize (nth index (w_client_array w) 0). intros c Hc.
  case_if; [apply farewell_sound; [frames | frames | done | done | intros w1; apply IH]|].
  case_if; [apply farewell_sound; [frames | frames | done | done | intros w1; apply IH]|].
  rewrite run_bind. pose proof (tame_lasts _ (expire_lookups_tame c t) w Hs) as H1.
  destruct (expire_lookups c t w) as [[] w1]. by apply IH.
Qed.

Lemma maintain_from_lasts rounds index t : does lasts (maintain_from rounds index t).
Proof.
  revert index. induction rounds as [|rounds IH]; intros index w Hs; cbn [maintain_from]; [done|].
  unfold client_count, client_at, client, config. rewrite run_gets. case_if; [done|]. rewrite !run_gets.
  assert (Hc : alive w (nth index (w_client_array w) 0)) by (apply client_at_alive; [done|]; bools; lia).
  revert Hc. generalize (nth index (w_client_array w) 0). intros c Hc. case_if; [by apply IH|]. case_if.
  - cbv zeta. apply farewell_sound; [frames | frames | done | done | intros w1; apply IH].
  - rewrite run_bind. assert (H1 : does tame (when (negb (cl_ping_pending (the_client w c))) (check_liveness c t))) by frames.
    pose proof (tame_lasts _ H1 w Hs) as H2. destruct (when _ _ w) as [[] w1]. by apply IH.
Qed.
#[local] Hint Resolve expire_from_lasts maintain_from_lasts : frame.
Lemma maintenance_lasts : does lasts maintenance.
Proof. unfold maintenance, expire_connection_lookups, maintain_client_liveness, client_count, restarting. frames. Qed.
#[local] Hint Resolve maintenance_lasts drain_input_lasts : frame.

(** ** Events *)

Lemma handshake_served c r : does (served c) (advance_tls_handshake c r).
Proof. unfold advance_tls_handshake, in_handshake. frames. Qed.
Lemma flush_quiet c : does quiet (flush_fails c).
Proof. intros w. unfold flush_fails. by destruct (client_flush_output _) as [[rc conn]|]. Qed.
#[local] Hint Resolve handshake_served flush_quiet : frame.
Lemma serve_events_served c ev b : does (served c) (serve_events c ev b).
Proof. unfold serve_events. frames. Qed.
#[local] Hint Resolve serve_events_served : frame.

Lemma serve_client_lasts c id ev n : does lasts (serve_client c id ev n).
Proof.
  intros w Hs. unfold serve_client, server_find_client_by_id. rewrite run_gets. case_bool_decide as Hf; [|done]. cbn [negb].
  pose proof (found_alive w id c Hs Hf) as Hc. unfold overflowed at 1. rewrite run_gets. case_if.
  - apply (quiet_step _ _ _ (λ x, sound x.2)); [frames|]. intros _ i. rewrite run_bind.
    assert (H1 : sound (server_disconnect c (Some (lit "SendQ exceeded")) (set_w_io i w)).2).
    { apply disconnect_sound; [by apply (silent_quiet (R := lasts) w)|done]. }
    by destruct (server_disconnect _ _ _) as [[] w1].
  - case_if; [done|]. unfold in_handshake. rewrite run_gets. cbv zeta.
    apply (served_step _ _ c); [eauto with frame | done | done |]. intros d w1 Hs1 Hc1.
    apply (served_step _ _ c); [eauto with frame | done | done |]. intros d' w2 Hs2 Hc2. destruct d'; [|done]. unfold when.
    rewrite run_bind. pose proof (drop_client_sound c w2 Hs2 Hc2) as Hs3. by destruct (drop_client c w2) as [[] w3].
Qed.
#[local] Hint Resolve serve_client_lasts : frame.
Lemma serve_clients_lasts l n : does lasts (serve_clients l n).
Proof. revert n. induction l as [|[[c id] ev] l IH]; intros n; cbn [serve_clients]; frames. Qed.
#[local] Hint Resolve serve_clients_lasts : frame.
Lemma accept_lasts tls l : does lasts (accept_clients tls 0 l).
Proof. intros w Hs. by apply accept_clients_sound. Qed.
Lemma set_now_tame t : does tame (modify (set_w_now t)).
Proof. apply tame_modify. intros w. by split_and!. Qed.
Lemma set_tls_cursor_tame n : does tame (modify (set_w_tls_handshake_cursor n)).
Proof. apply tame_modify. intros w. by split_and!. Qed.
#[local] Hint Resolve accept_lasts set_now_tame set_tls_cursor_tame : frame.
Lemma server_turn_lasts i s : does lasts (server_turn i s).
Proof. unfold server_turn, restarting, drain_dns_results, drain_dnsbl_results. frames. Qed.
#[local] Hint Resolve server_turn_lasts : frame.
Lemma server_run_lasts l s : does lasts (server_run l s).
Proof. revert s. induction l; intros s; cbn [server_run]; frames. Qed.

(** C1: the server stays sound, whatever clients send and the environment reports.
    Started with a configuration, or in any sound state, a run of the loop over any
    inputs (connections, bytes, handshakes, resolver results, clocks) leaves the state
    well formed (memberships symmetric, both name tables exact, counters right) and
    the client array, id index and per-address counters describing exactly the clients
    that are connected.  And a line of a client, whatever command it holds and
    whomever that command disconnects, leaves the client itself connected and its
    unprocessed input untouched, so that the loop may go on using it.  Two things are
    taken for granted: that no allocation fails ([plenty], which is part of [sound]),
    and that the handlers outside the model, which are a parameter, satisfy the last
    statement themselves ([other_stable]). *)
Theorem server_stays_sound :
  (∀ cfg n time stamp w inputs s, server_init cfg n time stamp = Some w → plenty w → sound (server_run inputs s w).2) ∧
  (∀ w inputs s, lasts w (server_run inputs s w).2) ∧
  (∀ w c line, sound w → alive w c → let w' := (irc_handle_line c line w).2 in sound w' ∧ alive w' c ∧ input w' c = input w c).
Proof.
  split_and!.
  - intros cfg n time stamp w inputs s Hi Hp. apply server_run_lasts. split_and!; [|by eapply server_init_registry|done].
    by eapply server_init_wf.
  - intros w inputs s. apply server_run_lasts.
  - intros w c line. apply irc_handle_line_stable.
Qed.
End LoopSound.
