(* ===== verification/LoopProps.v ===== *)
(** * What the event loop does with input

    The lines that are handled are the pieces between newlines of the byte stream, each
    once and in order, however the bytes arrive ([process_buffered_lines],
    [read_client]). *)

From S2P Require Import Prelude CString Modes HashTable MaskMatch Output World Channel Invariant Policy Tags Numerics Ircv3 Presence Env Cloak Register Connection Services Registry RegistryProps Sound Flood JoinPart Oper Accounts NickServ ChanDb ChanServ Cap Message MessageProps Query QueryProps OperProps ChanCmds Mode ModeProps SaCmds SaProps Stability Disconnects NickServProps AccountProps CapProps ChanServProps Registrations Authority Soundness Dispatch Loop LoopSound.

(** ** The lines of a byte stream *)

(** The complete lines, without their newlines, and what follows the last of them. *)
Fixpoint raw_lines (s : cstr) : list cstr * cstr :=
  match s with
  | [] => ([], [])
  | ch :: s =>
      let '(lines, rest) := raw_lines s in
      if Ascii.eqb LF ch then ([] :: lines, rest)
      else match lines with [] => ([], ch :: rest) | l :: lines => ((ch :: l) :: lines, rest) end
  end.

Definition terminated (lines : list cstr) : cstr := concat (map (λ l, l ++ [LF]) lines).

Lemma eqb_LF ch : Ascii.eqb LF ch = true → ch = LF.
Proof. by intros ->%Ascii.eqb_eq. Qed.

Lemma raw_lines_spec s :
  s = terminated (raw_lines s).1 ++ (raw_lines s).2 ∧ Forall (λ l, LF ∉ l) (raw_lines s).1 ∧ LF ∉ (raw_lines s).2.
Proof.
  induction s as [|ch s IH]; cbn [raw_lines]; [split_and!; [done | constructor | set_solver]|].
  destruct (raw_lines s) as [lines rest]. cbn [fst snd] in IH. destruct IH as (-> & Hl & Hr).
  destruct (Ascii.eqb LF ch) eqn:Hch.
  - apply eqb_LF in Hch as ->. split_and!; [done | constructor; [set_solver | done] | done].
  - assert (LF ≠ ch) by (intros <-; by rewrite Ascii.eqb_refl in Hch).
    destruct lines as [|l lines]; cbn [fst snd]; split_and!; try done; [set_solver|].
    inversion Hl; subst. constructor; [set_solver | done].
Qed.

Lemma raw_lines_line raw s : LF ∉ raw → raw_lines (raw ++ LF :: s) = (raw :: (raw_lines s).1, (raw_lines s).2).
Proof.
  induction raw as [|ch raw IH]; intros Hn; cbn [app raw_lines].
  - by destruct (raw_lines s).
  - rewrite IH by set_solver. destruct (Ascii.eqb LF ch) eqn:Hch; [|done]. apply eqb_LF in Hch as ->. set_solver.
Qed.
Lemma raw_lines_partial s : LF ∉ s → raw_lines s = ([], s).
Proof.
  induction s as [|ch s IH]; intros Hn; cbn [raw_lines]; [done|]. rewrite IH by set_solver.
  destruct (Ascii.eqb LF ch) eqn:Hch; [|done]. apply eqb_LF in Hch as ->. set_solver.
Qed.

Lemma terminated_cons l lines : terminated (l :: lines) = l ++ LF :: terminated lines.
Proof. unfold terminated. cbn [map concat]. by rewrite <-app_assoc. Qed.
Lemma terminated_app a b : terminated (a ++ b) = terminated a ++ terminated b.
Proof. unfold terminated. by rewrite map_app, concat_app. Qed.
Lemma raw_lines_terminated lines s :
  Forall (λ l, LF ∉ l) lines → raw_lines (terminated lines ++ s) = (lines ++ (raw_lines s).1, (raw_lines s).2).
Proof.
  induction 1 as [|l lines Hn _ IH]; [by cbn; destruct (raw_lines s)|].
  rewrite terminated_cons, <-app_assoc. cbn [app]. by rewrite raw_lines_line, IH.
Qed.

(** The stream is cut where the newlines are, not where the reads were. *)
Lemma raw_lines_app a b :
  raw_lines (a ++ b) = ((raw_lines a).1 ++ (raw_lines ((raw_lines a).2 ++ b)).1, (raw_lines ((raw_lines a).2 ++ b)).2).
Proof.
  destruct (raw_lines_spec a) as (Ha & Hl & _). rewrite <-(raw_lines_terminated _ ((raw_lines a).2 ++ b) Hl), app_assoc. by rewrite <-Ha.
Qed.

Lemma span_LF s : LF ∉ (span (Ascii.eqb LF) s).1.
Proof. pose proof (span_before (Ascii.eqb LF) s) as H. rewrite Forall_forall in H. intros Hin. by specialize (H LF Hin). Qed.
Lemma raw_line_None s : raw_line s = None → LF ∉ s.
Proof.
  unfold raw_line. pose proof (span_LF s) as H2. destruct (span (Ascii.eqb LF) s) as [a [|b l]] eqn:Hs; [|done]. intros _.
  apply span_app in Hs. by rewrite app_nil_r in Hs; subst.
Qed.
Lemma raw_line_Some s raw : raw_line s = Some raw → s = raw ++ LF :: drop (length raw + 1) s ∧ LF ∉ raw.
Proof.
  unfold raw_line. pose proof (span_LF s) as H2. pose proof (span_after (Ascii.eqb LF) s) as H3.
  destruct (span (Ascii.eqb LF) s) as [a [|b l]] eqn:Hs; [done|]. intros [= ->]. specialize (H3 b l eq_refl). apply eqb_LF in H3 as ->.
  apply span_app in Hs. split; [|done]. rewrite Hs at 1. f_equal. rewrite Hs, <-drop_drop, drop_app_length. done.
Qed.

(** ** Serving them ([process_buffered_lines]) *)

Inductive Verdict := VIOLATION | TOO_LONG | COMMAND_LINE (line : cstr).

Definition judge_line (raw : cstr) : Verdict :=
  let line := without_cr raw in
  if has_char NUL raw || has_char CR line then VIOLATION
  else if client_input_line_fits line then COMMAND_LINE line
  else if Ascii.eqb (char0 raw) "@" then TOO_LONG else VIOLATION.

Inductive Ending := SERVED_ALL | VIOLATED | QUITTED.

Section Input.
Context `{E : Env} `{S : Services} {R : Recipients} {H : Handlers}.

(** Serves lines one after the other; how many were used up, and how it ended. *)
Fixpoint serve_lines (c : ptr) (lines : list cstr) : M (nat * Ending) :=
  match lines with
  | [] => mret (0, SERVED_ALL)
  | raw :: lines =>
      match judge_line raw with
      | VIOLATION => protocol_violation c ;; mret (0, VIOLATED)
      | TOO_LONG =>
          K ← client c;
          cfg ← config;
          tell c ":%s 417 %s :Input line was too long" [server_name cfg; command_reply_nick K] ;;
          '(n, ending) ← serve_lines c lines; mret (Datatypes.S n, ending)
      | COMMAND_LINE line =>
          quit ← (if empty line then mret false else irc_handle_line c line);
          if quit : bool then mret (1, QUITTED) else
          '(n, ending) ← serve_lines c lines; mret (Datatypes.S n, ending)
      end
  end.

(** The lines served are the first ones, as many as both budgets allow; they are taken
    off the input, unless one breaks the protocol. *)
Definition process_reference (c : ptr) (budget : nat) : M (bool * bool * nat) :=
  inbuf ← gets (λ w, input w c);
  let lines := (raw_lines inbuf).1 in
  '(n, ending) ← serve_lines c (take (Nat.min SERVER_INPUT_LINE_BUDGET_PER_CLIENT budget) lines);
  let remaining := terminated (drop n lines) ++ (raw_lines inbuf).2 in
  match ending with
  | VIOLATED => mret (true, false, budget - n)
  | QUITTED => upd_client c (set_cl_inbuf remaining) ;; mret (true, false, budget - n)
  | SERVED_ALL =>
      upd_client c (set_cl_inbuf remaining) ;;
      if overlong_partial remaining then
        K ← client c;
        snotice_broadcast SNOTICE_SECURITY "Protocol violation from %s: overlong partial IRC line (%zu bytes)"
          [cl_real_ip K; dec_nat (length remaining)] ;;
        cfg ← config;
        tell c ":%s 417 %s :Input line was too long" [server_name cfg; command_reply_nick K] ;;
        mret (true, false, budget - n)
      else mret (false, match drop n lines with [] => false | _ => true end, budget - n)
  end.

#[local] Hint Resolve irc_handle_line_stable : frame.
#[local] Hint Extern 5 (does (stable _) _) => apply quiet_stable; solve [eauto with frame] : frame.
Lemma serve_lines_stable c lines : does (stable c) (serve_lines c lines).
Proof. induction lines; cbn [serve_lines]; unfold protocol_violation; frames. Qed.

Lemma raw_lines_first raw s : LF ∉ raw → (raw_lines (raw ++ LF :: s)).1 = raw :: (raw_lines s).1.
Proof. intros H0. by rewrite raw_lines_line. Qed.

Lemma run_gets_bind {A B C} (g : World → A) (f : A → M B) (k : B → M C) w : ((gets g ≫= f) ≫= k) w = (f (g w) ≫= k) w.
Proof. done. Qed.

(** The offset at the end of the lines that were served. *)
Definition loop_end (offset budget : nat) (lines : list cstr) (r : nat * Ending) : LineLoop :=
  let offset := offset + length (terminated (take r.1 lines)) in
  match r.2 with
  | SERVED_ALL => LINES_DONE offset (budget - r.1)
  | VIOLATED => LINES_BAD (budget - r.1)
  | QUITTED => LINES_QUIT offset (budget - r.1)
  end.
Lemma loop_end_next p raw budget lines n ending : 0 < budget →
  loop_end (p + (length raw + 1)) (budget - 1) lines (n, ending) = loop_end p budget (raw :: lines) (Datatypes.S n, ending).
Proof.
  intros Hb. unfold loop_end. cbn [fst snd take]. rewrite terminated_cons, length_app. cbn [length].
  replace (p + (length raw + 1) + length (terminated (take n lines))) with (p + (length raw + Datatypes.S (length (terminated (take n lines))))) by lia.
  by replace (budget - 1 - n) with (budget - Datatypes.S n) by lia.
Qed.

(** One line, then the others: the loop and the reference go together. *)
Lemma line_step {A} c (m : M A) p raw s budget w (k : A → M LineLoop) (k' : A → M (nat * Ending)) :
  does (stable c) m → sound w → alive w c → input w c = p ++ raw ++ LF :: s →
  (∀ a w1, sound w1 → alive w1 c → input w1 c = (p ++ raw ++ [LF]) ++ s →
     k a w1 = (r ← k' a; mret (loop_end (length p) budget (raw :: (raw_lines s).1) r)) w1) →
  (m ≫= k) w = (r ← (m ≫= k'); mret (loop_end (length p) budget (raw :: (raw_lines s).1) r)) w.
Proof.
  intros Hm Hs Hc Hi Hk. rewrite !run_bind. destruct (Hm w Hs Hc) as (H1 & H2 & H3). destruct (m w) as [a w1]. cbn [fst snd] in *.
  rewrite Hk by (done || (rewrite H3, Hi, <-app_assoc; cbn [app]; by rewrite <-app_assoc)). by rewrite run_bind.
Qed.

Lemma line_loop_serves rounds c p s budget w :
  sound w → alive w c → input w c = p ++ s →
  line_loop rounds c (length p) budget w =
  (r ← serve_lines c (take (Nat.min rounds budget) (raw_lines s).1);
   mret (loop_end (length p) budget (raw_lines s).1 r)) w.
Proof.
  assert (Hnil : ∀ b lines, loop_end (length p) b lines (0, SERVED_ALL) = LINES_DONE (length p) b).
  { intros b lines. unfold loop_end. cbn. by rewrite Nat.add_0_r, Nat.sub_0_r. } revert Hnil.
  revert p s budget w. induction rounds as [|rounds IH]; intros p s budget w Hnil Hs Hc Hi; cbn [line_loop].
  { rewrite Nat.min_0_l, take_0. cbn [serve_lines]. rewrite run_ret. by rewrite Hnil. }
  unfold client. rewrite run_gets. unfold input in Hi.
  destruct budget as [|budget]; [cbn [Nat.eqb orb]; rewrite Nat.min_0_r, take_0; cbn [serve_lines]; rewrite run_ret; by rewrite Hnil|].
  cbn [Nat.eqb orb]. rewrite Hi, drop_app_length, length_app. cbv zeta.
  destruct (Nat.leb_spec (length p + length s) (length p)).
  { destruct s; [|simpl in *; lia]. cbn [raw_lines fst]. rewrite take_nil. cbn [serve_lines]. rewrite run_ret. by rewrite Hnil. }
  destruct (raw_line s) as [raw|] eqn:Hl.
  2:{ apply raw_line_None in Hl. rewrite raw_lines_partial by done. cbn [fst]. rewrite take_nil. cbn [serve_lines]. rewrite run_ret. by rewrite Hnil. }
  apply raw_line_Some in Hl as [Hl Hn]. revert Hl. generalize (drop (length raw + 1) s). intros rest ->.
  rewrite raw_lines_first by done. rewrite <-Nat.succ_min_distr. cbn [take serve_lines]. unfold judge_line.
  assert (Hnext : ∀ w1, sound w1 → alive w1 c → input w1 c = (p ++ raw ++ [LF]) ++ rest →
    line_loop rounds c (length p + length raw + 1) (Datatypes.S budget - 1) w1 =
    ('(n, ending) ← serve_lines c (take (Nat.min rounds budget) (raw_lines rest).1);
     mret (loop_end (length p) (Datatypes.S budget) (raw :: (raw_lines rest).1) (Datatypes.S n, ending))) w1).
  { intros w1 Hs1 Hc1 Hi1. replace (length p + length raw + 1) with (length (p ++ raw ++ [LF])) by (rewrite !length_app; simpl; lia).
    replace (Datatypes.S budget - 1) with budget by lia. rewrite (IH _ rest); [|clear; intros; unfold loop_end; cbn; by rewrite Nat.add_0_r, Nat.sub_0_r|done..].
    rewrite !run_bind. destruct (serve_lines _ _ w1) as [[n ending] w2].
    rewrite <-loop_end_next by lia. rewrite !length_app. cbn [length]. by replace (Datatypes.S budget - 1) with budget by lia. }
  destruct (has_char NUL raw || _).
  { rewrite !run_bind. destruct (protocol_violation c w) as [[] w1]. done. }
  destruct (client_input_line_fits (without_cr raw)) eqn:Hfit; cbn [negb].
  - apply (line_step c); [destruct (empty _); frames | done | done | done |]. intros [] w1 Hs1 Hc1 Hi1.
    + rewrite run_ret. unfold loop_end. cbn [fst snd take]. rewrite take_0, terminated_cons, length_app. cbn.
      by rewrite Nat.sub_0_r, <-Nat.add_assoc.
    + rewrite Hnext by done. rewrite !run_bind. by destruct (serve_lines _ _ w1) as [[n ending] w2].
  - assert (Hraw : raw ≠ []) by (by intros ->).
    assert (char0 (raw ++ LF :: rest) = char0 raw) as -> by (by destruct raw).
    destruct (Ascii.eqb (char0 raw) "@"); cbn [negb].
    + unfold config, client. rewrite run_gets, !run_gets_bind. apply (line_step c (tell _ _ _)); [frames | done | done | done |].
      intros [] w1 Hs1 Hc1 Hi1. rewrite Hnext by done. rewrite !run_bind. by destruct (serve_lines _ _ w1) as [[n ending] w2].
    + rewrite !run_bind. by destruct (protocol_violation c w) as [[] w1].
Qed.

Lemma serve_lines_length c lines w : (serve_lines c lines w).1.1 ≤ length lines.
Proof.
  revert w. induction lines as [|raw lines IH]; intros w; cbn [serve_lines]; [done|]. destruct (judge_line raw).
  - rewrite run_bind. destruct (protocol_violation c w). cbn. lia.
  - unfold client, config. rewrite !run_gets, !run_bind. destruct (tell _ _ _ w) as [[] w1]. rewrite run_bind. specialize (IH w1).
    destruct (serve_lines c lines w1) as [[n e] w2]. cbn in *. lia.
  - rewrite run_bind. match goal with |- context [(if empty line then ?a else ?b) w] => destruct ((if empty line then a else b) w) as [[] w1] end; [cbn; lia|]. rewrite run_bind. specialize (IH w1).
    destruct (serve_lines c lines w1) as [[n e] w2]. cbn in *. lia.
Qed.

Lemma has_newline lines rest : Forall (λ l, LF ∉ l) lines → LF ∉ rest →
  has_char LF (terminated lines ++ rest) = match lines with [] => false | _ => true end.
Proof.
  intros _ Hr. destruct lines as [|l lines].
  - destruct (has_char LF _) eqn:Hc; [|done]. by apply has_char_elem in Hc.
  - apply has_char_elem. rewrite terminated_cons. set_solver.
Qed.

Lemma consume_run c n w : consume_input c n w = upd_client c (set_cl_inbuf (drop n (input w c))) w.
Proof.
  unfold consume_input, upd_client, put_client, modify, input, the_client.
  rewrite (alter_ext _ (set_cl_inbuf (drop n (cl_inbuf (default calloc_client (w_clients w !! c)))))); [done|]. by intros K ->.
Qed.

Lemma drop_terminated n lines rest :
  drop (length (terminated (take n lines))) (terminated lines ++ rest) = terminated (drop n lines) ++ rest.
Proof. rewrite <-(take_drop n lines) at 2. by rewrite terminated_app, <-app_assoc, drop_app_length. Qed.

Lemma put_inbuf_input c s w : alive w c → cl_inbuf (the_client (put_client c (set_cl_inbuf s) w) c) = s.
Proof. intros [K HK]. unfold the_client. simpl. by rewrite lookup_alter_eq, HK. Qed.

Lemma read_flags_input (b x y : bool) c w : input (when b (read_flags c x y) w).2 c = input w c.
Proof.
  destruct b; [|done]. unfold read_flags, input, the_client. cbn [when]. rewrite run_bind. simpl. rewrite lookup_alter_eq.
  by destruct (w_clients w !! c).
Qed.
Lemma append_input c w s :
  input (put_client c (λ K, set_cl_inbuf (cl_inbuf K ++ s) K) w) c = match w_clients w !! c with Some K => cl_inbuf K ++ s | None => [] end.
Proof. unfold input, the_client. simpl. rewrite lookup_alter_eq. by destruct (w_clients w !! c). Qed.
Definition received_bytes (r : ReadResult) : cstr := match r with READ_BYTES bytes => bytes | _ => [] end.

Lemma read_client_input c r w : alive w c →
  input (read_client c r w).2 c = input w c ++ take (IRC_INPUT_BUFFER_SIZE - 1 - length (input w c)) (received_bytes r).
Proof.
  intros Hc. assert (Hsame : input w c = input w c ++ take (IRC_INPUT_BUFFER_SIZE - 1 - length (input w c)) []) by (by rewrite take_nil, app_nil_r).
  unfold read_client, client. rewrite !run_gets. set (tls := ssl _). clearbody tls. fold (input w c).
  destruct (Nat.leb_spec (IRC_INPUT_BUFFER_SIZE - 1) (length (input w c))) as [Hfull|_].
  { replace (_ - _ - length (input w c)) with 0 by lia. by rewrite take_0, app_nil_r. }
  cbv zeta. replace (_ - length (input w c) - 1) with (IRC_INPUT_BUFFER_SIZE - 1 - length (input w c)) by lia.
  pose proof (read_flags_input tls false false c w) as H1. pose proof (read_flags_input tls true false c w) as H2.
  pose proof (read_flags_input tls true true c w) as H3. destruct r as [[|b bytes]| | |]; cbn [received_bytes]; [done| | | |done].
  - rewrite run_bind. assert (H4 : alive (when tls (read_flags c false false) w).2 c).
    { destruct tls; [|done]. unfold alive in *. cbn [when]. unfold read_flags. rewrite run_bind. simpl. apply lookup_alter_is_Some. exact Hc. }
    destruct (when tls _ w) as [[] w1]. cbn [snd] in *. rewrite run_bind. unfold upd_client, modify. cbn [snd]. cbv beta iota.
    unfold input at 1, the_client. simpl. rewrite lookup_alter_eq. destruct H4 as [K HK]. rewrite HK. simpl. rewrite <-H1. unfold input, the_client.
    by rewrite HK.
  - rewrite run_bind. destruct (when tls (read_flags c true false) w) as [[] w1]. by rewrite <-Hsame.
  - destruct tls; [|done]. cbn [when] in *. rewrite run_bind. destruct (read_flags c true true w) as [[] w1]. by rewrite <-Hsame.
Qed.

(** C2: every line a client sends is served once, in order, however its bytes arrive.
    [process_buffered_lines], which walks the buffer with offsets and moves memory,
    agrees with serving the first lines of the buffer one after the other, as many as
    the budgets of the client and of the server allow, and keeping the rest; the lines
    are the pieces of the buffer between newlines, and those of a stream do not depend
    on how it was cut into reads; and reading appends what arrived, up to the size of
    the buffer, which is never exceeded. *)
Theorem input_lines_served_once :
  (∀ w c budget, sound w → alive w c → process_buffered_lines c budget w = process_reference c budget w) ∧
  (∀ s, s = terminated (raw_lines s).1 ++ (raw_lines s).2 ∧ Forall (λ l, LF ∉ l) (raw_lines s).1 ∧ LF ∉ (raw_lines s).2) ∧
  (∀ a b, let '(lines, rest) := raw_lines a in
     raw_lines (a ++ b) = (lines ++ (raw_lines (rest ++ b)).1, (raw_lines (rest ++ b)).2)) ∧
  (∀ w c r, alive w c → length (input w c) ≤ IRC_INPUT_BUFFER_SIZE - 1 →
     let w' := (read_client c r w).2 in
     input w' c = input w c ++ take (IRC_INPUT_BUFFER_SIZE - 1 - length (input w c)) (received_bytes r) ∧
     length (input w' c) ≤ IRC_INPUT_BUFFER_SIZE - 1).
Proof.
  split_and!.
  - intros w c budget Hs Hc. unfold process_buffered_lines, process_reference. rewrite run_gets. cbv zeta.
    pose proof (line_loop_serves SERVER_INPUT_LINE_BUDGET_PER_CLIENT c [] (input w c) budget w Hs Hc eq_refl) as Hloop.
    cbn [length] in Hloop. rewrite run_bind, Hloop, !run_bind. clear Hloop.
    set (lines := take _ _). pose proof (serve_lines_stable c lines w Hs Hc) as (_ & Hc1 & Hi). pose proof (serve_lines_length c lines w) as Hlen.
    destruct (serve_lines c lines w) as [[n ending] w1]. cbn [fst snd] in *.
    pose proof (raw_lines_spec (input w c)) as (Hall & Hlines & Hrest). cbv beta iota.
    set (remaining := terminated (drop n _) ++ _).
    assert (Hend : consume_input c (0 + length (terminated (take n (raw_lines (input w c)).1))) w1 =
      (tt, put_client c (set_cl_inbuf remaining) w1)).
    { rewrite consume_run, Hi. unfold remaining. by rewrite <-drop_terminated, <-Hall. }
    match goal with |- context [@mret ?m ?i ?t (loop_end ?a ?b ?l ?r) ?x] => change (@mret m i t (loop_end a b l r) x) with (loop_end a b l r, x) end.
    cbv beta iota. unfold loop_end. cbv zeta. cbn [fst snd]. destruct ending; cbn [fst snd]; [|done|by rewrite run_bind, Hend].
    rewrite run_bind, Hend. unfold client at 1. rewrite run_gets, run_upd_client, put_inbuf_input by done.
    destruct (overlong_partial remaining); [done|]. unfold remaining. rewrite has_newline; [|by apply Forall_drop|done]. done.
  - apply raw_lines_spec.
  - intros a b. pose proof (raw_lines_app a b) as Ha. by destruct (raw_lines a).
  - intros w c r Hc Hl w'. pose proof (read_client_input c r w Hc) as H1. fold w' in H1. rewrite H1. split; [done|].
    rewrite length_app, length_take. lia.
Qed.
End Input.
