(* ===== verification/Deadlines.v ===== *)
(** * What the maintenance does about deadlines

    The clients it disconnects are exactly those that missed a deadline, although each
    disconnection moves another client of the array to the place of the one removed
    ([expire_connection_lookups], [maintain_client_liveness]). *)

From S2P Require Import Prelude CString Modes HashTable MaskMatch Output World Channel Invariant Policy Tags Numerics Ircv3 Presence Env Cloak Register Connection Services Registry RegistryProps Sound Flood JoinPart Oper Accounts NickServ ChanDb ChanServ Cap Message MessageProps Query QueryProps OperProps ChanCmds Mode ModeProps SaCmds SaProps Stability Disconnects NickServProps AccountProps CapProps ChanServProps Registrations Authority Soundness Dispatch Loop LoopSound.

(** ** Sweeping an array whose removals fill the gap from the end *)

Lemma take_array_remove index l :
  NoDup l → index < length l → take index (array_remove (nth index l 0) l) = take index l.
Proof.
  intros Hnd Hi. destruct (nth_split l 0 Hi) as (l1 & l2 & Hl & Hlen). revert Hl. generalize (nth index l 0). intros c ->.
  subst index. assert (Hc : c ∉ l1) by (intros Hin; apply NoDup_app in Hnd as (_ & Hd & _); apply (Hd c Hin); by left).
  unfold array_remove. assert (existsb (Nat.eqb c) (l1 ++ c :: l2) = true) as ->.
  { apply existsb_exists. exists c. split; [apply list_elem_of_In; set_solver | apply Nat.eqb_refl]. }
  destruct l2 as [|z l2 _] using rev_ind.
  - by rewrite last_snoc, replace_first_split, List.removelast_last, take_app_length, firstn_all.
  - replace (l1 ++ c :: l2 ++ [z]) with ((l1 ++ c :: l2) ++ [z]) by (by rewrite <-app_assoc).
    rewrite last_snoc, <-app_assoc. cbn [app]. rewrite replace_first_split by done.
    replace (l1 ++ z :: l2 ++ [z]) with ((l1 ++ z :: l2) ++ [z]) by (by rewrite <-app_assoc).
    rewrite List.removelast_last. replace ((l1 ++ c :: l2) ++ [z]) with (l1 ++ (c :: l2 ++ [z])) by (by rewrite <-app_assoc).
    by rewrite !take_app_length.
Qed.

Lemma nth_not_before index l : NoDup l → index < length l → nth index l 0 ∉ take index l.
Proof.
  intros Hnd Hi. destruct (nth_split l 0 Hi) as (l1 & l2 & Hl & Hlen). revert Hl. generalize (nth index l 0). intros c ->.
  rewrite <-Hlen, take_app_length. intros Hin. apply NoDup_app in Hnd as (_ & Hd & _). apply (Hd c Hin). by left.
Qed.
Lemma take_next index l : index < length l → take (index + 1) l = take index l ++ [nth index l 0].
Proof.
  intros Hi. destruct (nth_split l 0 Hi) as (l1 & l2 & Hl & Hlen). revert Hl. generalize (nth index l 0). intros c ->.
  rewrite <-Hlen, take_app_length. replace (l1 ++ c :: l2) with ((l1 ++ [c]) ++ l2) by (by rewrite <-app_assoc).
  apply take_app_length'. rewrite length_app. simpl. lia.
Qed.

(** The parts of the state a deadline depends on, for one client. *)
Definition schedule (K : Client) :=
  (cl_registered K, cl_signon_time K, cl_nospoof_started K, cl_nospoof_verified K, cl_nospoof_deadline K,
   cl_dns_state K, cl_dns_deadline K, cl_dnsbl_state K, cl_dnsbl_deadline K, cl_ping_pending K, cl_ping_deadline K).

Section Deadlines.
Context `{E : Env} `{S : Services} {R : Recipients} {H : Handlers}.

(** Nothing about deadlines differs but for [c]. *)
Definition apart (c : ptr) (w w' : World) : Prop :=
  w_config w' = w_config w ∧ ∀ d, d ≠ c → same_at schedule d w w'.

#[local] Existing Instance lasts_silent.
#[local] Instance apart_silent c : Silent (apart c).
Proof.
  split; [split|].
  - by intros w.
  - intros w1 w2 w3 [A1 A2] [B1 B2]. split; [congruence|]. intros d Hd. etrans; [by apply A2 | by apply B2].
  - intros w w' Hq. split; [unfold quiet in Hq; by rewrite Hq|]. intros d _. by apply silent_quiet.
Qed.
Lemma upd_client_apart c f : does (apart c) (upd_client c f).
Proof. intros w. split; [done|]. intros d Hd. by apply same_at_other. Qed.
Lemma set_hook_apart c h : does (apart c) (modify (set_w_free_hook h)).
Proof. by intros w. Qed.
#[local] Hint Resolve upd_client_apart set_hook_apart : frame.
#[local] Hint Extern 5 (does (apart _) _) => apply (does_quiet _); solve [eauto with frame] : frame.

Lemma maybe_register_apart c : does (apart c) (command_maybe_register c).
Proof.
  unfold command_maybe_register, registration_geo_banned, registration_dnsbl, registration_banned,
    registration_reject, registration_ban_policy_error, registration_refuse, send_welcome, presence_watch_online,
    client, config, now.
  frames.
Qed.
#[local] Hint Resolve maybe_register_apart : frame.
Lemma expire_lookups_apart c t : does (apart c) (expire_lookups c t).
Proof. unfold expire_lookups, in_handshake. frames. Qed.
Lemma check_liveness_apart c t : does (apart c) (check_liveness c t).
Proof. unfold check_liveness. frames. Qed.
#[local] Hint Resolve expire_lookups_apart check_liveness_apart : frame.

(** ** Rounds of a sweep *)

Definition removed (c : ptr) (w w1 : World) : Prop :=
  w_client_array w1 = array_remove c (w_client_array w) ∧ (∀ d, alive w1 d ↔ alive w d ∧ d ≠ c) ∧ apart c w w1.
Definition spared (c : ptr) (w w1 : World) : Prop :=
  w_client_array w1 = w_client_array w ∧ (∀ d, alive w1 d ↔ alive w d) ∧ apart c w w1.

Lemma array_alive w c : sound w → c ∈ w_client_array w ↔ alive w c.
Proof. intros (_ & Hr & _). rewrite (reg_array w Hr). unfold identities, alive. by rewrite lookup_fmap, fmap_is_Some. Qed.

Section Sweep.
(** A client is over when [over] says so; a round at an index ends the client there or
    leaves it [fine]. *)
Variables (over fine : ServerConfig → Client → bool).
Hypothesis over_schedule : ∀ cfg K K', schedule K = schedule K' → over cfg K = over cfg K'.
Hypothesis fine_schedule : ∀ cfg K K', schedule K = schedule K' → fine cfg K = fine cfg K'.

Variable loop : nat → nat → World → World.
Hypothesis loop_done : ∀ rounds index w, length (w_client_array w) ≤ index → loop rounds index w = w.
Hypothesis loop_round : ∀ rounds more index w, sound w → index < length (w_client_array w) →
  let c := nth index (w_client_array w) 0 in
  ∃ w1, sound w1 ∧
    (over (w_config w) (the_client w c) = true ∧ removed c w w1 ∧
       loop (Datatypes.S rounds) index w = loop rounds index w1 ∧ loop (Datatypes.S more) index w = loop more index w1 ∨
     over (w_config w) (the_client w c) = false ∧ spared c w w1 ∧ fine (w_config w1) (the_client w1 c) = true ∧
       loop (Datatypes.S rounds) index w = loop rounds (index + 1) w1 ∧ loop (Datatypes.S more) index w = loop more (index + 1) w1).

Lemma sweep rounds index w :
  sound w → length (w_client_array w) ≤ rounds + index →
  (∀ d, d ∈ take index (w_client_array w) → fine (w_config w) (the_client w d) = true) →
  let w' := loop rounds index w in
  w_config w' = w_config w ∧
  (∀ d, alive w' d ↔ alive w d ∧ (d ∈ take index (w_client_array w) ∨ over (w_config w) (the_client w d) = false)) ∧
  (∀ d, alive w' d → fine (w_config w') (the_client w' d) = true) ∧
  (∀ more, loop (rounds + more) index w = w').
Proof.
  revert index w. induction rounds as [|rounds IH]; intros index w Hs Hlen Hfine.
  all: destruct (decide (length (w_client_array w) ≤ index)) as [Hend|Hmore]; [|try lia].
  1, 2: rewrite loop_done by done; cbn zeta; rewrite take_ge in * by done; split_and!; [done| |intros d Hd; by apply Hfine, array_alive|intros more; by apply loop_done].
  1, 2: intros d; rewrite (array_alive w d Hs); tauto.
  assert (Hi : index < length (w_client_array w)) by lia. cbn zeta. assert (Hr : registry_ok w) by apply Hs.
  cut (∀ more, let w' := loop (Datatypes.S rounds) index w in
    w_config w' = w_config w ∧
    (∀ d, alive w' d ↔ alive w d ∧ (d ∈ take index (w_client_array w) ∨ over (w_config w) (the_client w d) = false)) ∧
    (∀ d, alive w' d → fine (w_config w') (the_client w' d) = true) ∧ loop (Datatypes.S (rounds + more)) index w = w').
  { intros Hall. destruct (Hall 0) as (H1 & H2 & H3 & _). split_and!; [exact H1 | exact H2 | exact H3 | apply Hall]. }
  intros more. cbn zeta.
  destruct (loop_round rounds (rounds + more) index w Hs Hi)
    as (w1 & Hs1 & [(Hover & (Harr & Halive & Hcfg & Hothers) & -> & ->)|(Hover & (Harr & Halive & Hcfg & Hothers) & Hok & -> & ->)]);
    revert Hover Harr Halive Hothers.
  - pose proof (take_array_remove index (w_client_array w) (reg_nodup w Hr) Hi) as Htake.
    pose proof (array_remove_spec (nth index (w_client_array w) 0) (w_client_array w) (reg_nodup w Hr)) as Hrem.
    assert (Hnotin : nth index (w_client_array w) 0 ∉ take index (w_client_array w)) by (by apply nth_not_before; [apply (reg_nodup w Hr)|]).
    assert (Hin : nth index (w_client_array w) 0 ∈ w_client_array w) by (by apply list_elem_of_In, nth_In).
    revert Htake Hrem Hnotin Hin. generalize (nth index (w_client_array w) 0). intros c Htake Hrem Hnotin Hin Hover Harr Halive Hothers.
    destruct (Hrem Hin) as (_ & _ & Hlen1). rewrite <-Harr in Htake.
    destruct (IH index w1 Hs1) as (H1 & H2 & H3 & H4); [rewrite Harr; lia| |].
    { intros d Hd. rewrite Htake in Hd. rewrite Hcfg, (fine_schedule _ _ (the_client w d)); [apply Hfine, Hd|]. apply Hothers. by intros ->. }
    split_and!; [congruence| |exact H3|apply H4]. intros d. rewrite H2, Htake, Halive, Hcfg.
    destruct (decide (d = c)) as [->|Hd].
    + split; [tauto|]. intros [_ [?|?]]; [done | congruence].
    + rewrite (over_schedule _ (the_client w1 d) (the_client w d)) by (by apply Hothers). tauto.
  - pose proof (take_next index (w_client_array w) Hi) as Htake. revert Htake Hok. generalize (nth index (w_client_array w) 0).
    intros c Htake Hok Hover Harr Halive Hothers. rewrite <-Harr in Htake.
    destruct (IH (index + 1) w1 Hs1) as (H1 & H2 & H3 & H4); [rewrite Harr; lia| |].
    { intros d Hd. rewrite Htake, elem_of_app, list_elem_of_singleton in Hd. rewrite Harr in Hd.
      destruct (decide (d = c)) as [->|Hne]; [done|]. destruct Hd as [Hd|?]; [|done].
      rewrite Hcfg, (fine_schedule _ _ (the_client w d)); [apply Hfine, Hd|]. by apply Hothers. }
    split_and!; [congruence| |exact H3|apply H4]. intros d. rewrite H2, Htake, elem_of_app, list_elem_of_singleton, Harr, Halive, Hcfg.
    destruct (decide (d = c)) as [->|Hd]; [tauto|].
    rewrite (over_schedule _ (the_client w1 d) (the_client w d)) by (by apply Hothers). tauto.
Qed.
End Sweep.

(** ** The two ways a round goes *)

Lemma disconnect_removed c reason w : sound w → alive w c →
  sound (server_disconnect c reason w).2 ∧ removed c w (server_disconnect c reason w).2.
Proof.
  intros Hs Hc. split; [by apply disconnect_sound|]. destruct Hc as [K HK]. pose proof (proj1 Hs) as Hw.
  destruct (disconnected_clients c reason w K Hw HK) as (_ & Hcl & _).
  destruct (server_disconnect_run c reason w K Hw HK) as (v & nicks & counts & (Hreg & _) & _ & _ & _ & _ & _ & Hset).
  unfold settled, registry_part in Hset, Hreg. cbn in Hset. injection Hset as S1 S2 _ _ _ _ _ _ _ _ _ _. injection Hreg as R1 _ _ _ _ _ _ _.
  split_and!; [exact S2| |split; [congruence|]].
  - intros d. unfold alive. rewrite Hcl. destruct (decide (d = c)) as [->|Hd].
    + rewrite lookup_delete_eq. split; [by intros [??] | tauto].
    + rewrite lookup_delete_ne by congruence. tauto.
  - intros d Hd. unfold same_at, the_client. by rewrite Hcl, lookup_delete_ne by congruence.
Qed.

Lemma farewell_removed {A B} (m1 : M A) (m2 : M B) c reason w :
  does quiet m1 → does quiet m2 → sound w → alive w c →
  ∃ w1, sound w1 ∧ removed c w w1 ∧ ∀ C (k : M C), (m1 ;; m2 ;; server_disconnect c reason ;; k) w = k w1.
Proof.
  intros H1 H2 Hs Hc.
  destruct (run_quiet m1 w H1) as (a & i & E1). destruct (run_quiet m2 (set_w_io i w) H2) as (b & j & E2).
  destruct (disconnect_removed c reason (set_w_io j (set_w_io i w))) as (Hs1 & Hr).
  { apply (silent_quiet (R := lasts) w); done. } { done. }
  exists (server_disconnect c reason (set_w_io j (set_w_io i w))).2. split; [done|]. split; [exact Hr|]. intros C k.
  rewrite run_bind, E1, run_bind, E2, run_bind. by destruct (server_disconnect _ _ _) as [[] w1].
Qed.

Lemma tame_spared {A} c (m : M A) w : does tame m → does (apart c) m → sound w → sound (m w).2 ∧ spared c w (m w).2.
Proof.
  intros Ht Ha Hs. split; [by apply (tame_lasts m Ht w Hs)|]. destruct (Ht w) as [[Hr Hh _] _]. split_and!; [|clear Hr|apply Ha].
  - unfold roster in Hr. by injection Hr.
  - intros d. pose proof (holders_lookup w d) as H1. pose proof (holders_lookup (m w).2 d) as H2. rewrite Hh in H2. rewrite H2 in H1.
    unfold alive. destruct (w_clients w !! d), (w_clients (m w).2 !! d); simpl in *; try done; split; eauto; by intros [??].
Qed.

(** ** Registration and lookups *)

(** What the registration check leaves alone in its client. *)
Definition settings (K : Client) :=
  (cl_signon_time K, cl_nospoof_started K, cl_nospoof_verified K, cl_nospoof_deadline K, cl_dns_state K, cl_dns_deadline K).

Lemma maybe_register_settings c : does (same_at settings c) (command_maybe_register c).
Proof.
  unfold command_maybe_register, registration_geo_banned, registration_dnsbl, registration_banned,
    registration_reject, registration_ban_policy_error, registration_refuse, send_welcome, presence_watch_online,
    client, config, now.
  frames. apply same_at_upd. intros K. unfold settings, usermode_apply_cloak, cloak_refresh_display_host. cbv zeta.
  by repeat case_match.
Qed.

(** A lookup that was given up is not asked again. *)
Definition given_up (c : ptr) (w w' : World) : Prop :=
  cl_dnsbl_state (the_client w c) = CLIENT_DNSBL_TIMEOUT → cl_dnsbl_state (the_client w' c) = CLIENT_DNSBL_TIMEOUT.
#[local] Instance given_up_silent c : Silent (given_up c).
Proof.
  split; [split; [intros w H1; exact H1 | intros w1 w2 w3 H1 H2 H3; apply H2, H1, H3]|]. intros w w' Hq. unfold given_up.
  pose proof (silent_quiet (R := same_at cl_dnsbl_state c) w w' Hq) as ->. done.
Qed.
Lemma same_given_up {A} c (m : M A) : does (same_at cl_dnsbl_state c) m → does (given_up c) m.
Proof. intros Hm w. unfold given_up. by rewrite (Hm w). Qed.
#[local] Hint Extern 5 (does (given_up _) _) => apply same_given_up; solve [frames] : frame.
Lemma registration_dnsbl_given_up c : does (given_up c) (registration_dnsbl c).
Proof.
  intros w Hst. unfold registration_dnsbl, client. rewrite run_gets, bool_decide_false by congruence. exact Hst.
Qed.
#[local] Hint Resolve registration_dnsbl_given_up : frame.
Lemma apply_cloak_given_up c cfg : does (given_up c) (upd_client c (usermode_apply_cloak cfg)).
Proof.
  apply same_given_up, same_at_upd. intros K. unfold usermode_apply_cloak, cloak_refresh_display_host. cbv zeta.
  by repeat case_match.
Qed.
#[local] Hint Resolve apply_cloak_given_up : frame.
Lemma maybe_register_given_up c : does (given_up c) (command_maybe_register c).
Proof.
  unfold command_maybe_register, registration_geo_banned, registration_banned,
    registration_reject, registration_ban_policy_error, registration_refuse, send_welcome, presence_watch_online,
    client, config, now.
  frames.
Qed.

(** Nothing is overdue at [t], DNSBL lookups apart. *)
Definition in_time (t : Z) (cfg : ServerConfig) (K : Client) : bool :=
  negb (registration_overdue cfg t K || nospoof_overdue cfg t K || dns_overdue t K).

Lemma in_time_settings t cfg K K' :
  settings K = settings K' → (cl_registered K' = true → K = K') → in_time t cfg K' = true → in_time t cfg K = true.
Proof.
  intros Hset Hreg. destruct (cl_registered K') eqn:HK'; [by rewrite Hreg|]. unfold settings in Hset. injection Hset as E1 E2 E3 E4 E5 E6.
  unfold in_time, registration_overdue, nospoof_overdue, dns_overdue. rewrite E1, E2, E3, E4, E5, E6, HK'. cbn [negb andb].
  destruct (registration_timeout_seconds cfg <=? _)%Z; [done|]. by rewrite andb_false_r.
Qed.

Lemma maybe_register_in_time t c w :
  in_time t (w_config w) (the_client w c) = true →
  in_time t (w_config (command_maybe_register c w).2) (the_client (command_maybe_register c w).2 c) = true.
Proof.
  destruct (maybe_register_apart c w) as [-> _]. apply in_time_settings; [apply maybe_register_settings|].
  intros Hreg. unfold command_maybe_register, config, client. rewrite !run_gets. unfold registration_waits. by rewrite Hreg.
Qed.

(** What holds of [c] after the last step of a sequence, if quiet steps come before. *)
Lemma after_quiet {A B} (m : M A) (k : A → M B) (P : World → Prop) w :
  does quiet m → (∀ a i, P (k a (set_w_io i w)).2) → P ((m ≫= k) w).2.
Proof. intros Hm Hk. by apply (quiet_step m k w (λ x, P x.2)). Qed.

Definition overdue (t : Z) (cfg : ServerConfig) (K : Client) : bool :=
  registration_overdue cfg t K || nospoof_overdue cfg t K.
Definition settled_in (t : Z) (c : ptr) (w : World) : Prop := in_time t (w_config w) (the_client w c) = true.

(** A lookup that is given up: its state is set, the client is told, and registration is tried. *)
Lemma abandon_dns t c K cfg w :
  alive w c → overdue t (w_config w) (the_client w c) = false →
  settled_in t c ((upd_client c (λ K, set_cl_real_host [] (set_cl_dns_state CLIENT_DNS_TIMEOUT K)) ;;
     snotice_broadcast SNOTICE_DNS "FCrDNS timeout for %s" [cl_real_ip K] ;;
     handshake ← in_handshake c;
     when (negb handshake) (tell c NOTICE_FAILDNS [server_name cfg]) ;;
     command_maybe_register c) w).2.
Proof.
  intros [K0 HK0] Hover. unfold in_handshake. rewrite run_upd_client.
  apply (after_quiet _ _ (settled_in t c)); [frames|]. intros _ i. rewrite run_gets.
  apply (after_quiet _ _ (settled_in t c)); [frames|]. intros _ j. apply maybe_register_in_time.
  unfold the_client in *. simpl. rewrite lookup_alter_eq. rewrite HK0 in *. cbn [fmap option_fmap option_map from_option id] in *.
  apply orb_false_iff in Hover as [H1 H2].
  change (negb (registration_overdue (w_config w) t K0 || nospoof_overdue (w_config w) t K0 || false) = true). by rewrite H1, H2.
Qed.
Lemma abandon_dnsbl t c K w :
  alive w c → settled_in t c w →
  let w' := ((upd_client c (set_cl_dnsbl_state CLIENT_DNSBL_TIMEOUT) ;;
     snotice_broadcast SNOTICE_DNS "DNSBL lookup timeout for %s" [cl_real_ip K] ;;
     command_maybe_register c) w).2 in
  settled_in t c w' ∧ cl_dnsbl_state (the_client w' c) = CLIENT_DNSBL_TIMEOUT.
Proof.
  intros [K0 HK0] Hin. cbv zeta. rewrite run_upd_client.
  apply (after_quiet _ _ (λ w', settled_in t c w' ∧ cl_dnsbl_state (the_client w' c) = CLIENT_DNSBL_TIMEOUT)); [frames|]. intros _ i. split.
  - apply maybe_register_in_time. unfold settled_in, the_client in *. simpl. rewrite lookup_alter_eq. by rewrite HK0 in *.
  - apply maybe_register_given_up. unfold the_client. simpl. by rewrite lookup_alter_eq, HK0.
Qed.

Definition caught_up (t : Z) (cfg : ServerConfig) (K : Client) : bool := in_time t cfg K && negb (dnsbl_overdue t K).

#[local] Hint Resolve maybe_register_tame : frame.
#[local] Hint Extern 5 (does tame _) => apply (does_quiet _); solve [eauto with frame] : frame.
#[local] Hint Extern 4 (does tame (upd_client _ _)) => apply upd_client_tame; intros ?; by split_and! : frame.
Definition caught_up_in (t : Z) (c : ptr) (w : World) : Prop := caught_up t (w_config w) (the_client w c) = true.

Lemma expire_lookups_caught_up t c w :
  sound w → alive w c → overdue t (w_config w) (the_client w c) = false → caught_up_in t c (expire_lookups c t w).2.
Proof.
  intros Hs Hc Hover. unfold expire_lookups, config, client. rewrite !run_gets, run_bind.
  set (abandon := when (dns_overdue t (the_client w c)) _).
  assert (H1 : settled_in t c (abandon w).2).
  { unfold abandon. destruct (dns_overdue t (the_client w c)) eqn:Hdns; [by apply abandon_dns|].
    unfold settled_in, in_time. change (when false _ w).2 with w. apply orb_false_iff in Hover as [H1 H2]. by rewrite H1, H2, Hdns. }
  assert (H2 : alive (abandon w).2 c).
  { assert (Ht : does tame abandon) by (unfold abandon, in_handshake; frames).
    assert (Ha : does (apart c) abandon) by (unfold abandon, in_handshake; frames).
    by apply (tame_spared c abandon w Ht Ha Hs). }
  destruct (abandon w) as [[] w1]. cbn [snd] in *. rewrite run_gets.
  destruct (dnsbl_overdue t (the_client w1 c)) eqn:Hbl; cbn [when].
  - destruct (abandon_dnsbl t c (the_client w1 c) w1 H2 H1) as [H3 H4].
    match goal with |- caught_up_in t c ?w' => set (w2 := w') in * end. unfold caught_up_in, caught_up. unfold settled_in in H3.
    rewrite H3. unfold dnsbl_overdue. by rewrite H4.
  - unfold caught_up_in, caught_up. change ((mret tt : M unit) w1).2 with w1. unfold settled_in in H1. by rewrite H1, Hbl.
Qed.

Lemma overdue_schedule t cfg K K' : schedule K = schedule K' → overdue t cfg K = overdue t cfg K'.
Proof.
  unfold schedule. intros Hsch. injection Hsch as E1 E2 E3 E4 E5 E6 E7 E8 E9 E10 E11.
  unfold overdue, registration_overdue, nospoof_overdue. by rewrite E1, E2, E3, E4, E5.
Qed.
Lemma caught_up_schedule t cfg K K' : schedule K = schedule K' → caught_up t cfg K = caught_up t cfg K'.
Proof.
  intros Hsch. unfold caught_up, in_time. fold (overdue t cfg K) (overdue t cfg K'). rewrite (overdue_schedule t cfg K K' Hsch).
  unfold schedule in Hsch. injection Hsch as E1 E2 E3 E4 E5 E6 E7 E8 E9 E10 E11. unfold dns_overdue, dnsbl_overdue. by rewrite E6, E7, E8, E9.
Qed.

Lemma client_at_index w index : sound w → index < length (w_client_array w) → alive w (nth index (w_client_array w) 0).
Proof. intros Hs Hi. apply array_alive; [done|]. by apply list_elem_of_In, nth_In. Qed.

(** The round of a client that is disconnected. *)
Ltac farewell :=
  match goal with |- context [(?m1 ≫= λ _, (?m2 ≫= λ _, (server_disconnect ?c ?r ≫= λ _, ?k))) ?w] =>
    let Hs := fresh in let Hr := fresh in let v := fresh in let Hrun := fresh in
    destruct (farewell_removed m1 m2 c r w) as (v & Hs & Hr & Hrun);
    [solve [frames] | solve [frames] | done | done | rewrite !Hrun; exists v; split; [done | by left]]
  end.

Lemma expire_round t rounds more index w : sound w → index < length (w_client_array w) →
  let c := nth index (w_client_array w) 0 in
  ∃ w1, sound w1 ∧
    (overdue t (w_config w) (the_client w c) = true ∧ removed c w w1 ∧
       (expire_from (Datatypes.S rounds) index t w).2 = (expire_from rounds index t w1).2 ∧
       (expire_from (Datatypes.S more) index t w).2 = (expire_from more index t w1).2 ∨
     overdue t (w_config w) (the_client w c) = false ∧ spared c w w1 ∧ caught_up t (w_config w1) (the_client w1 c) = true ∧
       (expire_from (Datatypes.S rounds) index t w).2 = (expire_from rounds (index + 1) t w1).2 ∧
       (expire_from (Datatypes.S more) index t w).2 = (expire_from more (index + 1) t w1).2).
Proof.
  intros Hs Hi. pose proof (client_at_index w index Hs Hi) as Hc. cbn zeta. cbn [expire_from].
  unfold client_count, client_at, client, config. rewrite !run_gets, (proj2 (Nat.leb_gt _ _) Hi), !run_gets.
  revert Hc. generalize (nth index (w_client_array w) 0). intros c Hc. unfold overdue.
  destruct (registration_overdue _ _ _) eqn:Hreg; [|destruct (nospoof_overdue _ _ _) eqn:Hns]; cbn [orb].
  { farewell. }
  { farewell. }
  exists (expire_lookups c t w).2.
  destruct (tame_spared c (expire_lookups c t) w (expire_lookups_tame c t) (expire_lookups_apart c t) Hs) as [Hs1 Hsp].
  pose proof (expire_lookups_caught_up t c w Hs Hc) as Hok. unfold overdue in Hok. rewrite Hreg, Hns in Hok. specialize (Hok eq_refl).
  rewrite !run_bind. destruct (expire_lookups c t w) as [[] w1]. split; [done|]. by right.
Qed.

(** ** PING *)

Definition ping_missed (t : Z) (cfg : ServerConfig) (K : Client) : bool := cl_registered K && ping_overdue t K.
Definition attended (t : Z) (cfg : ServerConfig) (K : Client) : bool :=
  (ping_timeout_seconds cfg <=? 0)%Z || negb (ping_missed t cfg K).

Lemma ping_schedule t cfg K K' : schedule K = schedule K' → ping_missed t cfg K = ping_missed t cfg K'.
Proof.
  unfold schedule. intros Hsch. injection Hsch as E1 E2 E3 E4 E5 E6 E7 E8 E9 E10 E11.
  unfold ping_missed, ping_overdue. by rewrite E1, E10, E11.
Qed.
Lemma attended_schedule t cfg K K' : schedule K = schedule K' → attended t cfg K = attended t cfg K'.
Proof. intros Hsch. unfold attended. by rewrite (ping_schedule t cfg K K' Hsch). Qed.

Definition attended_in (t : Z) (c : ptr) (w : World) : Prop := attended t (w_config w) (the_client w c) = true.
Lemma attended_unasked t cfg K : cl_ping_pending K = false → attended t cfg K = true.
Proof. intros Hp. unfold attended, ping_missed, ping_overdue. rewrite Hp. cbn. by rewrite andb_false_r, orb_true_r. Qed.
Lemma attended_asked t cfg K : cl_ping_deadline K = (t + ping_timeout_seconds cfg)%Z → attended t cfg K = true.
Proof.
  intros Hd. unfold attended, ping_missed, ping_overdue. rewrite Hd. destruct (Z.leb_spec (ping_timeout_seconds cfg) 0); [done|].
  rewrite (proj2 (Z.leb_gt _ _)) by lia. by rewrite !andb_false_r.
Qed.

(** The PING that is sent is not overdue at once. *)
Lemma check_liveness_attended c t w :
  alive w c → cl_ping_pending (the_client w c) = false → attended_in t c (check_liveness c t w).2.
Proof.
  intros [K HK] Hno. assert (HcK : the_client w c = K) by (unfold the_client; by rewrite HK). rewrite HcK in Hno.
  unfold check_liveness, config, client. rewrite run_gets, run_upd_client, run_gets. case_match.
  - rewrite run_upd_client. apply (after_quiet _ _ (attended_in t c)); [frames|]. intros sent i.
    assert (Hasked : ∀ f, (∀ K', cl_ping_deadline (f K') = cl_ping_deadline K') → attended_in t c
      (put_client c f (set_w_io i (put_client c (λ K0, set_cl_ping_token (snprintf (IRCD_PING_TOKEN_MAX + 1) (dec (t + ping_timeout_seconds (w_config w))))
        (set_cl_ping_deadline (t + ping_timeout_seconds (w_config w)) K0)) (put_client c (λ K0, if (t <? cl_last_liveness_activity K0)%Z then set_cl_last_liveness_activity t K0 else K0) w))))).
    { intros f Hf. apply attended_asked. unfold the_client. simpl. rewrite !lookup_alter_eq, HK. simpl. by rewrite Hf. }
    destruct (0 <=? sent)%Z; [exact (Hasked (set_cl_ping_pending true) (λ _, eq_refl))|].
    unfold when. apply attended_asked. unfold the_client. simpl. by rewrite !lookup_alter_eq, HK.
  - apply attended_unasked. unfold the_client. simpl. rewrite lookup_alter_eq, HK. simpl. by case_match.
Qed.

Lemma maintain_round t rounds more index w : sound w → index < length (w_client_array w) →
  let c := nth index (w_client_array w) 0 in
  ∃ w1, sound w1 ∧
    (ping_missed t (w_config w) (the_client w c) = true ∧ removed c w w1 ∧
       (maintain_from (Datatypes.S rounds) index t w).2 = (maintain_from rounds index t w1).2 ∧
       (maintain_from (Datatypes.S more) index t w).2 = (maintain_from more index t w1).2 ∨
     ping_missed t (w_config w) (the_client w c) = false ∧ spared c w w1 ∧ attended t (w_config w1) (the_client w1 c) = true ∧
       (maintain_from (Datatypes.S rounds) index t w).2 = (maintain_from rounds (index + 1) t w1).2 ∧
       (maintain_from (Datatypes.S more) index t w).2 = (maintain_from more (index + 1) t w1).2).
Proof.
  intros Hs Hi. pose proof (client_at_index w index Hs Hi) as Hc. cbn zeta. cbn [maintain_from].
  unfold client_count, client_at, client, config. rewrite !run_gets, (proj2 (Nat.leb_gt _ _) Hi), !run_gets.
  revert Hc. generalize (nth index (w_client_array w) 0). intros c Hc. unfold ping_missed.
  destruct (cl_registered (the_client w c)) eqn:Hreg; cbn [negb andb].
  2:{ exists w. split; [done|]. right. split; [done|]. split; [by split|]. split; [|done].
      unfold attended, ping_missed. rewrite Hreg. cbn. by rewrite orb_true_r. }
  destruct (ping_overdue _ _) eqn:Hping; [cbv zeta; farewell|].
  set (check := when _ (check_liveness c t)). exists (check w).2. rewrite !run_bind.
  assert (Ht : does tame check) by (unfold check; pose proof (check_liveness_tame c t); frames).
  assert (Ha : does (apart c) check) by (unfold check; frames).
  destruct (tame_spared c check w Ht Ha Hs) as [Hs1 Hsp].
  assert (Hok : attended_in t c (check w).2).
  { unfold check. destruct (cl_ping_pending (the_client w c)) eqn:Hp; cbn [negb when]; [|by apply check_liveness_attended].
    unfold attended_in, attended, ping_missed. change ((mret tt : M unit) w).2 with w. rewrite Hping, andb_false_r. cbn. by rewrite orb_true_r. }
  destruct (check w) as [[] w1]. split; [done|]. by right.
Qed.

Lemma expire_done t rounds index w : length (w_client_array w) ≤ index → (expire_from rounds index t w).2 = w.
Proof.
  intros Hi. destruct rounds; [done|]. cbn [expire_from]. unfold client_count. by rewrite run_gets, (proj2 (Nat.leb_le _ _) Hi).
Qed.
Lemma maintain_done t rounds index w : length (w_client_array w) ≤ index → (maintain_from rounds index t w).2 = w.
Proof.
  intros Hi. destruct rounds; [done|]. cbn [maintain_from]. unfold client_count. by rewrite run_gets, (proj2 (Nat.leb_le _ _) Hi).
Qed.

Lemma caught_up_all t cfg K : caught_up t cfg K = true →
  registration_overdue cfg t K = false ∧ nospoof_overdue cfg t K = false ∧ dns_overdue t K = false ∧ dnsbl_overdue t K = false.
Proof.
  unfold caught_up, in_time. destruct (registration_overdue _ _ _), (nospoof_overdue _ _ _), (dns_overdue _ _), (dnsbl_overdue _ _); done.
Qed.

(** C3: maintenance ends exactly the connections that missed a deadline.
    After [expire_connection_lookups], the clients that are left are those that were
    registered or still within the registration timeout and had answered the no-spoof
    PING or were still within its deadline, and no deadline of theirs (of a DNS or DNSBL
    lookup either) is in the past; after [maintain_client_liveness] they are those that
    were not waiting for a PONG whose deadline had come.  The loops go by index over an
    array from which they remove clients as they go: nobody is skipped, and as many
    rounds as there are clients are enough. *)
Theorem maintenance_ends_overdue_connections w t cfg n :
  sound w → t = w_now w → cfg = w_config w → n = length (w_client_array w) →
  (let w' := (expire_connection_lookups w).2 in
   (∀ c, alive w' c ↔ alive w c ∧ overdue t cfg (the_client w c) = false) ∧
   (∀ c, alive w' c → let K := the_client w' c in
      registration_overdue cfg t K = false ∧ nospoof_overdue cfg t K = false ∧ dns_overdue t K = false ∧ dnsbl_overdue t K = false) ∧
   ∀ more, (expire_from (n + more) 0 t w).2 = w') ∧
  (let w' := (maintain_client_liveness w).2 in
   (∀ c, alive w' c ↔ alive w c ∧ ping_missed t cfg (the_client w c) = false) ∧
   (∀ c, alive w' c → (0 < ping_timeout_seconds cfg)%Z → ping_missed t cfg (the_client w' c) = false) ∧
   ∀ more, (maintain_from (n + more) 0 t w).2 = w').
Proof.
  cbv zeta. intros Hs -> -> ->. split.
  - unfold expire_connection_lookups, now, client_count. rewrite !run_gets.
    destruct (sweep (overdue (w_now w)) (caught_up (w_now w)) (overdue_schedule _) (caught_up_schedule _)
      (λ rounds index, λ w', (expire_from rounds index (w_now w) w').2) (expire_done _) (expire_round _) (length (w_client_array w)) 0 w Hs)
      as (H1 & H2 & H3 & H4); [lia | by intros d ?%elem_of_nil |].
    split_and!; [| |exact H4].
    + intros c. rewrite H2, take_0, elem_of_nil. tauto.
    + intros c Hc. apply caught_up_all. rewrite <-H1. by apply H3.
  - unfold maintain_client_liveness, now, client_count. rewrite !run_gets.
    destruct (sweep (ping_missed (w_now w)) (attended (w_now w)) (ping_schedule _) (attended_schedule _)
      (λ rounds index, λ w', (maintain_from rounds index (w_now w) w').2) (maintain_done _) (maintain_round _) (length (w_client_array w)) 0 w Hs)
      as (H1 & H2 & H3 & H4); [lia | by intros d ?%elem_of_nil |].
    split_and!; [| |exact H4].
    + intros c. rewrite H2, take_0, elem_of_nil. tauto.
    + intros c Hc Ht. specialize (H3 c Hc). unfold attended in H3. rewrite H1, (proj2 (Z.leb_gt _ _) Ht) in H3.
      by apply negb_true_iff in H3.
Qed.
End Deadlines.
