(* ===== verification/Examples.v ===== *)
(** * A small server, and the theorems on it

    Two registered clients, ann and bob, on a channel that ann created, reached from
    the start state by connecting, NICK and JOIN.  The instances of the theorems at
    this state show that their hypotheses hold of a server that runs. *)

From S2P Require Import Prelude CString Modes HashTable MaskMatch Output World Channel Invariant Policy Tags Numerics Ircv3 Presence Env Cloak Register Connection Services Registry RegistryProps Sound Flood JoinPart Oper Accounts NickServ ChanDb ChanServ Cap Message MessageProps Query QueryProps OperProps ChanCmds Mode ModeProps SaCmds Dispatch Loop SaProps Stability Disconnects NickServProps AccountProps CapProps ChanServProps Registrations Authority Soundness LoopSound LoopProps Deadlines.

#[local] Existing Instance quiet_env.
#[local] Existing Instance no_services.
#[local] Existing Instance no_recipients.

Definition connect (K : Client) (w : World) : World :=
  set_w_next_ptr (S (w_next_ptr w)) (set_w_clients (<[w_next_ptr w := K]> (w_clients w)) w).

Definition guest (id : N) (user : cstr) : Client :=
  set_cl_id id (set_cl_user user (set_cl_display_host (lit "host") (set_cl_registered true
    (set_cl_capabilities CLIENT_CAP_ACCOUNT_NOTIFY calloc_client)))).

Definition lobby : World := connect (guest 2 (lit "b")) (connect (guest 1 (lit "a")) boot).
Definition named : World :=
  (command_nick 1 (Some (lit "bob")) (command_nick 0 (Some (lit "ann")) lobby).2).2.
Definition town : World :=
  (join_one IRC_JOIN_REDIRECT_MAX 1 (Some (lit "#c")) None
    (join_one IRC_JOIN_REDIRECT_MAX 0 (Some (lit "#c")) None named).2).2.

(** A client of a closed state, found by evaluation. *)
Ltac live := match goal with |- is_Some ?t =>
  let v := eval vm_compute in t in match v with Some ?x => exists x; vm_compute; reflexivity end end.

Lemma lobby_wf : wf lobby.
Proof. apply new_client_wf; [done..|]. apply new_client_wf; [done..|]. exact (server_init_wf _ _ _ _ _ boot_init). Qed.

Lemma named_wf : wf named.
Proof.
  apply command_nick_wf; [|live]. apply command_nick_wf; [apply lobby_wf | live].
Qed.

Lemma town_wf : wf town.
Proof.
  apply join_one_outcome; [|live]. apply join_one_outcome; [apply named_wf | live].
Qed.

Lemma town_members : member_ids (the_channel town 2) = [1; 0].
Proof. vm_compute. reflexivity. Qed.

(** ** Instances *)

Lemma account_notify_once_witness :
  wf town ∧ cl_registered (the_client town 0) = true ∧ NoDup (peers town 0) ∧ peers town 0 = [1].
Proof.
  assert (Hr : cl_registered (the_client town 0) = true) by (vm_compute; reflexivity).
  destruct (account_notify_once town 0 town_wf Hr) as (_ & H & _).
  split; [exact town_wf|]. split; [exact Hr|]. split; [exact H | vm_compute; reflexivity].
Defined.

(** NICK to a nickname in use leaves everybody as they are. *)
Lemma command_nick_unique_witness :
  wf (command_nick 0 (Some (lit "BOB")) town).2 ∧ cl_nick (the_client (command_nick 0 (Some (lit "BOB")) town).2 0) = lit "ann".
Proof.
  assert (Hl : is_Some (w_clients town !! 0)) by live.
  destruct (command_nick_unique 0 (Some (lit "BOB")) town town_wf Hl) as [H _].
  split; [exact H | vm_compute; reflexivity].
Defined.

(** The first JOIN of a channel is admitted. *)
Lemma join_admission_policy_witness :
  wf (command_join 0 (Some (lit "#c")) named).2 ∧
  links (command_join 0 (Some (lit "#c")) named).2 !! 0 = Some [2] ∧ links named !! 0 = Some [].
Proof.
  assert (Hl : is_Some (w_clients named !! 0)) by live.
  destruct (join_admission_policy 0 (Some (lit "#c")) named named_wf Hl) as [H _].
  split; [exact H|]. split; vm_compute; reflexivity.
Defined.

(** A member of two PARTs, naming the channel in another case. *)
Lemma part_leaves_one_channel_witness :
  parting town 0 (Some (lit "#C :bye")) 2 ∧ ¬ member_of (command_part 0 (Some (lit "#C :bye")) town).2 0 2.
Proof.
  assert (Hp : parting town 0 (Some (lit "#C :bye")) 2).
  { split; [vm_compute; reflexivity|]. eexists _, _, _. split; [reflexivity|]. split; [vm_compute; reflexivity|].
    split; [vm_compute; reflexivity|]. split; [vm_compute; reflexivity|].
    exists (the_channel town 2). split; [vm_compute; reflexivity|]. rewrite town_members. set_solver. }
  split; [exact Hp|].
  destruct (part_leaves_one_channel 0 (Some (lit "#C :bye")) town town_wf)
    as [(ch & C & Hp' & _ & (_ & _ & H) & _)|[Hno _]]; [|exfalso; eauto].
  assert (ch = 2) as ->; [|rewrite H; tauto].
  destruct Hp as (_ & p1 & n1 & r1 & E1 & F1 & _ & G1 & _), Hp' as (_ & p2 & n2 & r2 & E2 & F2 & _ & G2 & _).
  congruence.
Defined.

(** The founder removes the other member. *)
Lemma kick_respects_rank_witness :
  ∃ C, kicking town 0 (Some (lit "#c bob :out")) 2 1 C ∧
    ¬ member_of (command_kick 0 (Some (lit "#c bob :out")) town).2 1 2.
Proof.
  exists (the_channel town 2).
  assert (Hp : kicking town 0 (Some (lit "#c bob :out")) 2 1 (the_channel town 2)).
  { split; [vm_compute; reflexivity|]. eexists _, _, _, _, _. split; [reflexivity|].
    do 6 (split; [vm_compute; reflexivity|]). eexists _, _. do 2 (split; [vm_compute; reflexivity|]).
    split; [vm_compute; lia|]. split; [intros _ H; vm_compute in H; discriminate|].
    intros _ _. vm_compute. lia. }
  split; [exact Hp|].
  destruct (kick_respects_rank 0 (Some (lit "#c bob :out")) town town_wf)
    as [(ch & t & C & Hp' & (_ & _ & H))|[Hno _]]; [|exfalso; eauto].
  assert (ch = 2 ∧ t = 1) as [-> ->]; [|rewrite H; tauto].
  destruct Hp as (_ & p1 & n1 & r1 & k1 & s1 & E1 & F1 & K1 & _ & G1 & L1 & _),
    Hp' as (_ & p2 & n2 & r2 & k2 & s2 & E2 & F2 & K2 & _ & G2 & L2 & _).
  split; congruence.
Defined.

(** A member sets the topic. *)
Lemma topic_change_safe_witness :
  wf town ∧ ch_topic (the_channel (command_topic 1 (Some (lit "#c :hello there")) town).2 2) = lit "hello there".
Proof.
  split; [exact town_wf|].
  destruct (topic_change_safe 1 (Some (lit "#c :hello there")) town town_wf) as [H|H]; vm_compute; reflexivity.
Defined.

(** The founder sets and clears modes of the channel; the other member changes nothing. *)
Lemma mode_channel_authority_witness :
  wf (command_mode 0 (Some (lit "#c +k-t secret")) town).2 ∧
  ch_key (the_channel (command_mode 0 (Some (lit "#c +k-t secret")) town).2 2) = lit "secret" ∧
  ch_key (the_channel (command_mode 1 (Some (lit "#c +k secret")) town).2 2) = [].
Proof.
  destruct (mode_channel_authority 0 (Some (lit "#c +k-t secret")) town town_wf) as [H _].
  split; [exact H|]. split; vm_compute; reflexivity.
Defined.

(** The same channel when ChanServ has locked +m on it. *)
Definition locked_town : World :=
  put_channel 2 (λ C, set_ch_modes (channel_mode_add (ch_modes C) CHANNEL_MODE_REGISTERED)
    (set_ch_chanserv_mode_lock CHANNEL_MODE_MODERATED (set_ch_chanserv_policy_valid true C))) town.

Lemma boolean_modes_applied_witness :
  ch_modes (the_channel (command_mode 0 (Some (lit "#c +mi-t")) town).2 2) =
    apply_booleans "+" (lit "+mi-t") (ch_modes (the_channel town 2)) ∧
  w_channels (command_mode 0 (Some (lit "#c +mi-t")) locked_town).2 = w_channels locked_town.
Proof.
  assert (∀ w, w = town ∨ w = locked_town → w_channels (command_mode 0 (Some (lit "#c +mi-t")) w).2 =
    if lock_permits (the_channel w 2) "+" (lit "+mi-t")
    then <[2 := set_ch_modes (apply_booleans "+" (lit "+mi-t") (ch_modes (the_channel w 2))) (the_channel w 2)]> (w_channels w)
    else w_channels w) as H.
  { intros w Hw. apply (boolean_modes_applied 0 (lit "#c +mi-t") (lit "#c") (lit "+mi-t") (lit "+mi-t") [] 2);
      destruct Hw as [-> | ->]; try (vm_compute; reflexivity).
    all: try (vm_compute; lia). all: try (left; vm_compute; reflexivity). all: repeat constructor. }
  split.
  - unfold the_channel at 1. rewrite H by (by left).
    assert (lock_permits (the_channel town 2) "+" (lit "+mi-t") = true) as -> by (vm_compute; reflexivity).
    by rewrite lookup_insert_eq.
  - rewrite H by (by right).
    assert (lock_permits (the_channel locked_town 2) "+" (lit "+mi-t") = false) as -> by (vm_compute; reflexivity). done.
Defined.

(** A user without privileges asks for every user mode at once. *)
Lemma user_modes_guarded_witness :
  let w' := (command_mode 1 (Some (lit "bob +oNgsHIWw")) town).2 in
  held oper_only_modes (the_client w' 1) = 0%N ∧ client_mode_has (cl_modes (the_client w' 1)) CLIENT_MODE_WALLOPS = true.
Proof.
  intros w'. split; [|vm_compute; reflexivity].
  destruct (user_modes_guarded 1 (lit "bob +oNgsHIWw") town) as (_ & _ & H).
  - vm_compute; lia.
  - intros Hn. apply has_char_elem in Hn. vm_compute in Hn. discriminate Hn.
  - unfold w'. rewrite H by (vm_compute; reflexivity). vm_compute. reflexivity.
Defined.


Lemma private_message_delivery_witness :
  user_request town 0 (lit "bob :hi") 1 (lit "hi") ∧
  io_log (w_io (command_privmsg 0 (Some (lit "bob :hi")) town).2) =
    io_log (w_io town) ++ [(1, lit ":ann!a@host PRIVMSG bob :hi")].
Proof.
  assert (Hr : user_request town 0 (lit "bob :hi") 1 (lit "hi")).
  { split; [vm_compute; reflexivity|]. split; [vm_compute; lia|]. eexists _, _, _.
    do 2 (split; [vm_compute; reflexivity|]). split; [discriminate|]. split; [reflexivity|].
    split; [apply has_char_false; reflexivity|]. do 4 (split; [vm_compute; reflexivity|]). vm_compute; reflexivity. }
  assert (Ht : tags_fit town 0) by (vm_compute; discriminate). split; [exact Hr|].
  destruct (private_message_delivery 0 (lit "bob :hi") town 1 (lit "hi") Ht Hr) as [[_ H]|[_ H]]; vm_compute; reflexivity.
Defined.


(** ann leaves; bob stays on the channel. *)
Lemma disconnect_leaves_no_trace_witness :
  wf (server_disconnect 0 (Some (lit "bye")) town).2 ∧
  is_Some (w_clients town !! 0) ∧
  map member_ids (map snd (map_to_list (w_channels (server_disconnect 0 (Some (lit "bye")) town).2))) = [[1]].
Proof.
  assert (Hl : is_Some (w_clients town !! 0)) by live. destruct Hl as [K HK].
  destruct (disconnect_leaves_no_trace 0 (Some (lit "bye")) town K town_wf HK) as (H & _).
  split; [exact H|]. split; [eauto | vm_compute; reflexivity].
Defined.

(** ann asks about bob, whose address nobody may know. *)
Lemma queries_keep_private_witness :
  let secret := λ _ : ptr, set_cl_real_ip (lit "10.0.0.9") calloc_client in
  let ask := command_whois 0 (Some (lit "bob")) in
  is_oper_client (the_client town 0) = false ∧
  cl_real_ip (the_client (with_private 0 secret town) 1) = lit "10.0.0.9" ∧
  w_io (ask (with_private 0 secret town)).2 = w_io (ask town).2.
Proof.
  assert (Ho : is_oper_client (the_client town 0) = false) by (vm_compute; reflexivity).
  split; [exact Ho|]. split; [vm_compute; reflexivity|].
  destruct (queries_keep_private 0 (Some (lit "bob")) town (λ _ : ptr, set_cl_real_ip (lit "10.0.0.9") calloc_client)
    (command_whois 0 (Some (lit "bob"))) Ho) as (_ & H & _); [do 6 constructor 2; constructor 1 | exact H].
Defined.

(** Addresses that are written in their canonical form. *)
#[refine] Definition plain_env : Env := {|
  hmac_sha256 := @hmac_sha256 quiet_env;
  inet_pton_v4 := Some;
  inet_pton_v6 := λ _, None;
  inet_ntop_v4 := λ a, if empty a then None else Some a;
  inet_ntop_v6 := λ _, None;
  RAND_bytes := λ _, None;
  motd_text := λ _, None;
  get_pchannels_cache := λ _, [];
  dnsbl_resolver_submit := λ _ _, true;
  dns_resolver_submit := λ _ _, true;
  eline_policy_match_server := λ _ _, false;
  registration_ban_handle := true;
  ban_db_match := λ _ _ _, NoBan;
  registration_exception_matches := λ _ _ _, false;
  strftime_local := λ _ _, [];
  strftime_utc := λ _ _, [];
  argon2id_verify := λ _ _, false;
  operator_db := λ _, None;
  EVP_DecodeBlock := λ _, None;
  geoip_lookup := λ _, no_geoip;
  geoban_db_match := λ _, None;
  nickserv_db_opens := λ _, false;
  sqlite_step := λ _ _, true;
  getrandom := λ _, None;
  argon2id_hash_encoded := λ _ _, None;
  SHA256 := λ s, s;
  mail_send_async := λ _ _ _ _ _, false |}.
Proof. all: intros [|x a] t; try done; by intros [= <-]. Defined.

(** A connection is admitted by the server that just started. *)
Lemma registry_invariant_witness :
  let w' := (@accept_one plain_env false (Some (lit "10.0.0.1")) true true [] [] boot).2 in
  @registry_ok plain_env w' ∧ @registry_ok plain_env boot ∧ w_client_array w' = [0] ∧
  hash_get (w_connection_counts_by_ip w') (lit "10.0.0.1") = Some 1.
Proof.
  assert (Hb : wf boot) by exact (server_init_wf _ _ _ _ _ boot_init).
  assert (Hr : @registry_ok plain_env boot) by exact (@server_init_registry plain_env _ _ _ _ _ boot_init).
  destruct (@registry_invariant plain_env no_services boot Hb Hr) as (H & _).
  destruct (H false (Some (lit "10.0.0.1")) true true [] []) as (_ & H' & _).
  split; [exact H'|]. split; [exact Hr|]. split; vm_compute; reflexivity.
Defined.

(** An operator database with one account, whose password everybody knows. *)
#[refine] Definition oper_env : Env := {|
  hmac_sha256 := @hmac_sha256 quiet_env;
  inet_pton_v4 := Some;
  inet_pton_v6 := λ _, None;
  inet_ntop_v4 := λ a, if empty a then None else Some a;
  inet_ntop_v6 := λ _, None;
  RAND_bytes := λ _, None;
  motd_text := λ _, None;
  get_pchannels_cache := λ _, [];
  dnsbl_resolver_submit := λ _ _, true;
  dns_resolver_submit := λ _ _, true;
  eline_policy_match_server := λ _ _, false;
  registration_ban_handle := true;
  ban_db_match := λ _ _ _, NoBan;
  registration_exception_matches := λ _ _ _, false;
  strftime_local := λ _ _, [];
  strftime_utc := λ _ _, [];
  argon2id_verify := λ hash password, bool_decide (hash = password);
  operator_db := λ _, Some (λ name,
    if strcaseeq name (lit "root") then Some (MkOperator (lit "root") (lit "pw") (lit "helpop,can_kill") [] true) else None);
  EVP_DecodeBlock := λ _, None;
  geoip_lookup := λ _, no_geoip;
  geoban_db_match := λ _, None;
  nickserv_db_opens := λ _, false;
  sqlite_step := λ _ _, true;
  getrandom := λ _, None;
  argon2id_hash_encoded := λ _ _, None;
  SHA256 := λ s, s;
  mail_send_async := λ _ _ _ _ _, false |}.
Proof. all: intros [|x a] t; try done; by intros [= <-]. Defined.

(** The right password makes ann an operator, a wrong one does not. *)
Lemma oper_grants_witness :
  let here := put_client 0 (set_cl_real_ip (lit "10.0.0.1")) town in
  let after p := (@command_oper oper_env 0 (Some p) here).2 in
  cl_oper_permissions (the_client (after (lit "root pw")) 0) = N.lor OPER_PERMISSION_KILL OPER_PERMISSION_HELPOP ∧
  is_oper_client (the_client (after (lit "root pw")) 0) = true ∧
  w_clients (after (lit "root pv")) = w_clients here.
Proof.
  intros here after.
  assert (Hr : cl_registered (the_client here 0) = true) by (vm_compute; reflexivity).
  assert (Hl : is_Some (w_clients here !! 0)) by live.
  destruct (@oper_grants_what_is_on_record oper_env 0 (lit "root pw") here Hr Hl) as [_ Hok].
  destruct (@oper_grants_what_is_on_record oper_env 0 (lit "root pv") here Hr Hl) as [_ Hno].
  assert (@oper_verdict oper_env 0 here (lit "root pw") = Some (lit "root", N.lor OPER_PERMISSION_KILL OPER_PERMISSION_HELPOP, [])) as Ev
    by (vm_compute; reflexivity).
  assert (@oper_verdict oper_env 0 here (lit "root pv") = None) as En by (vm_compute; reflexivity).
  rewrite Ev in Hok. rewrite En in Hno. destruct Hok as (H1 & H2 & _).
  split; [exact H1|]. split; [exact H2 | exact Hno].
Defined.

(** ann is no operator: she may not kill bob, and nobody kills a service. *)
Lemma operator_commands_guarded_witness :
  let serving := put_client 1 (set_cl_modes CLIENT_MODE_SERVICE) town in
  oper_permission_has (cl_oper_permissions (the_client town 0)) OPER_PERMISSION_KILL = false ∧
  refused 0 town (command_kill 0 (Some (lit "bob :bye"))) ∧
  client_mode_has (cl_modes (the_client serving 1)) CLIENT_MODE_SERVICE = true ∧
  refused 0 serving (kill_target 0 1 (lit "bye")).
Proof.
  intros serving.
  assert (Hp : oper_permission_has (cl_oper_permissions (the_client town 0)) OPER_PERMISSION_KILL = false) by (vm_compute; reflexivity).
  assert (Hs : client_mode_has (cl_modes (the_client serving 1)) CLIENT_MODE_SERVICE = true) by (vm_compute; reflexivity).
  split; [exact Hp|].
  split; [|split; [exact Hs|]].
  - destruct (operator_commands_guarded 0 town) as [H _].
    apply (H (Some (lit "bob :bye")) (λ K, oper_permission_has (cl_oper_permissions K) OPER_PERMISSION_KILL)); [|exact Hp].
    constructor 1.
  - destruct (operator_commands_guarded 0 serving) as [_ H]. apply (H 1 (lit "bye")). left. exact Hs.
Defined.

(** A client connects, and in the next turn a line of it is served. *)
Definition greeting : list TurnInput :=
  [MkTurn 1 1 false true [(false, [ACCEPTED (Some (lit "10.0.0.1")) true true [] []])] [] [] [];
   MkTurn 2 2 false true [] [] [] [MkEvent true false false HANDSHAKE_DONE (READ_BYTES (lit "PING :x" ++ [CR; LF]))]].

Lemma server_stays_sound_witness :
  let after := (@server_run plain_env no_services no_recipients no_handlers greeting None boot).2 in
  @sound plain_env after ∧ w_client_array after = [0] ∧ cl_inbuf (the_client after 0) = [].
Proof.
  intros after.
  destruct (@server_stays_sound plain_env no_services no_recipients no_handlers) as (H & _).
  assert (Hp : plenty boot) by (vm_compute; repeat constructor).
  split; [exact (H _ _ _ _ _ greeting None boot_init Hp)|]. split; vm_compute; reflexivity.
Defined.

(** The server after its first turn: somebody is connected. *)
Definition visited : World := (@server_run plain_env no_services no_recipients no_handlers (take 1 greeting) None boot).2.
Lemma visited_sound : @sound plain_env visited.
Proof.
  apply (@server_run_lasts plain_env no_services no_recipients no_handlers). split; [exact (server_init_wf _ _ _ _ _ boot_init)|].
  split; [exact (@server_init_registry plain_env _ _ _ _ _ boot_init) | vm_compute; repeat constructor].
Qed.

(** One line and a half arrive; the line is served, the half is kept. *)
Lemma input_lines_served_once_witness :
  let arrived := (@read_client 0 (READ_BYTES (lit "PING :x" ++ [CR; LF] ++ lit "NICK a")) visited).2 in
  let process := @process_buffered_lines plain_env no_services no_recipients no_handlers 0 512 in
  @sound plain_env arrived ∧ alive arrived 0 ∧
  process arrived = @process_reference plain_env no_services no_recipients no_handlers 0 512 arrived ∧
  input (process arrived).2 0 = lit "NICK a".
Proof.
  intros arrived process. assert (Hc : alive visited 0) by (unfold alive; live).
  destruct (@read_client_served plain_env 0 (READ_BYTES (lit "PING :x" ++ [CR; LF] ++ lit "NICK a")) visited visited_sound Hc) as [Hs Ha].
  split; [exact Hs|]. split; [exact Ha|]. split; [|vm_compute; reflexivity].
  destruct (@input_lines_served_once plain_env no_services no_recipients no_handlers) as (H & _). exact (H arrived 0 512 Hs Ha).
Defined.

(** Nobody registers; much later the connection is gone. *)
Lemma maintenance_ends_overdue_connections_witness :
  let late := set_w_now 1000000 visited in
  @sound plain_env late ∧ alive late 0 ∧ ¬ alive (@expire_connection_lookups plain_env no_services late).2 0.
Proof.
  intros late. assert (Hs : @sound plain_env late) by exact (tame_lasts _ (set_now_tame 1000000) visited visited_sound).
  split; [exact Hs|]. split; [unfold alive; live|].
  destruct (@maintenance_ends_overdue_connections plain_env no_services late _ _ _ Hs eq_refl eq_refl eq_refl) as ((H & _) & _).
  intros Ha. apply H in Ha as [_ Ha]. vm_compute in Ha. discriminate Ha.
Defined.

(** Accounts in a database that works: the password is its own hash, and SASL's text for
    "ann" and "pw" is the one in base 64. *)
#[refine] Definition account_env : Env := {|
  hmac_sha256 := @hmac_sha256 quiet_env;
  inet_pton_v4 := Some;
  inet_pton_v6 := λ _, None;
  inet_ntop_v4 := λ a, if empty a then None else Some a;
  inet_ntop_v6 := λ _, None;
  RAND_bytes := λ _, None;
  motd_text := λ _, None;
  get_pchannels_cache := λ _, [];
  dnsbl_resolver_submit := λ _ _, true;
  dns_resolver_submit := λ _ _, true;
  eline_policy_match_server := λ _ _, false;
  registration_ban_handle := true;
  ban_db_match := λ _ _ _, NoBan;
  registration_exception_matches := λ _ _ _, false;
  strftime_local := λ _ _, [];
  strftime_utc := λ _ _, [];
  argon2id_verify := λ hash password, bool_decide (hash = password);
  operator_db := λ _, None;
  EVP_DecodeBlock := λ s,
    if streq s (lit "AGFubgBwdw==") then Some (NUL :: lit "ann" ++ NUL :: lit "pw" ++ [NUL; NUL]) else None;
  geoip_lookup := λ _, no_geoip;
  geoban_db_match := λ _, None;
  nickserv_db_opens := λ _, true;
  sqlite_step := λ _ _, true;
  getrandom := λ _, None;
  argon2id_hash_encoded := λ _ _, None;
  SHA256 := λ s, s;
  mail_send_async := λ _ _ _ _ _, false |}.
Proof. all: intros [|x a] t; try done; by intros [= <-]. Defined.

Definition ann_account : NickServAccount :=
  MkAccount (lit "ann") (lit "pw") [] true [] false [] [] 0 [] 0 0 0 0.
Definition with_accounts (l : list NickServAccount) : World → World :=
  set_w_nickserv (MkNickServ l [] [] 0 0).

(** The second client speaks through the gateway that is configured. *)
Definition gateway_config : ServerConfig :=
  MkConfig "irc.test" "TestNet" 8 false 30 [] [] "dru" [] "admin@irc.test" 0 5 100 16 0 65536 90 90 []
    [MkGateway (lit "10.0.0.2") (lit "gate")] 60 10 86400 [] [] [] [] [] [] 10 60 100 20 [] [] 3600 3600 5 3600 5 3600 20.
Definition arrivals : list TurnInput :=
  [MkTurn 1 1 false true [(false, [ACCEPTED (Some (lit "10.0.0.1")) true true [] []; ACCEPTED (Some (lit "10.0.0.2")) true true [] []])] [] [] [];
   MkTurn 2 2 false true [] [] [] [MkEvent true false false HANDSHAKE_DONE (READ_BYTES (lit "NICK ann" ++ [CR; LF]));
     MkEvent true false false HANDSHAKE_DONE (READ_BYTES (lit "NICK bob" ++ [CR; LF]))]].
Definition gate_boot : World := set_w_config gateway_config boot.
Definition gate : World :=
  with_accounts [ann_account] (@server_run account_env no_services no_recipients no_handlers arrivals None gate_boot).2.
Lemma gate_sound : @sound account_env gate.
Proof.
  apply (tame_lasts (modify (with_accounts [ann_account]))); [apply tame_modify; intros w; by split_and!|].
  apply (@server_run_lasts account_env no_services no_recipients no_handlers).
  assert (server_init gateway_config 4 100 [] = Some gate_boot) as Hi by reflexivity.
  split; [exact (server_init_wf _ _ _ _ _ Hi)|].
  split; [exact (@server_init_registry account_env _ _ _ _ _ Hi) | vm_compute; repeat constructor].
Qed.

(** A token is stored and used; then it works no more. *)
Lemma tokens_work_once_witness :
  let w0 := boot in
  let w1 := (@run_op account_env (ADD ann_account) w0).2 in
  let w2 := (@run_op account_env (SET_RESET_TOKEN (lit "ann") (lit "h") 200) w1).2 in
  let op := CONSUME_RESET_TOKEN (lit "ANN") (lit "h") 150 (lit "new") in
  let w3 := (@run_op account_env op w2).2 in
  (∃ a, a ∈ accounts w2 ∧ strcaseeq (na_name a) (lit "ANN") = true) ∧
  map na_password_hash (accounts w3) = [lit "new"] ∧ (@run_op account_env op w3).1 = false.
Proof.
  intros w0 w1 w2 op w3. split; [|split; vm_compute; reflexivity].
  destruct (@tokens_work_once account_env RESET
    [(SET_RESET_TOKEN (lit "ann") (lit "h") 200%Z, true); (ADD ann_account, true)] op (lit "ANN") (lit "h") 150 w2)
    as (a & _ & _ & H1 & H2 & _).
  - apply (@history_step account_env [(ADD ann_account, true)] w1 (SET_RESET_TOKEN (lit "ann") (lit "h") 200%Z)).
    apply (@history_step account_env [] w0 (ADD ann_account)). exact (@history_start account_env).
  - vm_compute. auto.
  - vm_compute. reflexivity.
  - exists a. split; [exact H1 | exact H2].
Defined.

(** The password makes the second client ann's owner, a wrong one does not. *)
Lemma identify_gives_the_proven_account_witness :
  let identify p := @nickserv_identify account_env 1 (lit "ANN") p gate in
  NoDup (name_keys (accounts gate)) ∧ (identify (lit "pw")).1 = true ∧
  (∃ K', w_clients (identify (lit "pw")).2 !! 1 = Some K' ∧ cl_account_name K' = lit "ann") ∧
  w_clients (identify (lit "no")).2 = w_clients gate.
Proof.
  intros identify.
  assert (Hn : NoDup (name_keys (accounts gate))) by (apply (bool_decide_eq_true_1 _); vm_compute; reflexivity).
  split; [exact Hn|].
  pose proof (@identify_gives_the_proven_account account_env 1 (lit "ANN") (lit "pw") gate Hn) as Hy.
  pose proof (@identify_gives_the_proven_account account_env 1 (lit "ANN") (lit "no") gate Hn) as Hf.
  fold (identify (lit "pw")) in Hy. fold (identify (lit "no")) in Hf.
  assert (Ey : (identify (lit "pw")).1 = true) by (vm_compute; reflexivity).
  assert (Ef : (identify (lit "no")).1 = false) by (vm_compute; reflexivity).
  destruct (identify (lit "pw")) as [r w']. destruct (identify (lit "no")) as [r' w'']. cbn [fst] in Ey, Ef. subst r r'. cbn [snd].
  destruct Hy as ((Hp & _) & _ & _ & Hy). destruct Hf as (_ & _ & Hf & _).
  split; [reflexivity|]. split; [|exact (Hf eq_refl)].
  destruct (Hp eq_refl) as [a Ha]. destruct (Hy eq_refl a Ha) as [_ Hc].
  assert (Hl : is_Some (w_clients gate !! 1)) by live. destruct Hl as [K HK]. destruct (Hc K HK) as (K' & H1 & H2).
  exists K'. split; [exact H1|]. rewrite (carries_name _ _ _ H2).
  destruct (proves_row _ _ _ _ _ Ha) as [Hin _]. change (accounts gate) with [ann_account] in Hin.
  apply list_elem_of_singleton in Hin. rewrite Hin. reflexivity.
Defined.

(** The second client, as ann's owner, takes the nickname from the first. *)
Lemma recovery_belongs_to_the_owner_witness :
  let owner := put_client 1 (set_cl_account_name (lit "ann")) gate in
  let after := (@nickserv_recover account_env no_services 1 (Some (lit "ann")) false owner).2 in
  @sound account_env owner ∧ alive owner 1 ∧ @sound account_env after ∧ cl_nick (the_client after 0) = lit "Guest1".
Proof.
  intros owner after.
  assert (Hs : @sound account_env owner).
  { apply (tame_lasts (upd_client 1 (set_cl_account_name (lit "ann")))); [apply upd_client_tame; intros K; by split_and!|].
    exact gate_sound. }
  assert (Ha : alive owner 1) by (unfold alive; live).
  destruct (@recovery_belongs_to_the_owner account_env no_services 1 (Some (lit "ann")) false owner Hs Ha) as (H & _).
  split; [exact Hs|]. split; [exact Ha|]. split; [exact H | vm_compute; reflexivity].
Defined.

(** A request with an unknown word changes nothing; without it, it is granted. *)
Lemma capability_requests_are_atomic_witness :
  let ask r := cl_capabilities (the_client (@command_cap account_env 0 (Some r) gate).2 0) in
  (∃ K, w_clients gate !! 0 = Some K ∧ cl_capabilities K = 0%N) ∧
  (¬ acceptable 0 (lit "batch sas") → ask (lit "REQ :batch sas") = 0%N) ∧
  ask (lit "REQ :batch sas") = 0%N ∧ ask (lit "REQ :batch sasl -batch") = CLIENT_CAP_SASL.
Proof.
  intros ask. assert (Hl : is_Some (w_clients gate !! 0)) by live. destruct Hl as [K HK].
  assert (cl_capabilities K = 0%N) as Hc.
  { change (cl_capabilities (default calloc_client (Some K)) = 0%N). rewrite <- HK. vm_compute. reflexivity. }
  destruct (@capability_requests_are_atomic account_env 0 (lit "REQ :batch sas") gate K HK) as [H _].
  rewrite Hc in H. split; [exists K; exact (conj HK Hc)|].
  split; [exact (proj1 H)|]. split; vm_compute; reflexivity.
Defined.

(** The second client finishes an exchange with ann's password. *)
Lemma sasl_proves_the_account_witness :
  let ready := put_client 1 (λ K, set_cl_capabilities CLIENT_CAP_SASL (set_cl_sasl_state CLIENT_SASL_PLAIN_WAIT_DATA K)) gate in
  let after := (@command_authenticate account_env no_services 1 (Some (lit "AGFubgBwdw==")) ready).2 in
  (∃ K, w_clients ready !! 1 = Some K ∧ payload_ok K) ∧ NoDup (name_keys (accounts ready)) ∧
  (∃ K', w_clients after !! 1 = Some K' ∧ payload_ok K') ∧ cl_account_name (the_client after 1) = lit "ann".
Proof.
  intros ready after. assert (Hl : is_Some (w_clients ready !! 1)) by live. destruct Hl as [K HK].
  assert (Hn : NoDup (name_keys (accounts ready))) by (apply (bool_decide_eq_true_1 _); vm_compute; reflexivity).
  assert (cl_sasl_buffer K = [] ∧ cl_sasl_state K = CLIENT_SASL_PLAIN_WAIT_DATA) as [Hb Hst].
  { change K with (default calloc_client (Some K)). rewrite <- HK. split; vm_compute; reflexivity. }
  assert (Hp : payload_ok K) by (split; rewrite ?Hb; [simpl; lia | done]).
  destruct (@sasl_proves_the_account account_env no_services 1 (Some (lit "AGFubgBwdw==")) ready K HK Hn Hp)
    as (K' & H1 & _ & H2 & _).
  split; [exists K; exact (conj HK Hp)|]. split; [exact Hn|]. split; [exists K'; exact (conj H1 H2) | vm_compute; reflexivity].
Defined.

(** The gateway names the address it forwards; the first client may not. *)
Lemma webirc_trusts_gateways_only_witness :
  let line := lit "gate web host.example 10.9.9.9" in
  @sound account_env gate ∧ @sound account_env (@command_webirc account_env 1 (Some line) gate).2 ∧
  cl_real_ip (the_client (@command_webirc account_env 1 (Some line) gate).2 1) = lit "10.9.9.9" ∧
  (@command_webirc account_env 0 (Some line) gate).1 = COMMAND_DISCONNECT_CLIENT.
Proof.
  intros line. split; [exact gate_sound|].
  assert (Hl : is_Some (w_clients gate !! 1)) by live. destruct Hl as [K HK].
  pose proof (@webirc_trusts_gateways_only account_env 1 (Some line) K gate gate_sound HK) as H.
  split; [|split; vm_compute; reflexivity].
  destruct (@command_webirc account_env 1 (Some line) gate) as [r w']. exact (proj1 H).
Defined.

(** ann, a network administrator, registers the channel; her settings count, bob's do not. *)
Definition registered_town : World :=
  (command_chanserv 0 (Some (lit "REGISTER #c :ours")) (put_client 0 (λ K,
    set_cl_account_name (lit "ann") (set_cl_modes (client_mode_add (cl_modes K) CLIENT_MODE_NETADMIN) K)) town)).2.

